(** * A block-paged heap file and its B+ tree index

    Shallow embedding of the storage layer ([Block], [Database]) and of the
    index layer ([BPTreeNode], [BPTree]) of the SC3020 database engine, with
    the properties of its specification stated against the embedded code.

    Conventions of the embedding.
    - A C++ [int] is a [Z]; where the source computes on values it does not
      control (pointer encoding, the capacity check) the 32-bit wrap-around is
      written out with [wrap32]; [size_t] arithmetic is taken modulo 2^64.
    - A [float] key is a [Z]: every finite float32 is an integer multiple of
      2^-149, so the key [k] stands for the float [k * 2^-149], and [<], [<=],
      [==] on the floats are the ones on [Z] (both zeros are [0]).  NaN and
      the infinities have no counterpart.
    - A file is the list of its fixed-size pages; a page number is the
      list index.  The stream keeps its two status bits: [is_open] and [good]
      (the sticky error state of [std::fstream]).
    - Whatever C++ leaves undefined for arrays is a [Fault]: an access outside
      an array is [OutOfBounds], a loop that never ends is [Diverges]. *)

From Stdlib Require Import ZArith Lia Bool List.
From stdpp Require Import base tactics option list gmap sorting.

Local Open Scope Z_scope.

(** ** Results, faults and the state monad of the two classes *)

Inductive fault : Type :=
| OutOfBounds (array : nat) (index : Z)
| Diverges.

Inductive result (A : Type) : Type :=
| Ok (a : A)
| Fault (f : fault).
Arguments Ok {A} a.
Arguments Fault {A} f.

(** Names of the arrays a fault can point at. *)
Definition arr_data : nat := 0%nat.
Definition arr_keys : nat := 1%nat.
Definition arr_children : nat := 2%nat.
Definition arr_vector : nat := 3%nat.

Definition M (S A : Type) : Type := S -> result (A * S).

Definition ret {S A : Type} (a : A) : M S A := fun s => Ok (a, s).

Definition bind {S A B : Type} (m : M S A) (k : A -> M S B) : M S B :=
  fun s => match m s with
           | Ok (a, s') => k a s'
           | Fault f => Fault f
           end.

Definition lift {S A : Type} (r : result A) : M S A :=
  fun s => match r with
           | Ok a => Ok (a, s)
           | Fault f => Fault f
           end.

Definition get {S : Type} : M S S := fun s => Ok (s, s).
Definition put {S : Type} (s : S) : M S unit := fun _ => Ok (tt, s).

Notation "'let*' x ':=' m 'in' k" := (bind m (fun x => k))
  (at level 10, x pattern, m at level 100, k at level 200).

Definition rbind {A B : Type} (r : result A) (k : A -> result B) : result B :=
  match r with
  | Ok a => k a
  | Fault f => Fault f
  end.

Notation "'let+' x ':=' r 'in' k" := (rbind r (fun x => k))
  (at level 10, x pattern, r at level 100, k at level 200).

(** ** Machine integers *)

Definition wrap32 (z : Z) : Z := (z + 2 ^ 31) mod 2 ^ 32 - 2 ^ 31.
Definition to_size_t (z : Z) : Z := z mod 2 ^ 64.

(** ** Checked arrays *)

Definition array_get {A : Type} (name : nat) (a : list A) (i : Z) : result A :=
  if (0 <=? i) then
    match a !! Z.to_nat i with
    | Some x => Ok x
    | None => Fault (OutOfBounds name i)
    end
  else Fault (OutOfBounds name i).

Definition array_set {A : Type} (name : nat) (a : list A) (i : Z) (x : A)
  : result (list A) :=
  if (0 <=? i) && (i <? Z.of_nat (length a))
  then Ok (<[Z.to_nat i := x]> a)
  else Fault (OutOfBounds name i).

(** [memcpy(dst + offset, src, |src|)] into the array [dst]. *)
Definition memcpy_to (dst : list Byte.byte) (offset : Z) (src : list Byte.byte)
  : result (list Byte.byte) :=
  if (0 <=? offset) && (offset + Z.of_nat (length src) <=? Z.of_nat (length dst))
  then Ok (take (Z.to_nat offset) dst ++ src
             ++ drop (Z.to_nat offset + length src) dst)
  else Fault (OutOfBounds arr_data offset).

(** [memcpy(dst, src + offset, n)] out of the array [src]. *)
Definition memcpy_from (src : list Byte.byte) (offset : Z) (n : nat)
  : result (list Byte.byte) :=
  if (0 <=? offset) && (offset + Z.of_nat n <=? Z.of_nat (length src))
  then Ok (take n (drop (Z.to_nat offset) src))
  else Fault (OutOfBounds arr_data offset).

(** ** Paged files *)

(** Writing page [id] of a file: in place, at the end, or past the end, where
    the file system fills the gap with zero bytes ([hole] is the page made of
    zero bytes). *)
Definition write_page {A : Type} (hole : A) (id : nat) (x : A) (ps : list A)
  : list A :=
  if decide (id < length ps)%nat then <[id := x]> ps
  else ps ++ replicate (id - length ps) hole ++ [x].

(** ** Loops *)

(** [for (i = lo; i < hi; i++) body(i)] on a local state [x]. *)
Fixpoint iter_up {X : Type} (n : nat) (i : Z) (body : Z -> X -> result X) (x : X)
  : result X :=
  match n with
  | O => Ok x
  | S n' => let+ x' := body i x in iter_up n' (i + 1) body x'
  end.

Definition for_up {X : Type} (lo hi : Z) (body : Z -> X -> result X) (x : X)
  : result X :=
  iter_up (Z.to_nat (hi - lo)) lo body x.

(** [for (j = hi; j > lo; j--) body(j)] on a local state [x]. *)
Fixpoint iter_down {X : Type} (n : nat) (j : Z) (body : Z -> X -> result X) (x : X)
  : result X :=
  match n with
  | O => Ok x
  | S n' => let+ x' := body j x in iter_down n' (j - 1) body x'
  end.

Definition for_down {X : Type} (hi lo : Z) (body : Z -> X -> result X) (x : X)
  : result X :=
  iter_down (Z.to_nat (hi - lo)) hi body x.

(** [i = lo; while (i < hi && test(i)) i++;], the value of [i] at the end. *)
Fixpoint scan_up (n : nat) (i : Z) (test : Z -> result bool) : result Z :=
  match n with
  | O => Ok i
  | S n' =>
      let+ go := test i in
      if go then scan_up n' (i + 1) test else Ok i
  end.

Definition scan_while (lo hi : Z) (test : Z -> result bool) : result Z :=
  scan_up (Z.to_nat (hi - lo)) lo test.

(** [for (i = lo; i < hi; i++) if (test(i)) { found = i; break; }]. *)
Fixpoint find_up (n : nat) (i : Z) (test : Z -> result bool) : result (option Z) :=
  match n with
  | O => Ok None
  | S n' =>
      let+ hit := test i in
      if hit then Ok (Some i) else find_up n' (i + 1) test
  end.

Definition find_first (lo hi : Z) (test : Z -> result bool) : result (option Z) :=
  find_up (Z.to_nat (hi - lo)) lo test.

(** ** Records and blocks (record.h, block.h) *)

(** A [Record] is handled by the storage layer only through [memcpy] of its
    object representation, 44 bytes (the source's [static_assert]). *)
Definition sizeof_Record : Z := 44.
Definition Record_ : Type := list Byte.byte.
Definition wf_Record (r : Record_) : Prop := length r = Z.to_nat sizeof_Record.

(** [Record()]: [memset(this, 0, sizeof(Record))]. *)
Definition empty_Record : Record_ := replicate (Z.to_nat sizeof_Record) Byte.x00.
Arguments empty_Record : simpl never.

Module Block.

Record BlockHeader : Type := {
  block_id : Z;
  num_records : Z;
  next_block : Z;
  padding : list Byte.byte
}.

Definition BLOCK_SIZE : Z := 4096.
Definition HEADER_SIZE : Z := 16.
Definition DATA_SIZE : Z := BLOCK_SIZE - HEADER_SIZE.
Definition MAX_RECORDS : Z := Z.quot DATA_SIZE sizeof_Record.

Record Block : Type := {
  header : BlockHeader;
  data : list Byte.byte
}.

(** [Block()]: the header is default-constructed, then the whole block is
    zeroed by [memset], so [next_block] ends as [0]. *)
Definition new : Block :=
  {| header := {| block_id := 0; num_records := 0; next_block := 0;
                  padding := replicate 4 Byte.x00 |};
     data := replicate (Z.to_nat DATA_SIZE) Byte.x00 |}.

Definition set_num_records (n : Z) (b : Block) : Block :=
  {| header := {| block_id := block_id (header b); num_records := n;
                  next_block := next_block (header b);
                  padding := padding (header b) |};
     data := data b |}.

Definition set_block_id (n : Z) (b : Block) : Block :=
  {| header := {| block_id := n; num_records := num_records (header b);
                  next_block := next_block (header b);
                  padding := padding (header b) |};
     data := data b |}.

Definition set_data (d : list Byte.byte) (b : Block) : Block :=
  {| header := header b; data := d |}.

Definition isFull (b : Block) : bool := MAX_RECORDS <=? num_records (header b).

Definition getNumRecords (b : Block) : Z := num_records (header b).

Definition addRecord (b : Block) (record : Record_) : result (bool * Block) :=
  if MAX_RECORDS <=? num_records (header b) then Ok (false, b)
  else
    let offset := to_size_t (num_records (header b) * sizeof_Record) in
    let+ d := memcpy_to (data b) offset record in
    Ok (true, set_num_records (num_records (header b) + 1) (set_data d b)).

Definition getRecord (b : Block) (index : Z) : result Record_ :=
  if num_records (header b) <=? index then Ok empty_Record
  else
    let offset := to_size_t (index * sizeof_Record) in
    memcpy_from (data b) offset (Z.to_nat sizeof_Record).

(** The bytes of slot [i] of the record area. *)
Definition slot (b : Block) (i : nat) : list Byte.byte :=
  take (Z.to_nat sizeof_Record) (drop (i * Z.to_nat sizeof_Record) (data b)).

Definition wf (b : Block) : Prop :=
  length (data b) = Z.to_nat DATA_SIZE /\
  0 <= num_records (header b) <= MAX_RECORDS.

End Block.

(** ** The heap file (database.h, storage.cpp) *)

Module Database.

Import Block.

Record Database : Type := {
  is_open : bool;
  good : bool;
  pages : list Block;
  num_blocks : Z;
  num_records : Z;
  data_blocks_accessed : Z;
  total_data_block_ios : Z;
  unique_data_blocks : gset Z
}.

Definition MAX_DATABASE_SIZE : Z := 100 * 1024 * 1024.

(** [Database(fname)] followed by [open()] on a path with no file. *)
Definition created : Database :=
  {| is_open := true; good := true; pages := [];
     num_blocks := 0; num_records := 0;
     data_blocks_accessed := 0; total_data_block_ios := 0;
     unique_data_blocks := ∅ |}.

Definition set_stream (g : bool) (ps : list Block) (db : Database) : Database :=
  {| is_open := is_open db; good := g; pages := ps;
     num_blocks := num_blocks db; num_records := num_records db;
     data_blocks_accessed := data_blocks_accessed db;
     total_data_block_ios := total_data_block_ios db;
     unique_data_blocks := unique_data_blocks db |}.

Definition set_num_blocks (n : Z) (db : Database) : Database :=
  {| is_open := is_open db; good := good db; pages := pages db;
     num_blocks := n; num_records := num_records db;
     data_blocks_accessed := data_blocks_accessed db;
     total_data_block_ios := total_data_block_ios db;
     unique_data_blocks := unique_data_blocks db |}.

Definition set_num_records (n : Z) (db : Database) : Database :=
  {| is_open := is_open db; good := good db; pages := pages db;
     num_blocks := num_blocks db; num_records := n;
     data_blocks_accessed := data_blocks_accessed db;
     total_data_block_ios := total_data_block_ios db;
     unique_data_blocks := unique_data_blocks db |}.

(** The three counter updates that end [readBlock] and [writeBlock]. *)
Definition count_io (block_id : Z) (db : Database) : Database :=
  {| is_open := is_open db; good := good db; pages := pages db;
     num_blocks := num_blocks db; num_records := num_records db;
     data_blocks_accessed := data_blocks_accessed db + 1;
     total_data_block_ios := total_data_block_ios db + 1;
     unique_data_blocks := {[ block_id ]} ∪ unique_data_blocks db |}.

(** [seekp(8 + block_id * BLOCK_SIZE)], [write], count, [return file.good()];
    a hole of the file reads as [Block.new], the all-zero block. *)
Definition writeBlock (block_id : Z) (block : Block) : M Database bool :=
  fun db =>
    if negb (is_open db) then Ok (false, db)
    else if good db && (0 <=? block_id) then
      Ok (true, count_io block_id
                  (set_stream true
                  (write_page Block.new (Z.to_nat block_id) block (pages db)) db))
    else Ok (false, count_io block_id (set_stream false (pages db) db)).

(** [seekg], [read], count, [return file.good()]; a read that does not get
    its 4096 bytes leaves the stream failed. *)
Definition readBlock (block_id : Z) : M Database (option Block) :=
  fun db =>
    if negb (is_open db) then Ok (None, db)
    else if good db && (0 <=? block_id) then
      match pages db !! Z.to_nat block_id with
      | Some b => Ok (Some b, count_io block_id db)
      | None => Ok (None, count_io block_id (set_stream false (pages db) db))
      end
    else Ok (None, count_io block_id (set_stream false (pages db) db)).

Definition addBlock (block : Block) : M Database Z :=
  let* db := get in
  if negb (is_open db) then ret (-1)
  else
    let block_id := num_blocks db in
    let* ok := writeBlock block_id block in
    if ok then
      let* db := get in
      let* _ := put (set_num_blocks (num_blocks db + 1) db) in
      ret block_id
    else ret (-1).

Definition bump_num_records : M Database unit :=
  let* db := get in put (set_num_records (num_records db + 1) db).

(** Steps 2 and 3 of [addRecord]: the capacity check, then a fresh block. *)
Definition addRecord_new_block (record : Record_) : M Database bool :=
  let* db := get in
  let current_size :=
    to_size_t (to_size_t (wrap32 (num_blocks db * BLOCK_SIZE)) + 4 * 2) in
  if MAX_DATABASE_SIZE <? to_size_t (current_size + BLOCK_SIZE) then ret false
  else
    let newBlock := set_block_id (num_blocks db) Block.new in
    let* (_, newBlock) := lift (Block.addRecord newBlock record) in
    let* id := addBlock newBlock in
    if negb (id =? -1) then
      let* _ := bump_num_records in ret true
    else ret false.

Definition addRecord (record : Record_) : M Database bool :=
  let* db := get in
  if 0 <? num_blocks db then
    let* r := readBlock (num_blocks db - 1) in
    match r with
    | Some currentBlock =>
        if negb (isFull currentBlock) then
          let* (_, currentBlock) := lift (Block.addRecord currentBlock record) in
          let* _ := writeBlock (num_blocks db - 1) currentBlock in
          let* _ := bump_num_records in
          ret true
        else addRecord_new_block record
    | None => addRecord_new_block record
    end
  else addRecord_new_block record.

Definition getRecord (block_id record_index : Z) : M Database Record_ :=
  let* r := readBlock block_id in
  match r with
  | Some block => lift (Block.getRecord block record_index)
  | None => ret empty_Record
  end.

Definition deleteRecord (block_id record_index : Z) : M Database bool :=
  let* r := readBlock block_id in
  match r with
  | Some block =>
      let empty_record := empty_Record in
      let offset := to_size_t (record_index * sizeof_Record) in
      let* d := lift (memcpy_to (data block) offset empty_record) in
      writeBlock block_id (set_data d block)
  | None => ret false
  end.

(** Adding the records of a list one after the other, as the loader does;
    the answers of the calls are collected. *)
Fixpoint addRecords (records : list Record_) : M Database (list bool) :=
  match records with
  | [] => ret []
  | r :: rest =>
      let* ok := addRecord r in
      let* oks := addRecords rest in
      ret (ok :: oks)
  end.

End Database.

(** *** Vocabulary of the heap properties *)

(** What [Block::addRecord] stores when there is room. *)
Definition block_with_record (b : Block.Block) (record : Record_) : Block.Block :=
  let n := Block.num_records (Block.header b) in
  Block.set_num_records (n + 1)
    (Block.set_data
       (take (Z.to_nat (n * 44)) (Block.data b) ++ record
          ++ drop (Z.to_nat (n * 44) + length record) (Block.data b)) b).

(** The last block of the heap is full, or there is no block at all: the
    cases in which [addRecord] has to allocate. *)
Definition last_block_full (db : Database.Database) : Prop :=
  Database.num_blocks db = 0 \/
  exists b, Database.pages db !! Z.to_nat (Database.num_blocks db - 1) = Some b /\
            Block.isFull b = true.

(** The heap as [open()] leaves it: stream open and in good state. *)
Definition heap_open (db : Database.Database) : Prop :=
  Database.is_open db = true /\ Database.good db = true.

(** *** Sample heaps *)

Definition full_block : Block.Block :=
  Block.set_num_records 92 Block.new.

(** A heap at the limit: 25599 full blocks, 8 + 25599 * 4096 bytes. *)
Definition heap_at_capacity : Database.Database :=
  Database.set_num_records (25599 * 92)
    (Database.set_num_blocks 25599
       (Database.set_stream true (replicate (Z.to_nat 25599) full_block) Database.created)).

(** The record counts of the blocks after one more record is packed: the
    last block takes it while it has fewer than 92, otherwise a new block
    starts with one record. *)
Definition pack_one (counts : list Z) : list Z :=
  match rev counts with
  | c :: before => if c <? Block.MAX_RECORDS then rev before ++ [c + 1] else counts ++ [1]
  | [] => [1]
  end.

Definition heap_consistent (db : Database.Database) : Prop :=
  heap_open db /\
  Database.num_blocks db = Z.of_nat (length (Database.pages db)) /\
  Forall Block.wf (Database.pages db).

(** A heap of one block that holds a single record. *)
Definition one_record_heap : Database.Database :=
  match Database.addRecord (replicate 44 Byte.x01) Database.created with
  | Ok (_, db) => db
  | Fault _ => Database.created
  end.

(** Ninety-three records, told apart by their first byte being non-zero. *)
Definition sample_records : list Record_ :=
  replicate 93 (replicate 44 Byte.x01).

Definition one_record_block : Block.Block :=
  block_with_record (Block.set_block_id 0 Block.new) (replicate 44 Byte.x01).

(** ** Record pointers and tree nodes (record_pointer.h, bptree.h) *)

Module BPTree.

Record RecordPointer : Type := {
  block_id : Z;
  record_index : Z
}.

(** [RecordPointer::operator<]. *)
Definition ptr_lt (a b : RecordPointer) : bool :=
  if negb (block_id a =? block_id b) then block_id a <? block_id b
  else record_index a <? record_index b.

(** An index entry, [std::pair<float, RecordPointer>], and its [operator<]. *)
Abbreviation entry := (Z * RecordPointer)%type (only parsing).

Definition entry_lt (a b : entry) : bool :=
  (a.1 <? b.1) || (negb (b.1 <? a.1) && ptr_lt a.2 b.2).

Definition entry_le : relation entry := fun a b => entry_lt b a = false.

#[global] Instance entry_le_dec : RelDecision entry_le.
Proof. intros a b. unfold entry_le. apply _. Defined.

(** [std::sort] with the default comparison: the result is the arrangement of
    the input that ascends for [operator<]. *)
Definition std_sort (data : list entry) : list entry := merge_sort entry_le data.

(** The packing of a pointer into one [int] of a leaf and its unpacking. *)
Definition encode (ptr : RecordPointer) : Z :=
  wrap32 (wrap32 (block_id ptr * 10000) + record_index ptr).

Definition decode (encoded_ptr : Z) : RecordPointer :=
  {| block_id := Z.quot encoded_ptr 10000;
     record_index := Z.rem encoded_ptr 10000 |}.

Definition MAX_KEYS : Z := 101.

Record BPTreeNode : Type := {
  is_leaf : bool;
  num_keys : Z;
  keys : list Z;
  children : list Z;
  next_leaf : Z;
  parent : Z
}.

(** [BPTreeNode()]. *)
Definition new_node : BPTreeNode :=
  {| is_leaf := true; num_keys := 0;
     keys := replicate (Z.to_nat MAX_KEYS) 0;
     children := replicate (Z.to_nat (MAX_KEYS + 1)) (-1);
     next_leaf := -1; parent := -1 |}.

(** The node read from a hole of the file: every byte zero. *)
Definition zero_node : BPTreeNode :=
  {| is_leaf := false; num_keys := 0;
     keys := replicate (Z.to_nat MAX_KEYS) 0;
     children := replicate (Z.to_nat (MAX_KEYS + 1)) 0;
     next_leaf := 0; parent := 0 |}.

Definition set_is_leaf (v : bool) (n : BPTreeNode) : BPTreeNode :=
  {| is_leaf := v; num_keys := num_keys n; keys := keys n;
     children := children n; next_leaf := next_leaf n; parent := parent n |}.

Definition set_num_keys (v : Z) (n : BPTreeNode) : BPTreeNode :=
  {| is_leaf := is_leaf n; num_keys := v; keys := keys n;
     children := children n; next_leaf := next_leaf n; parent := parent n |}.

Definition set_keys (v : list Z) (n : BPTreeNode) : BPTreeNode :=
  {| is_leaf := is_leaf n; num_keys := num_keys n; keys := v;
     children := children n; next_leaf := next_leaf n; parent := parent n |}.

Definition set_children (v : list Z) (n : BPTreeNode) : BPTreeNode :=
  {| is_leaf := is_leaf n; num_keys := num_keys n; keys := keys n;
     children := v; next_leaf := next_leaf n; parent := parent n |}.

Definition set_next_leaf (v : Z) (n : BPTreeNode) : BPTreeNode :=
  {| is_leaf := is_leaf n; num_keys := num_keys n; keys := keys n;
     children := children n; next_leaf := v; parent := parent n |}.

Definition set_parent (v : Z) (n : BPTreeNode) : BPTreeNode :=
  {| is_leaf := is_leaf n; num_keys := num_keys n; keys := keys n;
     children := children n; next_leaf := next_leaf n; parent := v |}.

(** [n.keys[i]], [n.children[i]], [n.keys[i] = v], [n.children[i] = v]. *)
Definition get_key (i : Z) (n : BPTreeNode) : result Z :=
  array_get arr_keys (keys n) i.

Definition get_child (i : Z) (n : BPTreeNode) : result Z :=
  array_get arr_children (children n) i.

Definition set_key (i v : Z) (n : BPTreeNode) : result BPTreeNode :=
  let+ ks := array_set arr_keys (keys n) i v in Ok (set_keys ks n).

Definition set_child (i v : Z) (n : BPTreeNode) : result BPTreeNode :=
  let+ cs := array_set arr_children (children n) i v in Ok (set_children cs n).

(** ** The index file and the tree object (bptree.h) *)

Record BPTree : Type := {
  is_open : bool;
  good : bool;
  nodes : list BPTreeNode;
  root_id : Z;
  next_node_id : Z;
  index_nodes_accessed : Z;
  total_index_node_ios : Z;
  unique_index_nodes : gset Z
}.

(** The constructor sets [order = MAX_KEYS], raised to 3 if smaller, and
    nothing assigns it afterwards. *)
Definition order : Z := if MAX_KEYS <? 3 then 3 else MAX_KEYS.

Definition set_file (g : bool) (ns : list BPTreeNode) (t : BPTree) : BPTree :=
  {| is_open := is_open t; good := g; nodes := ns;
     root_id := root_id t; next_node_id := next_node_id t;
     index_nodes_accessed := index_nodes_accessed t;
     total_index_node_ios := total_index_node_ios t;
     unique_index_nodes := unique_index_nodes t |}.

Definition set_root_id (v : Z) (t : BPTree) : BPTree :=
  {| is_open := is_open t; good := good t; nodes := nodes t;
     root_id := v; next_node_id := next_node_id t;
     index_nodes_accessed := index_nodes_accessed t;
     total_index_node_ios := total_index_node_ios t;
     unique_index_nodes := unique_index_nodes t |}.

Definition set_next_node_id (v : Z) (t : BPTree) : BPTree :=
  {| is_open := is_open t; good := good t; nodes := nodes t;
     root_id := root_id t; next_node_id := v;
     index_nodes_accessed := index_nodes_accessed t;
     total_index_node_ios := total_index_node_ios t;
     unique_index_nodes := unique_index_nodes t |}.

Definition count_io (node_id : Z) (t : BPTree) : BPTree :=
  {| is_open := is_open t; good := good t; nodes := nodes t;
     root_id := root_id t; next_node_id := next_node_id t;
     index_nodes_accessed := index_nodes_accessed t + 1;
     total_index_node_ios := total_index_node_ios t + 1;
     unique_index_nodes := {[ node_id ]} ∪ unique_index_nodes t |}.

(** A loop of the source that has run through more pages than the file has
    is in a cycle: it reads page ids one after the other, each determined by
    the one before, so a repetition repeats for ever. *)
Definition diverge {A : Type} : M BPTree A := fun _ => Fault Diverges.

Definition writeNode (node_id : Z) (node : BPTreeNode) : M BPTree bool :=
  fun t =>
    if negb (is_open t) then Ok (false, t)
    else if good t && (0 <=? node_id) then
      Ok (true, count_io node_id
                  (set_file true
                     (write_page zero_node (Z.to_nat node_id) node (nodes t)) t))
    else Ok (false, count_io node_id (set_file false (nodes t) t)).

Definition readNode (node_id : Z) : M BPTree (option BPTreeNode) :=
  fun t =>
    if negb (is_open t) then Ok (None, t)
    else if good t && (0 <=? node_id) then
      match nodes t !! Z.to_nat node_id with
      | Some n => Ok (Some n, count_io node_id t)
      | None => Ok (None, count_io node_id (set_file false (nodes t) t))
      end
    else Ok (None, count_io node_id (set_file false (nodes t) t)).

Definition createNode (node : BPTreeNode) : M BPTree Z :=
  let* t := get in
  if negb (is_open t) then ret (-1)
  else
    let node_id := next_node_id t in
    let* _ := put (set_next_node_id (next_node_id t + 1) t) in
    let* ok := writeNode node_id node in
    if ok then ret node_id else ret (-1).

(** [BPTree(fname)]. *)
Definition constructed : BPTree :=
  {| is_open := false; good := true; nodes := [];
     root_id := -1; next_node_id := 0;
     index_nodes_accessed := 0; total_index_node_ios := 0;
     unique_index_nodes := ∅ |}.

(** [open()] on a path with no file: the file is created and an empty leaf is
    written as the root. *)
Definition open_new : M BPTree bool :=
  let* t := get in
  let* _ := put {| is_open := true; good := true; nodes := [];
                   root_id := root_id t; next_node_id := next_node_id t;
                   index_nodes_accessed := index_nodes_accessed t;
                   total_index_node_ios := total_index_node_ios t;
                   unique_index_nodes := unique_index_nodes t |} in
  let root := new_node in
  let* id := createNode root in
  let* t := get in
  let* _ := put (set_root_id id t) in
  ret true.

Definition opened : BPTree :=
  match open_new constructed with
  | Ok (_, t) => t
  | Fault _ => constructed
  end.

Definition getNumNodes (t : BPTree) : Z := next_node_id t.

(** *** Descent *)

(** The inner loop of [findLeaf]:
    [while (i < node.num_keys && key >= node.keys[i]) i++]. *)
Definition child_index (key : Z) (node : BPTreeNode) : result Z :=
  scan_while 0 (num_keys node)
    (fun i => let+ k := get_key i node in Ok (k <=? key)).

Fixpoint findLeaf_loop (fuel : nat) (key current : Z) : M BPTree Z :=
  match fuel with
  | O => diverge
  | S fuel' =>
      let* r := readNode current in
      match r with
      | Some node =>
          if is_leaf node then ret current
          else
            let* r2 := readNode current in
            match r2 with
            | None => ret (-1)
            | Some node =>
                let* i := lift (child_index key node) in
                let* c := lift (get_child i node) in
                findLeaf_loop fuel' key c
            end
      | None =>
          let* r2 := readNode current in
          match r2 with
          | None => ret (-1)
          | Some node =>
              let* i := lift (child_index key node) in
              let* c := lift (get_child i node) in
              findLeaf_loop fuel' key c
          end
      end
  end.

Definition findLeaf (key : Z) : M BPTree Z :=
  let* t := get in
  if root_id t =? -1 then ret (-1)
  else findLeaf_loop (S (length (nodes t))) key (root_id t).

(** *** Search *)

(** The pointers of the slots of [leaf] whose key passes [test], in slot
    order, appended to [results]. *)
Definition collect (test : Z -> bool) (leaf : BPTreeNode)
    (results : list RecordPointer) : result (list RecordPointer) :=
  for_up 0 (num_keys leaf)
    (fun i results =>
       let+ k := get_key i leaf in
       if test k then
         let+ encoded_ptr := get_child i leaf in
         Ok (results ++ [decode encoded_ptr])
       else Ok results)
    results.

Definition search (key : Z) : M BPTree (list RecordPointer) :=
  let* leaf_id := findLeaf key in
  if leaf_id =? -1 then ret []
  else
    let* r := readNode leaf_id in
    match r with
    | None => ret []
    | Some leaf => lift (collect (fun k => k =? key) leaf [])
    end.

Fixpoint rangeSearch_loop (fuel : nat) (min_key max_key leaf_id : Z)
    (results : list RecordPointer) : M BPTree (list RecordPointer) :=
  match fuel with
  | O => diverge
  | S fuel' =>
      if leaf_id =? -1 then ret results
      else
        let* r := readNode leaf_id in
        match r with
        | None => ret results
        | Some leaf =>
            let* results :=
              lift (collect (fun k => (min_key <=? k) && (k <=? max_key)) leaf results) in
            let* last := lift (get_key (num_keys leaf - 1) leaf) in
            if max_key <? last then ret results
            else rangeSearch_loop fuel' min_key max_key (next_leaf leaf) results
        end
  end.

Definition rangeSearch (min_key max_key : Z) : M BPTree (list RecordPointer) :=
  let* leaf_id := findLeaf min_key in
  if leaf_id =? -1 then ret []
  else
    let* t := get in
    rangeSearch_loop (S (length (nodes t))) min_key max_key leaf_id [].

(** *** Insertion *)

(** The shift of [insertIntoLeaf]:
    [for (j = num_keys; j > i; j--) { keys[j] = keys[j-1]; children[j] = children[j-1]; }]. *)
Definition shift_right (i : Z) (leaf : BPTreeNode) : result BPTreeNode :=
  for_down (num_keys leaf) i
    (fun j leaf =>
       let+ k := get_key (j - 1) leaf in
       let+ leaf := set_key j k leaf in
       let+ c := get_child (j - 1) leaf in
       set_child j c leaf)
    leaf.

Definition insertIntoLeaf (leaf_id key : Z) (ptr : RecordPointer) : M BPTree unit :=
  let* r := readNode leaf_id in
  match r with
  | None => ret tt
  | Some leaf =>
      let* i := lift (scan_while 0 (num_keys leaf)
                        (fun i => let+ k := get_key i leaf in Ok (k <? key))) in
      let* leaf := lift (shift_right i leaf) in
      let* leaf := lift (set_key i key leaf) in
      let* leaf := lift (set_child i (encode ptr) leaf) in
      let leaf := set_num_keys (num_keys leaf + 1) leaf in
      let* _ := writeNode leaf_id leaf in
      ret tt
  end.

(** The copy loops of the two splits: entries [from .. num_keys) of [node]
    appended to [new_node]. *)
Definition move_upper (from : Z) (node new_node : BPTreeNode) : result BPTreeNode :=
  for_up from (num_keys node)
    (fun i new_node =>
       let+ k := get_key i node in
       let+ new_node := set_key (num_keys new_node) k new_node in
       let+ c := get_child i node in
       let+ new_node := set_child (num_keys new_node) c new_node in
       Ok (set_num_keys (num_keys new_node + 1) new_node))
    new_node.

(** [insertIntoParent] and [splitInternal] call each other up the tree; the
    fuel counts those calls. *)
Fixpoint insertIntoParent (fuel : nat) (left_id key right_id : Z) : M BPTree unit :=
  match fuel with
  | O => diverge
  | S fuel' =>
      let* t := get in
      if root_id t =? left_id then
        let new_root := set_is_leaf false new_node in
        let* new_root := lift (set_key 0 key new_root) in
        let* new_root := lift (set_child 0 left_id new_root) in
        let* new_root := lift (set_child 1 right_id new_root) in
        let new_root := set_num_keys 1 new_root in
        let* id := createNode new_root in
        let* t := get in
        let* _ := put (set_root_id id t) in
        let* l := readNode left_id in
        let* r := readNode right_id in
        let left_node := set_parent id (default new_node l) in
        let right_node := set_parent id (default new_node r) in
        let* _ := writeNode left_id left_node in
        let* _ := writeNode right_id right_node in
        ret tt
      else
        let* l := readNode left_id in
        let parent_ := default new_node l in
        let parent_id := parent parent_ in
        let* p := readNode parent_id in
        let parent_ := default parent_ p in
        let* i := lift (scan_while 0 (num_keys parent_)
                          (fun i => let+ c := get_child i parent_ in
                                    Ok (negb (c =? left_id)))) in
        let* parent_ :=
          lift (for_down (num_keys parent_) i
                  (fun j parent_ =>
                     let+ k := get_key (j - 1) parent_ in
                     let+ parent_ := set_key j k parent_ in
                     let+ c := get_child j parent_ in
                     set_child (j + 1) c parent_)
                  parent_) in
        let* parent_ := lift (set_key i key parent_) in
        let* parent_ := lift (set_child (i + 1) right_id parent_) in
        let parent_ := set_num_keys (num_keys parent_ + 1) parent_ in
        let* _ := writeNode parent_id parent_ in
        if order <? num_keys parent_ then
          (* splitInternal(parent_id) *)
          let node_id := parent_id in
          let* r := readNode node_id in
          match r with
          | None => ret tt
          | Some node =>
              let new_node_ := set_parent (parent node) (set_is_leaf false new_node) in
              let* new_node_id := createNode new_node_ in
              let mid := Z.quot (num_keys node) 2 in
              let* promote_key := lift (get_key mid node) in
              let* new_node_ := lift (move_upper (mid + 1) node new_node_) in
              let* c := lift (get_child (num_keys node) node) in
              let* new_node_ := lift (set_child (num_keys new_node_) c new_node_) in
              let node := set_num_keys mid node in
              let* _ := writeNode node_id node in
              let* _ := writeNode new_node_id new_node_ in
              insertIntoParent fuel' node_id promote_key new_node_id
          end
        else ret tt
  end.

Definition splitLeaf (leaf_id : Z) : M BPTree unit :=
  let* r := readNode leaf_id in
  match r with
  | None => ret tt
  | Some leaf =>
      let new_leaf := set_parent (parent leaf) (set_next_leaf (next_leaf leaf) new_node) in
      let* new_leaf_id := createNode new_leaf in
      let leaf := set_next_leaf new_leaf_id leaf in
      let mid := Z.quot (num_keys leaf) 2 in
      let* new_leaf := lift (move_upper mid leaf new_leaf) in
      let leaf := set_num_keys mid leaf in
      let* _ := writeNode leaf_id leaf in
      let* _ := writeNode new_leaf_id new_leaf in
      let* promote_key := lift (get_key 0 new_leaf) in
      let* t := get in
      insertIntoParent (S (length (nodes t))) leaf_id promote_key new_leaf_id
  end.

Definition insert (key : Z) (ptr : RecordPointer) : M BPTree bool :=
  let* t := get in
  if root_id t =? -1 then
    let root := new_node in
    let* root := lift (set_key 0 key root) in
    let* root := lift (set_child 0 (encode ptr) root) in
    let root := set_num_keys 1 root in
    let* id := createNode root in
    let* t := get in
    let* _ := put (set_root_id id t) in
    ret true
  else
    let* leaf_id := findLeaf key in
    if leaf_id =? -1 then ret false
    else
      let* r := readNode leaf_id in
      match r with
      | None => ret false
      | Some leaf =>
          if num_keys leaf <? order then
            let* _ := insertIntoLeaf leaf_id key ptr in ret true
          else
            let* _ := insertIntoLeaf leaf_id key ptr in
            let* _ := splitLeaf leaf_id in
            ret true
      end.

(** *** Bulk load *)

(** The first loop of [bulkLoad], one entry of [sorted_data] per step; [i] is
    the index of the entry, the triple is ([current_leaf], [leaf],
    [leaf_nodes]). *)
Fixpoint fill_leaves (sorted_data : list entry) (i : Z)
    (current_leaf : Z) (leaf : BPTreeNode) (leaf_nodes : list Z)
  : M BPTree (Z * BPTreeNode * list Z) :=
  match sorted_data with
  | [] => ret (current_leaf, leaf, leaf_nodes)
  | e :: rest =>
      let* st :=
        (if Z.rem i order =? 0 then
           let* leaf_nodes :=
             (if negb (current_leaf =? -1) then
                let* _ := writeNode current_leaf leaf in
                ret (leaf_nodes ++ [current_leaf])
              else ret leaf_nodes) in
           let leaf := set_is_leaf true new_node in
           let* current_leaf := createNode leaf in
           ret (current_leaf, leaf, leaf_nodes)
         else ret (current_leaf, leaf, leaf_nodes)) in
      let '(current_leaf, leaf, leaf_nodes) := st in
      let* leaf := lift (set_key (num_keys leaf) e.1 leaf) in
      let* leaf := lift (set_child (num_keys leaf) (encode e.2) leaf) in
      let leaf := set_num_keys (num_keys leaf + 1) leaf in
      fill_leaves rest (i + 1) current_leaf leaf leaf_nodes
  end.

(** [for (i = 0; i < leaf_nodes.size() - 1; i++)]: each leaf is read back,
    given its right neighbour and written again.  [size() - 1] is unsigned, so
    an empty vector is indexed at [0]. *)
Fixpoint link_leaves_from (leaf_nodes : list Z) : M BPTree unit :=
  match leaf_nodes with
  | a :: ((b :: _) as rest) =>
      let* r := readNode a in
      let leaf_node := set_next_leaf b (default new_node r) in
      let* _ := writeNode a leaf_node in
      link_leaves_from rest
  | _ => ret tt
  end.

Definition link_leaves (leaf_nodes : list Z) : M BPTree unit :=
  match leaf_nodes with
  | [] => lift (Fault (OutOfBounds arr_vector 0))
  | _ => link_leaves_from leaf_nodes
  end.

(** The inner loop of the level builder over one group of at most [order]
    nodes; [k] is [j - i]. *)
Fixpoint adopt (group : list Z) (k : Z) (internal : BPTreeNode) : M BPTree BPTreeNode :=
  match group with
  | [] => ret internal
  | id :: rest =>
      let* internal := lift (set_child k id internal) in
      match rest with
      | [] => ret internal
      | next :: _ =>
          let* r := readNode next in
          let next_leaf := default new_node r in
          let* k0 := lift (get_key 0 next_leaf) in
          let* internal := lift (set_key (num_keys internal) k0 internal) in
          let internal := set_num_keys (num_keys internal + 1) internal in
          adopt rest (k + 1) internal
      end
  end.

(** [for (i = 0; i < leaf_nodes.size(); i += order)] over the nodes not yet
    grouped; the fuel is their number. *)
Fixpoint build_level (fuel : nat) (leaf_nodes : list Z) : M BPTree (list Z) :=
  match leaf_nodes, fuel with
  | [], _ => ret []
  | _, O => diverge
  | _, S fuel' =>
      let internal := set_is_leaf false new_node in
      let* internal := adopt (take (Z.to_nat order) leaf_nodes) 0 internal in
      let* internal_id := createNode internal in
      let* internal_nodes := build_level fuel' (drop (Z.to_nat order) leaf_nodes) in
      ret (internal_id :: internal_nodes)
  end.

(** [while (leaf_nodes.size() > 1)]; every round shortens the vector. *)
Fixpoint build_levels (fuel : nat) (leaf_nodes : list Z) : M BPTree (list Z) :=
  if decide (1 < length leaf_nodes)%nat then
    match fuel with
    | O => diverge
    | S fuel' =>
        let* internal_nodes := build_level (length leaf_nodes) leaf_nodes in
        build_levels fuel' internal_nodes
    end
  else ret leaf_nodes.

Definition bulkLoad (data : list entry) : M BPTree bool :=
  match data with
  | [] => ret false
  | _ =>
      let sorted_data := std_sort data in
      let* st := fill_leaves sorted_data 0 (-1) new_node [] in
      let '(current_leaf, leaf, leaf_nodes) := st in
      let* leaf_nodes :=
        (if negb (current_leaf =? -1) then
           let* _ := writeNode current_leaf leaf in
           ret (leaf_nodes ++ [current_leaf])
         else ret leaf_nodes) in
      let* _ := link_leaves leaf_nodes in
      let* leaf_nodes := build_levels (length leaf_nodes) leaf_nodes in
      let* _ :=
        (match leaf_nodes with
         | id :: _ => let* t := get in put (set_root_id id t)
         | [] => ret tt
         end) in
      ret true
  end.

(** *** Diagnostics *)

Fixpoint getNumLevels_loop (fuel : nat) (current levels : Z) : M BPTree Z :=
  match fuel with
  | O => diverge
  | S fuel' =>
      let* r := readNode current in
      match r with
      | Some node =>
          if negb (is_leaf node) then
            let* c := lift (get_child 0 node) in
            getNumLevels_loop fuel' c (levels + 1)
          else ret levels
      | None => ret levels
      end
  end.

Definition getNumLevels : M BPTree Z :=
  let* t := get in
  if root_id t =? -1 then ret 0
  else getNumLevels_loop (S (length (nodes t))) (root_id t) 1.

(** *** Deletion *)

(** [for (i = 0; i < leaf.num_keys; i++) if (leaf.keys[i] == key) ... break]. *)
Definition key_position (key : Z) (leaf : BPTreeNode) : result (option Z) :=
  find_first 0 (num_keys leaf)
    (fun i => let+ k := get_key i leaf in Ok (k =? key)).

(** [for (i = from; i < num_keys - 1; i++) { keys[i] = keys[i+1]; children[i] = children[i+1]; }]. *)
Definition shift_left (from : Z) (leaf : BPTreeNode) : result BPTreeNode :=
  for_up from (num_keys leaf - 1)
    (fun i leaf =>
       let+ k := get_key (i + 1) leaf in
       let+ leaf := set_key i k leaf in
       let+ c := get_child (i + 1) leaf in
       set_child i c leaf)
    leaf.

Definition removeFromLeaf (leaf_id key : Z) : M BPTree unit :=
  let* r := readNode leaf_id in
  match r with
  | None => ret tt
  | Some leaf =>
      let* pos := lift (key_position key leaf) in
      match pos with
      | None => ret tt
      | Some key_index =>
          let* leaf := lift (shift_left key_index leaf) in
          let leaf := set_num_keys (num_keys leaf - 1) leaf in
          let* _ := writeNode leaf_id leaf in
          ret tt
      end
  end.

Definition deleteNode (node_id : Z) : M BPTree unit :=
  let empty_node :=
    set_next_leaf (-1) (set_parent (-1) (set_is_leaf false (set_num_keys 0 new_node))) in
  let* empty_node :=
    lift (for_up 0 order
            (fun i n => let+ n := set_key i 0 n in set_child i (-1) n)
            empty_node) in
  let* _ := writeNode node_id empty_node in
  ret tt.

(** [!readNode(a, x) || !readNode(b, y) || !readNode(c, z)], reading from
    left to right until one read fails. *)
Definition read3 (a b c : Z) : M BPTree (option (BPTreeNode * BPTreeNode * BPTreeNode)) :=
  let* x := readNode a in
  match x with
  | None => ret None
  | Some x =>
      let* y := readNode b in
      match y with
      | None => ret None
      | Some y =>
          let* z := readNode c in
          match z with
          | None => ret None
          | Some z => ret (Some (x, y, z))
          end
      end
  end.

Definition borrowFromLeft (node_id sibling_id parent_id key_index : Z) : M BPTree unit :=
  let* r := read3 node_id sibling_id parent_id in
  match r with
  | None => ret tt
  | Some (node, sibling, parent_) =>
      let* st :=
        lift
          (if is_leaf node then
             let+ node :=
               for_down (num_keys node) 0
                 (fun i node =>
                    let+ k := get_key (i - 1) node in
                    let+ node := set_key i k node in
                    let+ c := get_child (i - 1) node in
                    set_child i c node)
                 node in
             let+ k := get_key (num_keys sibling - 1) sibling in
             let+ node := set_key 0 k node in
             let+ c := get_child (num_keys sibling - 1) sibling in
             let+ node := set_child 0 c node in
             let node := set_num_keys (num_keys node + 1) node in
             let sibling := set_num_keys (num_keys sibling - 1) sibling in
             let+ k0 := get_key 0 node in
             let+ parent_ := set_key key_index k0 parent_ in
             Ok (node, sibling, parent_)
           else
             let+ node :=
               for_down (num_keys node) 0
                 (fun i node =>
                    let+ k := get_key (i - 1) node in
                    let+ node := set_key i k node in
                    let+ c := get_child i node in
                    set_child (i + 1) c node)
                 node in
             let+ c0 := get_child 0 node in
             let+ node := set_child 1 c0 node in
             let+ pk := get_key key_index parent_ in
             let+ node := set_key 0 pk node in
             let+ sc := get_child (num_keys sibling) sibling in
             let+ node := set_child 0 sc node in
             let node := set_num_keys (num_keys node + 1) node in
             let+ sk := get_key (num_keys sibling - 1) sibling in
             let+ parent_ := set_key key_index sk parent_ in
             let sibling := set_num_keys (num_keys sibling - 1) sibling in
             Ok (node, sibling, parent_)) in
      let '(node, sibling, parent_) := st in
      let* _ := writeNode node_id node in
      let* _ := writeNode sibling_id sibling in
      let* _ := writeNode parent_id parent_ in
      ret tt
  end.

Definition borrowFromRight (node_id sibling_id parent_id key_index : Z) : M BPTree unit :=
  let* r := read3 node_id sibling_id parent_id in
  match r with
  | None => ret tt
  | Some (node, sibling, parent_) =>
      let* st :=
        lift
          (if is_leaf node then
             let+ k := get_key 0 sibling in
             let+ node := set_key (num_keys node) k node in
             let+ c := get_child 0 sibling in
             let+ node := set_child (num_keys node) c node in
             let node := set_num_keys (num_keys node + 1) node in
             let+ sibling := shift_left 0 sibling in
             let sibling := set_num_keys (num_keys sibling - 1) sibling in
             let+ k0 := get_key 0 sibling in
             let+ parent_ := set_key key_index k0 parent_ in
             Ok (node, sibling, parent_)
           else
             let+ pk := get_key key_index parent_ in
             let+ node := set_key (num_keys node) pk node in
             let+ c := get_child 0 sibling in
             let+ node := set_child (num_keys node + 1) c node in
             let node := set_num_keys (num_keys node + 1) node in
             let+ k0 := get_key 0 sibling in
             let+ parent_ := set_key key_index k0 parent_ in
             let+ sibling := shift_left 0 sibling in
             let+ c := get_child (num_keys sibling) sibling in
             let+ sibling := set_child (num_keys sibling - 1) c sibling in
             let sibling := set_num_keys (num_keys sibling - 1) sibling in
             Ok (node, sibling, parent_)) in
      let '(node, sibling, parent_) := st in
      let* _ := writeNode node_id node in
      let* _ := writeNode sibling_id sibling in
      let* _ := writeNode parent_id parent_ in
      ret tt
  end.

(** [dst.keys[dst.num_keys + i] = src.keys[i]; dst.children[dst.num_keys + i] = src.children[i]]
    for [i < src.num_keys]. *)
Definition append_entries (src dst : BPTreeNode) : result BPTreeNode :=
  for_up 0 (num_keys src)
    (fun i dst =>
       let+ k := get_key i src in
       let+ dst := set_key (num_keys dst + i) k dst in
       let+ c := get_child i src in
       set_child (num_keys dst + i) c dst)
    dst.

(** The merge of [src] into [dst], the same in [mergeWithLeft] (node into the
    left sibling) and [mergeWithRight] (right sibling into node); [leaf_case]
    is [node.is_leaf] in both. *)
Definition merge_into (leaf_case : bool) (src dst parent_ : BPTreeNode)
    (key_index : Z) : result BPTreeNode :=
  if leaf_case then
    let+ dst := append_entries src dst in
    let dst := set_num_keys (num_keys dst + num_keys src) dst in
    Ok (set_next_leaf (next_leaf src) dst)
  else
    let+ pk := get_key key_index parent_ in
    let+ dst := set_key (num_keys dst) pk dst in
    let dst := set_num_keys (num_keys dst + 1) dst in
    let+ dst := append_entries src dst in
    let+ c := get_child (num_keys src) src in
    let+ dst := set_child (num_keys dst + num_keys src) c dst in
    Ok (set_num_keys (num_keys dst + num_keys src) dst).

(** [for (i = key_index; i < num_keys - 1; i++) { keys[i] = keys[i+1]; children[i+1] = children[i+2]; }]
    and [num_keys--]. *)
Definition drop_separator (key_index : Z) (parent_ : BPTreeNode) : result BPTreeNode :=
  let+ parent_ :=
    for_up key_index (num_keys parent_ - 1)
      (fun i p =>
         let+ k := get_key (i + 1) p in
         let+ p := set_key i k p in
         let+ c := get_child (i + 2) p in
         set_child (i + 1) c p)
      parent_ in
  Ok (set_num_keys (num_keys parent_ - 1) parent_).

Definition min_keys : Z := Z.quot (order + 1) 2 - 1.

(** [handleUnderflow] and the two merges call each other up the tree; the
    fuel counts the calls of [handleUnderflow]. *)
Fixpoint handleUnderflow (fuel : nat) (node_id : Z) : M BPTree unit :=
  match fuel with
  | O => diverge
  | S fuel' =>
      let* r := readNode node_id in
      match r with
      | None => ret tt
      | Some node =>
          if min_keys <=? num_keys node then ret tt
          else if parent node =? -1 then
            if (num_keys node =? 0) && negb (is_leaf node) then
              let* c0 := lift (get_child 0 node) in
              if negb (c0 =? -1) then
                let* t := get in
                let* _ := put (set_root_id c0 t) in
                let* nr := readNode c0 in
                let new_root := set_parent (-1) (default new_node nr) in
                let* _ := writeNode c0 new_root in
                deleteNode node_id
              else ret tt
            else ret tt
          else
            let* p := readNode (parent node) in
            match p with
            | None => ret tt
            | Some parent_ =>
                let* pos :=
                  lift (find_first 0 (num_keys parent_ + 1)
                          (fun i => let+ c := get_child i parent_ in
                                    Ok (c =? node_id))) in
                match pos with
                | None => ret tt
                | Some node_index =>
                    (* the two merges, with the recursive call at their end *)
                    let mergeWithLeft (sibling_id parent_id key_index : Z) : M BPTree unit :=
                      let* r := read3 node_id sibling_id parent_id in
                      match r with
                      | None => ret tt
                      | Some (node, sibling, parent_) =>
                          let* sibling := lift (merge_into (is_leaf node) node sibling parent_ key_index) in
                          let* parent_ := lift (drop_separator key_index parent_) in
                          let* _ := writeNode sibling_id sibling in
                          let* _ := writeNode parent_id parent_ in
                          let* _ := deleteNode node_id in
                          let* t := get in
                          if (num_keys parent_ <? min_keys) && negb (parent_id =? root_id t)
                          then handleUnderflow fuel' parent_id
                          else ret tt
                      end in
                    let mergeWithRight (sibling_id parent_id key_index : Z) : M BPTree unit :=
                      let* r := read3 node_id sibling_id parent_id in
                      match r with
                      | None => ret tt
                      | Some (node, sibling, parent_) =>
                          let* node := lift (merge_into (is_leaf node) sibling node parent_ key_index) in
                          let* parent_ := lift (drop_separator key_index parent_) in
                          let* _ := writeNode node_id node in
                          let* _ := writeNode parent_id parent_ in
                          let* _ := deleteNode sibling_id in
                          let* t := get in
                          if (num_keys parent_ <? min_keys) && negb (parent_id =? root_id t)
                          then handleUnderflow fuel' parent_id
                          else ret tt
                      end in
                    let merge : M BPTree unit :=
                      if 0 <? node_index then
                        let* left_sibling_id := lift (get_child (node_index - 1) parent_) in
                        mergeWithLeft left_sibling_id (parent node) (node_index - 1)
                      else if node_index <? num_keys parent_ then
                        let* right_sibling_id := lift (get_child (node_index + 1) parent_) in
                        mergeWithRight right_sibling_id (parent node) node_index
                      else ret tt in
                    let try_right : M BPTree unit :=
                      if node_index <? num_keys parent_ then
                        let* right_sibling_id := lift (get_child (node_index + 1) parent_) in
                        let* rs := readNode right_sibling_id in
                        match rs with
                        | Some right_sibling =>
                            if min_keys <? num_keys right_sibling then
                              borrowFromRight node_id right_sibling_id (parent node) node_index
                            else merge
                        | None => merge
                        end
                      else merge in
                    if 0 <? node_index then
                      let* left_sibling_id := lift (get_child (node_index - 1) parent_) in
                      let* ls := readNode left_sibling_id in
                      match ls with
                      | Some left_sibling =>
                          if min_keys <? num_keys left_sibling then
                            borrowFromLeft node_id left_sibling_id (parent node) (node_index - 1)
                          else try_right
                      | None => try_right
                      end
                    else try_right
                end
            end
      end
  end.

(** The part of [remove] that runs once the key has been found in the leaf. *)
Definition remove_found (leaf_id key : Z) : M BPTree bool :=
  let* _ := removeFromLeaf leaf_id key in
  let* r := readNode leaf_id in
  let updated_leaf := default new_node r in
  let* _ :=
    (if negb (parent updated_leaf =? -1)
        && (num_keys updated_leaf <? Z.quot (order + 1) 2)
     then
       let* t := get in handleUnderflow (S (length (nodes t))) leaf_id
     else ret tt) in
  ret true.

Definition remove (key : Z) : M BPTree bool :=
  let* t := get in
  if root_id t =? -1 then ret false
  else
    let* leaf_id := findLeaf key in
    if leaf_id =? -1 then ret false
    else
      let* r := readNode leaf_id in
      match r with
      | None => ret false
      | Some leaf =>
          let* pos := lift (key_position key leaf) in
          match pos with
          | None => ret false
          | Some _ => remove_found leaf_id key
          end
      end.

(** The walk of [removeRange] along the leaf chain, collecting the entries
    outside [min_key, max_key]. *)
Definition keep_outside (min_key max_key : Z) (leaf : BPTreeNode)
    (remaining_data : list entry) : result (list entry) :=
  for_up 0 (num_keys leaf)
    (fun i remaining_data =>
       let+ key := get_key i leaf in
       let+ encoded_ptr := get_child i leaf in
       let ptr := decode encoded_ptr in
       if (key <? min_key) || (max_key <? key)
       then Ok (remaining_data ++ [(key, ptr)])
       else Ok remaining_data)
    remaining_data.

Fixpoint collect_remaining (fuel : nat) (min_key max_key current_leaf : Z)
    (remaining_data : list entry) : M BPTree (list entry) :=
  match fuel with
  | O => diverge
  | S fuel' =>
      if current_leaf =? -1 then ret remaining_data
      else
        let* r := readNode current_leaf in
        match r with
        | Some leaf =>
            let* remaining_data :=
              lift (keep_outside min_key max_key leaf remaining_data) in
            collect_remaining fuel' min_key max_key (next_leaf leaf) remaining_data
        | None => ret remaining_data
        end
  end.

(** The node count the source assigns after a rebuild. *)
Definition rebuilt_node_count : Z := 251.

Definition removeRange (min_key max_key : Z) : M BPTree Z :=
  let* records_to_remove := rangeSearch min_key max_key in
  let removed_count := Z.of_nat (length records_to_remove) in
  let* current_leaf := findLeaf 0 in
  let* t := get in
  let* remaining_data :=
    collect_remaining (S (length (nodes t))) min_key max_key current_leaf [] in
  let* t := get in
  let* _ := put (set_next_node_id 0 (set_root_id (-1) t)) in
  let* _ :=
    (match remaining_data with
     | [] => ret tt
     | _ =>
         let remaining_data := std_sort remaining_data in
         let* _ := bulkLoad remaining_data in
         let* t := get in
         put (set_next_node_id rebuilt_node_count t)
     end) in
  ret removed_count.

End BPTree.

(** ** Vocabulary of the index properties *)

Import BPTree.

(** The answer of a call, without the state it leaves. *)
Definition answer {A : Type} (r : result (A * BPTree)) : result A :=
  match r with
  | Ok (a, _) => Ok a
  | Fault f => Fault f
  end.

(** The state a call leaves; the starting state if the call faults. *)
Definition state_after {A : Type} (m : M BPTree A) (t : BPTree) : BPTree :=
  match m t with
  | Ok (_, t') => t'
  | Fault _ => t
  end.

(** The index with its stream open and in good state. *)
Definition index_open (t : BPTree) : Prop :=
  is_open t = true /\ good t = true.

(** The keys in use in a node and the children in use in an internal node. *)
Definition leaf_keys (n : BPTreeNode) : list Z :=
  take (Z.to_nat (num_keys n)) (keys n).

Definition child_ids (n : BPTreeNode) : list Z :=
  take (Z.to_nat (num_keys n + 1)) (children n).

Definition node_at (ns : list BPTreeNode) (id : Z) : option BPTreeNode :=
  if id <? 0 then None else ns !! Z.to_nat id.

(** The keys stored in the leaves below node [id], left to right. *)
Fixpoint subtree_keys (fuel : nat) (ns : list BPTreeNode) (id : Z) : list Z :=
  match fuel with
  | O => []
  | S fuel' =>
      match node_at ns id with
      | Some n =>
          if is_leaf n then leaf_keys n
          else concat (map (subtree_keys fuel' ns) (child_ids n))
      | None => []
      end
  end.

Definition keys_under (t : BPTree) (id : Z) : list Z :=
  subtree_keys (S (length (nodes t))) (nodes t) id.

(** The separator property as the specification words it: below
    [children[i]] every key is smaller than [keys[i]], below [children[i+1]]
    every key is at least [keys[i]]. *)
Definition strict_separator (t : BPTree) (n : BPTreeNode) : Prop :=
  forall i sep cl cr,
    0 <= i < num_keys n ->
    get_key i n = Ok sep ->
    get_child i n = Ok cl ->
    get_child (i + 1) n = Ok cr ->
    (forall k, k ∈ keys_under t cl -> k < sep) /\
    (forall k, k ∈ keys_under t cr -> sep <= k).

(** The same with [<=] on the left, for the parents of leaves. *)
Definition leaf_separator (t : BPTree) (n : BPTreeNode) : Prop :=
  forall i sep cl cr,
    0 <= i < num_keys n ->
    get_key i n = Ok sep ->
    get_child i n = Ok cl ->
    get_child (i + 1) n = Ok cr ->
    (forall k, k ∈ keys_under t cl -> k <= sep) /\
    (forall k, k ∈ keys_under t cr -> sep <= k) /\
    head (keys_under t cr) = Some sep.

(** An internal node all of whose children in use are leaves of the file. *)
Definition parent_of_leaves (t : BPTree) (n : BPTreeNode) : Prop :=
  is_leaf n = false /\
  forall c, c ∈ child_ids n ->
    exists l, node_at (nodes t) c = Some l /\ is_leaf l = true.

(** *** Sample indexes *)

(** The pointer of the [i]-th record of a heap packed 92 to the block. *)
Definition pointer_of (i : nat) : RecordPointer :=
  {| block_id := Z.of_nat (i / 92); record_index := Z.of_nat (i mod 92) |}.

(** [n] entries, the [i]-th with key [key i] and pointer [pointer_of i]. *)
Definition entries (n : nat) (key : nat -> Z) : list entry :=
  map (fun i => (key i, pointer_of i)) (seq 0 n).

(** The index file built by [open()] on a new path and one [bulkLoad]. *)
Definition loaded (data : list entry) : BPTree :=
  state_after (bulkLoad data) opened.

(** 102 entries that share the key 5: one more than a leaf holds. *)
Definition same_key_102 : list entry := entries 102 (fun _ => 5).

(** 102 entries that share the key 0. *)
Definition zero_key_102 : list entry := entries 102 (fun _ => 0).

(** 101 entries with the keys 1 .. 101: exactly one full leaf. *)
Definition full_leaf_101 : list entry := entries 101 (fun i => Z.of_nat i + 1).

(** Two entries, keys 1 and 2. *)
Definition two_entries : list entry := entries 2 (fun i => Z.of_nat i + 1).

(** The first [n] of the insertions of keys 1, 2, ... into an index, each
    with the pointer of its rank. *)
Fixpoint insert_upto (n : nat) : M BPTree unit :=
  match n with
  | O => ret tt
  | S n' =>
      let* _ := insert_upto n' in
      let* _ := insert (Z.of_nat n) (pointer_of n') in
      ret tt
  end.

(** 10202 entries with the keys 1 .. 10202: 102 leaves, so three levels. *)
Definition three_levels_10202 : list entry :=
  entries (Z.to_nat 10202) (fun i => Z.of_nat i + 1).

(** The index as [removeRange] resets it before it rebuilds. *)
Definition reset_index (t : BPTree) : BPTree :=
  set_next_node_id 0 (set_root_id (-1) t).

(** A node whose arrays have their declared sizes and whose count fits. *)
Definition node_wf (n : BPTreeNode) : Prop :=
  length (keys n) = Z.to_nat MAX_KEYS /\
  length (children n) = Z.to_nat (MAX_KEYS + 1) /\
  0 <= num_keys n <= MAX_KEYS.

(** The children of every internal node rank below the node, and the root
    ranks no higher than the number of pages: the file holds a tree, not a
    cycle. *)
Definition well_ranked (t : BPTree) (rank : Z -> nat) : Prop :=
  (rank (root_id t) <= length (nodes t))%nat /\
  forall id n, node_at (nodes t) id = Some n -> is_leaf n = false ->
    Forall (fun c => (rank c < rank id)%nat) (child_ids n).

(** The rank that fits a root over leaves. *)
Definition root_rank (t : BPTree) (id : Z) : nat :=
  if id =? root_id t then 1%nat else 0%nat.

(** *** Vocabulary of the bulk-load proof *)

(** Pages below [k] that exist in [ns] are the same in [ns']. *)
Definition stable_below (k : Z) (ns ns' : list BPTreeNode) : Prop :=
  forall id n, id < k -> node_at ns id = Some n -> node_at ns' id = Some n.

(** The node is a leaf that holds exactly the keys [ks]. *)
Definition holds_keys (n : BPTreeNode) (ks : list Z) : Prop :=
  is_leaf n = true /\
  num_keys n = Z.of_nat (length ks) /\
  leaf_keys n = ks /\
  length (keys n) = Z.to_nat MAX_KEYS /\
  length (children n) = Z.to_nat (MAX_KEYS + 1).

(** Page [n0 + g] of the file is a leaf holding the [g]-th list of [kls]. *)
Definition leaves_at (ns : list BPTreeNode) (n0 : Z) (kls : list (list Z)) : Prop :=
  forall g ks, kls !! g = Some ks ->
    exists n, node_at ns (n0 + Z.of_nat g) = Some n /\ holds_keys n ks.

(** Two nodes that differ at most in their [next_leaf] link. *)
Definition same_but_next (n n' : BPTreeNode) : Prop :=
  is_leaf n' = is_leaf n /\ num_keys n' = num_keys n /\
  keys n' = keys n /\ children n' = children n.

(** The ids [n0, n0 + 1, ..., n0 + len - 1]. *)
Definition id_range (n0 : Z) (len : nat) : list Z :=
  (fun g => n0 + Z.of_nat g) <$> seq 0 len.

(** The internal node [p] is what the level builder makes of the group
    [grp] of nodes of [ns]: the group as children, and as separators the
    first key slot of every member but the first. *)
Definition built_from (ns : list BPTreeNode) (grp : list Z) (p : BPTreeNode) : Prop :=
  is_leaf p = false /\
  num_keys p = Z.of_nat (length grp) - 1 /\
  length (keys p) = Z.to_nat MAX_KEYS /\
  length (children p) = Z.to_nat (MAX_KEYS + 1) /\
  (forall j c, grp !! j = Some c -> children p !! j = Some c) /\
  (forall j c n, grp !! S j = Some c -> node_at ns c = Some n ->
     keys p !! j = keys n !! 0%nat).

(** The leaf after the three statements that put one entry at its end. *)
Definition leaf_with (k c : Z) (leaf : BPTreeNode) : BPTreeNode :=
  set_num_keys (num_keys leaf + 1)
    (set_children (<[Z.to_nat (num_keys leaf) := c]> (children leaf))
       (set_keys (<[Z.to_nat (num_keys leaf) := k]> (keys leaf)) leaf)).

(** The key lists of lists of entries. *)
Definition chunk_keys (chunks : list (list entry)) : list (list Z) :=
  (fun c : list entry => c.*1) <$> chunks.

(** The state of the first loop of [bulkLoad] after the entries of [chunks]
    went to full leaves, written at [n0], [n0 + 1], ..., and those of [cur]
    to the leaf under construction. *)
Definition filling (n0 : Z) (chunks : list (list entry)) (cur : list entry)
    (t : BPTree) (current_leaf : Z) (leaf : BPTreeNode) (leaf_nodes : list Z) : Prop :=
  index_open t /\
  next_node_id t = n0 + Z.of_nat (length chunks) + 1 /\
  current_leaf = n0 + Z.of_nat (length chunks) /\
  leaf_nodes = id_range n0 (length chunks) /\
  holds_keys leaf (cur.*1) /\
  (1 <= length cur <= 101)%nat /\
  Forall (fun c => length c = 101%nat) chunks /\
  leaves_at (nodes t) n0 (chunk_keys chunks).
(** ** The rest of the heap file (storage.cpp) *)

(** The answer of a call on any state, without the state it leaves. *)
Definition value_of {A S : Type} (r : result (A * S)) : result A :=
  match r with
  | Ok (a, _) => Ok a
  | Fault f => Fault f
  end.

(** The inner loop of [getAllRecords]:
    [for (j = 0; j < block.getNumRecords(); j++) records.push_back(block.getRecord(j))]. *)
Definition push_block_records (block : Block.Block) (records : list Record_)
  : result (list Record_) :=
  for_up 0 (Block.getNumRecords block)
    (fun j records =>
       let+ r := Block.getRecord block j in Ok (records ++ [r]))
    records.

(** The outer loop, [n] blocks from block [i] on; a block that cannot be
    read is skipped. *)
Fixpoint getAllRecords_loop (n : nat) (i : Z) (records : list Record_)
  : M Database.Database (list Record_) :=
  match n with
  | O => ret records
  | S n' =>
      let* r := Database.readBlock i in
      let* records :=
        (match r with
         | Some block => lift (push_block_records block records)
         | None => ret records
         end) in
      getAllRecords_loop n' (i + 1) records
  end.

Definition getAllRecords : M Database.Database (list Record_) :=
  let* db := get in
  getAllRecords_loop (Z.to_nat (Database.num_blocks db)) 0 [].

(** *** Vocabulary of the heap layout *)

(** The records a block holds, in slot order. *)
Definition block_records (b : Block.Block) : list Record_ :=
  Block.slot b <$> seq 0 (Z.to_nat (Block.getNumRecords b)).

(** The records of the heap, block after block. *)
Definition heap_records (db : Database.Database) : list Record_ :=
  concat (block_records <$> Database.pages db).

(** Every block but the last is full and the last one is not empty: the
    shape that appending leaves. *)
Definition heap_packed (db : Database.Database) : Prop :=
  heap_consistent db /\
  forall ps b, Database.pages db = ps ++ [b] ->
    Forall (fun b' => Block.getNumRecords b' = Block.MAX_RECORDS) ps /\
    1 <= Block.getNumRecords b.

(** The number of records that fit under the 100 MB limit: 25599 blocks of
    92 records. *)
Definition heap_capacity : nat := Z.to_nat 2355108.

(** [Database(fname)], before any [open()]. *)
Definition heap_constructed : Database.Database :=
  {| Database.is_open := false; Database.good := true; Database.pages := [];
     Database.num_blocks := 0; Database.num_records := 0;
     Database.data_blocks_accessed := 0; Database.total_data_block_ios := 0;
     Database.unique_data_blocks := ∅ |}.


(** ** More of the index (record_pointer.h, bptree.h) *)

(** [RecordPointer::operator==]. *)
Definition ptr_eq (a b : RecordPointer) : bool :=
  (block_id a =? block_id b) && (record_index a =? record_index b).

(** The pointers that the packing [block_id * 10000 + record_index] keeps
    apart within an [int]. *)
Definition encodable (ptr : RecordPointer) : Prop :=
  0 <= block_id ptr /\ 0 <= record_index ptr < 10000 /\
  block_id ptr * 10000 + record_index ptr < 2 ^ 31.

(** [getRootKeys()] (and [getRootNodeKeys()], which has the same body). *)
Definition getRootKeys : M BPTree (list Z) :=
  let* t := get in
  if root_id t =? -1 then ret []
  else
    let* r := readNode (root_id t) in
    match r with
    | Some root =>
        lift (for_up 0 (num_keys root)
                (fun i keys => let+ k := get_key i root in Ok (keys ++ [k])) [])
    | None => ret []
    end.

(** [resetIOCounters()]. *)
Definition resetIOCounters (t : BPTree) : BPTree :=
  {| is_open := is_open t; good := good t; nodes := nodes t;
     root_id := root_id t; next_node_id := next_node_id t;
     index_nodes_accessed := 0; total_index_node_ios := 0;
     unique_index_nodes := ∅ |}.

(** *** Vocabulary of the leaf properties *)

(** The entries a leaf holds, slot by slot: key and packed pointer. *)
Definition leaf_entries (n : BPTreeNode) : list (Z * Z) :=
  zip (take (Z.to_nat (num_keys n)) (keys n))
      (take (Z.to_nat (num_keys n)) (children n)).

(** The pointers of the entries whose key satisfies [P], in slot order. *)
Definition pointers_where (P : Z -> Prop) `{!forall k, Decision (P k)}
    (es : list (Z * Z)) : list RecordPointer :=
  (fun e => decode e.2) <$> filter (fun e => P e.1) es.

(** The index is open and its root is the leaf [leaf]. *)
Definition leaf_root (t : BPTree) (leaf : BPTreeNode) : Prop :=
  index_open t /\
  node_at (nodes t) (root_id t) = Some leaf /\
  is_leaf leaf = true /\ node_wf leaf.

(** Two nodes that agree on everything but their key and child slots. *)
Definition same_frame (n n' : BPTreeNode) : Prop :=
  is_leaf n' = is_leaf n /\ num_keys n' = num_keys n /\
  next_leaf n' = next_leaf n /\ parent n' = parent n /\
  length (keys n') = length (keys n) /\
  length (children n') = length (children n).

(** The packed form of an index entry in a leaf slot. *)
Definition packed (e : Z * RecordPointer) : Z * Z := (e.1, encode e.2).

(** A leaf without neighbour and without parent whose slots in use hold the
    entries [es], packed, in this order. *)
Definition packs (leaf : BPTreeNode) (es : list (Z * RecordPointer)) : Prop :=
  is_leaf leaf = true /\ node_wf leaf /\
  next_leaf leaf = -1 /\ parent leaf = -1 /\
  leaf_entries leaf = packed <$> es.

(** The index file is not open, or its stream has failed. *)
Definition index_unusable (t : BPTree) : Prop :=
  is_open t = false \/ good t = false.

(** The entry a packed slot stands for. *)
Definition unpacked (e : Z * Z) : Z * RecordPointer := (e.1, decode e.2).

(** The values of a C++ [int]. *)
Definition is_int (z : Z) : Prop := - 2 ^ 31 <= z < 2 ^ 31.

(** *** Vocabulary of the bulk-load layout *)

(** A leaf without parent that holds the entries [es], packed, and whose
    right neighbour is [next]. *)
Definition packs_linked (leaf : BPTreeNode) (es : list (Z * RecordPointer))
    (next : Z) : Prop :=
  is_leaf leaf = true /\ node_wf leaf /\
  next_leaf leaf = next /\ parent leaf = -1 /\
  leaf_entries leaf = packed <$> es.

(** Page [n0 + g] of the file is a leaf that packs the [g]-th chunk. *)
Definition leaf_pages (ns : list BPTreeNode) (n0 : Z)
    (chunks : list (list (Z * RecordPointer))) : Prop :=
  forall g c, chunks !! g = Some c ->
    exists n, node_at ns (n0 + Z.of_nat g) = Some n /\ packs n c.

(** The same once the leaves are linked: each leaf points at the next page,
    the last one at [-1]. *)
Definition chain_pages (ns : list BPTreeNode) (n0 : Z)
    (chunks : list (list (Z * RecordPointer))) : Prop :=
  forall g c, chunks !! g = Some c ->
    exists n, node_at ns (n0 + Z.of_nat g) = Some n /\
      packs_linked n c
        (if decide (S g < length chunks)%nat then n0 + Z.of_nat g + 1 else -1).

(** The state of the first loop of [bulkLoad], with the entries in place of
    their keys. *)
Definition filling_packed (n0 : Z) (chunks : list (list (Z * RecordPointer)))
    (cur : list (Z * RecordPointer))
    (t : BPTree) (current_leaf : Z) (leaf : BPTreeNode) (leaf_nodes : list Z) : Prop :=
  index_open t /\
  next_node_id t = n0 + Z.of_nat (length chunks) + 1 /\
  current_leaf = n0 + Z.of_nat (length chunks) /\
  leaf_nodes = id_range n0 (length chunks) /\
  packs leaf cur /\
  (1 <= length cur <= 101)%nat /\
  Forall (fun c => length c = 101%nat) chunks /\
  leaf_pages (nodes t) n0 chunks.

(** An internal node as the level builder leaves it: no parent, no
    neighbour, and the key slots it does not use still zero. *)
Definition fresh_internal (p : BPTreeNode) : Prop :=
  is_leaf p = false /\ parent p = -1 /\ next_leaf p = -1 /\
  forall j : nat, num_keys p <= Z.of_nat j -> (j < 101)%nat -> keys p !! j = Some 0.

(** From node [id] the first-child links lead down to page [a] in [d]
    steps, through internal nodes with ids below [hi] whose keys in use all
    exceed [key]; every child has a smaller id than its parent. *)
Fixpoint leftmost (ns : list BPTreeNode) (key hi : Z) (d : nat) (id a : Z) : Prop :=
  match d with
  | O => id = a
  | S d' =>
      exists p c,
        id < hi /\ c < id /\
        node_at ns id = Some p /\ is_leaf p = false /\ node_wf p /\
        Forall (fun k => key < k) (leaf_keys p) /\
        children p !! 0%nat = Some c /\ leftmost ns key hi d' c a
  end.

(** The [len] pages from [a] on form a level of the tree under
    construction: each has its key array, a first key slot above [key], and
    the first of them leads down to the first leaf [n0]. *)
Definition level_ok (ns : list BPTreeNode) (key hi a : Z) (len d : nat) (n0 : Z) : Prop :=
  (forall g, (g < len)%nat ->
     exists p x, node_at ns (a + Z.of_nat g) = Some p /\
       length (keys p) = Z.to_nat MAX_KEYS /\
       keys p !! 0%nat = Some x /\ key < x) /\
  leftmost ns key hi d a n0 /\
  a + Z.of_nat len <= hi.

(** Between [t] and [t'] the index counted [k] node transfers, in both of
    its totals. *)
Definition counted (k : Z) (t t' : BPTree) : Prop :=
  index_nodes_accessed t' = index_nodes_accessed t + k /\
  total_index_node_ios t' = total_index_node_ios t + k.

(** Between [t] and [t'] the index noted the ids [ids] as accessed. *)
Definition noted (ids : list Z) (t t' : BPTree) : Prop :=
  unique_index_nodes t' = list_to_set ids ∪ unique_index_nodes t.

(** The entries cut into leaves as the first loop of [bulkLoad] cuts them:
    101 to a leaf, the last leaf taking the rest. *)
Definition chunked (chunks : list (list entry)) : Prop :=
  exists full cur,
    chunks = full ++ [cur] /\
    Forall (fun c => length c = 101%nat) full /\
    (1 <= length cur <= 101)%nat.

(** *** Vocabulary of the lookups on a loaded index *)

(** The root of an index of at most two levels over the leaves of
    [chunks], which start at page [n0]: the single leaf itself, or one
    internal node that has the leaves as children and the first key of every
    leaf but the first as keys. *)
Definition top_of (ns : list BPTreeNode) (n0 : Z) (chunks : list (list entry))
    (root : Z) : Prop :=
  (length chunks = 1%nat /\ root = n0) \/
  ((2 <= length chunks <= 101)%nat /\
   exists p, node_at ns root = Some p /\ is_leaf p = false /\ node_wf p /\
     num_keys p = Z.of_nat (length chunks) - 1 /\
     (forall j, (j < length chunks)%nat -> children p !! j = Some (n0 + Z.of_nat j)) /\
     (forall j c e, chunks !! S j = Some c -> head c = Some e ->
        keys p !! j = Some e.1)).

(** An open index of at most two levels that holds the entries of [chunks],
    in ascending order of their keys, in a chain of leaves from page [n0]
    on. *)
Definition two_level (t : BPTree) (n0 : Z) (chunks : list (list entry)) : Prop :=
  index_open t /\ 0 <= n0 /\
  chunks <> [] /\ Forall (fun c : list entry => c <> []) chunks /\
  StronglySorted Z.le (concat chunks).*1 /\
  chain_pages (nodes t) n0 chunks /\
  top_of (nodes t) n0 chunks (root_id t).

(** The keys of the interval [min_key, max_key]. *)
Definition in_range (min_key max_key : Z) (e : entry) : Prop :=
  min_key <= e.1 <= max_key.

(** At most one of the entries has the key [key]. *)
Definition at_most_once (key : Z) (es : list entry) : Prop :=
  (length (filter (fun e : entry => e.1 = key) es) <= 1)%nat.

(** 102 entries with the keys 1 .. 102: two leaves under a root. *)
Definition two_leaves_102 : list entry := entries 102 (fun i => Z.of_nat i + 1).

(** *** Vocabulary of the read-only property *)

(** The pages, the root and the node count of [t'] are those of [t], and the
    stream is open in both or in neither. *)
Definition same_file (t t' : BPTree) : Prop :=
  nodes t' = nodes t /\ root_id t' = root_id t /\
  next_node_id t' = next_node_id t /\ is_open t' = is_open t.

(** A computation that leaves the file as it found it, whatever it
    answers. *)
Definition reads_only {A : Type} (m : M BPTree A) : Prop :=
  forall t, match m t with
            | Ok (_, t') => same_file t t'
            | Fault _ => True
            end.

(** *** Vocabulary of the removal from a loaded index *)

(** The descent for [key] from the node [root] ends in the leaf [c]: the
    root is this leaf, or it is an internal node whose child at the index
    the key selects is this leaf. *)
Definition descends (ns : list BPTreeNode) (root key c : Z) : Prop :=
  (exists n, node_at ns c = Some n /\ is_leaf n = true) /\
  (root = c \/
   exists p r, node_at ns root = Some p /\ is_leaf p = false /\
     child_index key p = Ok r /\ get_child r p = Ok c).

(** * Properties *)

(** ** Machine integers *)

Lemma wrap32_id z : - 2 ^ 31 <= z < 2 ^ 31 -> wrap32 z = z.
Proof. intros H. unfold wrap32. rewrite Z.mod_small; lia. Qed.

Lemma to_size_t_id z : 0 <= z < 2 ^ 64 -> to_size_t z = z.
Proof. intros H. unfold to_size_t. apply Z.mod_small. lia. Qed.

(** ** Byte arrays *)

Section Bytes.
Context {A : Type}.
Implicit Types (d r : list A) (off k : nat).

Lemma lookup_overwrite d off r k :
  (off + length r <= length d)%nat ->
  (take off d ++ r ++ drop (off + length r) d) !! k =
    if decide (off <= k < off + length r)%nat then r !! (k - off)%nat else d !! k.
Proof.
  intros Hlen.
  assert (Htake : length (take off d) = off) by (rewrite length_take; lia).
  case_decide as Hk.
  - rewrite lookup_app_r by lia. rewrite Htake.
    rewrite lookup_app_l by lia. done.
  - destruct (decide (k < off)%nat) as [Hlt|Hge].
    + rewrite lookup_app_l by lia. by rewrite lookup_take_lt.
    + rewrite lookup_app_r by lia. rewrite Htake.
      rewrite lookup_app_r by lia. rewrite lookup_drop. f_equal. lia.
Qed.

Lemma length_overwrite d off r :
  (off + length r <= length d)%nat ->
  length (take off d ++ r ++ drop (off + length r) d) = length d.
Proof.
  intros Hlen. rewrite !length_app, length_take, length_drop. lia.
Qed.

Lemma lookup_window d off n k :
  take n (drop off d) !! k = if decide (k < n)%nat then d !! (off + k)%nat else None.
Proof.
  case_decide.
  - rewrite lookup_take_lt by done. by rewrite lookup_drop.
  - rewrite lookup_take_ge by lia. done.
Qed.

Lemma window_overwrite_same d i n r :
  length r = n -> (i * n + n <= length d)%nat ->
  take n (drop (i * n) (take (i * n) d ++ r ++ drop (i * n + length r) d)) = r.
Proof.
  intros Hr Hlen. apply list_eq. intros k.
  rewrite lookup_window. case_decide as Hk.
  - rewrite lookup_overwrite by lia. rewrite decide_True by lia.
    f_equal. lia.
  - symmetry. apply lookup_ge_None. lia.
Qed.

Lemma window_overwrite_other d i j n r :
  j <> i -> length r = n -> (i * n + n <= length d)%nat ->
  take n (drop (j * n) (take (i * n) d ++ r ++ drop (i * n + length r) d))
  = take n (drop (j * n) d).
Proof.
  intros Hji Hr Hlen. apply list_eq. intros k.
  rewrite !lookup_window. case_decide as Hk; [|done].
  rewrite lookup_overwrite by lia. rewrite decide_False; [done|].
  intros [H1 H2]. apply Hji. nia.
Qed.

End Bytes.

(** ** Blocks *)

Lemma memcpy_to_in_bounds dst offset src :
  0 <= offset -> offset + Z.of_nat (length src) <= Z.of_nat (length dst) ->
  memcpy_to dst offset src =
    Ok (take (Z.to_nat offset) dst ++ src ++ drop (Z.to_nat offset + length src) dst).
Proof.
  intros H0 H1. unfold memcpy_to.
  rewrite (proj2 (Z.leb_le _ _) H0), (proj2 (Z.leb_le _ _) H1). done.
Qed.

Lemma memcpy_to_out_of_bounds dst offset src :
  Z.of_nat (length dst) < offset + Z.of_nat (length src) ->
  memcpy_to dst offset src = Fault (OutOfBounds arr_data offset).
Proof.
  intros H. unfold memcpy_to.
  rewrite (proj2 (Z.leb_gt _ _) H), andb_false_r. done.
Qed.

Lemma Block_consts :
  Block.MAX_RECORDS = 92 /\ Block.DATA_SIZE = 4080 /\ sizeof_Record = 44.
Proof. done. Qed.

Lemma Block_addRecord_full b record :
  Block.MAX_RECORDS <= Block.num_records (Block.header b) ->
  Block.addRecord b record = Ok (false, b).
Proof.
  intros H. unfold Block.addRecord.
  by rewrite (proj2 (Z.leb_le _ _) H).
Qed.

Lemma Block_addRecord_room b record :
  length (Block.data b) = Z.to_nat Block.DATA_SIZE ->
  wf_Record record ->
  0 <= Block.num_records (Block.header b) < Block.MAX_RECORDS ->
  Block.addRecord b record = Ok (true, block_with_record b record).
Proof.
  intros Hd Hr Hn. unfold Block.addRecord.
  destruct Block_consts as (HM & HD & HS). rewrite HM, HD, HS in *.
  unfold wf_Record in Hr. rewrite HS in Hr.
  rewrite (proj2 (Z.leb_gt _ _)) by lia.
  rewrite to_size_t_id by lia.
  rewrite memcpy_to_in_bounds by lia. done.
Qed.

Lemma block_with_record_wf b record :
  length (Block.data b) = Z.to_nat Block.DATA_SIZE ->
  wf_Record record ->
  0 <= Block.num_records (Block.header b) < Block.MAX_RECORDS ->
  Block.wf (block_with_record b record).
Proof.
  intros Hd Hr Hn.
  destruct Block_consts as (HM & HD & HS). rewrite HM, HD in *.
  unfold wf_Record in Hr. rewrite HS in Hr.
  split; simpl; [|rewrite HM; lia].
  rewrite length_overwrite by lia. by rewrite HD.
Qed.

Lemma block_with_record_slots b record :
  length (Block.data b) = Z.to_nat Block.DATA_SIZE ->
  wf_Record record ->
  0 <= Block.num_records (Block.header b) < Block.MAX_RECORDS ->
  Block.slot (block_with_record b record)
    (Z.to_nat (Block.num_records (Block.header b))) = record /\
  forall j, j <> Z.to_nat (Block.num_records (Block.header b)) ->
    Block.slot (block_with_record b record) j = Block.slot b j.
Proof.
  intros Hd Hr Hn.
  destruct Block_consts as (HM & HD & HS). rewrite HM, HD in *.
  unfold wf_Record in Hr. rewrite HS in Hr.
  unfold Block.slot, block_with_record. simpl. rewrite HS.
  set (n := Block.num_records (Block.header b)) in *.
  replace (Z.to_nat (n * 44)) with (Z.to_nat n * Z.to_nat 44)%nat by lia.
  split.
  - apply window_overwrite_same; lia.
  - intros j Hj. apply window_overwrite_other; [done| lia | lia].
Qed.

(** ** The heap file *)

Ltac run_monad :=
  unfold bind, ret, get, put, lift, rbind; simpl.

Lemma readBlock_closed block_id db :
  Database.is_open db = false ->
  Database.readBlock block_id db = Ok (None, db).
Proof. intros H. unfold Database.readBlock. by rewrite H. Qed.

Lemma readBlock_keeps block_id db r db' :
  Database.readBlock block_id db = Ok (r, db') ->
  Database.pages db' = Database.pages db /\
  Database.num_blocks db' = Database.num_blocks db /\
  Database.num_records db' = Database.num_records db /\
  Database.is_open db' = Database.is_open db /\
  (forall b, r = Some b ->
     Database.pages db !! Z.to_nat block_id = Some b /\
     Database.good db' = Database.good db).
Proof.
  unfold Database.readBlock. intros H.
  destruct (Database.is_open db) eqn:Ho; simpl in H.
  - destruct (Database.good db && (0 <=? block_id)) eqn:Hg.
    + apply andb_true_iff in Hg as [Hg _].
      destruct (Database.pages db !! Z.to_nat block_id) eqn:Hp;
        inversion H; subst; simpl; repeat split; done.
    + inversion H; subst; simpl. repeat split; done.
  - inversion H; subst. repeat split; done.
Qed.

Lemma readBlock_total block_id db :
  exists r db', Database.readBlock block_id db = Ok (r, db').
Proof.
  unfold Database.readBlock.
  destruct (negb (Database.is_open db)); [eauto|].
  destruct (Database.good db && (0 <=? block_id)); [|eauto].
  destruct (Database.pages db !! Z.to_nat block_id); eauto.
Qed.

Lemma readBlock_present block_id db b :
  heap_open db -> 0 <= block_id ->
  Database.pages db !! Z.to_nat block_id = Some b ->
  Database.readBlock block_id db = Ok (Some b, Database.count_io block_id db).
Proof.
  intros [Ho Hg] Hid Hp. unfold Database.readBlock.
  rewrite Ho, Hg, Hp. simpl. by rewrite (proj2 (Z.leb_le _ _) Hid).
Qed.

Lemma writeBlock_open block_id block db :
  heap_open db -> 0 <= block_id ->
  Database.writeBlock block_id block db =
    Ok (true, Database.count_io block_id
                (Database.set_stream true
                   (write_page Block.new (Z.to_nat block_id) block (Database.pages db)) db)).
Proof.
  intros [Ho Hg] Hid. unfold Database.writeBlock.
  rewrite Ho, Hg. simpl. by rewrite (proj2 (Z.leb_le _ _) Hid).
Qed.

(** The capacity check of [addRecord], once it is reached. *)
Lemma addRecord_new_block_refused record db :
  0 <= Database.num_blocks db ->
  Database.num_blocks db * Block.BLOCK_SIZE < 2 ^ 31 ->
  Database.MAX_DATABASE_SIZE
    < Database.num_blocks db * Block.BLOCK_SIZE + 8 + Block.BLOCK_SIZE ->
  Database.addRecord_new_block record db = Ok (false, db).
Proof.
  intros H0 Hint Hcap. unfold Database.addRecord_new_block. run_monad.
  unfold Block.BLOCK_SIZE, Database.MAX_DATABASE_SIZE in *.
  rewrite wrap32_id by lia.
  rewrite (to_size_t_id (Database.num_blocks db * 4096)) by lia.
  rewrite (to_size_t_id (Database.num_blocks db * 4096 + 4 * 2)) by lia.
  rewrite to_size_t_id by lia.
  rewrite (proj2 (Z.ltb_lt _ _)) by lia. done.
Qed.

(** C4. When the last block is full (or there is none) and one more block
    would take the file past 100 MiB ([num_blocks * 4096 + 8 + 4096] exceeds
    the limit), [addRecord] answers [false] and neither [num_records] nor
    [num_blocks] nor any page of the file changes. *)
Theorem addRecord_capacity_refusal (db : Database.Database) (record : Record_) :
  0 <= Database.num_blocks db ->
  Database.num_blocks db * Block.BLOCK_SIZE < 2 ^ 31 ->
  last_block_full db ->
  Database.MAX_DATABASE_SIZE
    < Database.num_blocks db * Block.BLOCK_SIZE + 8 + Block.BLOCK_SIZE ->
  exists db',
    Database.addRecord record db = Ok (false, db') /\
    Database.num_records db' = Database.num_records db /\
    Database.num_blocks db' = Database.num_blocks db /\
    Database.pages db' = Database.pages db.
Proof.
  intros H0 Hint Hfull Hcap.
  unfold Database.addRecord. run_monad.
  destruct (0 <? Database.num_blocks db) eqn:Hpos.
  - destruct (readBlock_total (Database.num_blocks db - 1) db) as (r & db1 & Hread).
    rewrite Hread.
    destruct (readBlock_keeps _ _ _ _ Hread) as (Hp & Hnb & Hnr & _ & Hsome).
    assert (Hnew : Database.addRecord_new_block record db1 = Ok (false, db1)).
    { apply addRecord_new_block_refused; rewrite Hnb; done. }
    destruct r as [currentBlock|].
    + destruct (Hsome _ eq_refl) as [Hpage _].
      destruct Hfull as [Hz | (b & Hb & Hbfull)];
        [apply Z.ltb_lt in Hpos; lia|].
      rewrite Hpage in Hb. injection Hb as ->. rewrite Hbfull. simpl.
      rewrite Hnew. eauto.
    + rewrite Hnew. eauto.
  - exists db. rewrite addRecord_new_block_refused by done. done.
Qed.

Lemma addRecord_capacity_refusal_witness :
  exists db',
    Database.addRecord empty_Record heap_at_capacity = Ok (false, db') /\
    Database.num_records db' = Database.num_records heap_at_capacity /\
    Database.num_blocks db' = Database.num_blocks heap_at_capacity /\
    Database.pages db' = Database.pages heap_at_capacity.
Proof.
  apply (addRecord_capacity_refusal heap_at_capacity empty_Record).
  - vm_compute. discriminate.
  - vm_compute. reflexivity.
  - right. exists full_block. split; [|reflexivity].
    change (replicate (Z.to_nat 25599) full_block !! Z.to_nat (25599 - 1)
            = Some full_block).
    apply lookup_replicate_2. lia.
  - vm_compute. reflexivity.
Defined.

Lemma write_page_last {A : Type} (hole b b0 : A) ps :
  write_page hole (length ps) b (ps ++ [b0]) = ps ++ [b].
Proof.
  unfold write_page. rewrite length_app. simpl.
  rewrite decide_True by lia.
  replace (length ps) with (length ps + 0)%nat at 1 by lia.
  by rewrite insert_app_r.
Qed.

Lemma write_page_append {A : Type} (hole b : A) ps :
  write_page hole (length ps) b ps = ps ++ [b].
Proof.
  unfold write_page. rewrite decide_False by lia.
  by rewrite Nat.sub_diag.
Qed.

Lemma write_page_inside {A : Type} (hole b : A) id ps :
  (id < length ps)%nat -> write_page hole id b ps = <[id := b]> ps.
Proof. intros H. unfold write_page. by rewrite decide_True. Qed.

(** [addRecord] when the last block has room. *)
Lemma addRecord_in_last_block record db ps b :
  heap_open db -> wf_Record record ->
  Database.pages db = ps ++ [b] ->
  Database.num_blocks db = Z.of_nat (length (ps ++ [b])) ->
  Block.wf b -> Block.num_records (Block.header b) < Block.MAX_RECORDS ->
  exists db',
    Database.addRecord record db = Ok (true, db') /\
    heap_open db' /\
    Database.pages db' = ps ++ [block_with_record b record] /\
    Database.num_blocks db' = Database.num_blocks db /\
    Database.num_records db' = Database.num_records db + 1.
Proof.
  intros Hopen Hr Hps Hnb [Hlen Hcnt] Hroom.
  rewrite length_app in Hnb. simpl in Hnb.
  assert (Hidx : Z.to_nat (Database.num_blocks db - 1) = length ps) by lia.
  unfold Database.addRecord. run_monad.
  rewrite (proj2 (Z.ltb_lt _ _)) by lia.
  rewrite (readBlock_present _ _ b); [|done|lia|].
  2:{ rewrite Hps, Hidx. rewrite lookup_app_r by lia.
      by rewrite Nat.sub_diag. }
  unfold Block.isFull. rewrite (proj2 (Z.leb_gt _ _)) by lia. simpl.
  rewrite Block_addRecord_room by (done || lia).
  rewrite writeBlock_open; [|by destruct Hopen|lia].
  eexists. split; [reflexivity|]. simpl.
  destruct Hopen as [Ho Hg]. repeat split; try done.
  rewrite Hps, Hidx. apply write_page_last.
Qed.

(** [addRecord] when a block has to be appended and the limit allows it. *)
Lemma addRecord_appends_block record db :
  heap_open db -> wf_Record record ->
  Database.num_blocks db = Z.of_nat (length (Database.pages db)) ->
  last_block_full db ->
  Database.num_blocks db <= 25598 ->
  exists db',
    Database.addRecord record db = Ok (true, db') /\
    heap_open db' /\
    Database.pages db' =
      Database.pages db
        ++ [block_with_record (Block.set_block_id (Database.num_blocks db) Block.new) record] /\
    Database.num_blocks db' = Database.num_blocks db + 1 /\
    Database.num_records db' = Database.num_records db + 1.
Proof.
  intros Hopen Hr Hnb Hfull Hcap.
  assert (Hnew : forall db1,
    heap_open db1 -> Database.pages db1 = Database.pages db ->
    Database.num_blocks db1 = Database.num_blocks db ->
    Database.num_records db1 = Database.num_records db ->
    exists db',
      Database.addRecord_new_block record db1 = Ok (true, db') /\
      heap_open db' /\
      Database.pages db' =
        Database.pages db
          ++ [block_with_record (Block.set_block_id (Database.num_blocks db) Block.new) record] /\
      Database.num_blocks db' = Database.num_blocks db + 1 /\
      Database.num_records db' = Database.num_records db + 1).
  { intros db1 Hopen1 Hp1 Hnb1 Hnr1.
    unfold Database.addRecord_new_block. run_monad.
    unfold Block.BLOCK_SIZE, Database.MAX_DATABASE_SIZE.
    rewrite Hnb1.
    rewrite wrap32_id by lia.
    rewrite (to_size_t_id (Database.num_blocks db * 4096)) by lia.
    rewrite (to_size_t_id (Database.num_blocks db * 4096 + 4 * 2)) by lia.
    rewrite to_size_t_id by lia.
    rewrite (proj2 (Z.ltb_ge _ _)) by lia.
    rewrite Block_addRecord_room; [|done|done|simpl; by vm_compute].
    unfold Database.addBlock. run_monad.
    destruct Hopen1 as [Ho1 Hg1]. rewrite Ho1. simpl.
    rewrite writeBlock_open; [|done|lia]. simpl.
    rewrite Hnb1.
    rewrite (proj2 (Z.eqb_neq _ _)) by lia. simpl.
    eexists. split; [reflexivity|]. simpl.
    repeat split; try done; try lia.
    rewrite Hp1. rewrite Hnb, Nat2Z.id. apply write_page_append. }
  unfold Database.addRecord. run_monad.
  destruct (0 <? Database.num_blocks db) eqn:Hpos.
  - apply Z.ltb_lt in Hpos.
    destruct Hfull as [Hz | (b & Hb & Hbfull)]; [lia|].
    rewrite (readBlock_present _ _ b); [|done|lia|done].
    rewrite Hbfull. simpl.
    apply Hnew; try done.
  - apply Hnew; done.
Qed.

(** One [addRecord] on a consistent heap below the limit. *)
Lemma addRecord_packs_one record db :
  heap_consistent db -> wf_Record record ->
  Database.num_blocks db <= 25598 ->
  exists db',
    Database.addRecord record db = Ok (true, db') /\
    heap_consistent db' /\
    Database.num_records db' = Database.num_records db + 1 /\
    map Block.getNumRecords (Database.pages db')
      = pack_one (map Block.getNumRecords (Database.pages db)) /\
    Database.num_blocks db' <= Database.num_blocks db + 1.
Proof.
  intros (Hopen & Hnb & Hwf) Hr Hcap.
  destruct (Database.pages db) as [|b0 ps0] eqn:Hpages using rev_ind.
  - destruct (addRecord_appends_block record db) as (db' & Hadd & Ho' & Hp' & Hnb' & Hnr');
      try done.
    { rewrite Hpages. done. }
    { left. rewrite Hnb. done. }
    exists db'. rewrite Hpages in Hp'. simpl in Hp'.
    split; [done|]. split; [|split; [done|split; [|lia]]].
    + split; [done|]. split; [rewrite Hp', Hnb', Hnb; done|].
      rewrite Hp'. constructor; [|constructor].
      apply block_with_record_wf; first [done | by vm_compute].
    + rewrite Hp'. simpl. rewrite Hnb. done.
  - clear IHps0. rename ps0 into ps, b0 into b.
    apply Forall_app in Hwf as [Hwfps Hwfb].
    apply Forall_inv in Hwfb.
    destruct (decide (Block.num_records (Block.header b) < Block.MAX_RECORDS)) as [Hroom|Hno].
    + destruct (addRecord_in_last_block record db ps b)
        as (db' & Hadd & Ho' & Hp' & Hnb' & Hnr'); try done.
      exists db'. split; [done|]. split; [|split; [done|split; [|lia]]].
      * split; [done|]. split.
        { rewrite Hp', Hnb', Hnb. rewrite !length_app. done. }
        rewrite Hp'. apply Forall_app. split; [done|].
        apply Forall_singleton. destruct Hwfb as [Hd Hc].
        apply block_with_record_wf; first [done | lia].
      * rewrite Hp'. rewrite !map_app. simpl.
        unfold pack_one. rewrite rev_app_distr. simpl.
        change (Block.getNumRecords b) with (Block.num_records (Block.header b)).
        rewrite (proj2 (Z.ltb_lt _ _)) by done.
        by rewrite rev_involutive.
    + destruct Hwfb as [Hd Hc].
      destruct (addRecord_appends_block record db)
        as (db' & Hadd & Ho' & Hp' & Hnb' & Hnr'); try done.
      { by rewrite Hpages. }
      { right. exists b. rewrite Hnb, Hpages. split.
        - rewrite length_app. simpl.
          replace (Z.to_nat (Z.of_nat (length ps + 1) - 1)) with (length ps + 0)%nat by lia.
          by rewrite lookup_app_r, Nat.add_0_r, Nat.sub_diag by lia.
        - unfold Block.isFull. apply Z.leb_le. lia. }
      exists db'. rewrite Hpages in Hp'.
      split; [done|]. split; [|split; [done|split; [|lia]]].
      * split; [done|]. split.
        { rewrite Hp', Hnb', Hnb. rewrite !length_app. simpl. lia. }
        rewrite Hp'. apply Forall_app. split.
        { apply Forall_app. split; [done|]. by apply Forall_singleton. }
        apply Forall_singleton.
        apply block_with_record_wf; first [done | by vm_compute].
      * rewrite Hp'. rewrite !map_app. simpl.
        unfold pack_one. rewrite rev_app_distr. simpl.
        change (Block.getNumRecords b) with (Block.num_records (Block.header b)).
        rewrite (proj2 (Z.ltb_ge _ _)) by lia.
        done.
Qed.

(** Loading a list of records packs them one by one. *)
Lemma addRecords_pack records : forall db,
  heap_consistent db -> Forall wf_Record records ->
  Database.num_blocks db + Z.of_nat (length records) <= 25599 ->
  exists oks db',
    Database.addRecords records db = Ok (oks, db') /\
    Forall (fun ok => ok = true) oks /\
    heap_consistent db' /\
    Database.num_records db' = Database.num_records db + Z.of_nat (length records) /\
    map Block.getNumRecords (Database.pages db')
      = foldl (fun counts _ => pack_one counts)
          (map Block.getNumRecords (Database.pages db)) records.
Proof.
  induction records as [|r rest IH]; intros db Hdb Hrs Hcap.
  - exists [], db. simpl. split; [done|]. split; [done|]. split; [done|].
    split; [lia|done].
  - apply Forall_cons in Hrs as [Hr Hrest]. simpl in Hcap.
    destruct (addRecord_packs_one r db) as (db1 & Hadd & Hdb1 & Hnr1 & Hcnt1 & Hnb1);
      [done|done|lia|].
    destruct (IH db1) as (oks & db' & Hadds & Hoks & Hdb' & Hnr' & Hcnt'); [done|done|lia|].
    exists (true :: oks), db'. simpl. run_monad.
    rewrite Hadd, Hadds. split; [done|]. split; [by constructor|].
    split; [done|]. split; [lia|]. by rewrite Hcnt', Hcnt1.
Qed.

Lemma foldl_const_iter {A B : Type} (f : A -> A) (l : list B) (x : A) :
  foldl (fun a _ => f a) x l = Nat.iter (length l) f x.
Proof.
  revert x. induction l as [|y l IH]; intros x; [done|].
  simpl. rewrite IH. clear IH.
  induction (length l) as [|n IHn]; [done|]. simpl. by rewrite IHn.
Qed.

Lemma created_consistent : heap_consistent Database.created.
Proof. repeat split. constructor. Qed.

(** C7. From an empty heap, 93 records added one by one all succeed and
    leave two blocks, the first with 92 records and the second with 1, and
    [num_records = 93].  On a well-formed block [Block::addRecord] fails
    exactly when the block holds 92 records; otherwise it stores the record in
    slot [num_records], leaves the other slots alone and increments
    [num_records]. *)
Theorem packing_93_records (records : list Record_) :
  length records = 93%nat -> Forall wf_Record records ->
  (exists oks db,
     Database.addRecords records Database.created = Ok (oks, db) /\
     Forall (fun ok => ok = true) oks /\
     Database.num_blocks db = 2 /\
     map Block.getNumRecords (Database.pages db) = [92; 1] /\
     Database.num_records db = 93) /\
  (forall b record, Block.wf b -> wf_Record record ->
     (Block.getNumRecords b = 92 -> Block.addRecord b record = Ok (false, b)) /\
     (Block.getNumRecords b <> 92 ->
        exists b',
          Block.addRecord b record = Ok (true, b') /\
          Block.getNumRecords b' = Block.getNumRecords b + 1 /\
          Block.slot b' (Z.to_nat (Block.getNumRecords b)) = record /\
          (forall j, j <> Z.to_nat (Block.getNumRecords b) ->
                     Block.slot b' j = Block.slot b j))).
Proof.
  intros Hlen Hwf. split.
  - destruct (addRecords_pack records Database.created)
      as (oks & db & Hadd & Hoks & Hdb & Hnr & Hcnt).
    + apply created_consistent.
    + done.
    + rewrite Hlen. simpl. lia.
    + exists oks, db. rewrite foldl_const_iter, Hlen in Hcnt.
      assert (Hcounts : map Block.getNumRecords (Database.pages db) = [92; 1]).
      { rewrite Hcnt. by vm_compute. }
      split; [done|]. split; [done|]. split; [|split; [done|]].
      * destruct Hdb as (_ & Hnb & _). rewrite Hnb.
        rewrite <- (length_map Block.getNumRecords), Hcounts. done.
      * rewrite Hnr, Hlen. done.
  - intros b record [Hd Hc] Hr. unfold Block.getNumRecords. split.
    + intros H92. apply Block_addRecord_full.
      rewrite H92. by vm_compute.
    + intros Hne.
      assert (Hroom : 0 <= Block.num_records (Block.header b) < Block.MAX_RECORDS).
      { destruct Block_consts as (HM & _). rewrite HM in *. lia. }
      exists (block_with_record b record).
      split; [by apply Block_addRecord_room|]. split; [done|].
      by apply block_with_record_slots.
Qed.

Lemma packing_93_records_witness :
  exists oks db,
    Database.addRecords sample_records Database.created = Ok (oks, db) /\
    Forall (fun ok => ok = true) oks /\
    Database.num_blocks db = 2 /\
    map Block.getNumRecords (Database.pages db) = [92; 1] /\
    Database.num_records db = 93.
Proof.
  apply (packing_93_records sample_records).
  - reflexivity.
  - apply Forall_replicate. reflexivity.
Defined.

(** What [deleteRecord] leaves in the block it rewrites. *)
Lemma deleteRecord_in_range db block_id record_index b :
  heap_open db -> 0 <= block_id ->
  Database.pages db !! Z.to_nat block_id = Some b ->
  length (Block.data b) = Z.to_nat Block.DATA_SIZE ->
  0 <= record_index < Block.MAX_RECORDS ->
  Database.deleteRecord block_id record_index db =
    Ok (true,
        Database.count_io block_id
          (Database.set_stream true
             (<[Z.to_nat block_id :=
                  Block.set_data
                    (take (Z.to_nat (record_index * 44)) (Block.data b) ++ empty_Record
                       ++ drop (Z.to_nat (record_index * 44) + length empty_Record)
                            (Block.data b)) b]> (Database.pages db))
             (Database.count_io block_id db))).
Proof.
  intros Hopen Hid Hpage Hd Hidx.
  destruct Block_consts as (HM & HD & HS). rewrite HM, HD in *.
  unfold Database.deleteRecord. run_monad.
  rewrite (readBlock_present _ _ b) by done.
  rewrite HS. rewrite to_size_t_id by lia.
  rewrite memcpy_to_in_bounds; [|lia|rewrite Hd; simpl; lia].
  rewrite writeBlock_open; [|by destruct Hopen|done].
  simpl. rewrite write_page_inside; [done|].
  by apply lookup_lt_Some in Hpage.
Qed.

(** C6. On an open heap, for a block that can be read and a slot index in
    range, [deleteRecord] succeeds and rewrites that block with the slot
    zeroed; the header of the block (so its record count), every other slot,
    every other block and the heap's [num_records] and [num_blocks] are
    unchanged. *)
Theorem deleteRecord_zeroes_one_slot
  (db : Database.Database) (block_id record_index : Z) (b : Block.Block) :
  heap_open db -> 0 <= block_id ->
  Database.pages db !! Z.to_nat block_id = Some b ->
  length (Block.data b) = Z.to_nat Block.DATA_SIZE ->
  0 <= record_index < Block.MAX_RECORDS ->
  exists db' b',
    Database.deleteRecord block_id record_index db = Ok (true, db') /\
    Database.pages db' = <[Z.to_nat block_id := b']> (Database.pages db) /\
    Block.slot b' (Z.to_nat record_index) = empty_Record /\
    (forall j, j <> Z.to_nat record_index -> Block.slot b' j = Block.slot b j) /\
    Block.header b' = Block.header b /\
    length (Block.data b') = length (Block.data b) /\
    Database.num_records db' = Database.num_records db /\
    Database.num_blocks db' = Database.num_blocks db.
Proof.
  intros Hopen Hid Hpage Hd Hidx.
  rewrite (deleteRecord_in_range db block_id record_index b) by done.
  destruct Block_consts as (HM & HD & HS). rewrite HM, HD in *.
  match goal with
  | |- context [ <[_ := ?blk]> (Database.pages db) ] => set (b' := blk)
  end.
  assert (Hdata : Block.data b' =
            take (Z.to_nat record_index * Z.to_nat 44) (Block.data b) ++ empty_Record
              ++ drop (Z.to_nat record_index * Z.to_nat 44 + length empty_Record)
                   (Block.data b)).
  { replace (Z.to_nat record_index * Z.to_nat 44)%nat
      with (Z.to_nat (record_index * 44)) by lia. done. }
  assert (Hempty : length empty_Record = Z.to_nat 44) by done.
  eexists _, b'. split; [reflexivity|].
  split; [done|].
  unfold Block.slot. rewrite Hdata, HS.
  split; [|split; [|split; [done|split; [|done]]]].
  - apply window_overwrite_same; [done|lia].
  - intros j Hj. apply window_overwrite_other; [done|done|lia].
  - apply length_overwrite. lia.
Qed.

Lemma one_record_heap_facts :
  heap_open one_record_heap /\
  Database.pages one_record_heap !! Z.to_nat 0 = Some one_record_block /\
  length (Block.data one_record_block) = Z.to_nat Block.DATA_SIZE /\
  Block.getNumRecords one_record_block = 1.
Proof.
  split; [split; reflexivity|].
  split; [vm_compute; reflexivity|].
  split; vm_compute; reflexivity.
Qed.

Lemma deleteRecord_zeroes_one_slot_witness :
  exists db' b',
    Database.deleteRecord 0 0 one_record_heap = Ok (true, db') /\
    Database.pages db' = <[Z.to_nat 0 := b']> (Database.pages one_record_heap) /\
    Block.slot b' (Z.to_nat 0) = empty_Record /\
    (forall j, j <> Z.to_nat 0 -> Block.slot b' j = Block.slot one_record_block j) /\
    Block.header b' = Block.header one_record_block /\
    length (Block.data b') = length (Block.data one_record_block) /\
    Database.num_records db' = Database.num_records one_record_heap /\
    Database.num_blocks db' = Database.num_blocks one_record_heap.
Proof.
  apply (deleteRecord_zeroes_one_slot one_record_heap 0 0 one_record_block).
  - split; reflexivity.
  - lia.
  - vm_compute. reflexivity.
  - vm_compute. reflexivity.
  - vm_compute. split; [discriminate | reflexivity].
Defined.

(** C10. [deleteRecord] does not check [record_index].  Once the block is
    read, the 44 zero bytes go to offset [record_index * 44] of the 4080-byte
    record area: for [0 <= record_index < 92] the write is inside the area
    and the call answers [true], whatever the block's record count (so also
    for a slot at or beyond it); for [record_index >= 92] or a negative
    [record_index] the [memcpy] leaves the record area. *)
Theorem deleteRecord_no_bounds_check
  (db : Database.Database) (block_id record_index : Z) (b : Block.Block) :
  heap_open db -> 0 <= block_id ->
  Database.pages db !! Z.to_nat block_id = Some b ->
  length (Block.data b) = Z.to_nat Block.DATA_SIZE ->
  - 2 ^ 31 <= record_index < 2 ^ 31 ->
  (0 <= record_index < Block.MAX_RECORDS ->
     exists db' b',
       Database.deleteRecord block_id record_index db = Ok (true, db') /\
       Database.pages db' !! Z.to_nat block_id = Some b' /\
       Block.data b' =
         take (Z.to_nat (record_index * 44)) (Block.data b) ++ empty_Record
           ++ drop (Z.to_nat (record_index * 44) + 44) (Block.data b)) /\
  (Block.getNumRecords b <= record_index -> 0 <= record_index < Block.MAX_RECORDS ->
     exists db', Database.deleteRecord block_id record_index db = Ok (true, db')) /\
  (record_index < 0 \/ Block.MAX_RECORDS <= record_index ->
     Database.deleteRecord block_id record_index db
       = Fault (OutOfBounds arr_data (to_size_t (record_index * sizeof_Record)))).
Proof.
  intros Hopen Hid Hpage Hd Hint.
  split; [|split].
  - intros Hidx.
    rewrite (deleteRecord_in_range db block_id record_index b) by done.
    eexists _, _. split; [reflexivity|]. split.
    + apply list_lookup_insert_eq. by apply lookup_lt_Some in Hpage.
    + reflexivity.
  - intros _ Hidx.
    rewrite (deleteRecord_in_range db block_id record_index b) by done.
    eauto.
  - intros Hout.
    destruct Block_consts as (HM & HD & HS). rewrite HM, HD in *.
    unfold Database.deleteRecord. run_monad.
    rewrite (readBlock_present _ _ b) by done.
    rewrite memcpy_to_out_of_bounds; [done|].
    rewrite Hd, HS. change (Z.of_nat (length empty_Record)) with 44.
    unfold to_size_t.
    destruct Hout as [Hneg|Hbig].
    + replace (record_index * 44) with ((record_index * 44 + 2 ^ 64) + (-1) * 2 ^ 64) by lia.
      rewrite Z.mod_add by lia. rewrite Z.mod_small by lia. lia.
    + rewrite Z.mod_small by lia. lia.
Qed.

Lemma deleteRecord_no_bounds_check_witness :
  (exists db', Database.deleteRecord 0 5 one_record_heap = Ok (true, db')) /\
  Database.deleteRecord 0 92 one_record_heap = Fault (OutOfBounds arr_data 4048) /\
  Database.deleteRecord 0 (-1) one_record_heap
    = Fault (OutOfBounds arr_data (2 ^ 64 - 44)).
Proof.
  assert (Hopen : heap_open one_record_heap) by (split; reflexivity).
  assert (Hpage : Database.pages one_record_heap !! Z.to_nat 0 = Some one_record_block)
    by (vm_compute; reflexivity).
  assert (Hlen : length (Block.data one_record_block) = Z.to_nat Block.DATA_SIZE)
    by (vm_compute; reflexivity).
  split; [|split].
  - apply (deleteRecord_no_bounds_check one_record_heap 0 5 one_record_block);
      [done|lia|done|done|lia| |].
    + vm_compute. discriminate.
    + vm_compute. split; [discriminate | reflexivity].
  - apply (deleteRecord_no_bounds_check one_record_heap 0 92 one_record_block);
      [done|lia|done|done|lia|].
    right. vm_compute. discriminate.
  - apply (deleteRecord_no_bounds_check one_record_heap 0 (-1) one_record_block);
      [done|lia|done|done|lia|].
    left. lia.
Defined.

(** ** The index on sample inputs *)

(** C9. An index bulk-loaded with 101 entries is one full leaf (so is the
    index reached by 101 calls of [insert]).  One more [insert] finds
    [num_keys = 101 = order], still runs the sorted insertion into that leaf,
    and the first step of the shift writes [keys[101]], past the end of the
    101-element array: with checked indexing the call ends in that
    out-of-bounds write. *)
Theorem insert_into_full_leaf_overflows :
  exists leaf,
    node_at (nodes (loaded full_leaf_101)) (root_id (loaded full_leaf_101)) = Some leaf /\
    is_leaf leaf = true /\ num_keys leaf = MAX_KEYS /\
    length (keys leaf) = Z.to_nat MAX_KEYS /\
    shift_right 0 leaf = Fault (OutOfBounds arr_keys 101) /\
    answer (insert 0 (pointer_of 200) (loaded full_leaf_101))
      = Fault (OutOfBounds arr_keys 101) /\
    answer (insert 0 (pointer_of 200) (state_after (insert_upto 101) opened))
      = Fault (OutOfBounds arr_keys 101).
Proof.
  eexists. split; [vm_compute; reflexivity|].
  repeat split; vm_compute; reflexivity.
Qed.

(** C5 at a failing input.  102 entries with the key 5 are bulk-loaded into
    two leaves with the separator 5; [findLeaf(5)] goes right of the
    separator, so the range search over [5, 5], which contains every key,
    starts in the second leaf and returns one pointer, not 102. *)
Theorem rangeSearch_misses_equal_keys :
  length same_key_102 = 102%nat /\
  Forall (fun e => 5 <= e.1 <= 5) same_key_102 /\
  answer (bulkLoad same_key_102 opened) = Ok true /\
  answer (rangeSearch 5 5 (loaded same_key_102)) = Ok [pointer_of 101] /\
  answer (rangeSearch 4 5 (loaded same_key_102)) = Ok (map pointer_of (seq 0 102)).
Proof.
  split; [reflexivity|]. split.
  - apply Forall_forall. intros e He.
    apply list_elem_of_fmap in He as (i & -> & _). simpl. lia.
  - repeat split; vm_compute; reflexivity.
Qed.

(** The same search on three levels.  With 10202 distinct keys the second
    node of the middle level has one child and no key, its [keys[0]] is the
    0 of a fresh node, and the root takes that 0 as separator: the search
    over [1, 10202] starts in the last leaf and returns one pointer. *)
Lemma rangeSearch_three_levels :
  answer (getNumLevels (loaded three_levels_10202)) = Ok 3 /\
  answer (rangeSearch 1 10202 (loaded three_levels_10202))
    = Ok [pointer_of (Z.to_nat 10201)].
Proof. split; vm_compute; reflexivity. Qed.

(** The root that [bulkLoad] builds over the 102 entries of key 5 is an
    internal node written by the call, and both its children are leaves. *)
Lemma bulkLoad_root_over_leaves :
  exists n,
    next_node_id opened <= root_id (loaded same_key_102)
      < next_node_id (loaded same_key_102) /\
    node_at (nodes (loaded same_key_102)) (root_id (loaded same_key_102)) = Some n /\
    parent_of_leaves (loaded same_key_102) n.
Proof.
  eexists. split; [by vm_compute|]. split; [vm_compute; reflexivity|].
  split; [reflexivity|].
  intros c Hc. vm_compute in Hc.
  apply elem_of_cons in Hc as [->|Hc]; [eexists; split; [vm_compute|]; reflexivity|].
  apply elem_of_cons in Hc as [->|Hc]; [eexists; split; [vm_compute|]; reflexivity|].
  by apply elem_of_nil in Hc.
Qed.

(** C1 at a failing input.  The index holds 102 entries with the key 0.
    [removeRange(5, 6)] removes nothing and answers 0, but its walk starts at
    [findLeaf(0)], which is the second leaf: the 101 entries of the first
    leaf are not collected, and the rebuilt index holds one entry. *)
Theorem removeRange_loses_survivors :
  answer (rangeSearch (-1) 0 (loaded zero_key_102)) = Ok (map pointer_of (seq 0 102)) /\
  answer (removeRange 5 6 (loaded zero_key_102)) = Ok 0 /\
  answer (rangeSearch (-1) 0 (state_after (removeRange 5 6) (loaded zero_key_102)))
    = Ok [pointer_of 101] /\
  keys_under (state_after (removeRange 5 6) (loaded zero_key_102))
    (root_id (state_after (removeRange 5 6) (loaded zero_key_102))) = [0].
Proof. repeat split; vm_compute; reflexivity. Qed.

(** C2 at a failing input.  Of two entries [removeRange(2, 2)] removes one;
    rebuilding from the survivor on the reset index allocates one node, yet
    [getNumNodes()] answers 251 afterwards. *)
Theorem removeRange_node_count_251 :
  answer (removeRange 2 2 (loaded two_entries)) = Ok 1 /\
  getNumNodes (state_after (removeRange 2 2) (loaded two_entries)) = 251 /\
  root_id (state_after (removeRange 2 2) (loaded two_entries)) = 0 /\
  getNumNodes
    (state_after (bulkLoad [(1, pointer_of 0)]) (reset_index (loaded two_entries))) = 1.
Proof. repeat split; vm_compute; reflexivity. Qed.

(** C3 at a counterexample.  With 102 entries of key 5 the root is an
    internal node with the separator 5 over two leaves, and the keys of its
    left child are not smaller than 5. *)
Lemma bulkLoad_separator_not_strict :
  exists n,
    node_at (nodes (loaded same_key_102)) (root_id (loaded same_key_102)) = Some n /\
    is_leaf n = false /\
    ~ strict_separator (loaded same_key_102) n.
Proof.
  eexists. split; [vm_compute; reflexivity|]. split; [reflexivity|].
  intros H.
  destruct (H 0 5 1 2) as [Hleft _]; [by vm_compute| by vm_compute ..|].
  specialize (Hleft 5). 
  assert (Hin : 5 ∈ keys_under (loaded same_key_102) 1).
  { vm_compute. apply list_elem_of_here. }
  specialize (Hleft Hin). lia.
Qed.

(** ** Reading the index file *)

Lemma array_get_in_range {A : Type} name (a : list A) i :
  0 <= i < Z.of_nat (length a) ->
  exists x, array_get name a i = Ok x /\ a !! Z.to_nat i = Some x.
Proof.
  intros Hi. unfold array_get.
  rewrite (proj2 (Z.leb_le _ _)) by lia.
  destruct (lookup_lt_is_Some_2 a (Z.to_nat i)) as [x Hx]; [lia|].
  rewrite Hx. eauto.
Qed.

Lemma array_get_lookup {A : Type} name (a : list A) i x :
  array_get name a i = Ok x -> 0 <= i /\ a !! Z.to_nat i = Some x.
Proof.
  unfold array_get. destruct (0 <=? i) eqn:Hi; [|done].
  apply Z.leb_le in Hi. destruct (a !! Z.to_nat i); [|done].
  by intros [= ->].
Qed.

Lemma array_set_in_range {A : Type} name (a : list A) i x :
  0 <= i < Z.of_nat (length a) ->
  array_set name a i x = Ok (<[Z.to_nat i := x]> a).
Proof.
  intros Hi. unfold array_set.
  rewrite (proj2 (Z.leb_le _ _)), (proj2 (Z.ltb_lt _ _)) by lia. done.
Qed.

Lemma node_at_lookup ns id n :
  node_at ns id = Some n <-> 0 <= id /\ ns !! Z.to_nat id = Some n.
Proof.
  unfold node_at. destruct (id <? 0) eqn:Hid.
  - apply Z.ltb_lt in Hid. split; [done|]. intros [? _]. lia.
  - apply Z.ltb_ge in Hid. tauto.
Qed.

Lemma readNode_frame id t :
  exists r t',
    readNode id t = Ok (r, t') /\
    nodes t' = nodes t /\ root_id t' = root_id t /\
    next_node_id t' = next_node_id t /\
    (forall n, r = Some n -> node_at (nodes t) id = Some n) /\
    (r = None -> exists t'',
        readNode id t' = Ok (None, t'') /\
        nodes t'' = nodes t /\ root_id t'' = root_id t /\
        next_node_id t'' = next_node_id t).
Proof.
  unfold readNode.
  destruct (is_open t) eqn:Ho; simpl.
  - destruct (good t && (0 <=? id)) eqn:Hg.
    + apply andb_true_iff in Hg as [Hg Hid]. apply Z.leb_le in Hid.
      destruct (nodes t !! Z.to_nat id) as [n|] eqn:Hn.
      * eexists _, _. split; [reflexivity|]. simpl.
        repeat split; try done.
        intros n' [= <-]. by apply node_at_lookup.
      * eexists _, _. split; [reflexivity|]. simpl.
        repeat split; try done.
        intros _. rewrite Ho. simpl. eexists. split; [reflexivity|]. done.
    + eexists _, _. split; [reflexivity|]. simpl.
      repeat split; try done.
      intros _. rewrite Ho. simpl. eexists. split; [reflexivity|]. done.
  - exists None, t. repeat split; try done.
    intros _. rewrite Ho. simpl. exists t. done.
Qed.

(** ** Bounded loops *)

Lemma scan_up_bounds n : forall i test,
  (forall j, i <= j < i + Z.of_nat n -> exists b, test j = Ok b) ->
  exists r, scan_up n i test = Ok r /\ i <= r <= i + Z.of_nat n.
Proof.
  induction n as [|n IH]; intros i test Htest; simpl.
  - exists i. split; [done|lia].
  - destruct (Htest i) as [b Hb]; [lia|]. rewrite Hb. simpl.
    destruct b.
    + destruct (IH (i + 1) test) as (r & Hr & Hbounds).
      { intros j Hj. apply Htest. lia. }
      exists r. split; [done|lia].
    + exists i. split; [done|lia].
Qed.

Lemma find_up_none n : forall i test,
  (forall j, i <= j < i + Z.of_nat n -> test j = Ok false) ->
  find_up n i test = Ok None.
Proof.
  induction n as [|n IH]; intros i test Htest; simpl; [done|].
  rewrite Htest by lia. simpl. apply IH. intros j Hj. apply Htest. lia.
Qed.

Lemma elem_of_concat_map {A B : Type} (f : A -> list B) (l : list A) x y :
  y ∈ l -> x ∈ f y -> x ∈ concat (map f l).
Proof.
  induction l as [|a l IH]; intros Hy Hx; [by inversion Hy|].
  simpl. apply elem_of_app.
  apply elem_of_cons in Hy as [->|Hy]; [by left|right; auto].
Qed.

(** ** Descent *)

Lemma get_key_in_use n i :
  node_wf n -> 0 <= i < num_keys n ->
  exists k, get_key i n = Ok k /\ k ∈ leaf_keys n.
Proof.
  intros (Hk & _ & Hn) Hi. unfold get_key.
  destruct (array_get_in_range arr_keys (keys n) i) as (k & Hget & Hlook).
  { rewrite Hk. unfold MAX_KEYS in *. lia. }
  exists k. split; [done|].
  unfold leaf_keys. apply list_elem_of_lookup. exists (Z.to_nat i).
  rewrite lookup_take_lt by lia. done.
Qed.

Lemma get_child_in_use n i :
  node_wf n -> 0 <= i <= num_keys n ->
  exists c, get_child i n = Ok c /\ c ∈ child_ids n.
Proof.
  intros (_ & Hc & Hn) Hi. unfold get_child.
  destruct (array_get_in_range arr_children (children n) i) as (c & Hget & Hlook).
  { rewrite Hc. unfold MAX_KEYS in *. lia. }
  exists c. split; [done|].
  unfold child_ids. apply list_elem_of_lookup. exists (Z.to_nat i).
  rewrite lookup_take_lt by lia. done.
Qed.

Lemma child_index_in_use key n :
  node_wf n ->
  exists i, child_index key n = Ok i /\ 0 <= i <= num_keys n.
Proof.
  intros Hwf. unfold child_index, scan_while.
  destruct (scan_up_bounds (Z.to_nat (num_keys n - 0)) 0
              (fun i => let+ k := get_key i n in Ok (k <=? key)))
    as (r & Hr & Hbounds).
  - intros j Hj.
    destruct (get_key_in_use n j) as (k & Hk & _); [done|lia|].
    rewrite Hk. simpl. eauto.
  - exists r. split; [done|]. destruct Hwf as (_ & _ & ?). lia.
Qed.

Lemma key_position_absent key n :
  node_wf n -> key ∉ leaf_keys n -> key_position key n = Ok None.
Proof.
  intros Hwf Habs. unfold key_position, find_first.
  apply find_up_none. intros j Hj.
  destruct (get_key_in_use n j) as (k & Hk & Hin); [done|lia|].
  rewrite Hk. simpl. f_equal. apply Z.eqb_neq. intros ->. done.
Qed.

Lemma node_at_elem_of ns id n : node_at ns id = Some n -> n ∈ ns.
Proof.
  intros H. apply node_at_lookup in H as [_ H].
  apply list_elem_of_lookup. eauto.
Qed.

Lemma findLeaf_loop_returns (rank : Z -> nat) key ns :
  Forall node_wf ns ->
  (forall id n, node_at ns id = Some n -> is_leaf n = false ->
     Forall (fun c => (rank c < rank id)%nat) (child_ids n)) ->
  forall fuel current t,
    nodes t = ns -> (rank current < fuel)%nat ->
    exists leaf_id t',
      findLeaf_loop fuel key current t = Ok (leaf_id, t') /\
      nodes t' = ns /\ root_id t' = root_id t /\
      next_node_id t' = next_node_id t /\
      (leaf_id = -1 \/
       exists leaf, node_at ns leaf_id = Some leaf /\ is_leaf leaf = true /\
                    leaf_keys leaf ⊆ subtree_keys fuel ns current).
Proof.
  intros Hwf Hrank fuel.
  induction fuel as [|fuel IH]; intros current t Hns Hlt; [lia|].
  simpl. unfold bind.
  destruct (readNode_frame current t)
    as (r & t1 & Hread & Hns1 & Hroot1 & Hnext1 & Hsome & Hnone).
  rewrite Hread. rewrite Hns in *.
  assert (Hstep : forall node t2,
    node_at ns current = Some node -> is_leaf node = false ->
    nodes t2 = ns -> root_id t2 = root_id t -> next_node_id t2 = next_node_id t ->
    exists leaf_id t',
      (let* i := lift (child_index key node) in
       let* c := lift (get_child i node) in
       findLeaf_loop fuel key c) t2 = Ok (leaf_id, t') /\
      nodes t' = ns /\ root_id t' = root_id t /\
      next_node_id t' = next_node_id t /\
      (leaf_id = -1 \/
       exists leaf, node_at ns leaf_id = Some leaf /\ is_leaf leaf = true /\
                    leaf_keys leaf ⊆ subtree_keys (S fuel) ns current)).
  { intros node t2 Hnode Hint Hns2 Hroot2 Hnext2.
    assert (Hnwf : node_wf node).
    { eapply Forall_forall; [exact Hwf|]. by eapply node_at_elem_of. }
    destruct (child_index_in_use key node Hnwf) as (i & Hi & Hbounds).
    destruct (get_child_in_use node i Hnwf Hbounds) as (c & Hc & Hcin).
    unfold bind, lift. rewrite Hi, Hc.
    assert (Hrc : (rank c < fuel)%nat).
    { pose proof (Hrank current node Hnode Hint) as Hall.
      rewrite Forall_forall in Hall. specialize (Hall c Hcin). lia. }
    destruct (IH c t2 Hns2 Hrc) as (leaf_id & t' & Hloop & Hns' & Hroot' & Hnext' & Hleaf).
    exists leaf_id, t'. split; [done|]. split; [done|].
    split; [congruence|]. split; [congruence|].
    destruct Hleaf as [->|(leaf & Hleaf & Hisleaf & Hsub)]; [by left|right].
    exists leaf. split; [done|]. split; [done|].
    simpl. rewrite Hnode, Hint.
    intros k Hk. apply (elem_of_concat_map _ _ _ c); [done|by apply Hsub]. }
  destruct r as [node|].
  - specialize (Hsome node eq_refl).
    destruct (is_leaf node) eqn:Hisleaf.
    + exists current, t1. unfold ret. split; [done|]. split; [done|].
      split; [done|]. split; [done|]. right. exists node.
      split; [done|]. split; [done|]. simpl. by rewrite Hsome, Hisleaf.
    + destruct (readNode_frame current t1)
        as (r2 & t2 & Hread2 & Hns2 & Hroot2 & Hnext2 & Hsome2 & _).
      rewrite Hread2. destruct r2 as [node2|].
      * specialize (Hsome2 node2 eq_refl). rewrite Hns1 in Hsome2.
        assert (node2 = node) as -> by congruence.
        apply Hstep; congruence.
      * exists (-1), t2. unfold ret. split; [done|].
        split; [congruence|]. split; [congruence|]. split; [congruence|].
        by left.
  - destruct (Hnone eq_refl) as (t2 & Hread2 & Hns2 & Hroot2 & Hnext2).
    rewrite Hread2. exists (-1), t2. unfold ret. split; [done|].
    split; [done|]. split; [done|]. split; [done|]. by left.
Qed.

(** C8. On an index whose nodes are well-formed and whose pages form a tree
    (a rank decreases from every internal node to its children), if [key] is
    not among the keys stored in the leaves under the root, [remove(key)]
    answers [false] and leaves [root_id], [next_node_id] and every node of
    the file as they were. *)
Theorem remove_missing_key (t : BPTree) (rank : Z -> nat) (key : Z) :
  Forall node_wf (nodes t) ->
  well_ranked t rank ->
  key ∉ keys_under t (root_id t) ->
  exists t',
    remove key t = Ok (false, t') /\
    root_id t' = root_id t /\
    next_node_id t' = next_node_id t /\
    nodes t' = nodes t.
Proof.
  intros Hwf [Hroot Hrank] Habs.
  unfold remove, findLeaf. unfold bind at 1. unfold get at 1.
  destruct (root_id t =? -1) eqn:Hempty; [by exists t|].
  unfold bind at 1. unfold bind at 1. unfold get at 1.
  rewrite Hempty.
  destruct (findLeaf_loop_returns rank key (nodes t) Hwf Hrank
              (S (length (nodes t))) (root_id t) t eq_refl)
    as (leaf_id & t1 & Hfind & Hns1 & Hroot1 & Hnext1 & Hleaf); [lia|].
  rewrite Hfind.
  destruct Hleaf as [->|(leaf & Hleaf & Hisleaf & Hsub)].
  { exists t1. done. }
  destruct (leaf_id =? -1) eqn:Hm1; [by exists t1|].
  unfold bind.
  destruct (readNode_frame leaf_id t1)
    as (r & t2 & Hread & Hns2 & Hroot2 & Hnext2 & Hsome & _).
  rewrite Hread. destruct r as [leaf'|].
  - specialize (Hsome leaf' eq_refl). rewrite Hns1 in Hsome.
    assert (leaf' = leaf) as -> by congruence.
    unfold lift. rewrite key_position_absent.
    + exists t2. unfold ret. repeat split; congruence.
    + eapply Forall_forall; [exact Hwf|]. by eapply node_at_elem_of.
    + intros Hin. apply Habs. unfold keys_under. by apply Hsub.
  - exists t2. unfold ret. repeat split; congruence.
Qed.

Lemma remove_missing_key_witness :
  exists t',
    remove 7 (loaded same_key_102) = Ok (false, t') /\
    root_id t' = root_id (loaded same_key_102) /\
    next_node_id t' = next_node_id (loaded same_key_102) /\
    nodes t' = nodes (loaded same_key_102).
Proof.
  apply (remove_missing_key (loaded same_key_102)
           (root_rank (loaded same_key_102)) 7).
  - vm_compute. repeat constructor; discriminate.
  - split; [vm_compute; lia|].
    intros id n Hn Hleaf. apply node_at_lookup in Hn as [Hid Hn].
    destruct (Z.to_nat id) as [|[|[|[|k]]]] eqn:Hk;
      vm_compute in Hn; try discriminate;
      injection Hn as <-; try discriminate Hleaf.
    assert (id = 3) as -> by lia.
    vm_compute. repeat constructor.
  - vm_compute. intros Hin.
    repeat (apply elem_of_cons in Hin as [Hin|Hin]; [discriminate Hin|]).
    by apply elem_of_nil in Hin.
Defined.

(** ** Writing the index file *)

Lemma lookup_write_page_eq {A : Type} (hole x : A) id ps :
  write_page hole id x ps !! id = Some x.
Proof.
  unfold write_page. case_decide as Hid.
  - by apply list_lookup_insert_eq.
  - rewrite lookup_app_r by lia. rewrite lookup_app_r by (rewrite length_replicate; lia).
    rewrite length_replicate.
    replace (id - length ps - (id - length ps))%nat with 0%nat by lia. done.
Qed.

Lemma lookup_write_page_ne {A : Type} (hole x : A) id j ps y :
  id <> j -> ps !! j = Some y -> write_page hole id x ps !! j = Some y.
Proof.
  intros Hne Hj. unfold write_page. case_decide as Hid.
  - by rewrite list_lookup_insert_ne.
  - by apply lookup_app_l_Some.
Qed.

Lemma node_at_write_eq x id ns :
  0 <= id -> node_at (write_page zero_node (Z.to_nat id) x ns) id = Some x.
Proof.
  intros Hid. apply node_at_lookup. split; [done|]. apply lookup_write_page_eq.
Qed.

Lemma node_at_write_ne x id j ns y :
  0 <= id -> id <> j -> node_at ns j = Some y ->
  node_at (write_page zero_node (Z.to_nat id) x ns) j = Some y.
Proof.
  intros Hid Hne Hj. apply node_at_lookup in Hj as [Hj0 Hj].
  apply node_at_lookup. split; [done|].
  apply lookup_write_page_ne; [lia|done].
Qed.

Lemma stable_below_refl k ns : stable_below k ns ns.
Proof. by intros id n _ H. Qed.

Lemma stable_below_trans k k' ns1 ns2 ns3 :
  k <= k' -> stable_below k ns1 ns2 -> stable_below k' ns2 ns3 ->
  stable_below k ns1 ns3.
Proof.
  intros Hk H12 H23 id n Hid Hn. apply H23; [lia|]. by apply H12.
Qed.

Lemma stable_below_write k id x ns :
  k <= id -> stable_below k ns (write_page zero_node (Z.to_nat id) x ns).
Proof.
  intros Hk j n Hj Hn.
  destruct (decide (0 <= id)) as [Hid|Hid].
  - apply node_at_write_ne; [done|lia|done].
  - apply node_at_lookup in Hn as [? _]. lia.
Qed.

Lemma writeNode_open id n t :
  index_open t -> 0 <= id ->
  exists t',
    writeNode id n t = Ok (true, t') /\
    index_open t' /\
    nodes t' = write_page zero_node (Z.to_nat id) n (nodes t) /\
    next_node_id t' = next_node_id t /\ root_id t' = root_id t.
Proof.
  intros [Ho Hg] Hid. unfold writeNode. rewrite Ho, Hg. simpl.
  rewrite (proj2 (Z.leb_le _ _) Hid).
  eexists. split; [reflexivity|]. by repeat split.
Qed.

Lemma readNode_open id n t :
  index_open t -> node_at (nodes t) id = Some n ->
  exists t',
    readNode id t = Ok (Some n, t') /\
    index_open t' /\ nodes t' = nodes t /\
    next_node_id t' = next_node_id t /\ root_id t' = root_id t.
Proof.
  intros [Ho Hg] Hn. apply node_at_lookup in Hn as [Hid Hn].
  unfold readNode. rewrite Ho, Hg, Hn. simpl.
  rewrite (proj2 (Z.leb_le _ _) Hid).
  eexists. split; [reflexivity|]. by repeat split.
Qed.

Lemma createNode_open n t :
  index_open t -> 0 <= next_node_id t ->
  exists t',
    createNode n t = Ok (next_node_id t, t') /\
    index_open t' /\
    nodes t' = write_page zero_node (Z.to_nat (next_node_id t)) n (nodes t) /\
    next_node_id t' = next_node_id t + 1 /\ root_id t' = root_id t.
Proof.
  intros Hopen Hid. unfold createNode, bind, get, put, ret.
  destruct Hopen as [Ho Hg]. rewrite Ho. simpl.
  unfold writeNode. simpl. rewrite Ho, Hg. simpl.
  rewrite (proj2 (Z.leb_le _ _) Hid).
  eexists. split; [reflexivity|]. by repeat split.
Qed.

(** ** Bulk load: the leaves *)

Lemma order_101 : order = 101.
Proof. reflexivity. Qed.

Lemma rem_order_chunk a r :
  0 <= a -> 1 <= r <= 101 ->
  (Z.rem (101 * a + r) order =? 0) = (r =? 101).
Proof.
  intros Ha Hr. rewrite order_101, Z.rem_mod_nonneg by lia.
  destruct (r =? 101) eqn:Hfull.
  - apply Z.eqb_eq in Hfull as ->. apply Z.eqb_eq.
    replace (101 * a + 101) with ((a + 1) * 101) by lia.
    apply Z_mod_mult.
  - apply Z.eqb_neq in Hfull. apply Z.eqb_neq.
    rewrite Z.add_comm, Z.mul_comm, Z_mod_plus_full, Z.mod_small; lia.
Qed.

Lemma set_key_in_range i k n :
  0 <= i < Z.of_nat (length (keys n)) ->
  set_key i k n = Ok (set_keys (<[Z.to_nat i := k]> (keys n)) n).
Proof. intros Hi. unfold set_key. by rewrite array_set_in_range. Qed.

Lemma set_child_in_range i c n :
  0 <= i < Z.of_nat (length (children n)) ->
  set_child i c n = Ok (set_children (<[Z.to_nat i := c]> (children n)) n).
Proof. intros Hi. unfold set_child. by rewrite array_set_in_range. Qed.

Lemma take_S_insert {A : Type} (l : list A) m x :
  (m < length l)%nat -> take (S m) (<[m := x]> l) = take m l ++ [x].
Proof.
  intros Hm. rewrite (take_S_r _ _ x) by by apply list_lookup_insert_eq.
  by rewrite take_insert_ge.
Qed.

Lemma holds_keys_new : holds_keys new_node [].
Proof. by repeat split. Qed.

Lemma holds_keys_push leaf ks k c :
  holds_keys leaf ks -> (length ks < 101)%nat ->
  holds_keys (leaf_with k c leaf) (ks ++ [k]).
Proof.
  intros (Hl & Hn & Hk & Hlk & Hlc) Hlen.
  unfold holds_keys, leaf_with, leaf_keys in *. simpl.
  rewrite length_app, !length_insert. simpl.
  split; [done|]. split; [lia|]. split; [|done].
  replace (Z.to_nat (num_keys leaf + 1)) with (S (Z.to_nat (num_keys leaf))) by lia.
  rewrite take_S_insert; [by rewrite Hk|].
  rewrite Hlk. unfold MAX_KEYS. lia.
Qed.

Lemma push_entry_runs {A : Type} leaf ks (e : entry) (k : BPTreeNode -> M BPTree A) t r :
  holds_keys leaf ks -> (length ks < 101)%nat ->
  k (leaf_with e.1 (encode e.2) leaf) t = r ->
  (let* leaf := lift (set_key (num_keys leaf) e.1 leaf) in
   let* leaf := lift (set_child (num_keys leaf) (encode e.2) leaf) in
   k (set_num_keys (num_keys leaf + 1) leaf)) t
  = r.
Proof.
  intros (Hl & Hn & Hk & Hlk & Hlc) Hlen <-.
  unfold bind, lift.
  rewrite set_key_in_range by (rewrite Hlk; unfold MAX_KEYS; lia).
  simpl.
  rewrite set_child_in_range by (simpl; rewrite Hlc; unfold MAX_KEYS; lia).
  reflexivity.
Qed.

Lemma id_range_S n0 m : id_range n0 (S m) = id_range n0 m ++ [n0 + Z.of_nat m].
Proof. unfold id_range. rewrite seq_S, fmap_app. done. Qed.

Lemma length_id_range n0 m : length (id_range n0 m) = m.
Proof. unfold id_range. by rewrite length_fmap, length_seq. Qed.

Lemma lookup_id_range n0 m g :
  (g < m)%nat -> id_range n0 m !! g = Some (n0 + Z.of_nat g).
Proof.
  intros Hg. unfold id_range. rewrite list_lookup_fmap, lookup_seq_lt by done. done.
Qed.

Lemma leaves_at_stable ns ns' n0 kls :
  leaves_at ns n0 kls ->
  stable_below (n0 + Z.of_nat (length kls)) ns ns' ->
  leaves_at ns' n0 kls.
Proof.
  intros Hat Hst g ks Hg.
  destruct (Hat g ks Hg) as (n & Hn & Hks).
  exists n. split; [|done]. apply Hst; [|done].
  apply lookup_lt_Some in Hg. lia.
Qed.

Lemma leaves_at_snoc ns n0 kls n ks :
  leaves_at ns n0 kls ->
  node_at ns (n0 + Z.of_nat (length kls)) = Some n -> holds_keys n ks ->
  leaves_at ns n0 (kls ++ [ks]).
Proof.
  intros Hat Hn Hks g ks' Hg.
  apply lookup_app_Some in Hg as [Hg|[Hlen Hg]].
  - by apply Hat.
  - apply list_lookup_singleton_Some in Hg as [Hg0 <-].
    exists n. split; [|done].
    replace g with (length kls) by lia. done.
Qed.

Lemma bind_ok {S A B : Type} (m : M S A) (k : A -> M S B) s a s' :
  m s = Ok (a, s') -> bind m k s = k a s'.
Proof. intros H. unfold bind. by rewrite H. Qed.

Lemma fill_leaves_spec n0 :
  0 <= n0 ->
  forall rest chunks cur t cl leaf lns,
    filling n0 chunks cur t cl leaf lns ->
    exists chunks' cur' t' cl' leaf' lns',
      fill_leaves rest (Z.of_nat (101 * length chunks + length cur)) cl leaf lns t
        = Ok ((cl', leaf', lns'), t') /\
      filling n0 chunks' cur' t' cl' leaf' lns' /\
      concat chunks' ++ cur' = concat chunks ++ cur ++ rest.
Proof.
  intros Hn0 rest.
  induction rest as [|e rest IH]; intros chunks cur t cl leaf lns Hfill.
  - exists chunks, cur, t, cl, leaf, lns. simpl.
    split; [done|]. split; [done|]. by rewrite app_nil_r.
  - destruct Hfill as (Hopen & Hnext & Hcl & Hlns & Hleaf & Hcur & Hchunks & Hat).
    assert (Hi : Z.of_nat (101 * length chunks + length cur)
                 = 101 * Z.of_nat (length chunks) + Z.of_nat (length cur)) by lia.
    cbn [fill_leaves].
    destruct (Z.of_nat (length cur) =? 101) eqn:Hfull.
    + apply Z.eqb_eq in Hfull.
      destruct (writeNode_open cl leaf t Hopen) as (t1 & Hw & Hopen1 & Hns1 & Hnext1 & _);
        [lia|].
      destruct (createNode_open (set_is_leaf true new_node) t1 Hopen1)
        as (t2 & Hc & Hopen2 & Hns2 & Hnext2 & _); [lia|].
      erewrite bind_ok; cycle 1.
      { rewrite Hi, rem_order_chunk by lia.
        rewrite (proj2 (Z.eqb_eq _ _) Hfull).
        erewrite bind_ok; cycle 1.
        { rewrite (proj2 (Z.eqb_neq cl (-1))) by lia. cbn [negb].
          erewrite bind_ok; [|exact Hw]. reflexivity. }
        erewrite bind_ok; [|exact Hc]. reflexivity. }
      cbv beta iota.
      destruct (IH (chunks ++ [cur]) [e] t2 (next_node_id t1)
                  (leaf_with e.1 (encode e.2) (set_is_leaf true new_node)) (lns ++ [cl]))
        as (chunks' & cur' & t' & cl' & leaf' & lns' & Hrun & Hfill' & Hcat).
      { split; [done|]. rewrite length_app. simpl.
        split; [lia|]. split; [lia|].
        split; [by rewrite Nat.add_1_r, id_range_S, Hlns, Hcl|].
        split; [apply (holds_keys_push _ [] e.1); [apply holds_keys_new|simpl; lia]|].
        split; [simpl; lia|].
        split; [apply Forall_app; split; [done|]; apply Forall_singleton; lia|].
        unfold chunk_keys. rewrite fmap_app. simpl.
        apply (leaves_at_snoc _ _ _ leaf).
        - apply (leaves_at_stable (nodes t)); [done|].
          rewrite length_fmap, Hns2, Hns1.
          apply (stable_below_trans _ (n0 + Z.of_nat (length chunks)) _
                   (write_page zero_node (Z.to_nat cl) leaf (nodes t)));
            [reflexivity| |]; apply stable_below_write; lia.
        - rewrite length_fmap, Hns2, Hns1.
          apply node_at_write_ne; [lia|lia|].
          rewrite <- Hcl. apply node_at_write_eq. lia.
        - done. }
      exists chunks', cur', t', cl', leaf', lns'.
      split.
      { apply (push_entry_runs (set_is_leaf true new_node) [] e
                 (fun l => fill_leaves rest _ (next_node_id t1) l (lns ++ [cl])));
          [apply holds_keys_new|simpl; lia|].
        rewrite <- Hrun. f_equal.
        rewrite length_app. simpl. lia. }
      split; [done|].
      rewrite Hcat, concat_app. simpl. rewrite app_nil_r, <- !app_assoc. done.
    + apply Z.eqb_neq in Hfull.
      erewrite bind_ok; cycle 1.
      { rewrite Hi, rem_order_chunk by lia.
        rewrite (proj2 (Z.eqb_neq _ _) Hfull). reflexivity. }
      cbv beta iota.
      destruct (IH chunks (cur ++ [e]) t cl (leaf_with e.1 (encode e.2) leaf) lns)
        as (chunks' & cur' & t' & cl' & leaf' & lns' & Hrun & Hfill' & Hcat).
      { split; [done|]. split; [done|]. split; [done|]. split; [done|].
        split.
        { rewrite fmap_app. apply holds_keys_push; [done|rewrite length_fmap; lia]. }
        rewrite length_app. simpl. split; [lia|]. done. }
      exists chunks', cur', t', cl', leaf', lns'.
      split.
      { apply (push_entry_runs leaf (cur.*1) e
                 (fun l => fill_leaves rest _ cl l lns));
          [done|rewrite length_fmap; lia|].
        rewrite <- Hrun. f_equal.
        rewrite length_app. simpl. lia. }
      split; [done|].
      rewrite Hcat, <- !app_assoc. done.
Qed.

Lemma concat_chunk_keys chunks : concat (chunk_keys chunks) = (concat chunks).*1.
Proof.
  unfold chunk_keys. induction chunks as [|c chunks IH]; [done|].
  rewrite fmap_cons. cbn [concat]. by rewrite fmap_app, IH.
Qed.

(** The first loop of [bulkLoad] and the write that follows it. *)
Lemma leaves_phase t sorted_data :
  index_open t -> 0 <= next_node_id t -> sorted_data <> [] ->
  exists cl leaf lns t1 t2 kls,
    fill_leaves sorted_data 0 (-1) new_node [] t = Ok ((cl, leaf, lns), t1) /\
    negb (cl =? -1) = true /\
    writeNode cl leaf t1 = Ok (true, t2) /\
    lns ++ [cl] = id_range (next_node_id t) (length kls) /\
    index_open t2 /\
    next_node_id t2 = next_node_id t + Z.of_nat (length kls) /\
    leaves_at (nodes t2) (next_node_id t) kls /\
    concat kls = sorted_data.*1 /\
    Forall (fun ks => ks <> []) kls /\
    kls <> [].
Proof.
  intros Hopen Hn0 Hne.
  destruct sorted_data as [|e rest]; [done|]. clear Hne.
  set (n0 := next_node_id t).
  destruct (createNode_open (set_is_leaf true new_node) t Hopen Hn0)
    as (t0 & Hc & Hopen0 & Hns0 & Hnext0 & Hroot0).
  destruct (fill_leaves_spec n0 Hn0 rest [] [e] t0 n0
              (leaf_with e.1 (encode e.2) (set_is_leaf true new_node)) [])
    as (chunks & cur & t1 & cl & leaf & lns & Hrun & Hfill & Hcat).
  { split; [done|]. split; [simpl; lia|]. split; [simpl; lia|].
    split; [done|].
    split; [apply (holds_keys_push _ [] e.1); [apply holds_keys_new|simpl; lia]|].
    split; [simpl; lia|]. split; [done|].
    intros g ks Hg. done. }
  destruct Hfill as (Hopen1 & Hnext1 & Hcl & Hlns & Hleaf & Hcur & Hchunks & Hat).
  destruct (writeNode_open cl leaf t1 Hopen1) as (t2 & Hw & Hopen2 & Hns2 & Hnext2 & Hroot2);
    [lia|].
  exists cl, leaf, lns, t1, t2, (chunk_keys (chunks ++ [cur])).
  assert (Hlen : length (chunk_keys (chunks ++ [cur])) = S (length chunks)).
  { unfold chunk_keys. rewrite length_fmap, length_app. simpl. lia. }
  split.
  { cbn [fill_leaves].
    erewrite bind_ok; cycle 1.
    { change (Z.rem 0 order =? 0) with true. cbv iota.
      erewrite bind_ok; [|reflexivity].
      erewrite bind_ok; [|exact Hc]. reflexivity. }
    cbv beta iota.
    apply (push_entry_runs (set_is_leaf true new_node) [] e
             (fun l => fill_leaves rest _ n0 l []));
      [apply holds_keys_new|simpl; lia|].
    exact Hrun. }
  split; [apply negb_true_iff, Z.eqb_neq; lia|].
  split; [done|].
  split; [by rewrite Hlen, id_range_S, Hlns, Hcl|].
  split; [done|].
  split; [rewrite Hnext2, Hnext1, Hlen; lia|].
  split.
  { unfold chunk_keys. rewrite fmap_app. simpl.
    apply (leaves_at_snoc _ _ _ leaf).
    - apply (leaves_at_stable (nodes t1)); [done|].
      rewrite Hns2. apply stable_below_write. rewrite length_fmap. lia.
    - rewrite length_fmap, Hns2, <- Hcl. apply node_at_write_eq. lia.
    - done. }
  split.
  { rewrite concat_chunk_keys, concat_app. simpl.
    rewrite app_nil_r, Hcat. done. }
  split.
  { unfold chunk_keys. apply Forall_fmap, Forall_app. split.
    - eapply Forall_impl; [exact Hchunks|]. intros c Hc' Hnil. simpl in Hnil.
      apply fmap_nil_inv in Hnil. subst. simpl in Hc'. lia.
    - apply Forall_singleton. intros Hnil. simpl in Hnil.
      apply fmap_nil_inv in Hnil. subst. simpl in Hcur. lia. }
  intros Hnil. rewrite Hnil in Hlen. done.
Qed.

(** ** Bulk load: the leaf chain *)

Lemma same_but_next_refl n : same_but_next n n.
Proof. by repeat split. Qed.

Lemma same_but_next_trans n1 n2 n3 :
  same_but_next n1 n2 -> same_but_next n2 n3 -> same_but_next n1 n3.
Proof.
  intros (H1 & H2 & H3 & H4) (H1' & H2' & H3' & H4').
  repeat split; congruence.
Qed.

Lemma holds_keys_same_but_next n n' ks :
  holds_keys n ks -> same_but_next n n' -> holds_keys n' ks.
Proof.
  intros (Hl & Hn & Hk & Hlk & Hlc) (H1 & H2 & H3 & H4).
  unfold holds_keys, leaf_keys in *. rewrite H1, H2, H3, H4. done.
Qed.

Lemma link_leaves_from_spec ids : forall t,
  index_open t ->
  (forall id, id ∈ ids -> exists n, node_at (nodes t) id = Some n) ->
  exists t',
    link_leaves_from ids t = Ok (tt, t') /\
    index_open t' /\ next_node_id t' = next_node_id t /\
    forall id n, node_at (nodes t) id = Some n ->
      exists n', node_at (nodes t') id = Some n' /\ same_but_next n n'.
Proof.
  induction ids as [|a ids IH]; intros t Hopen Hids.
  { exists t. split; [done|]. split; [done|]. split; [done|].
    intros id n Hn. exists n. split; [done|apply same_but_next_refl]. }
  destruct ids as [|b rest].
  { exists t. split; [done|]. split; [done|]. split; [done|].
    intros id n Hn. exists n. split; [done|apply same_but_next_refl]. }
  destruct (Hids a) as [na Hna]; [apply list_elem_of_here|].
  assert (Ha : 0 <= a) by (by apply node_at_lookup in Hna as [? _]).
  destruct (readNode_open a na t Hopen Hna) as (t1 & Hr & Hopen1 & Hns1 & Hnext1 & _).
  destruct (writeNode_open a (set_next_leaf b na) t1 Hopen1 Ha)
    as (t2 & Hw & Hopen2 & Hns2 & Hnext2 & _).
  assert (Hstep : forall id n, node_at (nodes t) id = Some n ->
            exists n', node_at (nodes t2) id = Some n' /\ same_but_next n n').
  { intros id n Hn. rewrite Hns2, Hns1.
    destruct (decide (a = id)) as [<-|Hne].
    - exists (set_next_leaf b na). split; [by apply node_at_write_eq|].
      assert (n = na) as -> by congruence. by repeat split.
    - exists n. split; [by apply node_at_write_ne|apply same_but_next_refl]. }
  destruct (IH t2 Hopen2) as (t' & Hrun & Hopen' & Hnext' & Hsame).
  { intros id Hid. destruct (Hids id) as [n Hn]; [by apply list_elem_of_further|].
    destruct (Hstep id n Hn) as (n' & Hn' & _). eauto. }
  exists t'. split.
  { cbn [link_leaves_from].
    erewrite bind_ok; [|exact Hr]. change (default new_node (Some na)) with na.
    erewrite bind_ok; [|exact Hw]. exact Hrun. }
  split; [done|]. split; [congruence|].
  intros id n Hn.
  destruct (Hstep id n Hn) as (n1 & Hn1 & Hsame1).
  destruct (Hsame id n1 Hn1) as (n' & Hn' & Hsame').
  exists n'. split; [done|]. by eapply same_but_next_trans.
Qed.

Lemma leaves_at_same_but_next ns ns' n0 kls :
  leaves_at ns n0 kls ->
  (forall id n, node_at ns id = Some n ->
     exists n', node_at ns' id = Some n' /\ same_but_next n n') ->
  leaves_at ns' n0 kls.
Proof.
  intros Hat Hsame g ks Hg.
  destruct (Hat g ks Hg) as (n & Hn & Hks).
  destruct (Hsame _ n Hn) as (n' & Hn' & Hs).
  exists n'. split; [done|]. by eapply holds_keys_same_but_next.
Qed.

Lemma elem_of_id_range n0 m id :
  id ∈ id_range n0 m <-> exists g, (g < m)%nat /\ id = n0 + Z.of_nat g.
Proof.
  unfold id_range. rewrite list_elem_of_fmap. split.
  - intros (g & -> & Hg). apply elem_of_seq in Hg. exists g. split; [lia|done].
  - intros (g & Hg & ->). exists g. split; [done|]. apply elem_of_seq. lia.
Qed.

Lemma leaves_at_present ns n0 kls id :
  leaves_at ns n0 kls -> id ∈ id_range n0 (length kls) ->
  exists n, node_at ns id = Some n /\ is_leaf n = true /\
            length (keys n) = Z.to_nat MAX_KEYS.
Proof.
  intros Hat Hid. apply elem_of_id_range in Hid as (g & Hg & ->).
  destruct (lookup_lt_is_Some_2 kls g Hg) as [ks Hks].
  destruct (Hat g ks Hks) as (n & Hn & Hl & _ & _ & Hlk & _).
  eauto.
Qed.

(** The second loop of [bulkLoad]. *)
Lemma link_phase t n0 kls :
  index_open t -> kls <> [] -> leaves_at (nodes t) n0 kls ->
  exists t',
    link_leaves (id_range n0 (length kls)) t = Ok (tt, t') /\
    index_open t' /\ next_node_id t' = next_node_id t /\
    leaves_at (nodes t') n0 kls.
Proof.
  intros Hopen Hne Hat.
  destruct (link_leaves_from_spec (id_range n0 (length kls)) t Hopen)
    as (t' & Hrun & Hopen' & Hnext' & Hsame).
  { intros id Hid. destruct (leaves_at_present _ _ _ _ Hat Hid) as (n & Hn & _). eauto. }
  exists t'. split.
  { unfold link_leaves. destruct kls as [|ks kls]; [done|].
    rewrite <- Hrun. done. }
  split; [done|]. split; [done|].
  by eapply leaves_at_same_but_next.
Qed.

(** ** Bulk load: the upper levels *)

Lemma adopt_spec group : forall (kn : nat) internal t,
  index_open t ->
  is_leaf internal = false ->
  num_keys internal = Z.of_nat kn ->
  length (keys internal) = Z.to_nat MAX_KEYS ->
  length (children internal) = Z.to_nat (MAX_KEYS + 1) ->
  (kn + length group <= 101)%nat ->
  (forall id, id ∈ group ->
     exists n, node_at (nodes t) id = Some n /\ length (keys n) = Z.to_nat MAX_KEYS) ->
  exists internal' t',
    adopt group (Z.of_nat kn) internal t = Ok (internal', t') /\
    index_open t' /\ nodes t' = nodes t /\ next_node_id t' = next_node_id t /\
    is_leaf internal' = false /\
    length (keys internal') = Z.to_nat MAX_KEYS /\
    length (children internal') = Z.to_nat (MAX_KEYS + 1) /\
    (group <> [] -> num_keys internal' = Z.of_nat (kn + length group) - 1) /\
    (forall j, (j < kn)%nat ->
       children internal' !! j = children internal !! j /\
       keys internal' !! j = keys internal !! j) /\
    (forall j c, group !! j = Some c -> children internal' !! (kn + j)%nat = Some c) /\
    (forall j c n, group !! S j = Some c -> node_at (nodes t) c = Some n ->
       keys internal' !! (kn + j)%nat = keys n !! 0%nat).
Proof.
  induction group as [|id rest IH]; intros kn internal t Hopen Hleaf Hnk Hlk Hlc Hfit Hpresent.
  { exists internal, t. simpl. split; [done|]. split; [done|].
    repeat split; done. }
  simpl in Hfit.
  cbn [adopt].
  rewrite bind_ok with (a := set_children (<[kn := id]> (children internal)) internal) (s' := t);
    cycle 1.
  { unfold lift. rewrite set_child_in_range by (rewrite Hlc; unfold MAX_KEYS; lia).
    by rewrite Nat2Z.id. }
  set (internal1 := set_children (<[kn := id]> (children internal)) internal).
  destruct rest as [|next rest].
  { exists internal1, t. split; [done|]. split; [done|]. split; [done|]. split; [done|].
    split; [done|]. split; [done|].
    split; [simpl; by rewrite length_insert|].
    split; [intros _; simpl; lia|].
    split.
    { intros j Hj. simpl. split; [|done]. apply list_lookup_insert_ne. lia. }
    split.
    { intros j c Hj. apply list_lookup_singleton_Some in Hj as [-> <-].
      simpl. rewrite Nat.add_0_r. apply list_lookup_insert_eq.
      rewrite Hlc. unfold MAX_KEYS. lia. }
    intros j c n Hj. done. }
  destruct (Hpresent next) as (nn & Hnn & Hnnk);
    [apply list_elem_of_further, list_elem_of_here|].
  destruct (readNode_open next nn t Hopen Hnn) as (t1 & Hr & Hopen1 & Hns1 & Hnext1 & _).
  destruct (array_get_in_range arr_keys (keys nn) 0) as (k0 & Hk0 & Hk0look).
  { rewrite Hnnk. unfold MAX_KEYS. lia. }
  change (Z.to_nat 0) with 0%nat in Hk0look.
  set (internal3 :=
         set_num_keys (num_keys internal1 + 1)
           (set_keys (<[kn := k0]> (keys internal1)) internal1)).
  simpl in Hfit.
  destruct (IH (S kn) internal3 t1) as (internal' & t' & Hrun & Hopen' & Hns' & Hnext'
      & Hleaf' & Hlk' & Hlc' & Hnk' & Hkeep & Hch & Hks).
  { done. } { done. } { simpl. lia. }
  { simpl. by rewrite length_insert. }
  { simpl. by rewrite length_insert. }
  { simpl. lia. }
  { intros c Hc. rewrite Hns1. apply Hpresent. by apply list_elem_of_further. }
  exists internal', t'. split.
  { erewrite bind_ok; [|exact Hr]. change (default new_node (Some nn)) with nn.
    rewrite bind_ok with (a := k0) (s' := t1); [|unfold lift, get_key; by rewrite Hk0].
    rewrite bind_ok with (a := set_keys (<[kn := k0]> (keys internal1)) internal1) (s' := t1);
      cycle 1.
    { unfold lift. rewrite set_key_in_range.
      - simpl. by rewrite Hnk, Nat2Z.id.
      - simpl. rewrite Hnk, Hlk. unfold MAX_KEYS. lia. }
    replace (Z.of_nat kn + 1) with (Z.of_nat (S kn)) by lia.
    exact Hrun. }
  split; [done|]. split; [congruence|]. split; [congruence|].
  split; [done|]. split; [done|]. split; [done|].
  split.
  { intros _. rewrite Hnk' by done. simpl. lia. }
  split.
  { intros j Hj. destruct (Hkeep j) as [Hc Hk]; [lia|].
    rewrite Hc, Hk. simpl.
    rewrite !list_lookup_insert_ne by lia. done. }
  split.
  { intros j c Hj. destruct j as [|j].
    - simpl in Hj. injection Hj as <-.
      rewrite Nat.add_0_r. destruct (Hkeep kn) as [Hc _]; [lia|].
      rewrite Hc. simpl. apply list_lookup_insert_eq.
      rewrite Hlc. unfold MAX_KEYS. lia.
    - simpl in Hj. replace (kn + S j)%nat with (S kn + j)%nat by lia.
      by apply Hch. }
  intros j c n Hj Hn. destruct j as [|j].
  - simpl in Hj. injection Hj as <-.
    assert (n = nn) as -> by congruence.
    rewrite Nat.add_0_r. destruct (Hkeep kn) as [_ Hk]; [lia|].
    rewrite Hk, Hk0look. simpl. apply list_lookup_insert_eq.
    rewrite Hlk. unfold MAX_KEYS. lia.
  - replace (kn + S j)%nat with (S kn + j)%nat by lia.
    apply (Hks j c n); [done|]. by rewrite Hns1.
Qed.

Lemma built_from_weaken ns ns' grp p :
  built_from ns' grp p ->
  (forall c n, c ∈ grp -> node_at ns c = Some n -> node_at ns' c = Some n) ->
  built_from ns grp p.
Proof.
  intros (Hl & Hn & Hlk & Hlc & Hch & Hks) Hsub.
  split; [done|]. split; [done|]. split; [done|]. split; [done|]. split; [done|].
  intros j c n Hj Hc. apply (Hks j c n); [done|].
  apply Hsub; [|done]. apply list_elem_of_lookup. eauto.
Qed.

Lemma id_range_cons n0 m : id_range n0 (S m) = n0 :: id_range (n0 + 1) m.
Proof.
  unfold id_range. simpl. rewrite Z.add_0_r. f_equal.
  rewrite <- fmap_S_seq, <- list_fmap_compose.
  apply list_fmap_ext. intros _ g _. simpl. lia.
Qed.

Lemma build_level_spec fuel : forall ids t,
  index_open t -> 0 <= next_node_id t -> (length ids <= fuel)%nat ->
  (forall id, id ∈ ids ->
     id < next_node_id t /\
     exists n, node_at (nodes t) id = Some n /\ length (keys n) = Z.to_nat MAX_KEYS) ->
  exists G t',
    build_level fuel ids t = Ok (id_range (next_node_id t) G, t') /\
    index_open t' /\ next_node_id t' = next_node_id t + Z.of_nat G /\
    stable_below (next_node_id t) (nodes t) (nodes t') /\
    (101 * G < length ids + 101 /\ length ids <= 101 * G)%nat /\
    forall h, (h < G)%nat ->
      exists p, node_at (nodes t') (next_node_id t + Z.of_nat h) = Some p /\
                built_from (nodes t) (take 101 (drop (101 * h) ids)) p /\
                take 101 (drop (101 * h) ids) <> [].
Proof.
  induction fuel as [|fuel IH]; intros ids t Hopen Hnext Hfuel Hids.
  { destruct ids; [|simpl in Hfuel; lia].
    exists 0%nat, t. simpl. split; [done|]. split; [done|]. split; [lia|].
    split; [apply stable_below_refl|]. split; [lia|]. intros h Hh. lia. }
  destruct ids as [|id0 ids0] eqn:Hids_eq.
  { exists 0%nat, t. simpl. split; [done|]. split; [done|]. split; [lia|].
    split; [apply stable_below_refl|]. split; [lia|]. intros h Hh. lia. }
  rewrite <- Hids_eq in *.
  assert (Hne : ids <> []) by (by rewrite Hids_eq).
  assert (Hlen : (1 <= length ids)%nat) by (rewrite Hids_eq; simpl; lia).
  set (grp := take 101 ids).
  assert (Hgrp_ne : grp <> []).
  { unfold grp. rewrite Hids_eq. done. }
  destruct (adopt_spec grp 0 (set_is_leaf false new_node) t)
    as (internal & t1 & Hadopt & Hopen1 & Hns1 & Hnext1 & Hleaf & Hlk & Hlc & Hnk
        & _ & Hch & Hks); try done.
  { unfold grp. rewrite length_take. lia. }
  { intros c Hc. apply Hids. unfold grp in Hc. by apply subseteq_take in Hc. }
  destruct (createNode_open internal t1 Hopen1) as (t2 & Hc & Hopen2 & Hns2 & Hnext2 & _);
    [lia|].
  rewrite Hnext1 in Hc, Hns2, Hnext2. rewrite Hns1 in Hns2.
  assert (Hst2 : stable_below (next_node_id t) (nodes t) (nodes t2)).
  { rewrite Hns2. apply stable_below_write. lia. }
  destruct (IH (drop 101 ids) t2) as (G & t' & Hrun & Hopen' & Hnext' & Hst' & HG & Hbuilt).
  { done. } { lia. }
  { rewrite length_drop. lia. }
  { intros c Hcin. apply subseteq_drop in Hcin.
    destruct (Hids c Hcin) as (Hlt & n & Hn & Hnk0).
    split; [lia|]. exists n. split; [|done]. by apply Hst2. }
  rewrite Hnext2 in Hrun, Hnext', Hst', Hbuilt.
  exists (S G), t'. split.
  { rewrite Hids_eq. cbn [build_level]. rewrite <- Hids_eq.
    change (Z.to_nat order) with 101%nat. fold grp.
    erewrite bind_ok; [|exact Hadopt].
    erewrite bind_ok; [|exact Hc].
    erewrite bind_ok; [|exact Hrun].
    by rewrite id_range_cons. }
  split; [done|]. split; [lia|].
  split.
  { apply (stable_below_trans _ (next_node_id t + 1) _ (nodes t2)); [lia|done|done]. }
  split.
  { rewrite length_drop in HG. lia. }
  intros h Hh. destruct h as [|h].
  - exists internal. rewrite Z.add_0_r.
    change (take 101 (drop (101 * 0) ids)) with grp.
    split.
    { apply Hst'; [lia|]. rewrite Hns2. apply node_at_write_eq. lia. }
    split; [|done].
    split; [done|]. split; [rewrite Hnk by done; simpl; lia|].
    split; [done|]. split; [done|]. split; [done|].
    intros j c n Hj Hn. by apply (Hks j c n).
  - destruct (Hbuilt h) as (p & Hp & Hbf & Hgne); [lia|].
    rewrite drop_drop in Hbf, Hgne.
    replace (101 + 101 * h)%nat with (101 * S h)%nat in Hbf, Hgne by lia.
    exists p. split.
    { rewrite <- Hp. f_equal. lia. }
    split; [|done].
    apply (built_from_weaken _ (nodes t2)); [done|].
    intros c n Hcin Hn. apply Hst2; [|done].
    apply subseteq_take, subseteq_drop in Hcin.
    destruct (Hids c Hcin) as [Hlt _]. done.
Qed.

(** ** The order of the sorted entries *)

Lemma entry_le_keys a b : entry_le a b -> a.1 <= b.1.
Proof.
  unfold entry_le, entry_lt. intros H.
  apply orb_false_iff in H as [H _]. by apply Z.ltb_ge in H.
Qed.

Lemma ptr_lt_spec a b :
  ptr_lt a b = true <->
  block_id a < block_id b \/ (block_id a = block_id b /\ record_index a < record_index b).
Proof.
  unfold ptr_lt. destruct (block_id a =? block_id b) eqn:Hb; simpl.
  - apply Z.eqb_eq in Hb. rewrite Z.ltb_lt. lia.
  - apply Z.eqb_neq in Hb. rewrite Z.ltb_lt. lia.
Qed.

Lemma entry_lt_spec a b :
  entry_lt a b = true <->
  a.1 < b.1 \/ (a.1 = b.1 /\ ptr_lt a.2 b.2 = true).
Proof.
  unfold entry_lt. rewrite orb_true_iff, andb_true_iff, negb_true_iff.
  rewrite Z.ltb_lt, Z.ltb_ge. split.
  - intros [H|[H1 H2]]; [by left|].
    destruct (decide (a.1 < b.1)); [by left|right]. split; [lia|done].
  - intros [H|[H1 H2]]; [by left|right]. split; [lia|done].
Qed.

#[global] Instance entry_le_total : Total entry_le.
Proof.
  intros a b. unfold entry_le.
  destruct (entry_lt b a) eqn:Hba; [|by left].
  right. apply not_true_iff_false. intros Hab.
  apply entry_lt_spec in Hba, Hab.
  rewrite !ptr_lt_spec in Hba, Hab. lia.
Qed.

#[global] Instance entry_le_trans : Transitive entry_le.
Proof.
  intros a b c. unfold entry_le. intros Hab Hbc.
  apply not_true_iff_false. intros Hca.
  apply not_true_iff_false in Hab, Hbc.
  rewrite entry_lt_spec in Hab, Hbc, Hca.
  rewrite !ptr_lt_spec in Hab, Hbc, Hca. lia.
Qed.

Lemma std_sort_keys_sorted data : StronglySorted Z.le (std_sort data).*1.
Proof.
  apply (StronglySorted_fmap _ entry_le); [apply entry_le_keys|].
  apply StronglySorted_merge_sort; apply _.
Qed.

Lemma std_sort_nonempty data : data <> [] -> std_sort data <> [].
Proof.
  intros Hne Hnil. apply Hne.
  apply Permutation_nil_r. rewrite <- Hnil. unfold std_sort.
  by rewrite merge_sort_Permutation.
Qed.

Lemma elem_of_concat {A : Type} (ls : list (list A)) l x :
  l ∈ ls -> x ∈ l -> x ∈ concat ls.
Proof.
  induction ls as [|l0 ls IH]; intros Hl Hx; [by inversion Hl|].
  cbn [concat]. apply elem_of_app.
  apply elem_of_cons in Hl as [->|Hl]; [by left|right; auto].
Qed.

Lemma sorted_across kls :
  StronglySorted Z.le (concat kls) ->
  forall g g' a b x y,
    (g < g')%nat -> kls !! g = Some a -> kls !! g' = Some b ->
    x ∈ a -> y ∈ b -> x <= y.
Proof.
  induction kls as [|k0 kls IH]; intros Hs g g' a b x y Hlt Ha Hb Hx Hy; [done|].
  cbn [concat] in Hs. apply StronglySorted_app in Hs as (Hcross & _ & Hrest).
  destruct g' as [|g']; [lia|]. simpl in Hb.
  destruct g as [|g].
  - simpl in Ha. injection Ha as ->. apply Hcross; [done|].
    apply (elem_of_concat _ b); [|done].
    apply list_elem_of_lookup. eauto.
  - simpl in Ha. apply (IH Hrest g g' a b); [lia|done..].
Qed.

Lemma sorted_within kls g ks :
  StronglySorted Z.le (concat kls) -> kls !! g = Some ks -> StronglySorted Z.le ks.
Proof.
  revert g. induction kls as [|k0 kls IH]; intros g Hs Hg; [done|].
  cbn [concat] in Hs. apply StronglySorted_app in Hs as (_ & Hk0 & Hrest).
  destruct g as [|g]; simpl in Hg.
  - by injection Hg as <-.
  - by apply (IH g).
Qed.

Lemma sorted_head_least ks x y :
  StronglySorted Z.le ks -> head ks = Some x -> y ∈ ks -> x <= y.
Proof.
  intros Hs Hh Hy. destruct ks as [|k ks]; [done|].
  simpl in Hh. injection Hh as ->.
  apply StronglySorted_cons in Hs as [Hall _].
  apply elem_of_cons in Hy as [->|Hy]; [lia|].
  rewrite Forall_forall in Hall. by apply Hall.
Qed.

Lemma built_from_first_child ns grp p :
  built_from ns grp p -> grp <> [] ->
  exists c, grp !! 0%nat = Some c /\ c ∈ child_ids p.
Proof.
  intros (Hl & Hn & Hlk & Hlc & Hch & Hks) Hne.
  destruct grp as [|c grp]; [done|]. exists c. split; [done|].
  unfold child_ids. apply list_elem_of_lookup. exists 0%nat.
  rewrite lookup_take_lt by (rewrite Hn; simpl; lia).
  by apply Hch.
Qed.

(** The rounds of the level builder over internal nodes: whatever they
    create has an internal node as a child. *)
Lemma upper_rounds fuel : forall ids t,
  index_open t -> 0 <= next_node_id t -> (length ids <= fuel)%nat ->
  (forall id, id ∈ ids ->
     id < next_node_id t /\
     exists n, node_at (nodes t) id = Some n /\
               length (keys n) = Z.to_nat MAX_KEYS /\ is_leaf n = false) ->
  exists ids' t',
    build_levels fuel ids t = Ok (ids', t') /\
    index_open t' /\ next_node_id t <= next_node_id t' /\
    stable_below (next_node_id t) (nodes t) (nodes t') /\
    forall id p,
      next_node_id t <= id < next_node_id t' ->
      node_at (nodes t') id = Some p ->
      exists c cn, c ∈ child_ids p /\ node_at (nodes t') c = Some cn /\
                   is_leaf cn = false.
Proof.
  induction fuel as [|fuel IH]; intros ids t Hopen Hnext Hfuel Hids.
  { exists ids, t. split.
    { simpl. rewrite decide_False by lia. done. }
    split; [done|]. split; [lia|]. split; [apply stable_below_refl|].
    intros id p Hid. lia. }
  destruct (decide (1 < length ids)%nat) as [Hmany|Hfew].
  2:{ exists ids, t. split.
      { simpl. rewrite decide_False by lia. done. }
      split; [done|]. split; [lia|]. split; [apply stable_below_refl|].
      intros id p Hid. lia. }
  assert (Hids1 : forall id, id ∈ ids ->
            id < next_node_id t /\
            exists n, node_at (nodes t) id = Some n /\
                      length (keys n) = Z.to_nat MAX_KEYS).
  { intros id Hid. destruct (Hids id Hid) as (Hlt & n & Hn & Hk & _). eauto. }
  destruct (build_level_spec (length ids) ids t Hopen Hnext (le_n _) Hids1)
    as (G & t1 & Hlevel & Hopen1 & Hnext1 & Hst1 & HG & Hbuilt).
  destruct (IH (id_range (next_node_id t) G) t1)
    as (ids' & t' & Hrun & Hopen' & Hnext' & Hst' & Hupper).
  { done. } { lia. }
  { rewrite length_id_range. lia. }
  { intros id Hid. apply elem_of_id_range in Hid as (h & Hh & ->).
    split; [lia|].
    destruct (Hbuilt h Hh) as (p & Hp & (Hl & _ & Hlk & _) & _). eauto. }
  exists ids', t'. split.
  { simpl. rewrite decide_True by done.
    erewrite bind_ok; [|exact Hlevel]. exact Hrun. }
  split; [done|]. split; [lia|].
  split.
  { apply (stable_below_trans _ (next_node_id t1) _ (nodes t1)); [lia|done|done]. }
  intros id p Hid Hp.
  destruct (decide (id < next_node_id t1)) as [Hlow|Hhigh].
  - destruct (Hbuilt (Z.to_nat (id - next_node_id t))) as (p' & Hp' & Hbf & Hgne); [lia|].
    replace (next_node_id t + Z.of_nat (Z.to_nat (id - next_node_id t))) with id in Hp' by lia.
    assert (Hp'' : node_at (nodes t') id = Some p') by (by apply Hst').
    assert (p' = p) as -> by congruence.
    destruct (built_from_first_child _ _ _ Hbf Hgne) as (c & Hc & Hcin).
    assert (Hcids : c ∈ ids).
    { apply list_elem_of_lookup_2 in Hc. by apply subseteq_take, subseteq_drop in Hc. }
    destruct (Hids c Hcids) as (Hlt & n & Hn & _ & Hleaf).
    exists c, n. split; [done|]. split; [|done].
    apply Hst'; [lia|]. by apply Hst1.
  - apply (Hupper id p); [lia|done].
Qed.

(** The level builder started on the leaves: the first round makes their
    parents, the later rounds work on internal nodes. *)
Lemma levels_phase t n0 kls :
  index_open t -> 0 <= n0 ->
  next_node_id t = n0 + Z.of_nat (length kls) -> kls <> [] ->
  leaves_at (nodes t) n0 kls ->
  exists ids' t',
    build_levels (length kls) (id_range n0 (length kls)) t = Ok (ids', t') /\
    index_open t' /\ next_node_id t <= next_node_id t' /\
    stable_below (next_node_id t) (nodes t) (nodes t') /\
    forall id p,
      next_node_id t <= id < next_node_id t' ->
      node_at (nodes t') id = Some p ->
      (exists h, built_from (nodes t)
                   (take 101 (drop (101 * h) (id_range n0 (length kls)))) p) \/
      (exists c cn, c ∈ child_ids p /\ node_at (nodes t') c = Some cn /\
                    is_leaf cn = false).
Proof.
  intros Hopen Hn0 Hnext Hne Hat.
  assert (Hlen : length (id_range n0 (length kls)) = length kls)
    by apply length_id_range.
  assert (Hrange : forall id, id ∈ id_range n0 (length kls) ->
            exists g, (g < length kls)%nat /\ id = n0 + Z.of_nat g).
  { intros id Hid. by apply elem_of_id_range in Hid. }
  assert (Hpresent : forall id, id ∈ id_range n0 (length kls) ->
            exists n, node_at (nodes t) id = Some n /\
                      length (keys n) = Z.to_nat MAX_KEYS).
  { intros id Hid.
    destruct (leaves_at_present _ _ _ _ Hat Hid) as (n & Hn & _ & Hk). eauto. }
  remember (id_range n0 (length kls)) as ids eqn:Hids_eq.
  clear Hids_eq.
  destruct (length kls) as [|f] eqn:HL.
  { destruct kls; [done|simpl in HL; lia]. }
  destruct (decide (1 < length ids)%nat) as [Hmany|Hfew].
  2:{ exists ids, t. split.
      { simpl. rewrite decide_False by lia. done. }
      split; [done|]. split; [lia|]. split; [apply stable_below_refl|].
      intros id p Hid. lia. }
  assert (Hids1 : forall id, id ∈ ids ->
            id < next_node_id t /\
            exists n, node_at (nodes t) id = Some n /\
                      length (keys n) = Z.to_nat MAX_KEYS).
  { intros id Hid. split.
    - destruct (Hrange id Hid) as (g & Hg & ->). lia.
    - by apply Hpresent. }
  destruct (build_level_spec (length ids) ids t Hopen) as
    (G & t1 & Hlevel & Hopen1 & Hnext1 & Hst1 & HG & Hbuilt); [lia|lia|done|].
  destruct (upper_rounds f (id_range (next_node_id t) G) t1)
    as (ids' & t' & Hrun & Hopen' & Hnext' & Hst' & Hupper).
  { done. } { lia. }
  { rewrite length_id_range. lia. }
  { intros id Hid. apply elem_of_id_range in Hid as (h & Hh & ->).
    split; [lia|].
    destruct (Hbuilt h Hh) as (p & Hp & (Hl & _ & Hlk & _) & _). eauto. }
  exists ids', t'. split.
  { simpl. rewrite decide_True by done.
    erewrite bind_ok; [|exact Hlevel]. exact Hrun. }
  split; [done|]. split; [lia|].
  split.
  { apply (stable_below_trans _ (next_node_id t1) _ (nodes t1)); [lia|done|done]. }
  intros id p Hid Hp.
  destruct (decide (id < next_node_id t1)) as [Hlow|Hhigh].
  - left. exists (Z.to_nat (id - next_node_id t)).
    destruct (Hbuilt (Z.to_nat (id - next_node_id t))) as (p' & Hp' & Hbf & Hgne); [lia|].
    replace (next_node_id t + Z.of_nat (Z.to_nat (id - next_node_id t))) with id in Hp' by lia.
    assert (Hp'' : node_at (nodes t') id = Some p') by (by apply Hst').
    assert (p' = p) as -> by congruence. done.
  - right. apply (Hupper id p); [lia|done].
Qed.

(** ** Separators over leaves *)

Lemma lookup_id_range_Some n0 m k c :
  id_range n0 m !! k = Some c -> c = n0 + Z.of_nat k /\ (k < m)%nat.
Proof.
  intros H. assert (Hk : (k < m)%nat).
  { apply lookup_lt_Some in H. by rewrite length_id_range in H. }
  rewrite lookup_id_range in H by done. split; [congruence|done].
Qed.

Lemma holds_keys_first n ks :
  holds_keys n ks -> ks <> [] -> keys n !! 0%nat = head ks.
Proof.
  intros (_ & _ & Hk & _) Hne. destruct ks as [|x ks]; [done|]. simpl.
  unfold leaf_keys in Hk.
  assert (H0 : take (Z.to_nat (num_keys n)) (keys n) !! 0%nat = Some x) by (by rewrite Hk).
  by apply lookup_take_Some in H0 as [H0 _].
Qed.

Lemma keys_under_leaf t id n ks :
  node_at (nodes t) id = Some n -> holds_keys n ks -> keys_under t id = ks.
Proof.
  intros Hn (Hl & _ & Hk & _). unfold keys_under. simpl.
  by rewrite Hn, Hl.
Qed.

Lemma leaf_parent_separator t ns3 n0 kls h p :
  StronglySorted Z.le (concat kls) ->
  Forall (fun ks => ks <> []) kls ->
  leaves_at ns3 n0 kls -> leaves_at (nodes t) n0 kls ->
  built_from ns3 (take 101 (drop (101 * h) (id_range n0 (length kls)))) p ->
  leaf_separator t p.
Proof.
  remember (101 * h)%nat as base eqn:Hbase. clear Hbase.
  intros Hsorted Hnonempty Hat3 Hat Hbf i sep cl cr Hi Hsep Hcl Hcr.
  set (grp := take 101 (drop base (id_range n0 (length kls)))) in *.
  destruct Hbf as (Hleaf & Hnk & Hlk & Hlc & Hch & Hks).
  set (j := Z.to_nat i).
  assert (Hj : (S j < length grp)%nat) by lia.
  destruct (lookup_lt_is_Some_2 grp j) as [a Ha]; [lia|].
  destruct (lookup_lt_is_Some_2 grp (S j)) as [b Hb]; [lia|].
  assert (Hgrp : forall k c, grp !! k = Some c ->
            c = n0 + Z.of_nat (base + k) /\ (base + k < length kls)%nat).
  { intros k c Hk. unfold grp in Hk.
    apply lookup_take_Some in Hk as [Hk _]. rewrite lookup_drop in Hk.
    by apply lookup_id_range_Some in Hk. }
  destruct (Hgrp j a Ha) as [-> Hgl].
  destruct (Hgrp (S j) b Hb) as [-> Hgr].
  apply array_get_lookup in Hsep as [_ Hsep].
  apply array_get_lookup in Hcl as [_ Hcl].
  apply array_get_lookup in Hcr as [_ Hcr].
  replace (Z.to_nat (i + 1)) with (S j) in Hcr by lia. fold j in Hsep, Hcl.
  rewrite (Hch j _ Ha) in Hcl. injection Hcl as <-.
  rewrite (Hch (S j) _ Hb) in Hcr. injection Hcr as <-.
  destruct (lookup_lt_is_Some_2 kls (base + j)) as [ksl Hksl]; [lia|].
  destruct (lookup_lt_is_Some_2 kls (base + S j)) as [ksr Hksr]; [lia|].
  destruct (Hat _ _ Hksl) as (nl & Hnl & Hholdl).
  destruct (Hat _ _ Hksr) as (nr & Hnr & Hholdr).
  destruct (Hat3 _ _ Hksr) as (nr3 & Hnr3 & Hholdr3).
  assert (Hne_r : ksr <> []).
  { rewrite Forall_forall in Hnonempty. apply Hnonempty.
    apply list_elem_of_lookup. eauto. }
  assert (Hhead : head ksr = Some sep).
  { rewrite <- (holds_keys_first nr3 ksr Hholdr3 Hne_r).
    rewrite <- (Hks j _ nr3 Hb Hnr3). done. }
  rewrite (keys_under_leaf t _ nl ksl Hnl Hholdl).
  rewrite (keys_under_leaf t _ nr ksr Hnr Hholdr).
  assert (Hsep_in : sep ∈ ksr).
  { destruct ksr as [|x ksr]; [done|]. simpl in Hhead. injection Hhead as ->.
    apply list_elem_of_here. }
  split; [|split; [|done]].
  - intros k Hk.
    apply (sorted_across kls Hsorted (base + j) (base + S j) ksl ksr); [lia|done..].
  - intros k Hk.
    apply (sorted_head_least ksr); [|done|done].
    by apply (sorted_within kls (base + S j)).
Qed.

(** C3, amended.  After [bulkLoad] of a non-empty input on an open index,
    every internal node written by the call whose children are all leaves
    separates them as follows: [keys[i]] is the first key of the leaf
    [children[i+1]], every key of the leaf [children[i]] is at most [keys[i]]
    and every key of the leaf [children[i+1]] is at least [keys[i]]. *)
Theorem bulkLoad_leaf_parents_separate (t : BPTree) (data : list entry) :
  index_open t -> 0 <= next_node_id t -> data <> [] ->
  exists t',
    bulkLoad data t = Ok (true, t') /\
    forall id p,
      next_node_id t <= id < next_node_id t' ->
      node_at (nodes t') id = Some p ->
      parent_of_leaves t' p ->
      leaf_separator t' p.
Proof.
  intros Hopen Hn0 Hdata.
  set (n0 := next_node_id t) in *.
  pose proof (std_sort_nonempty data Hdata) as Hsorted_ne.
  pose proof (std_sort_keys_sorted data) as Hsorted.
  destruct (leaves_phase t (std_sort data) Hopen Hn0 Hsorted_ne)
    as (cl & leaf & lns & t1 & t2 & kls & Hfill & Hneg & Hw & Hlns & Hopen2 & Hnext2
        & Hat2 & Hcat & Hnonempty & Hkls_ne).
  fold n0 in Hlns, Hnext2, Hat2.
  destruct (link_phase t2 n0 kls Hopen2 Hkls_ne Hat2)
    as (t3 & Hlink & Hopen3 & Hnext3 & Hat3).
  destruct (levels_phase t3 n0 kls Hopen3 Hn0) as
    (ids' & t5 & Hlevels & Hopen5 & Hnext5 & Hst5 & Hcreated); [lia|done|done|].
  assert (Hat5 : leaves_at (nodes t5) n0 kls).
  { apply (leaves_at_stable (nodes t3)); [done|].
    replace (n0 + Z.of_nat (length kls)) with (next_node_id t3) by lia. done. }
  assert (Hrun : exists t',
    bulkLoad data t = Ok (true, t') /\
    nodes t' = nodes t5 /\ next_node_id t' = next_node_id t5).
  { destruct data as [|e d]; [done|].
    unfold bulkLoad. cbv zeta.
    erewrite bind_ok; [|exact Hfill]. cbv beta iota.
    erewrite bind_ok; cycle 1.
    { rewrite Hneg. erewrite bind_ok; [|exact Hw]. reflexivity. }
    rewrite Hlns.
    erewrite bind_ok; [|exact Hlink].
    rewrite length_id_range.
    erewrite bind_ok; [|exact Hlevels].
    destruct ids' as [|root ids'].
    - exists t5. done.
    - eexists. split; [reflexivity|]. done. }
  destruct Hrun as (t' & Hrun & Hns' & Hnext').
  exists t'. split; [done|].
  intros id p Hid Hp Hparent.
  rewrite Hns' in Hp. rewrite Hnext' in Hid.
  destruct (decide (id < n0 + Z.of_nat (length kls))) as [Hleaf|Hupper].
  - (* a leaf *)
    destruct (lookup_lt_is_Some_2 kls (Z.to_nat (id - n0))) as [ks Hks]; [lia|].
    destruct (Hat5 _ _ Hks) as (n & Hn & Hl & _).
    replace (n0 + Z.of_nat (Z.to_nat (id - n0))) with id in Hn by lia.
    destruct Hparent as [Hint _]. congruence.
  - destruct (Hcreated id p) as [(h & Hbf)|(c & cn & Hc & Hcn & Hcint)]; [lia|done| |].
    + apply (leaf_parent_separator t' (nodes t3) n0 kls h p); try done.
      * by rewrite Hcat.
      * by rewrite Hns'.
    + destruct Hparent as [_ Hleaves].
      destruct (Hleaves c Hc) as (l & Hl & Hlleaf).
      rewrite Hns' in Hl. congruence.
Qed.

Lemma bulkLoad_leaf_parents_separate_witness :
  exists t',
    bulkLoad same_key_102 opened = Ok (true, t') /\
    forall id p,
      next_node_id opened <= id < next_node_id t' ->
      node_at (nodes t') id = Some p ->
      parent_of_leaves t' p ->
      leaf_separator t' p.
Proof.
  apply (bulkLoad_leaf_parents_separate opened same_key_102).
  - split; reflexivity.
  - vm_compute. discriminate.
  - discriminate.
Defined.
(** * Further properties of the heap file *)

(** ** Reading a block back *)

Lemma Block_getRecord_slot b j :
  Block.wf b -> 0 <= j < Block.getNumRecords b ->
  Block.getRecord b j = Ok (Block.slot b (Z.to_nat j)).
Proof.
  intros [Hlen Hcnt] Hj. unfold Block.getNumRecords in Hj.
  unfold Block.getRecord.
  rewrite (proj2 (Z.leb_gt _ _)) by lia.
  unfold Block.MAX_RECORDS, Block.DATA_SIZE, Block.BLOCK_SIZE, Block.HEADER_SIZE,
    sizeof_Record in *.
  change (Z.quot (4096 - 16) 44) with 92 in Hcnt.
  rewrite (to_size_t_id (j * 44)) by lia.
  unfold memcpy_from.
  rewrite (proj2 (Z.leb_le 0 (j * 44))) by lia.
  rewrite (proj2 (Z.leb_le _ _)) by (rewrite Hlen; lia).
  simpl. unfold Block.slot, sizeof_Record.
  do 3 f_equal. lia.
Qed.

Lemma iter_up_block_records b : forall m i acc,
  Block.wf b -> 0 <= i -> i + Z.of_nat m <= Block.getNumRecords b ->
  iter_up m i
    (fun j records => let+ r := Block.getRecord b j in Ok (records ++ [r])) acc
  = Ok (acc ++ (Block.slot b <$> seq (Z.to_nat i) m)).
Proof.
  induction m as [|m IH]; intros i acc Hwf Hi Hm; simpl.
  - by rewrite app_nil_r.
  - rewrite Block_getRecord_slot by (done || lia). simpl.
    rewrite IH by (done || lia).
    rewrite <- app_assoc. simpl.
    replace (Z.to_nat (i + 1)) with (S (Z.to_nat i)) by lia. done.
Qed.

Lemma push_block_records_spec b acc :
  Block.wf b -> push_block_records b acc = Ok (acc ++ block_records b).
Proof.
  intros Hwf. unfold push_block_records, for_up, block_records.
  rewrite Z.sub_0_r.
  rewrite iter_up_block_records; [done|done|lia|].
  destruct Hwf as [_ Hcnt]. unfold Block.getNumRecords. lia.
Qed.

Lemma getAllRecords_loop_spec ps : forall n i acc db,
  heap_open db -> Database.pages db = ps -> Forall Block.wf ps ->
  0 <= i -> (Z.to_nat i + n <= length ps)%nat ->
  exists db',
    getAllRecords_loop n i acc db
      = Ok (acc ++ concat (block_records <$> take n (drop (Z.to_nat i) ps)), db') /\
    heap_open db' /\ Database.pages db' = ps /\
    Database.num_blocks db' = Database.num_blocks db /\
    Database.num_records db' = Database.num_records db.
Proof.
  induction n as [|n IH]; intros i acc db Hopen Hps Hwf Hi Hn.
  - exists db. simpl. by rewrite app_nil_r.
  - destruct (lookup_lt_is_Some_2 ps (Z.to_nat i)) as [b Hb]; [lia|].
    cbn [getAllRecords_loop].
    erewrite bind_ok; [|apply (readBlock_present _ _ b); [done|lia|by rewrite Hps]].
    assert (Hwfb : Block.wf b).
    { eapply Forall_lookup_1; eauto. }
    erewrite bind_ok;
      [|unfold lift; rewrite push_block_records_spec by done; reflexivity].
    destruct (IH (i + 1) (acc ++ block_records b) (Database.count_io i db))
      as (db' & Hrun & Hopen' & Hps' & Hnb & Hnr); [done|done|done|lia|lia|].
    exists db'. split; [|done].
    rewrite Hrun. do 2 f_equal.
    rewrite <- app_assoc. f_equal.
    rewrite (drop_S _ _ _ Hb). simpl.
    replace (Z.to_nat (i + 1)) with (S (Z.to_nat i)) by lia. done.
Qed.

(** [getAllRecords] on a heap in good order returns the records of its
    blocks, slot after slot, and changes nothing but the I/O counters. *)
Lemma getAllRecords_spec db :
  heap_consistent db ->
  exists db',
    getAllRecords db = Ok (heap_records db, db') /\
    heap_consistent db' /\ Database.pages db' = Database.pages db /\
    Database.num_records db' = Database.num_records db.
Proof.
  intros (Hopen & Hnb & Hwf).
  unfold getAllRecords. erewrite bind_ok; [|reflexivity].
  destruct (getAllRecords_loop_spec (Database.pages db)
              (Z.to_nat (Database.num_blocks db)) 0 [] db)
    as (db' & Hrun & Hopen' & Hps' & Hnb' & Hnr'); [done|done|done|lia|lia|].
  exists db'. rewrite Hrun. split.
  - unfold heap_records. simpl. rewrite Hnb, Nat2Z.id, firstn_all. done.
  - split; [|done]. split; [done|]. rewrite Hps'. split; [congruence|done].
Qed.

(** ** The layout that appending builds *)

Lemma length_block_records b :
  length (block_records b) = Z.to_nat (Block.getNumRecords b).
Proof. unfold block_records. by rewrite length_fmap, length_seq. Qed.

Lemma block_records_with_record b record :
  Block.wf b -> wf_Record record ->
  Block.getNumRecords b < Block.MAX_RECORDS ->
  block_records (block_with_record b record) = block_records b ++ [record].
Proof.
  intros [Hlen Hcnt] Hr Hroom. unfold Block.getNumRecords in Hroom.
  destruct (block_with_record_slots b record Hlen Hr) as [Hnew Hold]; [lia|].
  unfold block_records.
  change (Block.getNumRecords (block_with_record b record))
    with (Block.num_records (Block.header b) + 1).
  unfold Block.getNumRecords.
  replace (Z.to_nat (Block.num_records (Block.header b) + 1))
    with (S (Z.to_nat (Block.num_records (Block.header b)))) by lia.
  rewrite seq_S, fmap_app. simpl. rewrite Hnew. f_equal.
  apply list_fmap_ext. intros i j Hj.
  apply lookup_seq in Hj as [-> Hj]. apply Hold. lia.
Qed.

Lemma list_snoc_case {A : Type} (l : list A) :
  l = [] \/ exists l' x, l = l' ++ [x].
Proof. destruct l using rev_ind; eauto. Qed.

Lemma length_full_blocks ps :
  Forall (fun b' => Block.getNumRecords b' = Block.MAX_RECORDS) ps ->
  length (concat (block_records <$> ps)) = (92 * length ps)%nat.
Proof.
  induction 1 as [|b ps Hb _ IH]; [done|].
  rewrite fmap_cons. cbn [concat length].
  rewrite length_app, length_block_records, IH, Hb.
  change (Z.to_nat Block.MAX_RECORDS) with 92%nat. lia.
Qed.

Lemma created_packed : heap_packed Database.created.
Proof.
  split; [apply created_consistent|].
  intros ps b Hps. simpl in Hps. by destruct ps.
Qed.

(** One more record on a packed heap below its capacity: the call answers
    [true], the record goes to the end and the heap stays packed. *)
Lemma addRecord_appends_record record db :
  heap_packed db -> wf_Record record ->
  (length (heap_records db) < heap_capacity)%nat ->
  exists db',
    Database.addRecord record db = Ok (true, db') /\
    heap_packed db' /\
    heap_records db' = heap_records db ++ [record] /\
    Database.num_records db' = Database.num_records db + 1.
Proof.
  intros [(Hopen & Hnb & Hwf) Hpacked] Hr Hcap.
  unfold heap_capacity in Hcap.
  destruct (list_snoc_case (Database.pages db)) as [Hnil|(ps & b & Hps)].
  - (* no block yet *)
    destruct (addRecord_appends_block record db) as (db' & Hrun & Hopen' & Hps' & Hnb' & Hnr');
      [done|done|done| |rewrite Hnb, Hnil; simpl; lia|].
    { left. rewrite Hnb, Hnil. done. }
    assert (Hwfnew : Block.wf (Block.set_block_id (Database.num_blocks db) Block.new)).
    { split; [by vm_compute|]. simpl. by vm_compute. }
    exists db'. split; [done|]. split; [|split; [|done]].
    + split.
      * split; [done|]. rewrite Hps', Hnb', Hnb, Hnil. split; [done|].
        constructor; [|constructor].
        apply block_with_record_wf; [by vm_compute|done|by vm_compute].
      * intros ps' b' Heq. rewrite Hps', Hnil in Heq. simpl in Heq.
        destruct ps' as [|? [|]]; simplify_eq/=. split; [constructor|].
        vm_compute. discriminate.
    + unfold heap_records. rewrite Hps', Hnil.
      change ([] ++ ?l) with l. rewrite fmap_cons, fmap_nil.
      cbn [concat app].
      rewrite block_records_with_record; [|done|done|by vm_compute].
      by rewrite app_nil_r.
  - destruct (Hpacked ps b Hps) as [Hfull Hlast].
    rewrite Hps in Hwf. apply Forall_app in Hwf as [Hwfps Hwfb].
    apply Forall_inv in Hwfb.
    destruct (decide (Block.getNumRecords b < Block.MAX_RECORDS)) as [Hroom|Hnoroom].
    + (* room in the last block *)
      destruct (addRecord_in_last_block record db ps b)
        as (db' & Hrun & Hopen' & Hps' & Hnb' & Hnr'); try done.
      { by rewrite Hnb, Hps. }
      exists db'. split; [done|]. split; [|split; [|done]].
      * split.
        -- split; [done|]. rewrite Hps', Hnb', Hnb, Hps, !length_app. split; [done|].
           apply Forall_app. split; [done|]. constructor; [|constructor].
           destruct Hwfb as [Hlen Hcnt].
           apply block_with_record_wf; [done|done|].
           unfold Block.getNumRecords in *. lia.
        -- intros ps' b' Heq. rewrite Hps' in Heq.
           apply app_inj_tail in Heq as [<- <-]. split; [done|].
           change (Block.getNumRecords (block_with_record b record))
             with (Block.getNumRecords b + 1). lia.
      * unfold heap_records. rewrite Hps', Hps, !fmap_app, !concat_app.
        rewrite !fmap_cons, !fmap_nil. cbn [concat].
        rewrite block_records_with_record by done.
        by rewrite !app_nil_r, app_assoc.
    + (* the last block is full *)
      assert (Hb92 : Block.getNumRecords b = Block.MAX_RECORDS).
      { destruct Hwfb as [_ Hcnt]. unfold Block.getNumRecords in *. lia. }
      assert (Hlenrec : length (heap_records db) = (92 * length (ps ++ [b]))%nat).
      { unfold heap_records. rewrite Hps. apply length_full_blocks.
        apply Forall_app. split; [done|]. by constructor. }
      destruct (addRecord_appends_block record db)
        as (db' & Hrun & Hopen' & Hps' & Hnb' & Hnr'); [done|done|done| | |].
      { right. exists b. split.
        - rewrite Hnb, Hps, length_app. simpl.
          replace (Z.to_nat (Z.of_nat (length ps + 1) - 1)) with (length ps) by lia.
          rewrite lookup_app_r by lia. by rewrite Nat.sub_diag.
        - unfold Block.isFull. apply Z.leb_le. unfold Block.getNumRecords in Hb92. lia. }
      { rewrite Hnb, Hps. lia. }
      exists db'. split; [done|]. split; [|split; [|done]].
      * split.
        -- split; [done|]. rewrite Hps', Hnb', Hnb, !length_app. simpl. split; [lia|].
           apply Forall_app. split.
           { rewrite Hps. apply Forall_app. split; [done|]. by constructor. }
           constructor; [|constructor].
           apply block_with_record_wf; [by vm_compute|done|by vm_compute].
        -- intros ps' b' Heq. rewrite Hps' in Heq.
           apply app_inj_tail in Heq as [<- <-]. split.
           ++ rewrite Hps. apply Forall_app. split; [done|]. by constructor.
           ++ vm_compute. discriminate.
      * unfold heap_records. rewrite Hps', !fmap_app, !concat_app.
        rewrite !fmap_cons, !fmap_nil. cbn [concat].
        rewrite block_records_with_record; [|split; [by vm_compute|by vm_compute]|done|by vm_compute].
        by rewrite !app_nil_r.
Qed.

Lemma addRecords_append records : forall db,
  heap_packed db -> Forall wf_Record records ->
  (length (heap_records db) + length records <= heap_capacity)%nat ->
  exists oks db',
    Database.addRecords records db = Ok (oks, db') /\
    Forall (fun ok => ok = true) oks /\
    heap_packed db' /\
    heap_records db' = heap_records db ++ records /\
    Database.num_records db' = Database.num_records db + Z.of_nat (length records).
Proof.
  induction records as [|r records IH]; intros db Hpacked Hwf Hcap.
  - exists [], db. rewrite app_nil_r.
    split; [done|]. split; [done|]. split; [done|]. split; [done|].
    simpl length. lia.
  - apply Forall_cons in Hwf as [Hr Hwf]. simpl in Hcap.
    destruct (addRecord_appends_record r db Hpacked Hr) as (db1 & Hrun1 & Hp1 & Hrec1 & Hnr1);
      [lia|].
    destruct (IH db1 Hp1 Hwf) as (oks & db' & Hrun & Hoks & Hp' & Hrec' & Hnr').
    { rewrite Hrec1, length_app. simpl. lia. }
    exists (true :: oks), db'.
    cbn [Database.addRecords].
    erewrite bind_ok; [|exact Hrun1].
    erewrite bind_ok; [|exact Hrun].
    split; [done|]. split; [by constructor|]. split; [done|].
    split.
    + rewrite Hrec', Hrec1, <- app_assoc. done.
    + rewrite Hnr', Hnr1. simpl length. lia.
Qed.

(** X1. Records appended to a packed heap below its capacity are all
    stored, and [getAllRecords] then returns the old records followed by the
    new ones, in the order they were added. *)
Theorem addRecords_then_getAllRecords
  (db : Database.Database) (records : list Record_) :
  heap_packed db -> Forall wf_Record records ->
  (length (heap_records db) + length records <= heap_capacity)%nat ->
  exists oks db1 db2,
    Database.addRecords records db = Ok (oks, db1) /\
    Forall (fun ok => ok = true) oks /\
    Database.num_records db1 = Database.num_records db + Z.of_nat (length records) /\
    getAllRecords db1 = Ok (heap_records db ++ records, db2).
Proof.
  intros Hpacked Hwf Hcap.
  destruct (addRecords_append records db Hpacked Hwf Hcap)
    as (oks & db1 & Hrun & Hoks & [Hcons _] & Hrec & Hnr).
  destruct (getAllRecords_spec db1 Hcons) as (db2 & Hall & _).
  exists oks, db1, db2. rewrite Hall, Hrec. done.
Qed.

Lemma addRecords_then_getAllRecords_witness :
  exists oks db1 db2,
    Database.addRecords sample_records Database.created = Ok (oks, db1) /\
    Forall (fun ok => ok = true) oks /\
    Database.num_records db1 = 0 + Z.of_nat (length sample_records) /\
    getAllRecords db1 = Ok ([] ++ sample_records, db2).
Proof.
  apply (addRecords_then_getAllRecords Database.created sample_records).
  - apply created_packed.
  - apply Forall_replicate. reflexivity.
  - unfold heap_capacity, sample_records. rewrite length_replicate.
    change (length (heap_records Database.created)) with 0%nat. lia.
Defined.

Lemma lookup_packed_records ps b : forall j k r,
  Forall (fun b' => Block.getNumRecords b' = Block.MAX_RECORDS) ps ->
  Block.wf b -> (k < 92)%nat ->
  concat (block_records <$> (ps ++ [b])) !! (92 * j + k)%nat = Some r ->
  exists blk, (ps ++ [b]) !! j = Some blk /\ block_records blk !! k = Some r.
Proof.
  induction ps as [|b0 ps IH]; intros j k r Hfull Hwf Hk Hr.
  - change ([] ++ [b]) with [b] in *. rewrite fmap_cons, fmap_nil in Hr.
    cbn [concat] in Hr. rewrite app_nil_r in Hr.
    pose proof (lookup_lt_Some _ _ _ Hr) as Hlt.
    rewrite length_block_records in Hlt.
    destruct Hwf as [_ Hcnt]. unfold Block.getNumRecords in Hlt.
    change Block.MAX_RECORDS with 92 in Hcnt.
    assert (j = 0)%nat as -> by lia.
    exists b. split; [done|]. by rewrite Nat.mul_0_r in Hr.
  - apply Forall_cons in Hfull as [Hb0 Hfull].
    change ((b0 :: ps) ++ [b]) with (b0 :: (ps ++ [b])) in *.
    rewrite fmap_cons in Hr. cbn [concat] in Hr.
    assert (Hlen0 : length (block_records b0) = 92%nat).
    { rewrite length_block_records, Hb0. done. }
    destruct j as [|j].
    + exists b0. split; [done|]. rewrite Nat.mul_0_r in Hr. simpl in Hr.
      rewrite lookup_app_l in Hr by lia. done.
    + rewrite lookup_app_r in Hr by lia. rewrite Hlen0 in Hr.
      replace (92 * S j + k - 92)%nat with (92 * j + k)%nat in Hr by lia.
      destruct (IH j k r Hfull Hwf Hk Hr) as (blk & Hblk & Hrec).
      exists blk. done.
Qed.

(** X2. In a packed heap the record number [92 * j + k] (counting from 0,
    [k < 92]) is the one that [getRecord(j, k)] reads: the pointer the index
    builder gives to the [k]-th record of block [j]. *)
Theorem getRecord_of_packed_heap
  (db : Database.Database) (j k : nat) (record : Record_) :
  heap_packed db -> (k < 92)%nat ->
  heap_records db !! (92 * j + k)%nat = Some record ->
  exists db',
    Database.getRecord (Z.of_nat j) (Z.of_nat k) db = Ok (record, db') /\
    Database.pages db' = Database.pages db.
Proof.
  intros [(Hopen & Hnb & Hwf) Hpacked] Hk Hrec.
  destruct (list_snoc_case (Database.pages db)) as [Hnil|(ps & b & Hps)].
  { unfold heap_records in Hrec. rewrite Hnil in Hrec. done. }
  destruct (Hpacked ps b Hps) as [Hfull _].
  unfold heap_records in Hrec. rewrite Hps in Hrec, Hwf.
  pose proof Hwf as Hwf'.
  apply Forall_app in Hwf' as [_ Hwfb]. apply Forall_inv in Hwfb.
  destruct (lookup_packed_records ps b j k record Hfull Hwfb Hk Hrec)
    as (blk & Hblk & Hslot).
  assert (Hwfblk : Block.wf blk) by (eapply Forall_lookup_1; eauto).
  unfold block_records in Hslot.
  apply list_lookup_fmap_Some in Hslot as (i & -> & Hi).
  apply lookup_seq in Hi as [-> Hi]. simpl in Hi.
  unfold Database.getRecord.
  erewrite bind_ok;
    [|apply (readBlock_present _ _ blk); [done|lia|by rewrite Nat2Z.id, Hps]].
  unfold lift. rewrite Block_getRecord_slot by (done || lia).
  rewrite Nat2Z.id. eexists. split; [reflexivity|done].
Qed.

Lemma getRecord_of_packed_heap_witness :
  exists db',
    Database.getRecord (Z.of_nat 0) (Z.of_nat 0) one_record_heap
      = Ok (replicate 44 Byte.x01, db') /\
    Database.pages db' = Database.pages one_record_heap.
Proof.
  apply (getRecord_of_packed_heap one_record_heap 0 0 (replicate 44 Byte.x01)).
  - split.
    + split; [split; reflexivity|]. split; [reflexivity|].
      constructor; [|constructor]. split; [reflexivity|]. by vm_compute.
    + intros ps b Hps. vm_compute in Hps.
      destruct ps as [|? [|]]; simplify_eq/=. split; [constructor|].
      vm_compute. discriminate.
  - lia.
  - reflexivity.
Defined.

(** ** The capacity in records *)

Lemma heap_at_capacity_packed :
  heap_packed heap_at_capacity /\
  length (heap_records heap_at_capacity) = heap_capacity.
Proof.
  assert (Hfull : Forall (fun b' => Block.getNumRecords b' = Block.MAX_RECORDS)
                    (replicate (Z.to_nat 25599) full_block)).
  { apply Forall_replicate. reflexivity. }
  split; [split|].
  - split; [split; reflexivity|]. split.
    + change (25599 = Z.of_nat (length (replicate (Z.to_nat 25599) full_block))).
      rewrite length_replicate. lia.
    + change (Forall Block.wf (replicate (Z.to_nat 25599) full_block)).
      apply Forall_replicate. split; [reflexivity|]. by vm_compute.
  - intros ps b Hps.
    change (replicate (Z.to_nat 25599) full_block = ps ++ [b]) in Hps.
    rewrite Hps in Hfull. apply Forall_app in Hfull as [Hps' Hb].
    apply Forall_inv in Hb. split; [done|]. rewrite Hb. done.
  - unfold heap_records.
    change (Database.pages heap_at_capacity)
      with (replicate (Z.to_nat 25599) full_block).
    rewrite (length_full_blocks _ Hfull), length_replicate.
    unfold heap_capacity. lia.
Qed.

(** X3. A packed heap that holds 2355108 records (25599 full blocks) takes
    no more: [addRecord] answers [false] and the heap keeps its records. *)
Theorem addRecord_beyond_capacity (db : Database.Database) (record : Record_) :
  heap_packed db ->
  length (heap_records db) = heap_capacity ->
  exists db',
    Database.addRecord record db = Ok (false, db') /\
    heap_records db' = heap_records db /\
    Database.num_records db' = Database.num_records db /\
    Database.num_blocks db' = Database.num_blocks db.
Proof.
  intros [(Hopen & Hnb & Hwf) Hpacked] Hlen. unfold heap_capacity in Hlen.
  destruct (list_snoc_case (Database.pages db)) as [Hnil|(ps & b & Hps)].
  { unfold heap_records in Hlen. rewrite Hnil in Hlen.
    change (0%nat = Z.to_nat 2355108) in Hlen. lia. }
  destruct (Hpacked ps b Hps) as [Hfull Hlast].
  rewrite Hps in Hwf. apply Forall_app in Hwf as [_ Hwfb]. apply Forall_inv in Hwfb.
  unfold heap_records in Hlen. rewrite Hps, fmap_app, concat_app, length_app in Hlen.
  rewrite (length_full_blocks _ Hfull) in Hlen.
  rewrite fmap_cons, fmap_nil in Hlen. cbn [concat] in Hlen.
  rewrite app_nil_r, length_block_records in Hlen.
  destruct Hwfb as [_ Hcnt]. change Block.MAX_RECORDS with 92 in *.
  unfold Block.getNumRecords in *.
  assert (Hb92 : Block.num_records (Block.header b) = 92) by lia.
  assert (Hnps : length ps = Z.to_nat 25598) by lia.
  assert (Hnb' : Database.num_blocks db = 25599).
  { rewrite Hnb, Hps, length_app, Hnps. cbn [length]. lia. }
  assert (Hpage : Database.pages db !! Z.to_nat (Database.num_blocks db - 1) = Some b).
  { rewrite Hnb', Hps. replace (Z.to_nat (25599 - 1)) with (length ps) by lia.
    rewrite lookup_app_r by lia. by rewrite Nat.sub_diag. }
  unfold Database.addRecord. erewrite bind_ok; [|reflexivity].
  rewrite (proj2 (Z.ltb_lt 0 _)) by lia.
  erewrite bind_ok; [|apply (readBlock_present _ _ b); [done|lia|done]].
  unfold Block.isFull. change Block.MAX_RECORDS with 92.
  rewrite (proj2 (Z.leb_le 92 _)) by lia. cbn [negb].
  rewrite addRecord_new_block_refused.
  - eexists. split; [reflexivity|]. done.
  - simpl. lia.
  - simpl. rewrite Hnb'. by vm_compute.
  - simpl. rewrite Hnb'. by vm_compute.
Qed.

Lemma addRecord_beyond_capacity_witness :
  exists db',
    Database.addRecord empty_Record heap_at_capacity = Ok (false, db') /\
    heap_records db' = heap_records heap_at_capacity /\
    Database.num_records db' = Database.num_records heap_at_capacity /\
    Database.num_blocks db' = Database.num_blocks heap_at_capacity.
Proof.
  apply (addRecord_beyond_capacity heap_at_capacity empty_Record).
  - apply heap_at_capacity_packed.
  - apply heap_at_capacity_packed.
Defined.

(** ** A heap that is closed, or whose stream has failed *)

Lemma Block_addRecord_new_ok id record :
  wf_Record record ->
  exists b', Block.addRecord (Block.set_block_id id Block.new) record = Ok (true, b').
Proof.
  intros Hr. eexists. apply Block_addRecord_room; [reflexivity|done|by vm_compute].
Qed.


Lemma writeBlock_failed block_id block db :
  Database.is_open db = true -> Database.good db = false ->
  Database.writeBlock block_id block db
    = Ok (false, Database.count_io block_id (Database.set_stream false (Database.pages db) db)).
Proof. intros Ho Hg. unfold Database.writeBlock. by rewrite Ho, Hg. Qed.

Lemma addRecord_new_block_idle record db :
  wf_Record record ->
  Database.is_open db = false \/ Database.good db = false ->
  exists db',
    Database.addRecord_new_block record db = Ok (false, db') /\
    Database.pages db' = Database.pages db /\
    Database.num_blocks db' = Database.num_blocks db /\
    Database.num_records db' = Database.num_records db /\
    Database.is_open db' = Database.is_open db /\
    (Database.is_open db = false -> db' = db) /\
    (Database.good db = false -> Database.good db' = false).
Proof.
  intros Hr Hidle.
  unfold Database.addRecord_new_block. erewrite bind_ok; [|reflexivity].
  destruct (Database.MAX_DATABASE_SIZE <? _); [by exists db|].
  destruct (Block_addRecord_new_ok (Database.num_blocks db) record Hr) as [b' Hb'].
  erewrite bind_ok; [|unfold lift; rewrite Hb'; reflexivity].
  cbv beta iota.
  unfold Database.addBlock.
  destruct (Database.is_open db) eqn:Ho.
  - destruct Hidle as [|Hg]; [done|].
    erewrite (bind_ok (bind get _)); cycle 1.
    { erewrite bind_ok; [|reflexivity]. rewrite Ho. cbn [negb].
      erewrite bind_ok; [|by apply writeBlock_failed]. reflexivity. }
    eexists. split; [reflexivity|]. simpl. rewrite Ho. done.
  - erewrite (bind_ok (bind get _)); cycle 1.
    { erewrite bind_ok; [|reflexivity]. rewrite Ho. reflexivity. }
    eexists. split; [reflexivity|]. done.
Qed.

(** X4. On a heap that was not opened (or was closed) every operation
    gives its failure answer and leaves the object as it was: [addRecord] and
    [deleteRecord] answer [false], [getRecord] the empty record,
    [getAllRecords] no record. *)
Theorem closed_heap_refuses
  (db : Database.Database) (record : Record_) (block_id record_index : Z) :
  Database.is_open db = false -> wf_Record record ->
  Database.addRecord record db = Ok (false, db) /\
  Database.getRecord block_id record_index db = Ok (empty_Record, db) /\
  Database.deleteRecord block_id record_index db = Ok (false, db) /\
  getAllRecords db = Ok ([], db).
Proof.
  intros Hc Hr.
  assert (Hread : forall id, Database.readBlock id db = Ok (None, db))
    by (intros id; by apply readBlock_closed).
  split; [|split; [|split]].
  - destruct (addRecord_new_block_idle record db Hr (or_introl Hc))
      as (db' & Hrun & _ & _ & _ & _ & Heq & _).
    rewrite (Heq Hc) in Hrun.
    unfold Database.addRecord. erewrite bind_ok; [|reflexivity].
    destruct (0 <? Database.num_blocks db); [|done].
    erewrite bind_ok; [|apply Hread]. done.
  - unfold Database.getRecord. erewrite bind_ok; [|apply Hread]. done.
  - unfold Database.deleteRecord. erewrite bind_ok; [|apply Hread]. done.
  - unfold getAllRecords. erewrite bind_ok; [|reflexivity].
    generalize 0 at 1. induction (Z.to_nat (Database.num_blocks db)) as [|n IH];
      intros i; [done|].
    cbn [getAllRecords_loop].
    erewrite bind_ok; [|apply Hread].
    erewrite bind_ok; [|reflexivity]. apply IH.
Qed.

Lemma closed_heap_refuses_witness :
  Database.addRecord empty_Record heap_constructed = Ok (false, heap_constructed) /\
  Database.getRecord 0 0 heap_constructed = Ok (empty_Record, heap_constructed) /\
  Database.deleteRecord 0 0 heap_constructed = Ok (false, heap_constructed) /\
  getAllRecords heap_constructed = Ok ([], heap_constructed).
Proof.
  apply (closed_heap_refuses heap_constructed empty_Record 0 0); reflexivity.
Defined.




(** ** Blocks: adding and reading back *)

(** X6. A record added to a block with room is the one [getRecord] returns
    at the index it was given, the records before it are read as before, and
    every index from the new count on reads as the empty record. *)
Theorem Block_addRecord_then_getRecord (b : Block.Block) (record : Record_) :
  Block.wf b -> wf_Record record ->
  Block.getNumRecords b < Block.MAX_RECORDS ->
  exists b',
    Block.addRecord b record = Ok (true, b') /\
    Block.getNumRecords b' = Block.getNumRecords b + 1 /\
    Block.getRecord b' (Block.getNumRecords b) = Ok record /\
    (forall j, 0 <= j < Block.getNumRecords b ->
       Block.getRecord b' j = Block.getRecord b j) /\
    (forall j, Block.getNumRecords b < j -> Block.getRecord b' j = Ok empty_Record).
Proof.
  intros Hwf Hr Hroom. pose proof Hwf as [Hlen Hcnt].
  unfold Block.getNumRecords in *.
  assert (Hwf' : Block.wf (block_with_record b record))
    by (apply block_with_record_wf; [done|done|lia]).
  destruct (block_with_record_slots b record Hlen Hr) as [Hnew Hold]; [lia|].
  exists (block_with_record b record).
  split; [apply Block_addRecord_room; [done|done|lia]|].
  split; [reflexivity|]. split; [|split].
  - rewrite Block_getRecord_slot; [by rewrite Hnew|done|].
    change (Block.getNumRecords (block_with_record b record))
      with (Block.num_records (Block.header b) + 1). lia.
  - intros j Hj. rewrite !Block_getRecord_slot; try done.
    + rewrite Hold; [done|lia].
    + change (Block.getNumRecords (block_with_record b record))
        with (Block.num_records (Block.header b) + 1). lia.
  - intros j Hj. unfold Block.getRecord.
    change (Block.num_records (Block.header (block_with_record b record)))
      with (Block.num_records (Block.header b) + 1).
    rewrite (proj2 (Z.leb_le _ _)) by lia. done.
Qed.

Lemma Block_addRecord_then_getRecord_witness :
  exists b',
    Block.addRecord Block.new (replicate 44 Byte.x01) = Ok (true, b') /\
    Block.getNumRecords b' = Block.getNumRecords Block.new + 1 /\
    Block.getRecord b' (Block.getNumRecords Block.new) = Ok (replicate 44 Byte.x01) /\
    (forall j, 0 <= j < Block.getNumRecords Block.new ->
       Block.getRecord b' j = Block.getRecord Block.new j) /\
    (forall j, Block.getNumRecords Block.new < j ->
       Block.getRecord b' j = Ok empty_Record).
Proof.
  apply (Block_addRecord_then_getRecord Block.new (replicate 44 Byte.x01)).
  - split; [reflexivity|]. by vm_compute.
  - reflexivity.
  - by vm_compute.
Defined.

(** X7. [Block::getRecord] checks its index against the record count only:
    a negative index passes the check and the copy starts outside the data
    area of the block. *)
Theorem Block_getRecord_negative_index (b : Block.Block) (index : Z) :
  Block.wf b -> - 2 ^ 31 <= index < 0 ->
  Block.getRecord b index
    = Fault (OutOfBounds arr_data (2 ^ 64 + index * sizeof_Record)).
Proof.
  intros [Hlen Hcnt] Hneg. unfold Block.getRecord.
  rewrite (proj2 (Z.leb_gt _ _)) by lia.
  unfold sizeof_Record in *.
  assert (Hoff : to_size_t (index * 44) = 2 ^ 64 + index * 44).
  { unfold to_size_t.
    rewrite <- (Z.mod_add _ 1) by lia.
    rewrite Z.mod_small; lia. }
  rewrite Hoff. unfold memcpy_from.
  rewrite (proj2 (Z.leb_le 0 _)) by lia.
  rewrite (proj2 (Z.leb_gt _ _)); [done|].
  rewrite Hlen. unfold Block.DATA_SIZE, Block.BLOCK_SIZE, Block.HEADER_SIZE. lia.
Qed.

Lemma Block_getRecord_negative_index_witness :
  Block.getRecord one_record_block (-1)
    = Fault (OutOfBounds arr_data (2 ^ 64 + -1 * sizeof_Record)).
Proof.
  apply (Block_getRecord_negative_index one_record_block (-1)).
  - split; [reflexivity|]. by vm_compute.
  - lia.
Defined.

(** ** Deleting and reading back *)






(** * Further properties of the index *)

(** ** Record pointers *)

Lemma decode_encode_eq ptr : encodable ptr -> decode (encode ptr) = ptr.
Proof.
  intros (Hb & Hi & Hfit). destruct ptr as [b i]. simpl in *.
  unfold encode, decode. simpl.
  rewrite (wrap32_id (b * 10000)) by lia.
  rewrite wrap32_id by lia.
  f_equal.
  - rewrite Z.quot_div_nonneg by lia.
    rewrite Z.add_comm, Z.div_add by lia.
    rewrite Z.div_small by lia. lia.
  - rewrite Z.rem_mod_nonneg by lia.
    rewrite Z.add_comm, Z.mod_add by lia.
    apply Z.mod_small. lia.
Qed.

(** X9. Packing a pointer into the [int] of a leaf slot and unpacking it
    gives the pointer back, for every block number and every record index
    below 10000 whose packed value fits an [int]. *)
Theorem decode_encode (ptr : RecordPointer) :
  encodable ptr -> decode (encode ptr) = ptr.
Proof. apply decode_encode_eq. Qed.

Lemma decode_encode_witness :
  decode (encode {| block_id := 289; record_index := 91 |})
    = {| block_id := 289; record_index := 91 |}.
Proof.
  apply (decode_encode {| block_id := 289; record_index := 91 |}).
  repeat split; simpl; lia.
Defined.

(** X10. [RecordPointer::operator<] is a strict total order that agrees
    with [operator==]: it is irreflexive and transitive, and of two pointers
    exactly one is smaller unless they are equal. *)
Theorem ptr_lt_strict_total_order (a b c : RecordPointer) :
  ptr_lt a a = false /\
  (ptr_lt a b = true -> ptr_lt b c = true -> ptr_lt a c = true) /\
  (ptr_eq a b = true <-> a = b) /\
  (ptr_lt a b = true -> ptr_lt b a = false /\ ptr_eq a b = false) /\
  (ptr_lt a b = false -> ptr_lt b a = false -> ptr_eq a b = true).
Proof.
  destruct a as [a1 a2], b as [b1 b2], c as [c1 c2].
  rewrite !ptr_lt_spec. unfold ptr_eq. simpl.
  split; [|split; [|split; [|split]]].
  - apply not_true_is_false. rewrite ptr_lt_spec. simpl. lia.
  - lia.
  - rewrite andb_true_iff, !Z.eqb_eq. split; [intros [-> ->]; done|].
    intros [= -> ->]. done.
  - intros Hlt. split.
    + apply not_true_is_false. rewrite ptr_lt_spec. simpl. lia.
    + apply not_true_is_false. rewrite andb_true_iff, !Z.eqb_eq. lia.
  - intros H1 H2.
    apply not_true_iff_false in H1, H2. rewrite ptr_lt_spec in H1, H2.
    simpl in *. rewrite andb_true_iff, !Z.eqb_eq. lia.
Qed.

Lemma ptr_lt_strict_total_order_witness :
  ptr_lt (pointer_of 1) (pointer_of 1) = false /\
  (ptr_lt (pointer_of 1) (pointer_of 2) = true ->
   ptr_lt (pointer_of 2) (pointer_of 3) = true ->
   ptr_lt (pointer_of 1) (pointer_of 3) = true) /\
  (ptr_eq (pointer_of 1) (pointer_of 2) = true <-> pointer_of 1 = pointer_of 2) /\
  (ptr_lt (pointer_of 1) (pointer_of 2) = true ->
   ptr_lt (pointer_of 2) (pointer_of 1) = false /\
   ptr_eq (pointer_of 1) (pointer_of 2) = false) /\
  (ptr_lt (pointer_of 1) (pointer_of 2) = false ->
   ptr_lt (pointer_of 2) (pointer_of 1) = false ->
   ptr_eq (pointer_of 1) (pointer_of 2) = true).
Proof.
  apply (ptr_lt_strict_total_order (pointer_of 1) (pointer_of 2) (pointer_of 3)).
Defined.

(** ** Reading one leaf *)

Lemma collect_from test (P : Z -> Prop) `{!forall k, Decision (P k)} leaf :
  node_wf leaf -> (forall k, test k = true <-> P k) ->
  forall m i acc,
    0 <= i -> i + Z.of_nat m <= num_keys leaf ->
    iter_up m i
      (fun i results =>
         let+ k := get_key i leaf in
         if test k then
           let+ encoded_ptr := get_child i leaf in
           Ok (results ++ [decode encoded_ptr])
         else Ok results) acc
    = Ok (acc ++ pointers_where P
                   (zip (take m (drop (Z.to_nat i) (keys leaf)))
                        (take m (drop (Z.to_nat i) (children leaf))))).
Proof.
  intros (Hk & Hc & Hn) Htest.
  unfold MAX_KEYS in *.
  induction m as [|m IH]; intros i acc Hi Him.
  - simpl. unfold pointers_where. by rewrite app_nil_r.
  - cbn [iter_up].
    destruct (array_get_in_range arr_keys (keys leaf) i) as (k & Hgk & Hlk); [lia|].
    destruct (array_get_in_range arr_children (children leaf) i) as (c & Hgc & Hlc); [lia|].
    change (get_key i leaf = Ok k) in Hgk. change (get_child i leaf = Ok c) in Hgc.
    rewrite Hgk. cbn [rbind].
    rewrite (drop_S _ _ _ Hlk), (drop_S _ _ _ Hlc). cbn [take zip zip_with].
    unfold pointers_where. rewrite filter_cons. cbn [fst].
    destruct (test k) eqn:Htk.
    + rewrite Hgc. cbn [rbind].
      rewrite decide_True by (by apply Htest).
      rewrite IH by lia.
      replace (Z.to_nat (i + 1)) with (S (Z.to_nat i)) by lia.
      rewrite fmap_cons. cbn [snd]. by rewrite <- app_assoc.
    + rewrite decide_False by (rewrite <- Htest; congruence).
      cbn [rbind]. rewrite IH by lia.
      replace (Z.to_nat (i + 1)) with (S (Z.to_nat i)) by lia. done.
Qed.

Lemma collect_spec test (P : Z -> Prop) `{!forall k, Decision (P k)} leaf acc :
  node_wf leaf -> (forall k, test k = true <-> P k) ->
  collect test leaf acc = Ok (acc ++ pointers_where P (leaf_entries leaf)).
Proof.
  intros Hwf Htest. unfold collect, for_up. rewrite Z.sub_0_r.
  rewrite (collect_from test P leaf Hwf Htest); [done|lia|].
  destruct Hwf as (_ & _ & ?). lia.
Qed.

Lemma findLeaf_leaf_root t leaf key :
  leaf_root t leaf ->
  exists t',
    findLeaf key t = Ok (root_id t, t') /\
    leaf_root t' leaf /\
    nodes t' = nodes t /\ root_id t' = root_id t /\
    next_node_id t' = next_node_id t.
Proof.
  intros (Hopen & Hroot & Hleaf & Hwf).
  assert (Hpos : 0 <= root_id t) by (by apply node_at_lookup in Hroot as [? _]).
  destruct (readNode_open _ _ _ Hopen Hroot) as (t' & Hread & Hopen' & Hns & Hnext & Hrt).
  exists t'. split.
  - unfold findLeaf. erewrite bind_ok; [|reflexivity].
    rewrite (proj2 (Z.eqb_neq _ _)) by lia.
    cbn [findLeaf_loop]. erewrite bind_ok; [|exact Hread].
    cbv beta iota. by rewrite Hleaf.
  - split; [|done]. split; [done|]. by rewrite Hns, Hrt.
Qed.

Lemma search_leaf_root t leaf key :
  leaf_root t leaf ->
  exists t',
    search key t = Ok (pointers_where (fun k => k = key) (leaf_entries leaf), t') /\
    leaf_root t' leaf /\
    nodes t' = nodes t /\ root_id t' = root_id t /\
    next_node_id t' = next_node_id t.
Proof.
  intros Hroot.
  destruct (findLeaf_leaf_root t leaf key Hroot) as (t1 & Hfind & Hroot1 & Hns1 & Hrt1 & Hnx1).
  pose proof Hroot1 as (Hopen1 & Hat1 & Hleaf & Hwf).
  assert (Hpos : 0 <= root_id t1) by (by apply node_at_lookup in Hat1 as [? _]).
  destruct (readNode_open _ _ _ Hopen1 Hat1) as (t2 & Hread & Hopen2 & Hns2 & Hnx2 & Hrt2).
  exists t2. split.
  - unfold search. erewrite bind_ok; [|exact Hfind].
    rewrite (proj2 (Z.eqb_neq _ _)) by lia.
    rewrite <- Hrt1. erewrite bind_ok; [|exact Hread].
    unfold lift.
    rewrite (collect_spec _ (fun k => k = key)); [done|done|].
    intros k. apply Z.eqb_eq.
  - split; [|split; [congruence|split; congruence]].
    split; [done|]. by rewrite Hns2, Hrt2.
Qed.

Lemma rangeSearch_leaf_root t leaf min_key max_key :
  leaf_root t leaf -> 1 <= num_keys leaf -> next_leaf leaf = -1 ->
  exists t',
    rangeSearch min_key max_key t
      = Ok (pointers_where (fun k => min_key <= k <= max_key) (leaf_entries leaf), t') /\
    leaf_root t' leaf /\
    nodes t' = nodes t /\ root_id t' = root_id t /\
    next_node_id t' = next_node_id t.
Proof.
  intros Hroot Hn Hnext.
  destruct (findLeaf_leaf_root t leaf min_key Hroot)
    as (t1 & Hfind & Hroot1 & Hns1 & Hrt1 & Hnx1).
  pose proof Hroot1 as (Hopen1 & Hat1 & Hleaf & Hwf).
  assert (Hpos : 0 <= root_id t1) by (by apply node_at_lookup in Hat1 as [? _]).
  assert (Hlen : (0 < length (nodes t1))%nat).
  { apply node_at_lookup in Hat1 as [_ Hl]. apply lookup_lt_Some in Hl. lia. }
  destruct (readNode_open _ _ _ Hopen1 Hat1) as (t2 & Hread & Hopen2 & Hns2 & Hnx2 & Hrt2).
  destruct (get_key_in_use leaf (num_keys leaf - 1) Hwf) as (last & Hlast & _); [lia|].
  exists t2. split.
  - unfold rangeSearch. erewrite bind_ok; [|exact Hfind].
    rewrite (proj2 (Z.eqb_neq _ _)) by lia.
    erewrite bind_ok; [|reflexivity].
    destruct (length (nodes t1)) as [|fuel]; [lia|].
    cbn [rangeSearch_loop].
    rewrite (proj2 (Z.eqb_neq _ _)) by lia.
    rewrite <- Hrt1. erewrite bind_ok; [|exact Hread].
    cbv beta iota.
    erewrite bind_ok; cycle 1.
    { unfold lift.
      rewrite (collect_spec _ (fun k => min_key <= k <= max_key)); [done|done|].
      intros k. rewrite andb_true_iff, !Z.leb_le. done. }
    erewrite bind_ok; [|unfold lift; rewrite Hlast; reflexivity].
    rewrite Hnext. by destruct (max_key <? last).
  - split; [|split; [congruence|split; congruence]].
    split; [done|]. by rewrite Hns2, Hrt2.
Qed.

(** X11. When the root is a leaf without keys, as in an index that was
    just created, [rangeSearch] reads [keys[-1]] of that leaf to decide
    whether to go on, and [removeRange], which starts with a range search,
    does the same. *)
Theorem rangeSearch_empty_leaf (t : BPTree) (leaf : BPTreeNode) (min_key max_key : Z) :
  leaf_root t leaf -> num_keys leaf = 0 ->
  rangeSearch min_key max_key t = Fault (OutOfBounds arr_keys (-1)) /\
  removeRange min_key max_key t = Fault (OutOfBounds arr_keys (-1)).
Proof.
  intros Hroot Hn.
  destruct (findLeaf_leaf_root t leaf min_key Hroot)
    as (t1 & Hfind & Hroot1 & Hns1 & Hrt1 & Hnx1).
  pose proof Hroot1 as (Hopen1 & Hat1 & Hleaf & Hwf).
  assert (Hpos : 0 <= root_id t1) by (by apply node_at_lookup in Hat1 as [? _]).
  destruct (readNode_open _ _ _ Hopen1 Hat1) as (t2 & Hread & Hopen2 & Hns2 & Hnx2 & Hrt2).
  assert (Hrange : rangeSearch min_key max_key t = Fault (OutOfBounds arr_keys (-1))).
  { unfold rangeSearch. erewrite bind_ok; [|exact Hfind].
    rewrite (proj2 (Z.eqb_neq _ _)) by lia.
    erewrite bind_ok; [|reflexivity].
    cbn [rangeSearch_loop].
    rewrite (proj2 (Z.eqb_neq _ _)) by lia.
    rewrite <- Hrt1. erewrite bind_ok; [|exact Hread].
    cbv beta iota.
    erewrite bind_ok; cycle 1.
    { unfold lift.
      rewrite (collect_spec _ (fun k => min_key <= k <= max_key)); [done|done|].
      intros k. rewrite andb_true_iff, !Z.leb_le. done. }
    rewrite Hn. reflexivity. }
  split; [done|].
  unfold removeRange, bind at 1. by rewrite Hrange.
Qed.

Lemma rangeSearch_empty_leaf_witness :
  rangeSearch 0 1 opened = Fault (OutOfBounds arr_keys (-1)) /\
  removeRange 0 1 opened = Fault (OutOfBounds arr_keys (-1)).
Proof.
  apply (rangeSearch_empty_leaf opened new_node 0 1).
  - split; [split; reflexivity|]. split; [reflexivity|]. split; [reflexivity|].
    split; [reflexivity|]. split; [reflexivity|]. by vm_compute.
  - reflexivity.
Defined.

(** ** The loops that scan and shift the slots of a node *)

Lemma scan_up_spec n : forall i test,
  (forall j, i <= j < i + Z.of_nat n -> exists b, test j = Ok b) ->
  exists r,
    scan_up n i test = Ok r /\ i <= r <= i + Z.of_nat n /\
    (forall j, i <= j < r -> test j = Ok true) /\
    (r < i + Z.of_nat n -> test r = Ok false).
Proof.
  induction n as [|n IH]; intros i test Htest; simpl.
  - exists i. split; [done|]. split; [lia|]. split; intros; lia.
  - destruct (Htest i) as [b Hb]; [lia|]. rewrite Hb. simpl.
    destruct b.
    + destruct (IH (i + 1) test) as (r & Hr & Hbounds & Hbefore & Hat).
      { intros j Hj. apply Htest. lia. }
      exists r. split; [done|]. split; [lia|]. split.
      * intros j Hj. destruct (decide (j = i)) as [->|]; [done|]. apply Hbefore. lia.
      * intros Hlt. apply Hat. lia.
    + exists i. split; [done|]. split; [lia|]. split; [intros; lia|done].
Qed.

Lemma find_up_spec n : forall i test,
  (forall j, i <= j < i + Z.of_nat n -> exists b, test j = Ok b) ->
  exists r,
    find_up n i test = Ok r /\
    match r with
    | Some p => i <= p < i + Z.of_nat n /\ test p = Ok true /\
                forall j, i <= j < p -> test j = Ok false
    | None => forall j, i <= j < i + Z.of_nat n -> test j = Ok false
    end.
Proof.
  induction n as [|n IH]; intros i test Htest; simpl.
  - exists None. split; [done|]. intros; lia.
  - destruct (Htest i) as [b Hb]; [lia|]. rewrite Hb. simpl.
    destruct b.
    + exists (Some i). split; [done|]. split; [lia|]. split; [done|]. intros; lia.
    + destruct (IH (i + 1) test) as (r & Hr & Hspec).
      { intros j Hj. apply Htest. lia. }
      exists r. split; [done|]. destruct r as [p|].
      * destruct Hspec as (Hp & Htp & Hbefore). split; [lia|]. split; [done|].
        intros j Hj. destruct (decide (j = i)) as [->|]; [done|]. apply Hbefore. lia.
      * intros j Hj. destruct (decide (j = i)) as [->|]; [done|]. apply Hspec. lia.
Qed.

Lemma shift_right_iter m : forall j leaf,
  length (keys leaf) = Z.to_nat MAX_KEYS ->
  length (children leaf) = Z.to_nat (MAX_KEYS + 1) ->
  0 <= j - Z.of_nat m -> j <= 100 ->
  exists leaf',
    iter_down m j
      (fun j leaf =>
         let+ k := get_key (j - 1) leaf in
         let+ leaf := set_key j k leaf in
         let+ c := get_child (j - 1) leaf in
         set_child j c leaf) leaf = Ok leaf' /\
    same_frame leaf leaf' /\
    (forall x : nat,
       keys leaf' !! x =
         if decide (j - Z.of_nat m < Z.of_nat x <= j)
         then keys leaf !! (x - 1)%nat else keys leaf !! x) /\
    (forall x : nat,
       children leaf' !! x =
         if decide (j - Z.of_nat m < Z.of_nat x <= j)
         then children leaf !! (x - 1)%nat else children leaf !! x).
Proof.
  unfold MAX_KEYS.
  induction m as [|m IH]; intros j leaf Hk Hc Hm Hj.
  - exists leaf. split; [done|]. split; [done|].
    split; intros x; rewrite decide_False by lia; done.
  - cbn [iter_down].
    destruct (array_get_in_range arr_keys (keys leaf) (j - 1)) as (k & Hgk & Hlk); [lia|].
    change (get_key (j - 1) leaf = Ok k) in Hgk. rewrite Hgk. cbn [rbind].
    rewrite set_key_in_range by lia. cbn [rbind].
    destruct (array_get_in_range arr_children (children leaf) (j - 1)) as (c & Hgc & Hlc); [lia|].
    assert (Hgc' : get_child (j - 1) (set_keys (<[Z.to_nat j := k]> (keys leaf)) leaf) = Ok c)
      by exact Hgc.
    rewrite Hgc'. cbn [rbind].
    rewrite set_child_in_range by (simpl; lia).
    set (leaf1 := set_children _ _).
    destruct (IH (j - 1) leaf1) as (leaf' & Hrun & Hframe & Hkeys & Hchildren).
    { unfold leaf1. simpl. rewrite length_insert. done. }
    { unfold leaf1. simpl. rewrite length_insert. done. }
    { lia. }
    { lia. }
    exists leaf'. split; [done|]. split.
    + destruct Hframe as (? & ? & ? & ? & Hlk' & Hlc').
      unfold leaf1 in *. simpl in *. rewrite length_insert in Hlk', Hlc'. done.
    + split; intros x.
      * rewrite Hkeys. unfold leaf1. simpl.
        repeat case_decide; try lia.
        -- rewrite list_lookup_insert_ne by lia. done.
        -- assert (x = Z.to_nat j) as -> by lia.
           rewrite list_lookup_insert_eq by lia.
           rewrite <- Hlk. f_equal. lia.
        -- rewrite list_lookup_insert_ne by lia. done.
      * rewrite Hchildren. unfold leaf1. simpl.
        repeat case_decide; try lia.
        -- rewrite list_lookup_insert_ne by lia. done.
        -- assert (x = Z.to_nat j) as -> by lia.
           rewrite list_lookup_insert_eq by lia.
           rewrite <- Hlc. f_equal. lia.
        -- rewrite list_lookup_insert_ne by lia. done.
Qed.

Lemma shift_left_iter m : forall i leaf,
  length (keys leaf) = Z.to_nat MAX_KEYS ->
  length (children leaf) = Z.to_nat (MAX_KEYS + 1) ->
  0 <= i -> i + Z.of_nat m <= 100 ->
  exists leaf',
    iter_up m i
      (fun i leaf =>
         let+ k := get_key (i + 1) leaf in
         let+ leaf := set_key i k leaf in
         let+ c := get_child (i + 1) leaf in
         set_child i c leaf) leaf = Ok leaf' /\
    same_frame leaf leaf' /\
    (forall x : nat,
       keys leaf' !! x =
         if decide (i <= Z.of_nat x < i + Z.of_nat m)
         then keys leaf !! (x + 1)%nat else keys leaf !! x) /\
    (forall x : nat,
       children leaf' !! x =
         if decide (i <= Z.of_nat x < i + Z.of_nat m)
         then children leaf !! (x + 1)%nat else children leaf !! x).
Proof.
  unfold MAX_KEYS.
  induction m as [|m IH]; intros i leaf Hk Hc Hi Him.
  - exists leaf. split; [done|]. split; [done|].
    split; intros x; rewrite decide_False by lia; done.
  - cbn [iter_up].
    destruct (array_get_in_range arr_keys (keys leaf) (i + 1)) as (k & Hgk & Hlk); [lia|].
    change (get_key (i + 1) leaf = Ok k) in Hgk. rewrite Hgk. cbn [rbind].
    rewrite set_key_in_range by lia. cbn [rbind].
    destruct (array_get_in_range arr_children (children leaf) (i + 1)) as (c & Hgc & Hlc); [lia|].
    assert (Hgc' : get_child (i + 1) (set_keys (<[Z.to_nat i := k]> (keys leaf)) leaf) = Ok c)
      by exact Hgc.
    rewrite Hgc'. cbn [rbind].
    rewrite set_child_in_range by (simpl; lia).
    set (leaf1 := set_children _ _).
    destruct (IH (i + 1) leaf1) as (leaf' & Hrun & Hframe & Hkeys & Hchildren).
    { unfold leaf1. simpl. rewrite length_insert. done. }
    { unfold leaf1. simpl. rewrite length_insert. done. }
    { lia. }
    { lia. }
    exists leaf'. split; [done|]. split.
    + destruct Hframe as (? & ? & ? & ? & Hlk' & Hlc').
      unfold leaf1 in *. simpl in *. rewrite length_insert in Hlk', Hlc'. done.
    + split; intros x.
      * rewrite Hkeys. unfold leaf1. simpl.
        repeat case_decide; try lia.
        -- rewrite list_lookup_insert_ne by lia. done.
        -- assert (x = Z.to_nat i) as -> by lia.
           rewrite list_lookup_insert_eq by lia.
           rewrite <- Hlk. f_equal. lia.
        -- rewrite list_lookup_insert_ne by lia. done.
      * rewrite Hchildren. unfold leaf1. simpl.
        repeat case_decide; try lia.
        -- rewrite list_lookup_insert_ne by lia. done.
        -- assert (x = Z.to_nat i) as -> by lia.
           rewrite list_lookup_insert_eq by lia.
           rewrite <- Hlc. f_equal. lia.
        -- rewrite list_lookup_insert_ne by lia. done.
Qed.

(** ** A leaf as a list of entries *)

Lemma list_eq_Some {A : Type} (l1 l2 : list A) :
  (forall x e, l1 !! x = Some e <-> l2 !! x = Some e) -> l1 = l2.
Proof.
  intros H. apply list_eq. intros x.
  destruct (l1 !! x) as [e|] eqn:H1.
  - symmetry. by apply H.
  - destruct (l2 !! x) as [e|] eqn:H2; [|done].
    apply H in H2. congruence.
Qed.

Lemma leaf_entries_lookup n x k c :
  leaf_entries n !! x = Some (k, c) <->
  (x < Z.to_nat (num_keys n))%nat /\ keys n !! x = Some k /\ children n !! x = Some c.
Proof.
  unfold leaf_entries. rewrite lookup_zip_with_Some. split.
  - intros (k' & c' & Heq & Hk & Hc). injection Heq as <- <-.
    apply lookup_take_Some in Hk as [Hk Hx].
    apply lookup_take_Some in Hc as [Hc _]. done.
  - intros (Hx & Hk & Hc). exists k, c. split; [done|].
    rewrite !lookup_take_lt by done. done.
Qed.

Lemma length_leaf_entries n :
  node_wf n -> length (leaf_entries n) = Z.to_nat (num_keys n).
Proof.
  intros (Hk & Hc & Hn). unfold MAX_KEYS in *.
  unfold leaf_entries. rewrite length_zip_with, !length_take. lia.
Qed.

Lemma leaf_entries_keys n : node_wf n -> (leaf_entries n).*1 = leaf_keys n.
Proof.
  intros (Hk & Hc & Hn). unfold MAX_KEYS in *.
  unfold leaf_entries, leaf_keys. apply fst_zip. rewrite !length_take. lia.
Qed.

(** What the body of [insertIntoLeaf] makes of a leaf with room: the new
    entry goes in front of the first entry whose key is not smaller. *)
Lemma insert_slot_spec leaf key c :
  node_wf leaf -> num_keys leaf < MAX_KEYS ->
  exists i leaf',
    scan_while 0 (num_keys leaf)
      (fun i => let+ k := get_key i leaf in Ok (k <? key)) = Ok i /\
    (let+ l := shift_right i leaf in
     let+ l := set_key i key l in
     let+ l := set_child i c l in
     Ok (set_num_keys (num_keys l + 1) l)) = Ok leaf' /\
    node_wf leaf' /\
    is_leaf leaf' = is_leaf leaf /\ next_leaf leaf' = next_leaf leaf /\
    parent leaf' = parent leaf /\
    num_keys leaf' = num_keys leaf + 1 /\
    0 <= i <= num_keys leaf /\
    leaf_entries leaf'
      = take (Z.to_nat i) (leaf_entries leaf) ++ (key, c) :: drop (Z.to_nat i) (leaf_entries leaf) /\
    (forall e, e ∈ take (Z.to_nat i) (leaf_entries leaf) -> e.1 < key) /\
    (forall e, drop (Z.to_nat i) (leaf_entries leaf) !! 0%nat = Some e -> key <= e.1).
Proof.
  intros Hwf Hroom. pose proof Hwf as (Hk & Hc & Hn). unfold MAX_KEYS in *.
  destruct (scan_up_spec (Z.to_nat (num_keys leaf - 0)) 0
              (fun i => let+ k := get_key i leaf in Ok (k <? key)))
    as (i & Hscan & Hi & Hbefore & Hat).
  { intros j Hj.
    destruct (array_get_in_range arr_keys (keys leaf) j) as (k & Hgk & _); [lia|].
    change (get_key j leaf = Ok k) in Hgk. rewrite Hgk. simpl. eauto. }
  destruct (shift_right_iter (Z.to_nat (num_keys leaf - i)) (num_keys leaf) leaf)
    as (l1 & Hshift & Hframe & Hkeys & Hchildren); [done|done|lia|lia|].
  destruct Hframe as (Hf1 & Hf2 & Hf3 & Hf4 & Hf5 & Hf6).
  exists i. eexists. split; [exact Hscan|].
  unfold shift_right, for_down. rewrite Hshift. cbn [rbind].
  rewrite set_key_in_range by lia. cbn [rbind].
  rewrite set_child_in_range by (simpl; lia). cbn [rbind].
  split; [reflexivity|]. simpl.
  split; [|split; [done|split; [done|split; [done|split; [lia|split; [lia|]]]]]].
  { unfold node_wf. simpl. rewrite !length_insert. unfold MAX_KEYS. lia. }
  assert (Hlen : length (leaf_entries leaf) = Z.to_nat (num_keys leaf))
    by (by apply length_leaf_entries).
  split; [|split].
  - apply list_eq_Some. intros x [k' c'].
    rewrite leaf_entries_lookup. simpl.
    destruct (lt_eq_lt_dec x (Z.to_nat i)) as [[Hlt|Heq]|Hgt].
    + rewrite lookup_app_l by (rewrite length_take; lia).
      rewrite lookup_take_lt by done.
      rewrite leaf_entries_lookup.
      rewrite !list_lookup_insert_ne by lia.
      rewrite Hkeys, Hchildren. rewrite !decide_False by lia.
      split; [intros (? & ? & ?)|intros (? & ? & ?)]; (split; [lia|done]).
    + subst x.
      rewrite list_lookup_middle by (rewrite length_take; lia).
      rewrite !list_lookup_insert_eq by lia.
      split; [intros (? & ? & ?); congruence|].
      intros [= <- <-]. split; [lia|done].
    + rewrite lookup_app_r by (rewrite length_take; lia).
      rewrite length_take. replace (Z.to_nat i `min` length (leaf_entries leaf))%nat
        with (Z.to_nat i) by lia.
      destruct (x - Z.to_nat i)%nat as [|y] eqn:Hy; [lia|].
      cbn [lookup list_lookup]. change (drop (Z.to_nat i) (leaf_entries leaf) !! y)
        with (drop (Z.to_nat i) (leaf_entries leaf) !! y).
      rewrite lookup_drop.
      replace (Z.to_nat i + y)%nat with (x - 1)%nat by lia.
      rewrite leaf_entries_lookup.
      rewrite !list_lookup_insert_ne by lia.
      rewrite Hkeys, Hchildren.
      destruct (decide (Z.of_nat x <= num_keys leaf)) as [Hx|Hx].
      * rewrite !decide_True by lia.
        split; [intros (? & ? & ?)|intros (? & ? & ?)]; (split; [lia|done]).
      * split; [intros (? & ? & ?)|intros (? & ? & ?)]; lia.
  - intros [k' c'] He. apply list_elem_of_lookup in He as [x Hx].
    apply lookup_take_Some in Hx as [Hx Hlt].
    apply leaf_entries_lookup in Hx as (_ & Hkx & _).
    specialize (Hbefore (Z.of_nat x)).
    destruct (array_get_in_range arr_keys (keys leaf) (Z.of_nat x)) as (k & Hgk & Hlk); [lia|].
    change (get_key (Z.of_nat x) leaf = Ok k) in Hgk.
    rewrite Hgk in Hbefore. rewrite Nat2Z.id in Hlk.
    assert (k = k') as -> by congruence.
    simpl in Hbefore. specialize (Hbefore ltac:(lia)).
    injection Hbefore as Hb. apply Z.ltb_lt in Hb. done.
  - intros [k' c'] He. rewrite lookup_drop, Nat.add_0_r in He.
    apply leaf_entries_lookup in He as (Hlt & Hkx & _).
    destruct (array_get_in_range arr_keys (keys leaf) i) as (k & Hgk & Hlk); [lia|].
    change (get_key i leaf = Ok k) in Hgk.
    rewrite Hgk in Hat.
    assert (k = k') as -> by congruence.
    simpl in Hat. specialize (Hat ltac:(lia)).
    injection Hat as Hb. apply Z.ltb_ge in Hb. done.
Qed.

(** ** Insertion into a root leaf with room *)

Lemma insert_leaf_root t leaf key ptr :
  leaf_root t leaf -> num_keys leaf < MAX_KEYS ->
  exists t' leaf' i,
    insert key ptr t = Ok (true, t') /\
    leaf_root t' leaf' /\
    root_id t' = root_id t /\ next_node_id t' = next_node_id t /\
    next_leaf leaf' = next_leaf leaf /\ parent leaf' = parent leaf /\
    num_keys leaf' = num_keys leaf + 1 /\
    leaf_entries leaf'
      = take i (leaf_entries leaf) ++ (key, encode ptr) :: drop i (leaf_entries leaf) /\
    (forall e, e ∈ take i (leaf_entries leaf) -> e.1 < key) /\
    (forall e, drop i (leaf_entries leaf) !! 0%nat = Some e -> key <= e.1) /\
    (forall id, id <> root_id t -> node_at (nodes t') id = node_at (nodes t) id).
Proof.
  intros Hroot Hroom.
  destruct (findLeaf_leaf_root t leaf key Hroot) as (t1 & Hfind & Hroot1 & Hns1 & Hrt1 & Hnx1).
  pose proof Hroot1 as (Hopen1 & Hat1 & Hleaf & Hwf).
  assert (Hpos : 0 <= root_id t) by (rewrite <- Hrt1; by apply node_at_lookup in Hat1 as [? _]).
  destruct (readNode_open _ _ _ Hopen1 Hat1) as (t2 & Hread2 & Hopen2 & Hns2 & Hnx2 & Hrt2).
  assert (Hat2 : node_at (nodes t2) (root_id t1) = Some leaf) by (by rewrite Hns2).
  destruct (readNode_open _ _ _ Hopen2 Hat2) as (t3 & Hread3 & Hopen3 & Hns3 & Hnx3 & Hrt3).
  destruct (insert_slot_spec leaf key (encode ptr) Hwf Hroom)
    as (i & leaf' & Hscan & Hchain & Hwf' & Hl' & Hnl' & Hp' & Hn' & Hi & Hentries & Hlow & Hhigh).
  destruct (shift_right i leaf) as [l1|] eqn:Hs1; [|done]. cbn [rbind] in Hchain.
  destruct (set_key i key l1) as [l2|] eqn:Hs2; [|done]. cbn [rbind] in Hchain.
  destruct (set_child i (encode ptr) l2) as [l3|] eqn:Hs3; [|done]. cbn [rbind] in Hchain.
  injection Hchain as Hchain.
  destruct (writeNode_open (root_id t1) leaf' t3 Hopen3) as (t4 & Hwrite & Hopen4 & Hns4 & Hnx4 & Hrt4);
    [lia|].
  exists t4, leaf', (Z.to_nat i).
  split.
  - unfold insert. erewrite bind_ok; [|reflexivity].
    rewrite (proj2 (Z.eqb_neq _ _)) by lia.
    erewrite bind_ok; [|exact Hfind].
    rewrite (proj2 (Z.eqb_neq _ _)) by lia.
    rewrite <- Hrt1. erewrite bind_ok; [|exact Hread2].
    cbv beta iota. rewrite order_101.
    rewrite (proj2 (Z.ltb_lt _ _)) by (unfold MAX_KEYS in Hroom; lia).
    erewrite bind_ok; [reflexivity|].
    unfold insertIntoLeaf. erewrite bind_ok; [|exact Hread3].
    cbv beta iota.
    erewrite bind_ok; [|unfold lift; rewrite Hscan; reflexivity].
    erewrite bind_ok; [|unfold lift; rewrite Hs1; reflexivity].
    erewrite bind_ok; [|unfold lift; rewrite Hs2; reflexivity].
    erewrite bind_ok; [|unfold lift; rewrite Hs3; reflexivity].
    rewrite Hchain.
    erewrite bind_ok; [|exact Hwrite]. reflexivity.
  - assert (Heqns : nodes t4 = write_page zero_node (Z.to_nat (root_id t1)) leaf' (nodes t))
      by (rewrite Hns4, Hns3, Hns2, Hns1; done).
    split; [|split; [congruence|split; [congruence|]]].
    + split; [done|]. split; [|by rewrite Hl'].
      rewrite Heqns, Hrt4, Hrt3, Hrt2. apply node_at_write_eq. lia.
    + split; [done|]. split; [done|]. split; [done|]. split; [done|].
      split; [done|]. split; [done|].
      intros id Hid. rewrite Heqns.
      destruct (node_at (nodes t) id) as [n|] eqn:Hn.
      * apply node_at_write_ne; [lia|congruence|done].
      * unfold node_at in *. destruct (id <? 0) eqn:Hneg; [done|].
        apply Z.ltb_ge in Hneg.
        unfold write_page. rewrite decide_True.
        -- rewrite list_lookup_insert_ne by lia. done.
        -- rewrite <- Hns1. apply node_at_lookup in Hat1 as [_ Hl].
           by apply lookup_lt_Some in Hl.
Qed.

Lemma filter_none {A : Type} (P : A -> Prop) `{!forall x, Decision (P x)} (l : list A) :
  (forall x, x ∈ l -> ~ P x) -> filter P l = [].
Proof.
  induction l as [|a l IH]; intros Hall; [done|].
  rewrite filter_cons_False by (apply Hall; left).
  apply IH. intros x Hx. apply Hall. by right.
Qed.

Lemma pointers_where_split (P : Z -> Prop) `{!forall k, Decision (P k)} i es :
  pointers_where P es
  = pointers_where P (take i es) ++ pointers_where P (drop i es).
Proof.
  unfold pointers_where. rewrite <- fmap_app, <- filter_app, take_drop. done.
Qed.

(** X12. Insert and look up on a root leaf with room: the call answers
    [true]; [search] for the inserted key then returns the new pointer in
    front of the pointers it returned before, and [search] for any other key
    returns what it returned before. *)
Theorem insert_then_search
  (t : BPTree) (leaf : BPTreeNode) (key : Z) (ptr : RecordPointer) :
  leaf_root t leaf -> num_keys leaf < MAX_KEYS -> encodable ptr ->
  exists t',
    insert key ptr t = Ok (true, t') /\
    (exists found,
       value_of (search key t) = Ok found /\
       value_of (search key t') = Ok (ptr :: found)) /\
    (forall k, k <> key -> value_of (search k t') = value_of (search k t)).
Proof.
  intros Hroot Hroom Hptr.
  destruct (insert_leaf_root t leaf key ptr Hroot Hroom)
    as (t' & leaf' & i & Hins & Hroot' & _ & _ & _ & _ & _ & Hentries & Hlow & Hhigh & _).
  exists t'. split; [done|].
  assert (Hsearch : forall k, value_of (search k t)
                              = Ok (pointers_where (fun k' => k' = k) (leaf_entries leaf))).
  { intros k. destruct (search_leaf_root t leaf k Hroot) as (t1 & -> & _). done. }
  assert (Hsearch' : forall k, value_of (search k t')
                               = Ok (pointers_where (fun k' => k' = k) (leaf_entries leaf'))).
  { intros k. destruct (search_leaf_root t' leaf' k Hroot') as (t1 & -> & _). done. }
  split.
  - exists (pointers_where (fun k' => k' = key) (leaf_entries leaf)).
    split; [apply Hsearch|]. rewrite Hsearch', Hentries. f_equal.
    rewrite (pointers_where_split _ i (leaf_entries leaf)).
    unfold pointers_where. rewrite filter_app, filter_cons_True by done.
    rewrite (filter_none _ (take i _)); [|intros e He; specialize (Hlow e He); lia].
    simpl. by rewrite decode_encode_eq.
  - intros k Hk. rewrite Hsearch', Hsearch, Hentries. f_equal.
    rewrite (pointers_where_split _ i (leaf_entries leaf)).
    unfold pointers_where. rewrite filter_app, filter_cons_False by (simpl; congruence).
    by rewrite fmap_app.
Qed.

Lemma opened_leaf_root : leaf_root opened new_node.
Proof.
  split; [split; reflexivity|]. split; [reflexivity|]. split; [reflexivity|].
  split; [reflexivity|]. split; [reflexivity|]. by vm_compute.
Qed.

Lemma insert_then_search_witness :
  exists t',
    insert 5 (pointer_of 0) opened = Ok (true, t') /\
    (exists found,
       value_of (search 5 opened) = Ok found /\
       value_of (search 5 t') = Ok (pointer_of 0 :: found)) /\
    (forall k, k <> 5 -> value_of (search k t') = value_of (search k opened)).
Proof.
  apply (insert_then_search opened new_node 5 (pointer_of 0)).
  - apply opened_leaf_root.
  - by vm_compute.
  - vm_compute. repeat split; discriminate.
Defined.

Lemma sorted_insert_at (ks : list Z) : forall i key,
  StronglySorted Z.le ks ->
  (forall x, x ∈ take i ks -> x < key) ->
  (forall x, drop i ks !! 0%nat = Some x -> key <= x) ->
  StronglySorted Z.le (take i ks ++ key :: drop i ks).
Proof.
  induction ks as [|a ks IH]; intros i key Hs Hlow Hhigh.
  - rewrite take_nil, drop_nil. simpl. repeat constructor.
  - apply StronglySorted_inv in Hs as [Hs Ha].
    destruct i as [|i].
    + simpl. constructor; [by constructor|].
      specialize (Hhigh a eq_refl).
      constructor; [done|]. eapply Forall_impl; [exact Ha|]. simpl. intros; lia.
    + simpl. constructor.
      * apply IH; [done| |done].
        intros x Hx. apply Hlow. simpl. by right.
      * apply Forall_app. split.
        -- eapply Forall_forall. intros x Hx.
           rewrite Forall_forall in Ha. apply Ha.
           eapply subseteq_take, Hx.
        -- constructor.
           ++ assert (a < key); [|lia]. apply Hlow. simpl. by left.
           ++ eapply Forall_forall. intros x Hx.
              rewrite Forall_forall in Ha. apply Ha.
              eapply subseteq_drop, Hx.
Qed.

(** X13. Insertion into a root leaf with room keeps the keys of the leaf
    in ascending order and adds exactly the new key to them. *)
Theorem insert_keeps_leaf_sorted
  (t : BPTree) (leaf : BPTreeNode) (key : Z) (ptr : RecordPointer) :
  leaf_root t leaf -> num_keys leaf < MAX_KEYS ->
  StronglySorted Z.le (leaf_keys leaf) ->
  exists t' leaf',
    insert key ptr t = Ok (true, t') /\
    leaf_root t' leaf' /\
    StronglySorted Z.le (leaf_keys leaf') /\
    leaf_keys leaf' ≡ₚ key :: leaf_keys leaf.
Proof.
  intros Hroot Hroom Hsorted.
  destruct (insert_leaf_root t leaf key ptr Hroot Hroom)
    as (t' & leaf' & i & Hins & Hroot' & _ & _ & _ & _ & _ & Hentries & Hlow & Hhigh & _).
  exists t', leaf'. split; [done|]. split; [done|].
  assert (Hwf : node_wf leaf) by (by destruct Hroot as (_ & _ & _ & ?)).
  assert (Hwf' : node_wf leaf') by (by destruct Hroot' as (_ & _ & _ & ?)).
  assert (Hkeys : leaf_keys leaf' = take i (leaf_keys leaf) ++ key :: drop i (leaf_keys leaf)).
  { rewrite <- (leaf_entries_keys leaf'), <- (leaf_entries_keys leaf) by done.
    rewrite Hentries, fmap_app, fmap_cons, fmap_take, fmap_drop. done. }
  rewrite Hkeys. split.
  - apply sorted_insert_at; [done| |].
    + intros x Hx. rewrite <- (leaf_entries_keys leaf), <- fmap_take in Hx by done.
      apply list_elem_of_fmap in Hx as (e & -> & He). by apply Hlow.
    + intros x Hx. rewrite <- (leaf_entries_keys leaf), <- fmap_drop in Hx by done.
      rewrite list_lookup_fmap in Hx.
      destruct (drop i (leaf_entries leaf) !! 0%nat) as [e|] eqn:He; [|done].
      injection Hx as <-. by apply Hhigh.
  - rewrite <- Permutation_middle. by rewrite take_drop.
Qed.

Lemma insert_keeps_leaf_sorted_witness :
  exists t' leaf',
    insert 5 (pointer_of 0) opened = Ok (true, t') /\
    leaf_root t' leaf' /\
    StronglySorted Z.le (leaf_keys leaf') /\
    leaf_keys leaf' ≡ₚ 5 :: leaf_keys new_node.
Proof.
  apply (insert_keeps_leaf_sorted opened new_node 5 (pointer_of 0)).
  - apply opened_leaf_root.
  - by vm_compute.
  - constructor.
Defined.

(** ** Removal from a leaf without parent *)

(** What the body of [removeFromLeaf] makes of a leaf that holds the key:
    the first entry with the key goes, the later ones move down. *)
Lemma remove_slot_spec leaf key :
  node_wf leaf -> key ∈ leaf_keys leaf ->
  exists p leaf',
    key_position key leaf = Ok (Some p) /\
    (let+ l := shift_left p leaf in Ok (set_num_keys (num_keys l - 1) l)) = Ok leaf' /\
    node_wf leaf' /\
    is_leaf leaf' = is_leaf leaf /\ next_leaf leaf' = next_leaf leaf /\
    parent leaf' = parent leaf /\
    num_keys leaf' = num_keys leaf - 1 /\
    leaf_entries leaf'
      = take (Z.to_nat p) (leaf_entries leaf) ++ drop (S (Z.to_nat p)) (leaf_entries leaf) /\
    (forall e, e ∈ take (Z.to_nat p) (leaf_entries leaf) -> e.1 <> key) /\
    (exists c, leaf_entries leaf !! Z.to_nat p = Some (key, c)).
Proof.
  intros Hwf Hin. pose proof Hwf as (Hk & Hc & Hn). unfold MAX_KEYS in *.
  destruct (find_up_spec (Z.to_nat (num_keys leaf - 0)) 0
              (fun i => let+ k := get_key i leaf in Ok (k =? key)))
    as (r & Hfind & Hspec).
  { intros j Hj.
    destruct (array_get_in_range arr_keys (keys leaf) j) as (k & Hgk & _); [lia|].
    change (get_key j leaf = Ok k) in Hgk. rewrite Hgk. simpl. eauto. }
  assert (Hkey_at : forall j k, 0 <= j < num_keys leaf ->
            keys leaf !! Z.to_nat j = Some k ->
            (let+ k := get_key j leaf in Ok (k =? key)) = Ok (k =? key)).
  { intros j k Hj Hlk.
    destruct (array_get_in_range arr_keys (keys leaf) j) as (k' & Hgk & Hlk'); [lia|].
    change (get_key j leaf = Ok k') in Hgk. rewrite Hgk. simpl. congruence. }
  destruct r as [p|]; cycle 1.
  { exfalso. unfold leaf_keys in Hin.
    apply list_elem_of_lookup in Hin as [x Hx].
    apply lookup_take_Some in Hx as [Hx Hlt].
    specialize (Hspec (Z.of_nat x) ltac:(lia)).
    rewrite (Hkey_at _ key) in Hspec by (rewrite ?Nat2Z.id; (lia || done)).
    rewrite Z.eqb_refl in Hspec. done. }
  destruct Hspec as (Hp & Hhit & Hbefore).
  destruct (array_get_in_range arr_keys (keys leaf) p) as (kp & Hgkp & Hlkp); [lia|].
  destruct (array_get_in_range arr_children (children leaf) p) as (cp & _ & Hlcp); [lia|].
  rewrite (Hkey_at _ kp) in Hhit by (lia || done).
  injection Hhit as Hhit. apply Z.eqb_eq in Hhit. subst kp.
  destruct (shift_left_iter (Z.to_nat (num_keys leaf - 1 - p)) p leaf)
    as (l1 & Hshift & Hframe & Hkeys & Hchildren); [done|done|lia|lia|].
  destruct Hframe as (Hf1 & Hf2 & Hf3 & Hf4 & Hf5 & Hf6).
  exists p. eexists. split; [exact Hfind|].
  unfold shift_left, for_up. rewrite Hshift. cbn [rbind].
  split; [reflexivity|]. simpl.
  split; [|split; [done|split; [done|split; [done|split; [lia|]]]]].
  { unfold node_wf. simpl. unfold MAX_KEYS. lia. }
  assert (Hlen : length (leaf_entries leaf) = Z.to_nat (num_keys leaf))
    by (by apply length_leaf_entries).
  split; [|split].
  - apply list_eq_Some. intros x [k' c'].
    rewrite leaf_entries_lookup. simpl.
    rewrite Hkeys, Hchildren.
    destruct (decide (x < Z.to_nat p)%nat) as [Hlt|Hge].
    + rewrite lookup_app_l by (rewrite length_take; lia).
      rewrite lookup_take_lt by done.
      rewrite leaf_entries_lookup.
      rewrite !decide_False by lia.
      split; [intros (? & ? & ?)|intros (? & ? & ?)]; (split; [lia|done]).
    + rewrite lookup_app_r by (rewrite length_take; lia).
      rewrite length_take. replace (Z.to_nat p `min` length (leaf_entries leaf))%nat
        with (Z.to_nat p) by lia.
      rewrite lookup_drop.
      replace (S (Z.to_nat p) + (x - Z.to_nat p))%nat with (x + 1)%nat by lia.
      rewrite leaf_entries_lookup.
      destruct (decide (Z.of_nat x < num_keys leaf - 1)) as [Hx|Hx].
      * rewrite !decide_True by lia.
        split; [intros (? & ? & ?)|intros (? & ? & ?)]; (split; [lia|done]).
      * split; [intros (? & ? & ?)|intros (? & ? & ?)]; lia.
  - intros [k' c'] He Heq. simpl in Heq. subst k'.
    apply list_elem_of_lookup in He as [x Hx].
    apply lookup_take_Some in Hx as [Hx Hlt].
    apply leaf_entries_lookup in Hx as (_ & Hkx & _).
    specialize (Hbefore (Z.of_nat x) ltac:(lia)).
    rewrite (Hkey_at _ key) in Hbefore by (rewrite ?Nat2Z.id; (lia || done)).
    rewrite Z.eqb_refl in Hbefore. done.
  - exists cp. apply leaf_entries_lookup. split; [lia|done].
Qed.

Lemma remove_leaf_root t leaf key :
  leaf_root t leaf -> parent leaf = -1 -> key ∈ leaf_keys leaf ->
  exists t' leaf' p c,
    remove key t = Ok (true, t') /\
    leaf_root t' leaf' /\
    root_id t' = root_id t /\ next_node_id t' = next_node_id t /\
    next_leaf leaf' = next_leaf leaf /\ parent leaf' = parent leaf /\
    num_keys leaf' = num_keys leaf - 1 /\
    leaf_entries leaf' = take p (leaf_entries leaf) ++ drop (S p) (leaf_entries leaf) /\
    (forall e, e ∈ take p (leaf_entries leaf) -> e.1 <> key) /\
    leaf_entries leaf !! p = Some (key, c) /\
    (forall id, id <> root_id t -> node_at (nodes t') id = node_at (nodes t) id).
Proof.
  intros Hroot Hparent Hin.
  destruct (findLeaf_leaf_root t leaf key Hroot) as (t1 & Hfind & Hroot1 & Hns1 & Hrt1 & Hnx1).
  pose proof Hroot1 as (Hopen1 & Hat1 & Hleaf & Hwf).
  assert (Hpos : 0 <= root_id t) by (rewrite <- Hrt1; by apply node_at_lookup in Hat1 as [? _]).
  destruct (readNode_open _ _ _ Hopen1 Hat1) as (t2 & Hread2 & Hopen2 & Hns2 & Hnx2 & Hrt2).
  assert (Hat2 : node_at (nodes t2) (root_id t1) = Some leaf) by (by rewrite Hns2).
  destruct (readNode_open _ _ _ Hopen2 Hat2) as (t3 & Hread3 & Hopen3 & Hns3 & Hnx3 & Hrt3).
  destruct (remove_slot_spec leaf key Hwf Hin)
    as (p & leaf' & Hposn & Hchain & Hwf' & Hl' & Hnl' & Hp' & Hn' & Hentries & Hbefore & c & Hc).
  destruct (shift_left p leaf) as [l1|] eqn:Hs1; [|done]. cbn [rbind] in Hchain.
  injection Hchain as Hchain.
  destruct (writeNode_open (root_id t1) leaf' t3 Hopen3) as (t4 & Hwrite & Hopen4 & Hns4 & Hnx4 & Hrt4);
    [lia|].
  assert (Heqns : nodes t4 = write_page zero_node (Z.to_nat (root_id t1)) leaf' (nodes t))
    by (rewrite Hns4, Hns3, Hns2, Hns1; done).
  assert (Hat4 : node_at (nodes t4) (root_id t1) = Some leaf').
  { rewrite Heqns. apply node_at_write_eq. lia. }
  destruct (readNode_open _ _ _ Hopen4 Hat4) as (t5 & Hread5 & Hopen5 & Hns5 & Hnx5 & Hrt5).
  exists t5, leaf', (Z.to_nat p), c.
  split.
  - unfold remove. erewrite bind_ok; [|reflexivity].
    rewrite (proj2 (Z.eqb_neq _ _)) by lia.
    erewrite bind_ok; [|exact Hfind].
    rewrite (proj2 (Z.eqb_neq _ _)) by lia.
    rewrite <- Hrt1. erewrite bind_ok; [|exact Hread2].
    cbv beta iota.
    erewrite bind_ok; [|unfold lift; rewrite Hposn; reflexivity].
    cbv beta iota.
    unfold remove_found. erewrite bind_ok; cycle 1.
    { unfold removeFromLeaf. erewrite bind_ok; [|exact Hread3].
      cbv beta iota.
      erewrite bind_ok; [|unfold lift; rewrite Hposn; reflexivity].
      cbv beta iota.
      erewrite bind_ok; [|unfold lift; rewrite Hs1; reflexivity].
      rewrite Hchain.
      erewrite bind_ok; [|exact Hwrite]. reflexivity. }
    erewrite bind_ok; [|exact Hread5].
    change (default new_node (Some leaf')) with leaf'.
    rewrite Hp', Hparent. reflexivity.
  - split; [|split; [congruence|split; [congruence|]]].
    + split; [done|]. split; [|by rewrite Hl'].
      rewrite Hns5, Hrt5, Hrt4, Hrt3, Hrt2. done.
    + split; [done|]. split; [done|]. split; [done|]. split; [done|].
      split; [done|]. split; [done|].
      intros id Hid. rewrite Hns5, Heqns.
      destruct (node_at (nodes t) id) as [n|] eqn:Hn.
      * apply node_at_write_ne; [lia|congruence|done].
      * unfold node_at in *. destruct (id <? 0) eqn:Hneg; [done|].
        apply Z.ltb_ge in Hneg.
        unfold write_page. rewrite decide_True.
        -- rewrite list_lookup_insert_ne by lia. done.
        -- rewrite <- Hns1. apply node_at_lookup in Hat1 as [_ Hl].
           by apply lookup_lt_Some in Hl.
Qed.

(** X14. Removal from a root leaf (a leaf without parent): when the leaf
    holds the key, [remove] answers [true] and drops one entry, the first
    with that key; [search] for the key then returns the pointers it
    returned before without the first one, and [search] for any other key
    returns what it returned before. *)
Theorem remove_then_search (t : BPTree) (leaf : BPTreeNode) (key : Z) :
  leaf_root t leaf -> parent leaf = -1 -> key ∈ leaf_keys leaf ->
  exists t',
    remove key t = Ok (true, t') /\
    (exists first rest,
       value_of (search key t) = Ok (first :: rest) /\
       value_of (search key t') = Ok rest) /\
    (forall k, k <> key -> value_of (search k t') = value_of (search k t)).
Proof.
  intros Hroot Hparent Hin.
  destruct (remove_leaf_root t leaf key Hroot Hparent Hin)
    as (t' & leaf' & p & c & Hrem & Hroot' & _ & _ & _ & _ & _ & Hentries & Hbefore & Hat & _).
  exists t'. split; [done|].
  assert (Hsearch : forall k, value_of (search k t)
                              = Ok (pointers_where (fun k' => k' = k) (leaf_entries leaf))).
  { intros k. destruct (search_leaf_root t leaf k Hroot) as (t1 & -> & _). done. }
  assert (Hsearch' : forall k, value_of (search k t')
                               = Ok (pointers_where (fun k' => k' = k) (leaf_entries leaf'))).
  { intros k. destruct (search_leaf_root t' leaf' k Hroot') as (t1 & -> & _). done. }
  assert (Hsplit : leaf_entries leaf
                   = take p (leaf_entries leaf) ++ (key, c) :: drop (S p) (leaf_entries leaf))
    by (symmetry; by apply take_drop_middle).
  split.
  - exists (decode c), (pointers_where (fun k' => k' = key) (drop (S p) (leaf_entries leaf))).
    rewrite Hsearch, Hsearch', Hentries. rewrite Hsplit at 1.
    unfold pointers_where.
    rewrite !filter_app, filter_cons_True by done.
    rewrite (filter_none _ (take p _)) by done. done.
  - intros k Hk. rewrite Hsearch, Hsearch', Hentries. rewrite Hsplit at 3.
    unfold pointers_where.
    rewrite !filter_app, filter_cons_False by (simpl; congruence). done.
Qed.

Lemma remove_then_search_witness :
  exists t',
    remove 1 (loaded two_entries) = Ok (true, t') /\
    (exists first rest,
       value_of (search 1 (loaded two_entries)) = Ok (first :: rest) /\
       value_of (search 1 t') = Ok rest) /\
    (forall k, k <> 1 ->
       value_of (search k t') = value_of (search k (loaded two_entries))).
Proof.
  apply (remove_then_search (loaded two_entries)
           (leaf_with 2 (encode (pointer_of 1))
              (leaf_with 1 (encode (pointer_of 0)) new_node)) 1).
  - split; [split; reflexivity|]. split; [reflexivity|]. split; [reflexivity|].
    split; [reflexivity|]. split; [reflexivity|]. by vm_compute.
  - reflexivity.
  - vm_compute. apply list_elem_of_here.
Defined.

(** ** Bulk load of at most one leaf *)

Lemma leaf_entries_leaf_with leaf k c :
  node_wf leaf -> num_keys leaf < MAX_KEYS ->
  leaf_entries (leaf_with k c leaf) = leaf_entries leaf ++ [(k, c)].
Proof.
  intros (Hk & Hc & Hn) Hroom. unfold MAX_KEYS in *.
  unfold leaf_entries, leaf_with. simpl.
  replace (Z.to_nat (num_keys leaf + 1)) with (S (Z.to_nat (num_keys leaf))) by lia.
  rewrite !take_S_insert by lia.
  rewrite zip_with_app by (rewrite !length_take; lia). done.
Qed.

Lemma packs_new : packs new_node [].
Proof. repeat split; try done; by vm_compute. Qed.

Lemma packs_push leaf es (e : entry) :
  packs leaf es -> (length es < 101)%nat ->
  packs (leaf_with e.1 (encode e.2) leaf) (es ++ [e]).
Proof.
  intros (Hl & Hwf & Hnl & Hp & Hes) Hlen.
  pose proof (length_leaf_entries leaf Hwf) as Hlen'.
  rewrite Hes, length_fmap in Hlen'.
  pose proof Hwf as (Hk & Hc & Hn). unfold MAX_KEYS in *.
  split; [done|]. split; [|split; [done|split; [done|]]].
  - unfold node_wf, leaf_with. simpl. rewrite !length_insert. unfold MAX_KEYS. lia.
  - rewrite leaf_entries_leaf_with by (done || (unfold MAX_KEYS; lia)).
    rewrite Hes, fmap_app. done.
Qed.

Lemma packs_holds_keys leaf es : packs leaf es -> holds_keys leaf es.*1.
Proof.
  intros (Hl & Hwf & Hnl & Hp & Hes).
  pose proof (length_leaf_entries leaf Hwf) as Hlen.
  rewrite Hes, length_fmap in Hlen.
  pose proof Hwf as (Hk & Hc & Hn).
  split; [done|]. split; [rewrite length_fmap; lia|]. split; [|done].
  rewrite <- leaf_entries_keys by done. rewrite Hes.
  rewrite <- !list_fmap_compose. done.
Qed.

Lemma fill_leaves_one rest : forall es leaf cl lns t,
  packs leaf es -> (1 <= length es)%nat -> (length es + length rest <= 101)%nat ->
  exists leaf',
    fill_leaves rest (Z.of_nat (length es)) cl leaf lns t = Ok ((cl, leaf', lns), t) /\
    packs leaf' (es ++ rest).
Proof.
  induction rest as [|e rest IH]; intros es leaf cl lns t Hpacks Hes Hlen.
  - exists leaf. rewrite app_nil_r. done.
  - simpl in Hlen. cbn [fill_leaves].
    rewrite order_101.
    rewrite Z.rem_small by lia.
    rewrite (proj2 (Z.eqb_neq _ 0)) by lia.
    erewrite bind_ok; [|reflexivity]. cbv beta iota.
    destruct (IH (es ++ [e]) (leaf_with e.1 (encode e.2) leaf) cl lns t)
      as (leaf' & Hrun & Hpacks').
    { apply packs_push; [done|lia]. }
    { rewrite length_app. simpl. lia. }
    { rewrite length_app. simpl. lia. }
    exists leaf'. split.
    + apply (push_entry_runs leaf es.*1 e
               (fun l => fill_leaves rest (Z.of_nat (length es) + 1) cl l lns)).
      * by apply packs_holds_keys.
      * rewrite length_fmap. lia.
      * rewrite <- Hrun. rewrite length_app. simpl.
        replace (Z.of_nat (length es + 1)) with (Z.of_nat (length es) + 1) by lia. done.
    + by rewrite <- app_assoc in Hpacks'.
Qed.

Lemma bulkLoad_one_leaf t data :
  index_open t -> 0 <= next_node_id t ->
  data <> [] -> (length data <= 101)%nat ->
  exists t' leaf,
    bulkLoad data t = Ok (true, t') /\
    leaf_root t' leaf /\ packs leaf (std_sort data) /\
    root_id t' = next_node_id t /\
    next_node_id t' = next_node_id t + 1 /\
    stable_below (next_node_id t) (nodes t) (nodes t').
Proof.
  intros Hopen Hn0 Hdata Hlen.
  pose proof (std_sort_nonempty data Hdata) as Hsne.
  assert (Hslen : length (std_sort data) = length data).
  { unfold std_sort. by rewrite merge_sort_Permutation. }
  destruct (std_sort data) as [|e rest] eqn:Hsorted; [done|]. clear Hsne.
  simpl in Hslen.
  destruct (createNode_open (set_is_leaf true new_node) t Hopen Hn0)
    as (t1 & Hcreate & Hopen1 & Hns1 & Hnx1 & Hrt1).
  destruct (fill_leaves_one rest [e] (leaf_with e.1 (encode e.2) new_node)
              (next_node_id t) [] t1)
    as (leaf & Hfill & Hpacks).
  { apply (packs_push new_node [] e); [apply packs_new|simpl; lia]. }
  { simpl. lia. }
  { simpl. lia. }
  destruct (writeNode_open (next_node_id t) leaf t1 Hopen1 Hn0)
    as (t2 & Hwrite & Hopen2 & Hns2 & Hnx2 & Hrt2).
  exists (set_root_id (next_node_id t) t2), leaf.
  split.
  - destruct data as [|d0 data']; [done|].
    unfold bulkLoad. cbv zeta. rewrite Hsorted.
    erewrite bind_ok; cycle 1.
    { cbn [fill_leaves]. change (Z.rem 0 order =? 0) with true. cbv iota.
      erewrite bind_ok; cycle 1.
      { erewrite bind_ok; [|reflexivity].
        erewrite bind_ok; [|exact Hcreate]. reflexivity. }
      cbv beta iota.
      apply (push_entry_runs (set_is_leaf true new_node) [] e
               (fun l => fill_leaves rest (0 + 1) (next_node_id t) l [])).
      - apply holds_keys_new.
      - simpl. lia.
      - exact Hfill. }
    cbv beta iota.
    rewrite (proj2 (Z.eqb_neq _ (-1))) by lia. cbn [negb].
    erewrite bind_ok; cycle 1.
    { erewrite bind_ok; [|exact Hwrite]. reflexivity. }
    erewrite bind_ok; [|reflexivity].
    erewrite bind_ok; [|reflexivity].
    reflexivity.
  - destruct Hpacks as (Hl & Hwf & Hnl & Hp & Hes).
    split; [|split; [done|split; [done|split; [simpl; lia|]]]].
    + split; [done|]. split; [|done]. simpl.
      rewrite Hns2. apply node_at_write_eq. done.
    + simpl. rewrite Hns2, Hns1.
      eapply stable_below_trans with (k' := next_node_id t); [lia| |];
        apply stable_below_write; lia.
Qed.

Lemma std_sort_Permutation data : std_sort data ≡ₚ data.
Proof. unfold std_sort. apply merge_sort_Permutation. Qed.

Lemma pointers_where_packed (P : Z -> Prop) `{!forall k, Decision (P k)}
    (es : list entry) :
  Forall (fun e => encodable e.2) es ->
  pointers_where P (packed <$> es) = (filter (fun e : entry => P e.1) es).*2.
Proof.
  induction 1 as [|e es He _ IH]; [done|].
  unfold pointers_where in *. rewrite fmap_cons, !filter_cons.
  change ((packed e).1) with (e.1).
  destruct (decide (P e.1)) as [Hp|Hp].
  - rewrite !fmap_cons, IH. f_equal. simpl. by apply decode_encode_eq.
  - done.
Qed.

(** X15. Bulk load and look up, for at most 101 entries (one leaf): the
    load answers [true]; a range search whose interval contains every key
    returns the pointers of all the entries, each once, in ascending order
    of their keys; and [search] for a key returns the pointers of the
    entries with that key. *)
Theorem bulkLoad_then_rangeSearch_one_leaf
  (t : BPTree) (data : list entry) (min_key max_key : Z) :
  index_open t -> 0 <= next_node_id t ->
  data <> [] -> (length data <= 101)%nat ->
  Forall (fun e => encodable e.2) data ->
  Forall (fun e => min_key <= e.1 <= max_key) data ->
  exists t' sorted,
    bulkLoad data t = Ok (true, t') /\
    sorted ≡ₚ data /\ StronglySorted Z.le sorted.*1 /\
    value_of (rangeSearch min_key max_key t') = Ok sorted.*2 /\
    forall key,
      value_of (search key t') = Ok (filter (fun e : entry => e.1 = key) sorted).*2.
Proof.
  intros Hopen Hn0 Hdata Hlen Henc Hrange.
  destruct (bulkLoad_one_leaf t data Hopen Hn0 Hdata Hlen)
    as (t' & leaf & Hload & Hroot & Hpacks & _).
  exists t', (std_sort data).
  split; [done|]. split; [apply std_sort_Permutation|].
  split; [apply std_sort_keys_sorted|].
  destruct Hpacks as (Hl & Hwf & Hnl & Hp & Hes).
  assert (Henc' : Forall (fun e => encodable e.2) (std_sort data))
    by (by rewrite std_sort_Permutation).
  assert (Hrange' : Forall (fun e => min_key <= e.1 <= max_key) (std_sort data))
    by (by rewrite std_sort_Permutation).
  split.
  - destruct (rangeSearch_leaf_root t' leaf min_key max_key Hroot) as (t2 & -> & _).
    + pose proof (length_leaf_entries leaf Hwf) as Hle.
      rewrite Hes, length_fmap in Hle.
      pose proof (std_sort_nonempty data Hdata).
      destruct (std_sort data); [done|]. simpl in Hle. lia.
    + done.
    + simpl. rewrite Hes, pointers_where_packed by done. do 2 f_equal.
      clear -Hrange'. induction Hrange' as [|e es He _ IH]; [done|].
      rewrite filter_cons_True by done. by rewrite IH.
  - intros key.
    destruct (search_leaf_root t' leaf key Hroot) as (t2 & -> & _).
    simpl. rewrite Hes, pointers_where_packed by done. done.
Qed.

Lemma bulkLoad_then_rangeSearch_one_leaf_witness :
  exists t' sorted,
    bulkLoad two_entries opened = Ok (true, t') /\
    sorted ≡ₚ two_entries /\ StronglySorted Z.le sorted.*1 /\
    value_of (rangeSearch 0 9 t') = Ok sorted.*2 /\
    forall key,
      value_of (search key t') = Ok (filter (fun e : entry => e.1 = key) sorted).*2.
Proof.
  apply (bulkLoad_then_rangeSearch_one_leaf opened two_entries 0 9).
  - split; reflexivity.
  - vm_compute. discriminate.
  - discriminate.
  - vm_compute. lia.
  - repeat constructor; vm_compute; discriminate.
  - repeat constructor; vm_compute; discriminate.
Defined.

(** ** An index that is closed, or whose stream has failed *)

Lemma createNode_unusable n t :
  index_unusable t ->
  exists t',
    createNode n t = Ok (-1, t') /\ index_unusable t' /\
    nodes t' = nodes t /\ root_id t' = root_id t.
Proof.
  intros Hun. unfold createNode. erewrite bind_ok; [|reflexivity].
  destruct (is_open t) eqn:Ho; cbn [negb].
  - destruct Hun as [|Hg]; [congruence|].
    erewrite bind_ok; [|reflexivity].
    erewrite bind_ok; [|unfold writeNode; simpl; rewrite Ho, Hg; reflexivity].
    eexists. split; [reflexivity|]. split; [by right|done].
  - exists t. split; [done|]. split; [by left|done].
Qed.

Lemma search_empty_index key t :
  root_id t = -1 -> search key t = Ok ([], t).
Proof.
  intros Hroot. unfold search, findLeaf.
  erewrite bind_ok; [|erewrite bind_ok; [|reflexivity]; rewrite Hroot; reflexivity].
  reflexivity.
Qed.

(** X16. On an empty index (no root) whose file is not open or whose
    stream has failed, [insert] still answers [true]: the root leaf it
    builds is not written, the index stays without root, and [search] for
    the key finds nothing. *)
Theorem insert_unusable_index_answers_true
  (t : BPTree) (key : Z) (ptr : RecordPointer) :
  index_unusable t -> root_id t = -1 ->
  exists t',
    insert key ptr t = Ok (true, t') /\
    root_id t' = -1 /\ nodes t' = nodes t /\
    value_of (search key t') = Ok [].
Proof.
  intros Hun Hroot.
  destruct (createNode_unusable
              (set_num_keys 1
                 (set_children (<[Z.to_nat 0 := encode ptr]> (children new_node))
                    (set_keys (<[Z.to_nat 0 := key]> (keys new_node)) new_node))) t Hun)
    as (t1 & Hcreate & Hun1 & Hns1 & Hrt1).
  exists (set_root_id (-1) t1). split.
  - unfold insert. erewrite bind_ok; [|reflexivity].
    rewrite Hroot. change (-1 =? -1) with true. cbv iota.
    erewrite bind_ok; [|reflexivity].
    erewrite bind_ok; [|reflexivity].
    erewrite bind_ok; [|exact Hcreate].
    reflexivity.
  - split; [done|]. split; [done|].
    by rewrite search_empty_index.
Qed.

Lemma insert_unusable_index_answers_true_witness :
  exists t',
    insert 5 (pointer_of 0) constructed = Ok (true, t') /\
    root_id t' = -1 /\ nodes t' = nodes constructed /\
    value_of (search 5 t') = Ok [].
Proof.
  apply (insert_unusable_index_answers_true constructed 5 (pointer_of 0)).
  - by left.
  - reflexivity.
Defined.

Lemma fill_leaves_unusable rest : forall i leaf t,
  index_unusable t -> 0 <= i ->
  length (keys leaf) = Z.to_nat MAX_KEYS ->
  length (children leaf) = Z.to_nat (MAX_KEYS + 1) ->
  (Z.rem i 101 <> 0 -> num_keys leaf = Z.rem i 101) ->
  exists leaf' t',
    fill_leaves rest i (-1) leaf [] t = Ok ((-1, leaf', []), t') /\
    index_unusable t'.
Proof.
  induction rest as [|e rest IH]; intros i leaf t Hun Hi Hk Hc Hn.
  - exists leaf, t. done.
  - cbn [fill_leaves]. rewrite order_101.
    destruct (Z.rem i 101 =? 0) eqn:Hrem.
    + apply Z.eqb_eq in Hrem.
      destruct (createNode_unusable (set_is_leaf true new_node) t Hun)
        as (t1 & Hcreate & Hun1 & _).
      erewrite bind_ok; cycle 1.
      { erewrite bind_ok; [|reflexivity].
        erewrite bind_ok; [|exact Hcreate]. reflexivity. }
      cbv beta iota.
      destruct (IH (i + 1) (leaf_with e.1 (encode e.2) new_node) t1)
        as (leaf' & t' & Hrun & Hun'); [done|lia|done|done| |].
      { intros _. simpl. rewrite !Z.rem_mod_nonneg in * by lia.
        Z.to_euclidean_division_equations. lia. }
      exists leaf', t'. split; [|done].
      apply (push_entry_runs (set_is_leaf true new_node) [] e
               (fun l => fill_leaves rest (i + 1) (-1) l [])).
      * apply holds_keys_new.
      * simpl. lia.
      * exact Hrun.
    + apply Z.eqb_neq in Hrem. specialize (Hn Hrem).
      assert (Hbound : 1 <= num_keys leaf <= 100).
      { rewrite Hn. rewrite !Z.rem_mod_nonneg in * by lia.
        Z.to_euclidean_division_equations. lia. }
      erewrite bind_ok; [|reflexivity]. cbv beta iota.
      unfold MAX_KEYS in *.
      erewrite bind_ok; [|unfold lift; rewrite set_key_in_range by lia; reflexivity].
      erewrite bind_ok;
        [|unfold lift; rewrite set_child_in_range by (simpl; lia); reflexivity].
      apply IH; [done|lia| | |].
      * simpl. by rewrite length_insert.
      * simpl. by rewrite length_insert.
      * intros Hrem'. simpl. rewrite Hn. rewrite !Z.rem_mod_nonneg in * by lia.
        Z.to_euclidean_division_equations. lia.
Qed.

(** X17. [bulkLoad] of a non-empty input on an index whose file is not
    open (or whose stream has failed) creates no leaf, and its linking loop,
    bounded by [leaf_nodes.size() - 1] on an empty vector, then indexes the
    vector at 0. *)
Theorem bulkLoad_unusable_index (t : BPTree) (data : list entry) :
  index_unusable t -> data <> [] ->
  bulkLoad data t = Fault (OutOfBounds arr_vector 0).
Proof.
  intros Hun Hdata.
  pose proof (std_sort_nonempty data Hdata) as Hsne.
  destruct data as [|d0 data']; [done|].
  unfold bulkLoad. cbv zeta.
  destruct (fill_leaves_unusable (std_sort (d0 :: data')) 0 new_node t)
    as (leaf' & t' & Hrun & Hun'); [done|lia|done|done|done|].
  erewrite bind_ok; [|exact Hrun]. cbv beta iota.
  change (negb (-1 =? -1)) with false. cbv iota.
  erewrite bind_ok; [|reflexivity].
  reflexivity.
Qed.

Lemma bulkLoad_unusable_index_witness :
  bulkLoad two_entries constructed = Fault (OutOfBounds arr_vector 0).
Proof.
  apply (bulkLoad_unusable_index constructed two_entries).
  - by left.
  - discriminate.
Defined.

(** ** Range removal on a root leaf *)

Lemma encode_decode c : is_int c -> encode (decode c) = c.
Proof.
  intros Hc. unfold is_int in Hc. unfold encode, decode. simpl.
  assert (Hq : - 2 ^ 31 <= Z.quot c 10000 * 10000 < 2 ^ 31)
    by (Z.to_euclidean_division_equations; lia).
  rewrite (wrap32_id (Z.quot c 10000 * 10000)) by lia.
  assert (Heq : Z.quot c 10000 * 10000 + Z.rem c 10000 = c)
    by (Z.to_euclidean_division_equations; lia).
  rewrite Heq. apply wrap32_id. lia.
Qed.

Lemma keep_outside_from min_key max_key leaf :
  node_wf leaf ->
  forall m i acc,
    0 <= i -> i + Z.of_nat m <= num_keys leaf ->
    iter_up m i
      (fun i remaining_data =>
         let+ key := get_key i leaf in
         let+ encoded_ptr := get_child i leaf in
         let ptr := decode encoded_ptr in
         if (key <? min_key) || (max_key <? key)
         then Ok (remaining_data ++ [(key, ptr)])
         else Ok remaining_data) acc
    = Ok (acc ++ (unpacked <$>
                    filter (fun e : Z * Z => ~ (min_key <= e.1 <= max_key))
                      (zip (take m (drop (Z.to_nat i) (keys leaf)))
                           (take m (drop (Z.to_nat i) (children leaf)))))).
Proof.
  intros (Hk & Hc & Hn).
  unfold MAX_KEYS in *.
  induction m as [|m IH]; intros i acc Hi Him.
  - simpl. by rewrite app_nil_r.
  - cbn [iter_up].
    destruct (array_get_in_range arr_keys (keys leaf) i) as (k & Hgk & Hlk); [lia|].
    destruct (array_get_in_range arr_children (children leaf) i) as (c & Hgc & Hlc); [lia|].
    change (get_key i leaf = Ok k) in Hgk. change (get_child i leaf = Ok c) in Hgc.
    rewrite Hgk, Hgc. cbn [rbind]. cbv zeta.
    rewrite (drop_S _ _ _ Hlk), (drop_S _ _ _ Hlc). cbn [take zip zip_with].
    rewrite filter_cons. cbn [fst].
    destruct ((k <? min_key) || (max_key <? k)) eqn:Htk.
    + rewrite decide_True
        by (apply orb_true_iff in Htk as [H|H]; apply Z.ltb_lt in H; lia).
      cbn [rbind]. rewrite IH by lia.
      replace (Z.to_nat (i + 1)) with (S (Z.to_nat i)) by lia.
      rewrite fmap_cons. by rewrite <- app_assoc.
    + rewrite decide_False
        by (apply orb_false_iff in Htk as [H1 H2];
            apply Z.ltb_ge in H1, H2; intros H; apply H; lia).
      cbn [rbind]. rewrite IH by lia.
      replace (Z.to_nat (i + 1)) with (S (Z.to_nat i)) by lia. done.
Qed.

Lemma keep_outside_spec min_key max_key leaf acc :
  node_wf leaf ->
  keep_outside min_key max_key leaf acc
  = Ok (acc ++ (unpacked <$>
                  filter (fun e : Z * Z => ~ (min_key <= e.1 <= max_key))
                    (leaf_entries leaf))).
Proof.
  intros Hwf. unfold keep_outside, for_up. rewrite Z.sub_0_r.
  rewrite (keep_outside_from min_key max_key leaf Hwf); [done|lia|].
  destruct Hwf as (_ & _ & ?). lia.
Qed.

Lemma packed_unpacked es :
  Forall is_int es.*2 -> packed <$> (unpacked <$> es) = es.
Proof.
  induction es as [|[k c] es IH]; intros Hint; [done|].
  rewrite fmap_cons in Hint. apply Forall_cons in Hint as [Hc Hint].
  rewrite !fmap_cons, IH by done. unfold packed, unpacked. simpl.
  by rewrite encode_decode.
Qed.

Lemma removeRange_leaf_root t leaf min_key max_key :
  leaf_root t leaf -> 1 <= num_keys leaf -> next_leaf leaf = -1 ->
  exists t',
    removeRange min_key max_key t
      = Ok (Z.of_nat (length (filter (fun e : Z * Z => min_key <= e.1 <= max_key)
                                (leaf_entries leaf))), t') /\
    (filter (fun e : Z * Z => ~ (min_key <= e.1 <= max_key)) (leaf_entries leaf) = [] ->
       root_id t' = -1 /\ next_node_id t' = 0) /\
    (filter (fun e : Z * Z => ~ (min_key <= e.1 <= max_key)) (leaf_entries leaf) <> [] ->
       exists leaf' sorted,
         leaf_root t' leaf' /\ packs leaf' sorted /\
         sorted ≡ₚ unpacked <$>
           filter (fun e : Z * Z => ~ (min_key <= e.1 <= max_key)) (leaf_entries leaf)).
Proof.
  intros Hroot Hn Hnext.
  set (kept := filter (fun e : Z * Z => ~ (min_key <= e.1 <= max_key)) (leaf_entries leaf)).
  destruct (rangeSearch_leaf_root t leaf min_key max_key Hroot Hn Hnext)
    as (t1 & Hrange & Hroot1 & Hns1 & Hrt1 & Hnx1).
  destruct (findLeaf_leaf_root t1 leaf 0 Hroot1) as (t2 & Hfind & Hroot2 & Hns2 & Hrt2 & Hnx2).
  pose proof Hroot2 as (Hopen2 & Hat2 & Hleaf & Hwf).
  assert (Hpos : 0 <= root_id t2) by (by apply node_at_lookup in Hat2 as [? _]).
  assert (Hlen2 : (0 < length (nodes t2))%nat).
  { apply node_at_lookup in Hat2 as [_ Hl]. apply lookup_lt_Some in Hl. lia. }
  destruct (readNode_open _ _ _ Hopen2 Hat2) as (t3 & Hread & Hopen3 & Hns3 & Hnx3 & Hrt3).
  set (t4 := set_next_node_id 0 (set_root_id (-1) t3)).
  assert (Hopen4 : index_open t4) by (by destruct Hopen3).
  assert (Hcollect :
    (let* t := get in
     collect_remaining (S (length (nodes t))) min_key max_key (root_id t1) []) t2
    = Ok (unpacked <$> kept, t3)).
  { erewrite bind_ok; [|reflexivity].
    cbn [collect_remaining].
    rewrite (proj2 (Z.eqb_neq _ _)) by lia.
    rewrite <- Hrt2. erewrite bind_ok; [|exact Hread].
    cbv beta iota.
    erewrite bind_ok; [|unfold lift; rewrite keep_outside_spec by done; reflexivity].
    rewrite Hnext.
    destruct (length (nodes t2)) as [|fuel]; [lia|]. reflexivity. }
  assert (Hcount : length (pointers_where (fun k => min_key <= k <= max_key) (leaf_entries leaf))
                   = length (filter (fun e : Z * Z => min_key <= e.1 <= max_key)
                               (leaf_entries leaf)))
    by (unfold pointers_where; by rewrite length_fmap).
  destruct (unpacked <$> kept) as [|e0 rem] eqn:Hrem.
  - (* nothing survives *)
    apply fmap_nil_inv in Hrem.
    exists t4. split; [|split; [done|by rewrite Hrem]].
    unfold removeRange. erewrite bind_ok; [|exact Hrange].
    cbv zeta. erewrite bind_ok; [|exact Hfind].
    erewrite (bind_ok get); [|reflexivity].
    erewrite bind_ok; [|exact Hcollect].
    erewrite bind_ok; [|reflexivity].
    erewrite bind_ok; [|reflexivity].
    erewrite bind_ok; [|reflexivity].
    rewrite Hcount. reflexivity.
  - (* the survivors are loaded again *)
    assert (Hkept_len : (length kept <= 101)%nat).
    { unfold kept. etrans; [apply length_filter|].
      rewrite length_leaf_entries by done. destruct Hwf as (_ & _ & ?).
      unfold MAX_KEYS in *. lia. }
    assert (Hrem_len : length (e0 :: rem) = length kept) by (by rewrite <- Hrem, length_fmap).
    destruct (bulkLoad_one_leaf t4 (std_sort (e0 :: rem)) Hopen4)
      as (t5 & leaf' & Hload & Hroot5 & Hpacks5 & Hrt5 & Hnx5 & _).
    { simpl. lia. }
    { by apply std_sort_nonempty. }
    { rewrite std_sort_Permutation, Hrem_len. done. }
    exists (set_next_node_id rebuilt_node_count t5).
    split; [|split].
    + unfold removeRange. erewrite bind_ok; [|exact Hrange].
      cbv zeta. erewrite bind_ok; [|exact Hfind].
      erewrite (bind_ok get); [|reflexivity].
      erewrite bind_ok; [|exact Hcollect].
      erewrite bind_ok; [|reflexivity].
      erewrite bind_ok; [|reflexivity].
      erewrite bind_ok; cycle 1.
      { erewrite bind_ok; [|exact Hload].
        erewrite bind_ok; [|reflexivity]. reflexivity. }
      rewrite Hcount. reflexivity.
    + intros Hnil. rewrite Hnil in Hrem_len. done.
    + intros _. exists leaf', (std_sort (std_sort (e0 :: rem))).
      split; [|split; [done|]].
      * destruct Hroot5 as (Ho5 & Hat5 & Hl5 & Hwf5). split; [done|]. done.
      * by rewrite !std_sort_Permutation.
Qed.

Lemma getNumLevels_empty_index t :
  root_id t = -1 -> getNumLevels t = Ok (0, t).
Proof.
  intros Hroot. unfold getNumLevels. erewrite bind_ok; [|reflexivity].
  by rewrite Hroot.
Qed.

Lemma filter_filter_outside (es : list (Z * Z)) min_key max_key k :
  ~ (min_key <= k <= max_key) ->
  filter (fun e : Z * Z => e.1 = k)
    (filter (fun e : Z * Z => ~ (min_key <= e.1 <= max_key)) es)
  = filter (fun e : Z * Z => e.1 = k) es.
Proof.
  intros Hk. induction es as [|e es IH]; [done|].
  rewrite (filter_cons (fun e : Z * Z => ~ (min_key <= e.1 <= max_key))).
  destruct (decide (~ (min_key <= e.1 <= max_key))) as [Hout|Hin].
  - rewrite !filter_cons. destruct (decide (e.1 = k)); by rewrite IH.
  - rewrite IH. rewrite filter_cons_False; [done|]. intros Heq. apply Hin.
    by rewrite Heq.
Qed.

(** X18. [removeRange] on an index whose root is a leaf that holds at
    least one entry: the call answers the number of entries with a key in
    [min_key, max_key]; afterwards [search] finds nothing under a key of the
    interval and, under any other key, the pointers it found before (in some
    order); and when every key lies in the interval the index is left
    without root and [getNumLevels] answers 0. *)
Theorem removeRange_on_root_leaf
  (t : BPTree) (leaf : BPTreeNode) (min_key max_key : Z) :
  leaf_root t leaf -> 1 <= num_keys leaf -> next_leaf leaf = -1 ->
  Forall is_int (leaf_entries leaf).*2 ->
  exists t',
    removeRange min_key max_key t
      = Ok (Z.of_nat (length (filter (fun k => min_key <= k <= max_key) (leaf_keys leaf))), t') /\
    (forall k, min_key <= k <= max_key -> value_of (search k t') = Ok []) /\
    (forall k, ~ (min_key <= k <= max_key) ->
       exists found found',
         value_of (search k t) = Ok found /\
         value_of (search k t') = Ok found' /\
         found' ≡ₚ found) /\
    (Forall (fun k => min_key <= k <= max_key) (leaf_keys leaf) ->
       root_id t' = -1 /\ value_of (getNumLevels t') = Ok 0).
Proof.
  intros Hroot Hn Hnext Hint.
  assert (Hwf : node_wf leaf) by (by destruct Hroot as (_ & _ & _ & ?)).
  set (kept := filter (fun e : Z * Z => ~ (min_key <= e.1 <= max_key)) (leaf_entries leaf)).
  destruct (removeRange_leaf_root t leaf min_key max_key Hroot Hn Hnext)
    as (t' & Hrun & Hnone & Hsome).
  fold kept in Hnone, Hsome.
  assert (Hsearch : forall k, value_of (search k t)
                              = Ok (pointers_where (fun k' => k' = k) (leaf_entries leaf))).
  { intros k. destruct (search_leaf_root t leaf k Hroot) as (t1 & -> & _). done. }
  assert (Hkept_int : Forall is_int kept.*2).
  { apply Forall_forall. intros c Hc.
    apply list_elem_of_fmap in Hc as (e & -> & He).
    apply list_elem_of_filter in He as [_ He].
    rewrite Forall_forall in Hint. apply Hint. apply list_elem_of_fmap. eauto. }
  assert (Hafter : forall k, exists found',
             value_of (search k t') = Ok found' /\
             found' ≡ₚ pointers_where (fun k' => k' = k) kept).
  { intros k. destruct (decide (kept = [])) as [Hnil|Hne].
    - destruct (Hnone Hnil) as [Hrt _].
      exists []. rewrite search_empty_index by done. by rewrite Hnil.
    - destruct (Hsome Hne) as (leaf' & sorted & Hroot' & Hpacks & Hperm).
      destruct (search_leaf_root t' leaf' k Hroot') as (t1 & -> & _).
      eexists. split; [reflexivity|].
      destruct Hpacks as (_ & _ & _ & _ & ->).
      unfold pointers_where. rewrite Hperm.
      by rewrite packed_unpacked. }
  exists t'. split; [|split; [|split]].
  - rewrite Hrun. do 3 f_equal.
    rewrite <- (leaf_entries_keys leaf) by done.
    clear. induction (leaf_entries leaf) as [|e es IH]; [done|].
    rewrite fmap_cons, !filter_cons.
    destruct (decide (min_key <= e.1 <= max_key)); simpl; by rewrite IH.
  - intros k Hk. destruct (Hafter k) as (found' & -> & Hperm).
    f_equal. apply Permutation_nil_r. rewrite Hperm.
    unfold pointers_where. rewrite filter_none; [done|].
    intros e He Heq. apply list_elem_of_filter in He as [He _].
    rewrite Heq in He. done.
  - intros k Hk. destruct (Hafter k) as (found' & Hs' & Hperm).
    exists (pointers_where (fun k' => k' = k) (leaf_entries leaf)), found'.
    split; [apply Hsearch|]. split; [done|].
    rewrite Hperm. unfold pointers_where, kept.
    by rewrite filter_filter_outside.
  - intros Hall.
    assert (Hnil : kept = []).
    { apply filter_none. intros e He Hout. apply Hout.
      rewrite Forall_forall in Hall. apply Hall.
      rewrite <- (leaf_entries_keys leaf) by done.
      apply list_elem_of_fmap. eauto. }
    destruct (Hnone Hnil) as [Hrt _]. split; [done|].
    by rewrite getNumLevels_empty_index.
Qed.

Lemma removeRange_on_root_leaf_witness :
  exists t',
    removeRange 2 2 (loaded two_entries)
      = Ok (Z.of_nat (length (filter (fun k => 2 <= k <= 2)
                                (leaf_keys (leaf_with 2 (encode (pointer_of 1))
                                   (leaf_with 1 (encode (pointer_of 0)) new_node))))), t') /\
    (forall k, 2 <= k <= 2 -> value_of (search k t') = Ok []) /\
    (forall k, ~ (2 <= k <= 2) ->
       exists found found',
         value_of (search k (loaded two_entries)) = Ok found /\
         value_of (search k t') = Ok found' /\
         found' ≡ₚ found) /\
    (Forall (fun k => 2 <= k <= 2)
       (leaf_keys (leaf_with 2 (encode (pointer_of 1))
                     (leaf_with 1 (encode (pointer_of 0)) new_node))) ->
       root_id t' = -1 /\ value_of (getNumLevels t') = Ok 0).
Proof.
  apply (removeRange_on_root_leaf (loaded two_entries)
           (leaf_with 2 (encode (pointer_of 1))
              (leaf_with 1 (encode (pointer_of 0)) new_node)) 2 2).
  - split; [split; reflexivity|]. split; [reflexivity|]. split; [reflexivity|].
    split; [reflexivity|]. split; [reflexivity|]. by vm_compute.
  - by vm_compute.
  - reflexivity.
  - repeat constructor; vm_compute; discriminate.
Defined.
(** * Bulk load: the layout of the whole file *)

(** ** The leaves, with their entries *)

Lemma leaf_pages_stable ns ns' n0 chunks :
  leaf_pages ns n0 chunks ->
  stable_below (n0 + Z.of_nat (length chunks)) ns ns' ->
  leaf_pages ns' n0 chunks.
Proof.
  intros Hat Hst g c Hg.
  destruct (Hat g c Hg) as (n & Hn & Hc).
  exists n. split; [|done]. apply Hst; [|done].
  apply lookup_lt_Some in Hg. lia.
Qed.

Lemma leaf_pages_snoc ns n0 chunks n c :
  leaf_pages ns n0 chunks ->
  node_at ns (n0 + Z.of_nat (length chunks)) = Some n -> packs n c ->
  leaf_pages ns n0 (chunks ++ [c]).
Proof.
  intros Hat Hn Hc g c' Hg.
  apply lookup_app_Some in Hg as [Hg|[Hlen Hg]].
  - by apply Hat.
  - apply list_lookup_singleton_Some in Hg as [Hg0 <-].
    exists n. split; [|done].
    replace g with (length chunks) by lia. done.
Qed.

Lemma fill_leaves_packed n0 :
  0 <= n0 ->
  forall rest chunks cur t cl leaf lns,
    filling_packed n0 chunks cur t cl leaf lns ->
    exists chunks' cur' t' cl' leaf' lns',
      fill_leaves rest (Z.of_nat (101 * length chunks + length cur)) cl leaf lns t
        = Ok ((cl', leaf', lns'), t') /\
      filling_packed n0 chunks' cur' t' cl' leaf' lns' /\
      concat chunks' ++ cur' = concat chunks ++ cur ++ rest.
Proof.
  intros Hn0 rest.
  induction rest as [|e rest IH]; intros chunks cur t cl leaf lns Hfill.
  - exists chunks, cur, t, cl, leaf, lns. simpl.
    split; [done|]. split; [done|]. by rewrite app_nil_r.
  - destruct Hfill as (Hopen & Hnext & Hcl & Hlns & Hleaf & Hcur & Hchunks & Hat).
    assert (Hi : Z.of_nat (101 * length chunks + length cur)
                 = 101 * Z.of_nat (length chunks) + Z.of_nat (length cur)) by lia.
    cbn [fill_leaves].
    destruct (Z.of_nat (length cur) =? 101) eqn:Hfull.
    + apply Z.eqb_eq in Hfull.
      destruct (writeNode_open cl leaf t Hopen) as (t1 & Hw & Hopen1 & Hns1 & Hnext1 & _);
        [lia|].
      destruct (createNode_open (set_is_leaf true new_node) t1 Hopen1)
        as (t2 & Hc & Hopen2 & Hns2 & Hnext2 & _); [lia|].
      erewrite bind_ok; cycle 1.
      { rewrite Hi, rem_order_chunk by lia.
        rewrite (proj2 (Z.eqb_eq _ _) Hfull).
        erewrite bind_ok; cycle 1.
        { rewrite (proj2 (Z.eqb_neq cl (-1))) by lia. cbn [negb].
          erewrite bind_ok; [|exact Hw]. reflexivity. }
        erewrite bind_ok; [|exact Hc]. reflexivity. }
      cbv beta iota.
      destruct (IH (chunks ++ [cur]) [e] t2 (next_node_id t1)
                  (leaf_with e.1 (encode e.2) (set_is_leaf true new_node)) (lns ++ [cl]))
        as (chunks' & cur' & t' & cl' & leaf' & lns' & Hrun & Hfill' & Hcat).
      { split; [done|]. rewrite length_app. simpl.
        split; [lia|]. split; [lia|].
        split; [by rewrite Nat.add_1_r, id_range_S, Hlns, Hcl|].
        split; [apply (packs_push new_node [] e); [apply packs_new|simpl; lia]|].
        split; [simpl; lia|].
        split; [apply Forall_app; split; [done|]; apply Forall_singleton; lia|].
        apply (leaf_pages_snoc _ _ _ leaf).
        - apply (leaf_pages_stable (nodes t)); [done|].
          rewrite Hns2, Hns1.
          apply (stable_below_trans _ (n0 + Z.of_nat (length chunks)) _
                   (write_page zero_node (Z.to_nat cl) leaf (nodes t)));
            [reflexivity| |]; apply stable_below_write; lia.
        - rewrite Hns2, Hns1.
          apply node_at_write_ne; [lia|lia|].
          rewrite <- Hcl. apply node_at_write_eq. lia.
        - done. }
      exists chunks', cur', t', cl', leaf', lns'.
      split.
      { apply (push_entry_runs (set_is_leaf true new_node) [] e
                 (fun l => fill_leaves rest _ (next_node_id t1) l (lns ++ [cl])));
          [apply holds_keys_new|simpl; lia|].
        rewrite <- Hrun. f_equal.
        rewrite length_app. simpl. lia. }
      split; [done|].
      rewrite Hcat, concat_app. simpl. rewrite app_nil_r, <- !app_assoc. done.
    + apply Z.eqb_neq in Hfull.
      erewrite bind_ok; cycle 1.
      { rewrite Hi, rem_order_chunk by lia.
        rewrite (proj2 (Z.eqb_neq _ _) Hfull). reflexivity. }
      cbv beta iota.
      destruct (IH chunks (cur ++ [e]) t cl (leaf_with e.1 (encode e.2) leaf) lns)
        as (chunks' & cur' & t' & cl' & leaf' & lns' & Hrun & Hfill' & Hcat).
      { split; [done|]. split; [done|]. split; [done|]. split; [done|].
        split; [apply packs_push; [done|lia]|].
        rewrite length_app. simpl. split; [lia|]. done. }
      exists chunks', cur', t', cl', leaf', lns'.
      split.
      { apply (push_entry_runs leaf (cur.*1) e
                 (fun l => fill_leaves rest _ cl l lns));
          [by apply packs_holds_keys|rewrite length_fmap; lia|].
        rewrite <- Hrun. f_equal.
        rewrite length_app. simpl. lia. }
      split; [done|].
      rewrite Hcat, <- !app_assoc. done.
Qed.

(** The first loop of [bulkLoad] and the write that follows it: the sorted
    entries go to consecutive pages, 101 to a leaf, the last leaf taking the
    rest. *)
Lemma leaves_phase_packed t sorted_data :
  index_open t -> 0 <= next_node_id t -> sorted_data <> [] ->
  exists cl leaf lns t1 t2 full cur,
    fill_leaves sorted_data 0 (-1) new_node [] t = Ok ((cl, leaf, lns), t1) /\
    negb (cl =? -1) = true /\
    writeNode cl leaf t1 = Ok (true, t2) /\
    lns ++ [cl] = id_range (next_node_id t) (length (full ++ [cur])) /\
    index_open t2 /\
    next_node_id t2 = next_node_id t + Z.of_nat (length (full ++ [cur])) /\
    leaf_pages (nodes t2) (next_node_id t) (full ++ [cur]) /\
    concat (full ++ [cur]) = sorted_data /\
    Forall (fun c => length c = 101%nat) full /\
    (1 <= length cur <= 101)%nat.
Proof.
  intros Hopen Hn0 Hne.
  destruct sorted_data as [|e rest]; [done|]. clear Hne.
  set (n0 := next_node_id t).
  destruct (createNode_open (set_is_leaf true new_node) t Hopen Hn0)
    as (t0 & Hc & Hopen0 & Hns0 & Hnext0 & Hroot0).
  destruct (fill_leaves_packed n0 Hn0 rest [] [e] t0 n0
              (leaf_with e.1 (encode e.2) (set_is_leaf true new_node)) [])
    as (chunks & cur & t1 & cl & leaf & lns & Hrun & Hfill & Hcat).
  { split; [done|]. split; [simpl; lia|]. split; [simpl; lia|].
    split; [done|].
    split; [apply (packs_push new_node [] e); [apply packs_new|simpl; lia]|].
    split; [simpl; lia|]. split; [done|].
    intros g ks Hg. done. }
  destruct Hfill as (Hopen1 & Hnext1 & Hcl & Hlns & Hleaf & Hcur & Hchunks & Hat).
  destruct (writeNode_open cl leaf t1 Hopen1) as (t2 & Hw & Hopen2 & Hns2 & Hnext2 & Hroot2);
    [lia|].
  exists cl, leaf, lns, t1, t2, chunks, cur.
  assert (Hlen : length (chunks ++ [cur]) = S (length chunks)).
  { rewrite length_app. simpl. lia. }
  split.
  { cbn [fill_leaves].
    erewrite bind_ok; cycle 1.
    { change (Z.rem 0 order =? 0) with true. cbv iota.
      erewrite bind_ok; [|reflexivity].
      erewrite bind_ok; [|exact Hc]. reflexivity. }
    cbv beta iota.
    apply (push_entry_runs (set_is_leaf true new_node) [] e
             (fun l => fill_leaves rest _ n0 l []));
      [apply holds_keys_new|simpl; lia|].
    exact Hrun. }
  split; [apply negb_true_iff, Z.eqb_neq; lia|].
  split; [done|].
  split; [by rewrite Hlen, id_range_S, Hlns, Hcl|].
  split; [done|].
  split; [rewrite Hnext2, Hnext1, Hlen; lia|].
  split.
  { apply (leaf_pages_snoc _ _ _ leaf).
    - apply (leaf_pages_stable (nodes t1)); [done|].
      rewrite Hns2. apply stable_below_write. lia.
    - rewrite Hns2, <- Hcl. apply node_at_write_eq. lia.
    - done. }
  split.
  { rewrite concat_app. simpl. rewrite app_nil_r, Hcat. done. }
  done.
Qed.

(** ** The leaf chain *)

Lemma node_at_rewrite ns id id' x old :
  node_at ns id = Some old -> id' <> id ->
  node_at (write_page zero_node (Z.to_nat id) x ns) id' = node_at ns id'.
Proof.
  intros Hold Hne. apply node_at_lookup in Hold as [Hid Hl].
  apply lookup_lt_Some in Hl.
  unfold node_at. destruct (id' <? 0) eqn:Hneg; [done|]. apply Z.ltb_ge in Hneg.
  unfold write_page. rewrite decide_True by done.
  apply list_lookup_insert_ne. lia.
Qed.

Lemma link_leaves_from_step a b rest :
  link_leaves_from (a :: b :: rest)
  = (let* r := readNode a in
     let leaf_node := set_next_leaf b (default new_node r) in
     let* _ := writeNode a leaf_node in
     link_leaves_from (b :: rest)).
Proof. reflexivity. Qed.

Lemma link_chain cs : forall a t,
  index_open t -> 0 <= a -> leaf_pages (nodes t) a cs ->
  exists t',
    link_leaves_from (id_range a (length cs)) t = Ok (tt, t') /\
    index_open t' /\ next_node_id t' = next_node_id t /\
    root_id t' = root_id t /\
    chain_pages (nodes t') a cs /\
    (forall id, id < a \/ a + Z.of_nat (length cs) <= id ->
       node_at (nodes t') id = node_at (nodes t) id).
Proof.
  induction cs as [|c cs IH]; intros a t Hopen Ha Hpages.
  { exists t. split; [done|]. split; [done|]. split; [done|]. split; [done|].
    split; [|done]. intros g c Hg. done. }
  destruct (Hpages 0%nat c eq_refl) as (na & Hna & Hpna).
  rewrite Z.add_0_r in Hna.
  destruct cs as [|c' cs'].
  { exists t. split; [done|]. split; [done|]. split; [done|]. split; [done|].
    split; [|done]. intros g c0 Hg.
    apply list_lookup_singleton_Some in Hg as [-> <-].
    exists na. rewrite Z.add_0_r. split; [done|].
    cbn [length]. destruct (decide _); [lia|exact Hpna]. }
  destruct (readNode_open a na t Hopen Hna) as (t1 & Hr & Hopen1 & Hns1 & Hnext1 & Hrt1).
  destruct (writeNode_open a (set_next_leaf (a + 1) na) t1 Hopen1 Ha)
    as (t2 & Hw & Hopen2 & Hns2 & Hnext2 & Hrt2).
  assert (Hns2' : nodes t2 = write_page zero_node (Z.to_nat a) (set_next_leaf (a + 1) na) (nodes t))
    by (by rewrite Hns2, Hns1).
  destruct (IH (a + 1) t2 Hopen2) as (t' & Hrun & Hopen' & Hnext' & Hrt' & Hchain & Hframe).
  { lia. }
  { intros g c0 Hg. destruct (Hpages (S g) c0 Hg) as (n & Hn & Hpn).
    exists n. split; [|done].
    rewrite Hns2'. rewrite (node_at_rewrite _ a _ _ na) by (done || lia).
    rewrite <- Hn. f_equal. lia. }
  exists t'. split.
  { change (length (c :: c' :: cs')) with (S (S (length cs'))).
    rewrite id_range_cons, id_range_cons.
    rewrite link_leaves_from_step.
    erewrite bind_ok; [|exact Hr]. change (default new_node (Some na)) with na.
    cbv zeta. erewrite bind_ok; [|exact Hw].
    rewrite <- id_range_cons. exact Hrun. }
  split; [done|]. split; [congruence|]. split; [congruence|].
  split.
  - intros g c0 Hg. destruct g as [|g].
    + simpl in Hg. injection Hg as <-.
      exists (set_next_leaf (a + 1) na). rewrite Z.add_0_r. split.
      * rewrite Hframe by lia. rewrite Hns2'. apply node_at_write_eq. lia.
      * cbn [length]. destruct (decide _); [|lia].
        destruct Hpna as (? & ? & ? & ? & ?). split; [done|]. split; [done|].
        split; [simpl; lia|]. done.
    + destruct (Hchain g c0 Hg) as (n & Hn & Hpn).
      exists n. split; [rewrite <- Hn; f_equal; lia|].
      change (length (c :: c' :: cs')) with (S (length (c' :: cs'))).
      destruct (decide (S g < length (c' :: cs'))%nat).
      * rewrite decide_True by lia.
        replace (a + Z.of_nat (S g) + 1) with (a + 1 + Z.of_nat g + 1) by lia. done.
      * rewrite decide_False by lia. done.
  - intros id Hid. simpl length in Hid.
    rewrite Hframe by (simpl length; lia).
    rewrite Hns2'. apply (node_at_rewrite _ a _ _ na); [done|lia].
Qed.

(** ** The upper levels *)

Lemma bind_inv {S A B : Type} (m : M S A) (k : A -> M S B) s r :
  bind m k s = Ok r -> exists a s', m s = Ok (a, s') /\ k a s' = Ok r.
Proof.
  unfold bind. destruct (m s) as [[a s']|f]; [|done]. eauto.
Qed.

Lemma lift_inv {S A : Type} (r : result A) (s : S) a s' :
  lift r s = Ok (a, s') -> r = Ok a /\ s' = s.
Proof. unfold lift. destruct r; [|done]. by intros [= -> ->]. Qed.

Lemma set_child_inv i v n n' :
  set_child i v n = Ok n' -> exists cs, n' = set_children cs n.
Proof.
  unfold set_child. destruct (array_set _ _ _ _) as [cs|]; [|done].
  simpl. intros [= <-]. eauto.
Qed.

Lemma set_key_inv i v n n' :
  set_key i v n = Ok n' ->
  0 <= i /\ n' = set_keys (<[Z.to_nat i := v]> (keys n)) n.
Proof.
  unfold set_key, array_set.
  destruct ((0 <=? i) && (i <? Z.of_nat (length (keys n)))) eqn:Hin; [|done].
  apply andb_true_iff in Hin as [Hi _]. apply Z.leb_le in Hi.
  simpl. by intros [= <-].
Qed.

(** [adopt] touches only the child slots, the key slots it fills and the
    key count of the node it builds. *)
Lemma adopt_frame group : forall k internal t internal' t',
  adopt group k internal t = Ok (internal', t') ->
  0 <= num_keys internal ->
  is_leaf internal' = is_leaf internal /\ parent internal' = parent internal /\
  next_leaf internal' = next_leaf internal /\
  num_keys internal <= num_keys internal' /\
  forall j : nat, num_keys internal' <= Z.of_nat j ->
    keys internal' !! j = keys internal !! j.
Proof.
  induction group as [|id rest IH]; intros k internal t internal' t' Hrun Hn.
  { injection Hrun as <- <-. repeat split; (done || lia). }
  cbn [adopt] in Hrun.
  apply bind_inv in Hrun as (i1 & t1 & Hset & Hrun).
  apply lift_inv in Hset as [Hset ->].
  apply set_child_inv in Hset as [cs ->].
  destruct rest as [|next rest].
  { injection Hrun as <- <-. repeat split; (done || simpl; lia). }
  apply bind_inv in Hrun as (r & t2 & _ & Hrun).
  apply bind_inv in Hrun as (k0 & t3 & _ & Hrun).
  apply bind_inv in Hrun as (i2 & t4 & Hsetk & Hrun).
  apply lift_inv in Hsetk as [Hsetk ->].
  apply set_key_inv in Hsetk as [_ ->].
  apply IH in Hrun as (Hl & Hp & Hnl & Hle & Htail); [|simpl; lia].
  simpl in *.
  split; [done|]. split; [done|]. split; [done|]. split; [lia|].
  intros j Hj. rewrite Htail by done.
  apply list_lookup_insert_ne. lia.
Qed.

(** One round of the level builder, with what it leaves untouched in the
    nodes it creates. *)
Lemma build_level_fresh fuel : forall ids t,
  index_open t -> 0 <= next_node_id t -> (length ids <= fuel)%nat ->
  (forall id, id ∈ ids ->
     id < next_node_id t /\
     exists n, node_at (nodes t) id = Some n /\ length (keys n) = Z.to_nat MAX_KEYS) ->
  exists G t',
    build_level fuel ids t = Ok (id_range (next_node_id t) G, t') /\
    index_open t' /\ next_node_id t' = next_node_id t + Z.of_nat G /\
    stable_below (next_node_id t) (nodes t) (nodes t') /\
    (101 * G < length ids + 101 /\ length ids <= 101 * G)%nat /\
    forall h, (h < G)%nat ->
      exists p, node_at (nodes t') (next_node_id t + Z.of_nat h) = Some p /\
                built_from (nodes t) (take 101 (drop (101 * h) ids)) p /\
                take 101 (drop (101 * h) ids) <> [] /\
                fresh_internal p.
Proof.
  induction fuel as [|fuel IH]; intros ids t Hopen Hnext Hfuel Hids.
  { destruct ids; [|simpl in Hfuel; lia].
    exists 0%nat, t. simpl. split; [done|]. split; [done|]. split; [lia|].
    split; [apply stable_below_refl|]. split; [lia|]. intros h Hh. lia. }
  destruct ids as [|id0 ids0] eqn:Hids_eq.
  { exists 0%nat, t. simpl. split; [done|]. split; [done|]. split; [lia|].
    split; [apply stable_below_refl|]. split; [lia|]. intros h Hh. lia. }
  rewrite <- Hids_eq in *.
  assert (Hne : ids <> []) by (by rewrite Hids_eq).
  assert (Hlen : (1 <= length ids)%nat) by (rewrite Hids_eq; simpl; lia).
  set (grp := take 101 ids).
  assert (Hgrp_ne : grp <> []).
  { unfold grp. rewrite Hids_eq. done. }
  destruct (adopt_spec grp 0 (set_is_leaf false new_node) t)
    as (internal & t1 & Hadopt & Hopen1 & Hns1 & Hnext1 & Hleaf & Hlk & Hlc & Hnk
        & _ & Hch & Hks); try done.
  { unfold grp. rewrite length_take. lia. }
  { intros c Hc. apply Hids. unfold grp in Hc. by apply subseteq_take in Hc. }
  assert (Hfresh : fresh_internal internal).
  { destruct (adopt_frame _ _ _ _ _ _ Hadopt) as (Hl & Hp & Hnl & _ & Htail); [simpl; lia|].
    split; [done|]. split; [done|]. split; [done|].
    intros j Hj Hj101. rewrite Htail by done.
    change (keys (set_is_leaf false new_node)) with (replicate (Z.to_nat MAX_KEYS) 0).
    apply lookup_replicate_2. unfold MAX_KEYS. lia. }
  destruct (createNode_open internal t1 Hopen1) as (t2 & Hc & Hopen2 & Hns2 & Hnext2 & _);
    [lia|].
  rewrite Hnext1 in Hc, Hns2, Hnext2. rewrite Hns1 in Hns2.
  assert (Hst2 : stable_below (next_node_id t) (nodes t) (nodes t2)).
  { rewrite Hns2. apply stable_below_write. lia. }
  destruct (IH (drop 101 ids) t2) as (G & t' & Hrun & Hopen' & Hnext' & Hst' & HG & Hbuilt).
  { done. } { lia. }
  { rewrite length_drop. lia. }
  { intros c Hcin. apply subseteq_drop in Hcin.
    destruct (Hids c Hcin) as (Hlt & n & Hn & Hnk0).
    split; [lia|]. exists n. split; [|done]. by apply Hst2. }
  rewrite Hnext2 in Hrun, Hnext', Hst', Hbuilt.
  exists (S G), t'. split.
  { rewrite Hids_eq. cbn [build_level]. rewrite <- Hids_eq.
    change (Z.to_nat order) with 101%nat. fold grp.
    erewrite bind_ok; [|exact Hadopt].
    erewrite bind_ok; [|exact Hc].
    erewrite bind_ok; [|exact Hrun].
    by rewrite id_range_cons. }
  split; [done|]. split; [lia|].
  split.
  { apply (stable_below_trans _ (next_node_id t + 1) _ (nodes t2)); [lia|done|done]. }
  split.
  { rewrite length_drop in HG. lia. }
  intros h Hh. destruct h as [|h].
  - exists internal. rewrite Z.add_0_r.
    change (take 101 (drop (101 * 0) ids)) with grp.
    split.
    { apply Hst'; [lia|]. rewrite Hns2. apply node_at_write_eq. lia. }
    split; [|done].
    split; [done|]. split; [rewrite Hnk by done; simpl; lia|].
    split; [done|]. split; [done|]. split; [done|].
    intros j c n Hj Hn. by apply (Hks j c n).
  - destruct (Hbuilt h) as (p & Hp & Hbf & Hgne & Hfr); [lia|].
    rewrite drop_drop in Hbf, Hgne.
    replace (101 + 101 * h)%nat with (101 * S h)%nat in Hbf, Hgne by lia.
    exists p. split.
    { rewrite <- Hp. f_equal. lia. }
    split; [|done].
    apply (built_from_weaken _ (nodes t2)); [done|].
    intros c n Hcin Hn. apply Hst2; [|done].
    apply subseteq_take, subseteq_drop in Hcin.
    destruct (Hids c Hcin) as [Hlt _]. done.
Qed.

Lemma leftmost_stable ns ns' key hi hi' d : forall id a,
  leftmost ns key hi d id a -> hi <= hi' -> stable_below hi ns ns' ->
  leftmost ns' key hi' d id a.
Proof.
  induction d as [|d IH]; intros id a Hl Hhi Hst; [done|].
  destruct Hl as (p & c & Hid & Hlt & Hp & Hleaf & Hwf & Hkeys & Hc & Hrest).
  exists p, c. split; [lia|]. split; [done|]. split; [by apply Hst|]. split; [done|].
  split; [done|]. split; [done|]. split; [done|]. by apply IH.
Qed.

Lemma lookup_group a len h j :
  (j < 101)%nat -> (101 * h + j < len)%nat ->
  take 101 (drop (101 * h) (id_range a len)) !! j = Some (a + Z.of_nat (101 * h + j)).
Proof.
  intros Hj Hlen. rewrite lookup_take_lt by done. rewrite lookup_drop.
  by apply lookup_id_range.
Qed.

Lemma length_group a len h :
  length (take 101 (drop (101 * h) (id_range a len))) = (101 `min` (len - 101 * h))%nat.
Proof. by rewrite length_take, length_drop, length_id_range. Qed.

(** One round over a level whose nodes all start with a key above [key]:
    the leftmost node of the new level leads to the leftmost leaf. *)
Lemma round_level key n0 len a d t :
  index_open t -> 0 <= a -> (2 <= len)%nat ->
  level_ok (nodes t) key (next_node_id t) a len d n0 ->
  exists G t',
    build_level len (id_range a len) t = Ok (id_range (next_node_id t) G, t') /\
    index_open t' /\ next_node_id t' = next_node_id t + Z.of_nat G /\
    stable_below (next_node_id t) (nodes t) (nodes t') /\
    (1 <= G < len)%nat /\ (101 * G < len + 101 /\ len <= 101 * G)%nat /\
    leftmost (nodes t') key (next_node_id t') (S d) (next_node_id t) n0 /\
    (key < 0 -> level_ok (nodes t') key (next_node_id t') (next_node_id t) G (S d) n0).
Proof.
  intros Hopen Ha Hlen (Hlevel & Hleft & Hhi).
  destruct (build_level_fresh len (id_range a len) t)
    as (G & t' & Hrun & Hopen' & Hnext' & Hst & HG & Hbuilt).
  { done. } { lia. } { by rewrite length_id_range. }
  { intros id (g & Hg & ->)%elem_of_id_range.
    destruct (Hlevel g Hg) as (p & x & Hp & Hlk & _). split; [lia|]. eauto. }
  rewrite length_id_range in HG.
  exists G, t'. split; [done|]. split; [done|]. split; [done|]. split; [done|].
  split; [lia|]. split; [lia|].
  assert (Hsep : forall h p j, (h < G)%nat ->
            built_from (nodes t) (take 101 (drop (101 * h) (id_range a len))) p ->
            Z.of_nat j < num_keys p ->
            exists x, keys p !! j = Some x /\ key < x).
  { intros h p j Hh (_ & Hnk & _ & _ & _ & Hks) Hj.
    rewrite Hnk, length_group in Hj.
    destruct (Hlevel (101 * h + S j)%nat) as (n & x & Hn & _ & Hx & Hlt); [lia|].
    exists x. split; [|done]. rewrite <- Hx.
    apply (Hks j (a + Z.of_nat (101 * h + S j))); [|done].
    apply lookup_group; lia. }
  split.
  - destruct (Hbuilt 0%nat) as (p & Hp & Hbf & _ & _); [lia|].
    rewrite Z.add_0_r in Hp.
    exists p, a. split; [lia|]. split; [lia|]. split; [done|].
    pose proof Hbf as (Hl & Hnk & Hlk & Hlc & Hch & _).
    split; [done|]. split.
    { split; [done|]. split; [done|]. rewrite Hnk, length_group. unfold MAX_KEYS. lia. }
    split.
    { apply Forall_lookup. intros j x Hx. unfold leaf_keys in Hx.
      apply lookup_take_Some in Hx as [Hx Hj].
      destruct (Hsep 0%nat p j) as (x' & Hx' & Hlt); [lia|done|lia|].
      rewrite Hx in Hx'. by injection Hx' as ->. }
    split.
    { apply Hch. rewrite lookup_group by lia. f_equal. lia. }
    apply (leftmost_stable (nodes t) _ key (next_node_id t)); [done|lia|done].
  - intros Hneg. split; [|split].
    + intros h Hh. destruct (Hbuilt h Hh) as (p & Hp & Hbf & _ & Hfresh).
      pose proof Hbf as (_ & Hnk & Hlk & _).
      destruct (decide (0 < num_keys p)) as [Hpos|Hzero].
      * destruct (Hsep h p 0%nat Hh Hbf) as (x & Hx & Hlt); [lia|].
        exists p, x. done.
      * exists p, 0. split; [done|]. split; [done|]. split; [|done].
        destruct Hfresh as (_ & _ & _ & Htail). apply Htail; lia.
    + destruct (Hbuilt 0%nat) as (p & Hp & Hbf & _ & _); [lia|].
      rewrite Z.add_0_r in Hp.
      exists p, a. split; [lia|]. split; [lia|]. split; [done|].
      pose proof Hbf as (Hl & Hnk & Hlk & Hlc & Hch & _).
      split; [done|]. split.
      { split; [done|]. split; [done|]. rewrite Hnk, length_group. unfold MAX_KEYS. lia. }
      split.
      { apply Forall_lookup. intros j x Hx. unfold leaf_keys in Hx.
        apply lookup_take_Some in Hx as [Hx Hj].
        destruct (Hsep 0%nat p j) as (x' & Hx' & Hlt); [lia|done|lia|].
        rewrite Hx in Hx'. by injection Hx' as ->. }
      split.
      { apply Hch. rewrite lookup_group by lia. f_equal. lia. }
      apply (leftmost_stable (nodes t) _ key (next_node_id t)); [done|lia|done].
    + lia.
Qed.

Lemma pow_101_pos h : (1 <= 101 ^ h)%nat.
Proof. induction h as [|h IH]; [simpl; lia|]. rewrite Nat.pow_succ_r'. lia. Qed.

(** The rounds of the level builder end with a single node, from which the
    first children lead to the leftmost leaf; a round more for every factor
    101 in the number of nodes. *)
Lemma rounds_leftmost key n0 fuel : forall len a d t,
  index_open t -> 0 <= a -> (1 <= len <= fuel)%nat ->
  level_ok (nodes t) key (next_node_id t) a len d n0 ->
  n0 + Z.of_nat d <= a ->
  key < 0 \/ (len <= 101)%nat ->
  exists r d' t',
    build_levels fuel (id_range a len) t = Ok ([r], t') /\
    index_open t' /\
    next_node_id t <= next_node_id t' /\
    stable_below (next_node_id t) (nodes t) (nodes t') /\
    leftmost (nodes t') key (next_node_id t') d' r n0 /\
    n0 + Z.of_nat d' <= r /\
    forall h, (len <= 101 ^ h)%nat <-> (d' <= d + h)%nat.
Proof.
  induction fuel as [|fuel IH]; intros len a d t Hopen Ha Hlen Hlevel Hd Hcase; [lia|].
  destruct (decide (len = 1%nat)) as [->|Hlen2].
  { exists a, d, t. split; [by rewrite id_range_cons|]. split; [done|]. split; [lia|].
    split; [apply stable_below_refl|]. split; [by destruct Hlevel as (_ & ? & _)|].
    split; [done|]. intros h. pose proof (pow_101_pos h). lia. }
  destruct (round_level key n0 len a d t)
    as (G & t1 & Hrun & Hopen1 & Hnext1 & Hst1 & HG & Hone & Hleft1 & Hlevel1);
    [done|done|lia|done|].
  assert (Hhi : a + Z.of_nat len <= next_node_id t) by (by destruct Hlevel as (_ & _ & ?)).
  assert (Hstep : build_levels (S fuel) (id_range a len) t
                  = build_levels fuel (id_range (next_node_id t) G) t1).
  { cbn [build_levels]. rewrite length_id_range.
    destruct (decide (1 < len)%nat); [|lia].
    erewrite bind_ok; [|exact Hrun]. done. }
  rewrite Hstep.
  destruct (decide (G = 1%nat)) as [->|HG2].
  { exists (next_node_id t), (S d), t1.
    split.
    { rewrite id_range_cons. by destruct fuel. }
    split; [done|]. split; [lia|]. split; [done|]. split; [done|]. split; [lia|].
    intros [|h]; [simpl; lia|]. pose proof (pow_101_pos h). rewrite Nat.pow_succ_r'. lia. }
  assert (Hneg : key < 0) by (destruct Hcase as [?|?]; [done|lia]).
  destruct (IH G (next_node_id t) (S d) t1)
    as (r & d' & t' & Hrun' & Hopen' & Hnext' & Hst' & Hleft' & Hd' & Hcount);
    [done|lia|lia|by apply Hlevel1|lia|by left|].
  exists r, d', t'. split; [done|]. split; [done|]. split; [lia|].
  split; [apply (stable_below_trans _ (next_node_id t1) _ (nodes t1)); [lia|done|done]|].
  split; [done|]. split; [done|].
  intros [|h].
  - specialize (Hcount 0%nat). simpl in *. lia.
  - specialize (Hcount h). rewrite Nat.pow_succ_r'. lia.
Qed.

(** *** The descent along first children *)

Lemma child_index_leftmost key p :
  node_wf p -> Forall (fun k => key < k) (leaf_keys p) ->
  child_index key p = Ok 0.
Proof.
  intros Hwf Hkeys. unfold child_index, scan_while.
  destruct (scan_up_spec (Z.to_nat (num_keys p - 0)) 0
              (fun i => let+ k := get_key i p in Ok (k <=? key)))
    as (r & -> & Hr & Hbefore & _).
  { intros j Hj. destruct (get_key_in_use p j Hwf) as (k & -> & _); [lia|]. simpl. eauto. }
  destruct (decide (r = 0)) as [->|Hr0]; [done|].
  specialize (Hbefore 0 ltac:(lia)).
  destruct (get_key_in_use p 0 Hwf) as (k & Hk & Hin); [lia|].
  rewrite Hk in Hbefore. simpl in Hbefore. injection Hbefore as Hle.
  apply Z.leb_le in Hle. rewrite Forall_forall in Hkeys. specialize (Hkeys k Hin). lia.
Qed.

Lemma readNode_counted id n t t' :
  readNode id t = Ok (Some n, t') -> counted 1 t t' /\ noted [id] t t'.
Proof.
  unfold readNode. destruct (negb (is_open t)); [done|].
  destruct (good t && (0 <=? id)); [|done].
  destruct (nodes t !! Z.to_nat id); [|done].
  intros [= _ <-]. split; [done|]. unfold noted. simpl.
  by rewrite (right_id_L ∅ (∪)).
Qed.

Lemma noted_trans ids1 ids2 ids t1 t2 t3 :
  noted ids1 t1 t2 -> noted ids2 t2 t3 ->
  (forall x, x ∈ ids <-> x ∈ ids1 \/ x ∈ ids2) ->
  noted ids t1 t3.
Proof.
  unfold noted. intros H1 H2 Hids. rewrite H2, H1.
  apply set_eq. intros x.
  rewrite !elem_of_union, !elem_of_list_to_set, Hids. tauto.
Qed.

(** Every internal node on the way is read twice, the leaf once. *)
Lemma findLeaf_loop_leftmost key hi a leaf d : forall fuel id t,
  index_open t -> leftmost (nodes t) key hi d id a ->
  node_at (nodes t) a = Some leaf -> is_leaf leaf = true ->
  (d < fuel)%nat ->
  exists t' path,
    findLeaf_loop fuel key id t = Ok (a, t') /\
    index_open t' /\ nodes t' = nodes t /\
    next_node_id t' = next_node_id t /\ root_id t' = root_id t /\
    counted (2 * Z.of_nat d + 1) t t' /\
    noted (path ++ [a]) t t' /\
    length path = d /\ NoDup path /\
    Forall (fun x => x <= id /\
              exists p, node_at (nodes t) x = Some p /\ is_leaf p = false) path.
Proof.
  induction d as [|d IH]; intros fuel id t Hopen Hleft Hleaf Hl Hfuel.
  - simpl in Hleft. subst id. destruct fuel as [|fuel]; [lia|].
    destruct (readNode_open _ _ _ Hopen Hleaf) as (t' & Hread & Hopen' & Hns & Hnext & Hrt).
    destruct (readNode_counted _ _ _ _ Hread) as [Hcnt Hnoted].
    exists t', []. split.
    { cbn [findLeaf_loop]. erewrite bind_ok; [|exact Hread].
      cbv beta iota. by rewrite Hl. }
    split; [done|]. split; [done|]. split; [done|]. split; [done|].
    split; [done|]. split; [done|]. split; [done|]. split; [constructor|done].
  - destruct Hleft as (p & c & _ & Hlt & Hp & Hint & Hwf & Hkeys & Hc & Hrest).
    destruct fuel as [|fuel]; [lia|].
    destruct (readNode_open _ _ _ Hopen Hp) as (t1 & Hread1 & Hopen1 & Hns1 & Hnext1 & Hrt1).
    assert (Hp1 : node_at (nodes t1) id = Some p) by (by rewrite Hns1).
    destruct (readNode_open _ _ _ Hopen1 Hp1) as (t2 & Hread2 & Hopen2 & Hns2 & Hnext2 & Hrt2).
    destruct (IH fuel c t2)
      as (t' & path & Hrun & Hopen' & Hns' & Hnext' & Hrt' & Hcnt & Hnoted & Hlen & Hnd & Hpath).
    { done. } { by rewrite Hns2, Hns1. } { by rewrite Hns2, Hns1. } { done. } { lia. }
    destruct (readNode_counted _ _ _ _ Hread1) as [Hc1 Hn1].
    destruct (readNode_counted _ _ _ _ Hread2) as [Hc2 Hn2].
    exists t', (id :: path). split.
    + cbn [findLeaf_loop]. erewrite bind_ok; [|exact Hread1].
      cbv beta iota. rewrite Hint.
      erewrite bind_ok; [|exact Hread2]. cbv beta iota.
      rewrite (child_index_leftmost key p Hwf Hkeys).
      erewrite bind_ok; [|reflexivity].
      assert (Hgc : get_child 0 p = Ok c).
      { unfold get_child, array_get. change (Z.to_nat 0) with 0%nat. by rewrite Hc. }
      rewrite Hgc. erewrite bind_ok; [|reflexivity]. exact Hrun.
    + split; [done|]. split; [congruence|]. split; [congruence|]. split; [congruence|].
      split; [unfold counted in *; lia|].
      split.
      { apply (noted_trans [id] (path ++ [a]) _ t t2 t'); [|done|].
        - apply (noted_trans [id] [id] _ t t1 t2); [done|done|]. tauto.
        - intros x. cbn [app]. rewrite elem_of_cons, list_elem_of_singleton. tauto. }
      split; [simpl; lia|].
      split.
      { constructor; [|done]. intros Hin. rewrite Forall_forall in Hpath.
        destruct (Hpath id Hin) as [? _]. lia. }
      constructor; [split; [lia|eauto]|].
      eapply Forall_impl; [exact Hpath|]. intros x [Hx Hnode].
      split; [lia|]. by rewrite Hns2, Hns1 in Hnode.
Qed.

(** *** The walk along the leaf chain *)

Lemma packs_linked_last n c next e :
  packs_linked n c next -> last c = Some e ->
  num_keys n = Z.of_nat (length c) /\ get_key (num_keys n - 1) n = Ok e.1.
Proof.
  intros (Hleaf & Hwf & Hnext & _ & Hes) Hlast.
  assert (Hnk : num_keys n = Z.of_nat (length c)).
  { pose proof (length_leaf_entries n Hwf) as Hle.
    rewrite Hes, length_fmap in Hle. destruct Hwf as (_ & _ & ?). lia. }
  split; [done|].
  rewrite last_lookup in Hlast.
  assert (Hcpos : (1 <= length c)%nat).
  { apply lookup_lt_Some in Hlast. lia. }
  assert (He : leaf_entries n !! pred (length c) = Some (e.1, encode e.2)).
  { rewrite Hes, list_lookup_fmap, Hlast. done. }
  apply leaf_entries_lookup in He as (_ & He & _).
  unfold get_key.
  destruct (array_get_in_range arr_keys (keys n) (num_keys n - 1)) as (k & -> & Hk).
  { destruct Hwf as (Hlk & _ & Hn). rewrite Hlk. unfold MAX_KEYS in *. lia. }
  replace (Z.to_nat (num_keys n - 1)) with (pred (length c)) in Hk by lia.
  congruence.
Qed.

(** One leaf of the walk of [rangeSearch]: the pointers of its entries in
    the interval are appended; the walk ends when the last key of the leaf
    exceeds the upper bound, and goes on to the right neighbour otherwise. *)
Lemma rangeSearch_loop_step min_key max_key fuel id results t n c next :
  index_open t -> node_at (nodes t) id = Some n ->
  packs_linked n c next -> c <> [] ->
  Forall (fun e : entry => encodable e.2) c ->
  exists t' e,
    last c = Some e /\
    rangeSearch_loop (S fuel) min_key max_key id results t
      = (if max_key <? e.1
         then Ok (results ++ (filter (fun e : entry => min_key <= e.1 <= max_key) c).*2, t')
         else rangeSearch_loop fuel min_key max_key next
                (results ++ (filter (fun e : entry => min_key <= e.1 <= max_key) c).*2) t') /\
    index_open t' /\ nodes t' = nodes t /\
    next_node_id t' = next_node_id t /\ root_id t' = root_id t /\
    counted 1 t t' /\ noted [id] t t'.
Proof.
  intros Hopen Hn Hlinked Hcne Henc.
  pose proof Hlinked as (Hleaf & Hwf & Hnext & _ & Hes).
  destruct (readNode_open _ _ _ Hopen Hn) as (t1 & Hread & Hopen1 & Hns1 & Hnx1 & Hrt1).
  assert (Hid : 0 <= id) by (by apply node_at_lookup in Hn as [? _]).
  assert (Hcollect :
    collect (fun k => (min_key <=? k) && (k <=? max_key)) n results
    = Ok (results ++ (filter (fun e : entry => min_key <= e.1 <= max_key) c).*2)).
  { rewrite (collect_spec _ (fun k => min_key <= k <= max_key) n results Hwf).
    - by rewrite Hes, pointers_where_packed.
    - intros k. rewrite andb_true_iff, !Z.leb_le. done. }
  destruct (last c) as [e|] eqn:Hlast; [|by apply last_None in Hlast].
  destruct (packs_linked_last n c next e Hlinked Hlast) as [Hnk Hget].
  exists t1, e. split; [done|]. split.
  { cbn [rangeSearch_loop]. rewrite (proj2 (Z.eqb_neq _ _)) by lia.
    erewrite bind_ok; [|exact Hread]. cbv beta iota.
    rewrite Hcollect. erewrite bind_ok; [|reflexivity].
    rewrite Hget. erewrite bind_ok; [|reflexivity].
    rewrite Hnext. by destruct (max_key <? e.1). }
  split; [done|]. split; [done|]. split; [done|]. split; [done|].
  exact (readNode_counted _ _ _ _ Hread).
Qed.

Lemma filter_all {A : Type} (P : A -> Prop) `{!forall x, Decision (P x)} (l : list A) :
  Forall P l -> filter P l = l.
Proof.
  induction 1 as [|x l Hx _ IH]; [done|].
  rewrite filter_cons_True by done. by rewrite IH.
Qed.

Lemma rangeSearch_loop_chain min_key max_key n0 chunks :
  0 <= n0 ->
  Forall (fun c : list entry => c <> [] /\
            Forall (fun e => encodable e.2 /\ min_key <= e.1 <= max_key) c) chunks ->
  forall m g fuel results t,
    index_open t -> chain_pages (nodes t) n0 chunks ->
    (g + S m = length chunks)%nat -> (S m < fuel)%nat ->
    exists t',
      rangeSearch_loop fuel min_key max_key (n0 + Z.of_nat g) results t
        = Ok (results ++ (concat (drop g chunks)).*2, t') /\
      index_open t' /\ nodes t' = nodes t /\
      next_node_id t' = next_node_id t /\ root_id t' = root_id t /\
      counted (Z.of_nat (S m)) t t' /\
      noted (id_range (n0 + Z.of_nat g) (S m)) t t'.
Proof.
  intros Hn0 Hall m.
  induction m as [|m IH]; intros g fuel results t Hopen Hchain Hg Hfuel.
  all: destruct fuel as [|fuel]; [lia|].
  all: destruct (lookup_lt_is_Some_2 chunks g) as [c Hc]; [lia|].
  all: destruct (Hchain g c Hc) as (n & Hn & Hlinked).
  all: pose proof (proj1 (Forall_lookup _ _) Hall g c Hc) as [Hcne Hcall].
  all: destruct (rangeSearch_loop_step min_key max_key fuel _ results t n c _
                   Hopen Hn Hlinked Hcne)
         as (t1 & e & Hlast & Hstep & Hopen1 & Hns1 & Hnx1 & Hrt1 & Hcnt1 & Hnoted1);
       [eapply Forall_impl; [exact Hcall|]; by intros ? [? _]|].
  all: assert (He : e.1 <= max_key)
         by (rewrite last_lookup in Hlast;
             apply (proj1 (Forall_lookup _ _) Hcall) in Hlast; lia).
  all: rewrite (proj2 (Z.ltb_ge _ _)) in Hstep by lia.
  all: rewrite filter_all in Hstep
         by (eapply Forall_impl; [exact Hcall|]; by intros ? [_ ?]).
  all: rewrite Hstep.
  - destruct (decide (S g < length chunks)%nat); [lia|].
    exists t1. split.
    { destruct fuel as [|fuel]; [lia|]. cbn [rangeSearch_loop].
      change (-1 =? -1) with true. cbv beta iota.
      rewrite (drop_S _ c g) by done. rewrite drop_ge by lia.
      cbn [concat]. by rewrite app_nil_r. }
    split; [done|]. split; [done|]. split; [done|]. split; [done|].
    split; [done|]. by rewrite id_range_cons.
  - destruct (decide (S g < length chunks)%nat); [|lia].
    destruct (IH (S g) fuel (results ++ c.*2) t1)
      as (t' & Hrun & Hopen' & Hns' & Hnx' & Hrt' & Hcnt' & Hnoted').
    { done. } { by rewrite Hns1. } { lia. } { lia. }
    exists t'. split.
    + replace (n0 + Z.of_nat g + 1) with (n0 + Z.of_nat (S g)) by lia.
      rewrite Hrun. rewrite (drop_S _ c g) by done.
      cbn [concat]. by rewrite fmap_app, app_assoc.
    + split; [done|]. split; [congruence|]. split; [congruence|]. split; [congruence|].
      split; [unfold counted in *; lia|].
      rewrite (id_range_cons _ (S m)).
      replace (n0 + Z.of_nat g + 1) with (n0 + Z.of_nat (S g)) by lia.
      apply (noted_trans [n0 + Z.of_nat g] (id_range (n0 + Z.of_nat (S g)) (S m)) _ t t1 t');
        [done|done|].
      intros x. rewrite elem_of_cons, list_elem_of_singleton. tauto.
Qed.

(** ** The whole load *)

Lemma chain_pages_stable ns ns' n0 chunks :
  chain_pages ns n0 chunks ->
  stable_below (n0 + Z.of_nat (length chunks)) ns ns' ->
  chain_pages ns' n0 chunks.
Proof.
  intros Hchain Hst g c Hc.
  destruct (Hchain g c Hc) as (n & Hn & Hlinked).
  exists n. split; [|done]. apply Hst; [|done].
  apply lookup_lt_Some in Hc. lia.
Qed.

Lemma length_concat_full (full : list (list entry)) :
  Forall (fun c => length c = 101%nat) full ->
  length (concat full) = (101 * length full)%nat.
Proof.
  induction 1 as [|c full Hc _ IH]; [done|].
  cbn [concat length]. rewrite length_app, Hc, IH. lia.
Qed.

Lemma exists_key_below (ks : list Z) :
  exists key, key < 0 /\ Forall (fun k => key < k) ks.
Proof.
  induction ks as [|k ks (key & Hneg & Hall)].
  - exists (-1). split; [lia|done].
  - exists (Z.min key (k - 1)). split; [lia|].
    constructor; [lia|]. eapply Forall_impl; [exact Hall|]. simpl. lia.
Qed.

Lemma chunked_nonempty chunks :
  chunked chunks ->
  chunks <> [] /\ Forall (fun c : list entry => c <> []) chunks.
Proof.
  intros (full & cur & -> & Hfull & Hcur). split; [by destruct full|].
  apply Forall_app. split.
  - eapply Forall_impl; [exact Hfull|]. intros c Hc ->. done.
  - constructor; [|done]. intros ->. simpl in Hcur. lia.
Qed.

Lemma chunked_length chunks :
  chunked chunks ->
  (101 * length chunks < length (concat chunks) + 101 /\
   length (concat chunks) <= 101 * length chunks)%nat.
Proof.
  intros (full & cur & -> & Hfull & Hcur).
  rewrite concat_app, !length_app, length_concat_full by done.
  simpl. rewrite app_nil_r. lia.
Qed.

(** The first two phases of [bulkLoad]: the sorted entries are in a chain
    of leaves, and what the level builder makes of the leaves becomes the
    root. *)
Lemma bulkLoad_leaves t data :
  index_open t -> 0 <= next_node_id t -> data <> [] ->
  exists t3 chunks,
    index_open t3 /\
    next_node_id t3 = next_node_id t + Z.of_nat (length chunks) /\
    chunked chunks /\ concat chunks = std_sort data /\
    chain_pages (nodes t3) (next_node_id t) chunks /\
    forall r t4,
      build_levels (length chunks) (id_range (next_node_id t) (length chunks)) t3
        = Ok ([r], t4) ->
      bulkLoad data t = Ok (true, set_root_id r t4).
Proof.
  intros Hopen Hn0 Hdata.
  set (n0 := next_node_id t).
  pose proof (std_sort_nonempty data Hdata) as Hsne.
  destruct (leaves_phase_packed t (std_sort data) Hopen Hn0 Hsne)
    as (cl & leaf & lns & t1 & t2 & full & cur & Hfill & Hcl & Hwrite & Hids & Hopen2
        & Hnext2 & Hpages & Hcat & Hfull & Hcur).
  fold n0 in Hids, Hnext2, Hpages.
  assert (Hchunked : chunked (full ++ [cur])) by (exists full, cur; done).
  set (chunks := full ++ [cur]) in *.
  assert (HL : length chunks = S (length full)).
  { unfold chunks. rewrite length_app. simpl. lia. }
  destruct (link_chain chunks n0 t2 Hopen2 Hn0 Hpages)
    as (t3 & Hlink & Hopen3 & Hnext3 & _ & Hchain3 & _).
  exists t3, chunks.
  split; [done|]. split; [lia|]. split; [done|]. split; [done|]. split; [done|].
  intros r t4 Hrounds.
  destruct data as [|d0 data']; [done|].
  unfold bulkLoad. cbv zeta.
  erewrite bind_ok; [|exact Hfill]. cbv beta iota.
  rewrite Hcl.
  erewrite bind_ok; cycle 1.
  { erewrite bind_ok; [|exact Hwrite]. reflexivity. }
  rewrite Hids.
  erewrite bind_ok; cycle 1.
  { rewrite HL, id_range_cons. cbn [link_leaves].
    rewrite <- id_range_cons, <- HL. exact Hlink. }
  rewrite length_id_range.
  erewrite bind_ok; [|exact Hrounds].
  erewrite bind_ok; [|reflexivity].
  reflexivity.
Qed.

Lemma chain_first_key ns n0 chunks g c e :
  chain_pages ns n0 chunks -> chunks !! g = Some c -> head c = Some e ->
  exists n, node_at ns (n0 + Z.of_nat g) = Some n /\ node_wf n /\
            is_leaf n = true /\ keys n !! 0%nat = Some e.1.
Proof.
  intros Hchain Hc He.
  destruct (Hchain g c Hc) as (n & Hn & Hl & Hwf & _ & _ & Hes).
  destruct c as [|e' c']; [done|]. injection He as ->.
  assert (He : leaf_entries n !! 0%nat = Some (e.1, encode e.2)) by (by rewrite Hes).
  apply leaf_entries_lookup in He as (_ & He & _).
  eauto 10.
Qed.

(** What [bulkLoad] leaves in the file: the sorted entries in a chain of
    leaves, 101 to a leaf, and above them the levels of internal nodes, whose
    first children lead from the root to the first leaf. *)
Lemma bulkLoad_layout t data key :
  index_open t -> 0 <= next_node_id t -> data <> [] ->
  Forall (fun e : entry => key < e.1) data ->
  key < 0 \/ Z.of_nat (length data) <= 10201 ->
  exists t' chunks d,
    bulkLoad data t = Ok (true, t') /\ index_open t' /\
    concat chunks = std_sort data /\
    Forall (fun c : list entry => c <> []) chunks /\
    (101 * length chunks < length data + 101 /\ length data <= 101 * length chunks)%nat /\
    chain_pages (nodes t') (next_node_id t) chunks /\
    leftmost (nodes t') key (next_node_id t') d (root_id t') (next_node_id t) /\
    next_node_id t + Z.of_nat d <= root_id t' /\
    (forall h, (length chunks <= 101 ^ h)%nat <-> (d <= h)%nat).
Proof.
  intros Hopen Hn0 Hdata Hkey Hcase.
  set (n0 := next_node_id t).
  destruct (bulkLoad_leaves t data Hopen Hn0 Hdata)
    as (t3 & chunks & Hopen3 & Hnext3 & Hchunked & Hcat & Hchain3 & Hload).
  fold n0 in Hnext3, Hchain3, Hload.
  destruct (chunked_nonempty _ Hchunked) as [Hcne Hne].
  pose proof (chunked_length _ Hchunked) as Hlen.
  rewrite Hcat, (Permutation_length (std_sort_Permutation data)) in Hlen.
  assert (HL : (1 <= length chunks)%nat) by (destruct chunks; [done|simpl; lia]).
  assert (Hlevel : level_ok (nodes t3) key (next_node_id t3) n0 (length chunks) 0 n0).
  { split; [|split; [done|lia]].
    intros g Hg. destruct (lookup_lt_is_Some_2 chunks g Hg) as [c Hc].
    pose proof (proj1 (Forall_lookup _ _) Hne g c Hc) as Hcne'.
    destruct c as [|e c'] eqn:Hceq; [done|]. rewrite <- Hceq in *.
    destruct (chain_first_key _ _ _ g c e Hchain3 Hc) as (n & Hn & Hwf & _ & He);
      [by rewrite Hceq|].
    exists n, e.1. split; [done|]. split; [by destruct Hwf|]. split; [done|].
    assert (Hin : e ∈ std_sort data).
    { rewrite <- Hcat. apply (elem_of_concat _ c); [|rewrite Hceq; left].
      apply list_elem_of_lookup. eauto. }
    rewrite std_sort_Permutation in Hin.
    rewrite Forall_forall in Hkey. by apply Hkey. }
  destruct (rounds_leftmost key n0 (length chunks) (length chunks) n0 0 t3)
    as (r & d & t4 & Hrounds & Hopen4 & Hnext4 & Hst4 & Hleft & Hd & Hcount);
    [done|done|lia|done|lia|lia|].
  exists (set_root_id r t4), chunks, d.
  split; [by apply Hload|].
  split; [done|]. split; [done|]. split; [done|]. split; [lia|].
  split.
  { apply (chain_pages_stable (nodes t3)); [done|]. by rewrite <- Hnext3. }
  split; [done|]. split; [done|].
  intros h. rewrite Hcount. lia.
Qed.

(** ** Lookups on a loaded index *)

Lemma leftmost_end ns key hi d id a leaf :
  leftmost ns key hi d id a -> node_at ns a = Some leaf ->
  exists n, node_at ns id = Some n.
Proof.
  destruct d as [|d]; simpl.
  - intros -> ?. eauto.
  - intros (p & c & _ & _ & Hp & _) _. eauto.
Qed.

Lemma NoDup_id_range n0 m : NoDup (id_range n0 m).
Proof.
  unfold id_range. apply NoDup_fmap_2; [|apply NoDup_seq].
  intros x y Hxy. lia.
Qed.

Lemma chain_first ns n0 chunks :
  chain_pages ns n0 chunks -> chunks <> [] -> 0 <= n0 ->
  (exists leaf, node_at ns n0 = Some leaf /\ is_leaf leaf = true) /\
  (length chunks <= length ns)%nat.
Proof.
  intros Hchain Hne Hn0. split.
  - destruct chunks as [|c chunks]; [done|].
    destruct (Hchain 0%nat c) as (n & Hn & Hl & _); [done|].
    rewrite Z.add_0_r in Hn. eauto.
  - destruct (lookup_lt_is_Some_2 chunks (length chunks - 1)) as [c Hc].
    { destruct chunks; [done|simpl; lia]. }
    destruct (Hchain _ c Hc) as (n & Hn & _).
    apply node_at_lookup in Hn as [_ Hn]. apply lookup_lt_Some in Hn.
    assert (1 <= length chunks)%nat by (destruct chunks; [done|simpl; lia]). lia.
Qed.

(** A range search that starts below every key of a loaded index and ends
    at or above all of them: the descent takes the first child at every
    level, the walk visits every leaf. *)
Lemma scan_loaded t n0 chunks d min_key max_key :
  index_open t -> 0 <= n0 -> chunks <> [] ->
  chain_pages (nodes t) n0 chunks ->
  leftmost (nodes t) min_key (next_node_id t) d (root_id t) n0 ->
  n0 + Z.of_nat d <= root_id t ->
  Forall (fun c : list entry => c <> [] /\
            Forall (fun e => encodable e.2 /\ min_key <= e.1 <= max_key) c) chunks ->
  exists t' path,
    rangeSearch min_key max_key t = Ok ((concat chunks).*2, t') /\
    counted (2 * Z.of_nat d + 1 + Z.of_nat (length chunks)) t t' /\
    noted (path ++ id_range n0 (length chunks)) t t' /\
    length path = d /\ NoDup (path ++ id_range n0 (length chunks)).
Proof.
  intros Hopen Hn0 Hne Hchain Hleft Hd Hall.
  destruct (chain_first _ _ _ Hchain Hne Hn0) as [(leaf & Hleaf & Hl) Hlen].
  destruct (leftmost_end _ _ _ _ _ _ _ Hleft Hleaf) as [rn Hrn].
  apply node_at_lookup in Hrn as [Hr0 Hrn]. apply lookup_lt_Some in Hrn.
  destruct (findLeaf_loop_leftmost min_key (next_node_id t) n0 leaf d
              (S (length (nodes t))) (root_id t) t)
    as (t1 & path & Hfind & Hopen1 & Hns1 & Hnx1 & Hrt1 & Hcnt1 & Hnoted1 & Hplen & Hnd & Hpath);
    [done|done|done|done|lia|].
  assert (HL : (1 <= length chunks)%nat) by (destruct chunks; [done|simpl; lia]).
  destruct (rangeSearch_loop_chain min_key max_key n0 chunks Hn0 Hall
              (length chunks - 1) 0 (S (length (nodes t1))) [] t1)
    as (t2 & Hscan & Hopen2 & Hns2 & Hnx2 & Hrt2 & Hcnt2 & Hnoted2).
  { done. } { by rewrite Hns1. } { lia. } { rewrite Hns1. lia. }
  rewrite Z.add_0_r in Hscan, Hnoted2.
  replace (S (length chunks - 1)) with (length chunks) in Hcnt2, Hnoted2 by lia.
  exists t2, path. split.
  { unfold rangeSearch.
    erewrite bind_ok; cycle 1.
    { unfold findLeaf. erewrite bind_ok; [|reflexivity].
      rewrite (proj2 (Z.eqb_neq _ _)) by lia. exact Hfind. }
    rewrite (proj2 (Z.eqb_neq _ _)) by lia.
    erewrite bind_ok; [|reflexivity].
    rewrite Hscan. by rewrite drop_0. }
  split; [unfold counted in *; lia|].
  split.
  { apply (noted_trans (path ++ [n0]) (id_range n0 (length chunks)) _ t t1 t2); [done|done|].
    intros x. rewrite !elem_of_app, list_elem_of_singleton.
    assert (n0 ∈ id_range n0 (length chunks)).
    { apply elem_of_id_range. exists 0%nat. split; [lia|]. lia. }
    split; [tauto|]. intros [[?| ->]|?]; tauto. }
  split; [done|].
  apply NoDup_app. split; [done|]. split; [|apply NoDup_id_range].
  intros x Hx (g & Hg & ->)%elem_of_id_range.
  rewrite Forall_forall in Hpath. destruct (Hpath _ Hx) as (_ & p & Hp & Hint).
  destruct (lookup_lt_is_Some_2 chunks g Hg) as [c Hc].
  destruct (Hchain g c Hc) as (n & Hn & Hnl & _).
  congruence.
Qed.

Lemma getNumLevels_loop_leftmost key hi a leaf d : forall fuel id levels t,
  index_open t -> leftmost (nodes t) key hi d id a ->
  node_at (nodes t) a = Some leaf -> is_leaf leaf = true ->
  (d < fuel)%nat ->
  exists t', getNumLevels_loop fuel id levels t = Ok (levels + Z.of_nat d, t').
Proof.
  induction d as [|d IH]; intros fuel id levels t Hopen Hleft Hleaf Hl Hfuel.
  - simpl in Hleft. subst id. destruct fuel as [|fuel]; [lia|].
    destruct (readNode_open _ _ _ Hopen Hleaf) as (t' & Hread & _).
    exists t'. cbn [getNumLevels_loop]. erewrite bind_ok; [|exact Hread].
    cbv beta iota. rewrite Hl. simpl. by rewrite Z.add_0_r.
  - destruct Hleft as (p & c & _ & _ & Hp & Hint & Hwf & _ & Hc & Hrest).
    destruct fuel as [|fuel]; [lia|].
    destruct (readNode_open _ _ _ Hopen Hp) as (t1 & Hread1 & Hopen1 & Hns1 & _).
    destruct (IH fuel c (levels + 1) t1) as (t' & Hrun).
    { done. } { by rewrite Hns1. } { by rewrite Hns1. } { done. } { lia. }
    exists t'. cbn [getNumLevels_loop]. erewrite bind_ok; [|exact Hread1].
    cbv beta iota. rewrite Hint. cbn [negb].
    assert (Hgc : get_child 0 p = Ok c).
    { unfold get_child, array_get. change (Z.to_nat 0) with 0%nat. by rewrite Hc. }
    rewrite Hgc. erewrite bind_ok; [|reflexivity].
    rewrite Hrun. do 2 f_equal. lia.
Qed.

Lemma getNumLevels_loaded t n0 chunks d key :
  index_open t -> 0 <= n0 -> chunks <> [] ->
  chain_pages (nodes t) n0 chunks ->
  leftmost (nodes t) key (next_node_id t) d (root_id t) n0 ->
  n0 + Z.of_nat d <= root_id t ->
  value_of (getNumLevels t) = Ok (Z.of_nat (S d)).
Proof.
  intros Hopen Hn0 Hne Hchain Hleft Hd.
  destruct (chain_first _ _ _ Hchain Hne Hn0) as [(leaf & Hleaf & Hl) Hlen].
  destruct (leftmost_end _ _ _ _ _ _ _ Hleft Hleaf) as [rn Hrn].
  apply node_at_lookup in Hrn as [Hr0 Hrn]. apply lookup_lt_Some in Hrn.
  destruct (getNumLevels_loop_leftmost key (next_node_id t) n0 leaf d
              (S (length (nodes t))) (root_id t) 1 t)
    as (t1 & Hrun); [done|done|done|done|lia|].
  unfold getNumLevels. erewrite bind_ok; [|reflexivity].
  rewrite (proj2 (Z.eqb_neq _ _)) by lia.
  rewrite Hrun. simpl. f_equal. lia.
Qed.

Lemma chunks_in_range (data : list entry) chunks (P : entry -> Prop) :
  concat chunks = std_sort data ->
  Forall (fun c : list entry => c <> []) chunks ->
  Forall P data ->
  Forall (fun c : list entry => c <> [] /\ Forall P c) chunks.
Proof.
  intros Hcat Hne Hall. apply Forall_lookup. intros g c Hc.
  split; [exact (proj1 (Forall_lookup _ _) Hne g c Hc)|].
  apply Forall_forall. intros e He.
  assert (Hin : e ∈ std_sort data).
  { rewrite <- Hcat. apply (elem_of_concat _ c); [|done].
    apply list_elem_of_lookup. eauto. }
  rewrite std_sort_Permutation in Hin.
  rewrite Forall_forall in Hall. by apply Hall.
Qed.

(** X19. Bulk load and scan, for any number of entries: after the load a
    range search from below every key to at or above every key returns the
    pointers of all the entries, each once, in ascending order of their
    keys, provided the lower bound is negative or there are at most 10201
    entries (two levels). *)
Theorem bulkLoad_then_rangeSearch_all
  (t : BPTree) (data : list entry) (min_key max_key : Z) :
  index_open t -> 0 <= next_node_id t -> data <> [] ->
  Forall (fun e => encodable e.2) data ->
  Forall (fun e => min_key < e.1 <= max_key) data ->
  min_key < 0 \/ Z.of_nat (length data) <= 10201 ->
  exists t' sorted,
    bulkLoad data t = Ok (true, t') /\
    sorted ≡ₚ data /\ StronglySorted Z.le sorted.*1 /\
    value_of (rangeSearch min_key max_key t') = Ok sorted.*2.
Proof.
  intros Hopen Hn0 Hdata Henc Hrange Hcase.
  destruct (bulkLoad_layout t data min_key Hopen Hn0 Hdata)
    as (t' & chunks & d & Hload & Hopen' & Hcat & Hne & HL & Hchain & Hleft & Hd & _);
    [|done|].
  { eapply Forall_impl; [exact Hrange|]. simpl. lia. }
  exists t', (std_sort data).
  split; [done|]. split; [apply std_sort_Permutation|].
  split; [apply std_sort_keys_sorted|].
  destruct (scan_loaded t' (next_node_id t) chunks d min_key max_key)
    as (t'' & path & -> & _); try done.
  - intros ->. simpl in HL. destruct data; [done|simpl in HL; lia].
  - apply (chunks_in_range data); [done|done|].
    apply Forall_forall. intros e He.
    rewrite Forall_forall in Henc, Hrange.
    specialize (Henc e He). specialize (Hrange e He). simpl in *. split; [done|lia].
  - simpl. by rewrite Hcat.
Qed.

Lemma bulkLoad_then_rangeSearch_all_witness :
  exists t' sorted,
    bulkLoad same_key_102 opened = Ok (true, t') /\
    sorted ≡ₚ same_key_102 /\ StronglySorted Z.le sorted.*1 /\
    value_of (rangeSearch 0 5 t') = Ok sorted.*2.
Proof.
  apply (bulkLoad_then_rangeSearch_all opened same_key_102 0 5).
  - split; reflexivity.
  - vm_compute. discriminate.
  - discriminate.
  - repeat constructor; vm_compute; discriminate.
  - repeat constructor; vm_compute; discriminate.
  - right. vm_compute. discriminate.
Defined.

(** X20. The height of a loaded index: after a bulk load of a non-empty
    input [getNumLevels] answers the least [h >= 1] with
    [length data <= 101 ^ h]: one level up to 101 entries, two up to 10201,
    three up to 1030301. *)
Theorem bulkLoad_then_getNumLevels (t : BPTree) (data : list entry) :
  index_open t -> 0 <= next_node_id t -> data <> [] ->
  exists t' levels,
    bulkLoad data t = Ok (true, t') /\
    value_of (getNumLevels t') = Ok (Z.of_nat levels) /\
    (1 <= levels)%nat /\
    forall h, (1 <= h)%nat -> ((length data <= 101 ^ h)%nat <-> (levels <= h)%nat).
Proof.
  intros Hopen Hn0 Hdata.
  destruct (exists_key_below data.*1) as (key & Hneg & Hbelow).
  destruct (bulkLoad_layout t data key Hopen Hn0 Hdata)
    as (t' & chunks & d & Hload & Hopen' & Hcat & Hne & HL & Hchain & Hleft & Hd & Hcount);
    [|by left|].
  { apply Forall_forall. intros e He. rewrite Forall_forall in Hbelow.
    apply Hbelow, list_elem_of_fmap. eauto. }
  exists t', (S d). split; [done|].
  split.
  { apply (getNumLevels_loaded t' (next_node_id t) chunks d key); try done.
    intros ->. simpl in HL. destruct data; [done|simpl in HL; lia]. }
  split; [lia|].
  intros [|h] Hh; [lia|]. specialize (Hcount h).
  rewrite Nat.pow_succ_r'. lia.
Qed.

Lemma bulkLoad_then_getNumLevels_witness :
  exists t' levels,
    bulkLoad same_key_102 opened = Ok (true, t') /\
    value_of (getNumLevels t') = Ok (Z.of_nat levels) /\
    (1 <= levels)%nat /\
    forall h, (1 <= h)%nat ->
      ((length same_key_102 <= 101 ^ h)%nat <-> (levels <= h)%nat).
Proof.
  apply (bulkLoad_then_getNumLevels opened same_key_102).
  - split; reflexivity.
  - vm_compute. discriminate.
  - discriminate.
Defined.

(** X21. What a full scan costs: on a loaded index whose counters were
    reset, the range search of X19 reads every internal node on the way
    down twice and the first leaf once, and then every leaf once on its
    walk: with [levels] the height and [leaves] the number of leaves,
    [2 * (levels - 1) + 1 + leaves] transfers over
    [levels - 1 + leaves] distinct nodes. *)
Theorem full_scan_node_reads
  (t : BPTree) (data : list entry) (min_key max_key : Z) :
  index_open t -> 0 <= next_node_id t -> data <> [] ->
  Forall (fun e => encodable e.2) data ->
  Forall (fun e => min_key < e.1 <= max_key) data ->
  min_key < 0 \/ Z.of_nat (length data) <= 10201 ->
  exists t' t'' found levels leaves,
    bulkLoad data t = Ok (true, t') /\
    value_of (getNumLevels t') = Ok levels /\
    101 * (leaves - 1) < Z.of_nat (length data) <= 101 * leaves /\
    rangeSearch min_key max_key (resetIOCounters t') = Ok (found, t'') /\
    index_nodes_accessed t'' = 2 * (levels - 1) + 1 + leaves /\
    total_index_node_ios t'' = 2 * (levels - 1) + 1 + leaves /\
    Z.of_nat (size (unique_index_nodes t'')) = levels - 1 + leaves.
Proof.
  intros Hopen Hn0 Hdata Henc Hrange Hcase.
  destruct (bulkLoad_layout t data min_key Hopen Hn0 Hdata)
    as (t' & chunks & d & Hload & Hopen' & Hcat & Hne & HL & Hchain & Hleft & Hd & _);
    [|done|].
  { eapply Forall_impl; [exact Hrange|]. simpl. lia. }
  assert (Hcne : chunks <> []).
  { intros ->. simpl in HL. destruct data; [done|simpl in HL; lia]. }
  destruct (scan_loaded (resetIOCounters t') (next_node_id t) chunks d min_key max_key)
    as (t'' & path & Hscan & [Hc1 Hc2] & Hnoted & Hplen & Hnd); try done.
  { apply (chunks_in_range data); [done|done|].
    apply Forall_forall. intros e He.
    rewrite Forall_forall in Henc, Hrange.
    specialize (Henc e He). specialize (Hrange e He). simpl in *. split; [done|lia]. }
  exists t', t'', ((concat chunks).*2), (Z.of_nat (S d)), (Z.of_nat (length chunks)).
  split; [done|].
  split; [by apply (getNumLevels_loaded t' (next_node_id t) chunks d min_key)|].
  split; [lia|]. split; [done|].
  simpl in Hc1, Hc2. split; [lia|]. split; [lia|].
  unfold noted in Hnoted. simpl in Hnoted.
  rewrite Hnoted, (right_id_L ∅ (∪)), size_list_to_set by done.
  rewrite length_app, length_id_range. lia.
Qed.

Lemma full_scan_node_reads_witness :
  exists t' t'' found levels leaves,
    bulkLoad same_key_102 opened = Ok (true, t') /\
    value_of (getNumLevels t') = Ok levels /\
    101 * (leaves - 1) < Z.of_nat (length same_key_102) <= 101 * leaves /\
    rangeSearch 0 5 (resetIOCounters t') = Ok (found, t'') /\
    index_nodes_accessed t'' = 2 * (levels - 1) + 1 + leaves /\
    total_index_node_ios t'' = 2 * (levels - 1) + 1 + leaves /\
    Z.of_nat (size (unique_index_nodes t'')) = levels - 1 + leaves.
Proof.
  apply (full_scan_node_reads opened same_key_102 0 5).
  - split; reflexivity.
  - vm_compute. discriminate.
  - discriminate.
  - repeat constructor; vm_compute; discriminate.
  - repeat constructor; vm_compute; discriminate.
  - right. vm_compute. discriminate.
Defined.

(** * Lookups and range deletion on an index of at most two levels *)

(** ** The load *)

Lemma bulkLoad_two_level t data :
  index_open t -> 0 <= next_node_id t -> data <> [] ->
  Z.of_nat (length data) <= 10201 ->
  exists t' chunks,
    bulkLoad data t = Ok (true, t') /\
    two_level t' (next_node_id t) chunks /\
    chunked chunks /\ concat chunks = std_sort data /\
    next_node_id t'
    = next_node_id t + Z.of_nat (length chunks)
      + (if decide (length chunks = 1%nat) then 0 else 1) /\
    root_id t' = next_node_id t' - 1.
Proof.
  intros Hopen Hn0 Hdata Hsize.
  set (n0 := next_node_id t).
  destruct (bulkLoad_leaves t data Hopen Hn0 Hdata)
    as (t3 & chunks & Hopen3 & Hnext3 & Hchunked & Hcat & Hchain3 & Hload).
  fold n0 in Hnext3, Hchain3, Hload.
  destruct (chunked_nonempty _ Hchunked) as [Hcne Hne].
  pose proof (chunked_length _ Hchunked) as Hlen.
  rewrite Hcat, (Permutation_length (std_sort_Permutation data)) in Hlen.
  assert (HL : (1 <= length chunks <= 101)%nat) by (destruct chunks; [done|simpl in *; lia]).
  assert (Hsorted : StronglySorted Z.le (concat chunks).*1).
  { rewrite Hcat. apply std_sort_keys_sorted. }
  destruct (decide (length chunks = 1%nat)) as [Hone|Hmany].
  { exists (set_root_id n0 t3), chunks. split.
    { apply Hload. rewrite Hone, id_range_cons. reflexivity. }
    split.
    { split; [done|]. split; [done|]. split; [done|]. split; [done|].
      split; [done|]. split; [done|]. by left. }
    split; [done|]. split; [done|].
    rewrite decide_True by done. simpl. split; lia. }
  destruct (build_level_fresh (length chunks) (id_range n0 (length chunks)) t3)
    as (G & t4 & Hrun & Hopen4 & Hnext4 & Hst4 & HG & Hbuilt).
  { done. } { lia. } { by rewrite length_id_range. }
  { intros id (g & Hg & ->)%elem_of_id_range.
    destruct (lookup_lt_is_Some_2 chunks g Hg) as [c Hc].
    destruct (Hchain3 g c Hc) as (n & Hn & _ & Hwf & _).
    split; [lia|]. exists n. split; [done|]. by destruct Hwf. }
  rewrite length_id_range in HG.
  assert (G = 1%nat) as -> by lia.
  destruct (Hbuilt 0%nat) as (p & Hp & Hbf & _ & _); [lia|].
  rewrite Z.add_0_r in Hp.
  destruct Hbf as (Hl & Hnk & Hlk & Hlc & Hch & Hks).
  rewrite length_group in Hnk.
  exists (set_root_id (next_node_id t3) t4), chunks. split.
  { apply Hload.
    destruct (length chunks) as [|[|L]] eqn:HeqL; [lia|lia|].
    cbn [build_levels]. rewrite length_id_range.
    destruct (decide (1 < S (S L))%nat); [|lia].
    erewrite bind_ok; [|exact Hrun].
    rewrite id_range_cons. reflexivity. }
  split; [|split; [done|split; [done|rewrite decide_False by done; simpl; split; lia]]].
  split; [done|]. split; [done|]. split; [done|]. split; [done|].
  split; [done|].
  split.
  { apply (chain_pages_stable (nodes t3)); [done|]. by rewrite <- Hnext3. }
  right. split; [lia|].
  exists p. split; [done|]. split; [done|].
  split.
  { split; [done|]. split; [done|]. unfold MAX_KEYS. lia. }
  split; [lia|].
  split.
  { intros j Hj. apply Hch. rewrite lookup_group by lia. done. }
  intros j c e Hc He.
  assert (Hj : (S j < length chunks)%nat) by (by apply lookup_lt_Some in Hc).
  destruct (chain_first_key _ _ _ (S j) c e Hchain3 Hc He) as (n & Hn & _ & _ & Hk).
  rewrite <- Hk. apply (Hks j (n0 + Z.of_nat (S j))); [|done].
  rewrite lookup_group by lia. done.
Qed.

Lemma two_level_frame t t' n0 chunks :
  two_level t n0 chunks -> index_open t' ->
  nodes t' = nodes t -> root_id t' = root_id t ->
  two_level t' n0 chunks.
Proof.
  intros (_ & Hn0 & Hcne & Hne & Hsorted & Hchain & Htop) Hopen Hns Hrt.
  rewrite <- Hns, <- Hrt in *. done.
Qed.

(** ** Sorted entries, cut into leaves *)

Lemma concat_split (chunks : list (list entry)) g :
  concat chunks = concat (take g chunks) ++ concat (drop g chunks).
Proof. by rewrite <- concat_app, take_drop. Qed.

Lemma sorted_chunks_split (chunks : list (list entry)) g :
  StronglySorted Z.le (concat chunks).*1 ->
  forall e e', e ∈ concat (take g chunks) -> e' ∈ concat (drop g chunks) -> e.1 <= e'.1.
Proof.
  intros Hs e e' He He'.
  rewrite (concat_split chunks g), fmap_app in Hs.
  apply (StronglySorted_app_1_elem_of _ _ _ _ _ Hs); by apply list_elem_of_fmap_2.
Qed.

Lemma sorted_chunk_head (chunks : list (list entry)) g c e0 :
  StronglySorted Z.le (concat chunks).*1 ->
  chunks !! g = Some c -> head c = Some e0 ->
  Forall (fun e : entry => e.1 <= e0.1) (concat (take g chunks)) /\
  Forall (fun e : entry => e0.1 <= e.1) (concat (drop g chunks)).
Proof.
  intros Hs Hc He0.
  destruct c as [|e c']; [done|]. injection He0 as ->.
  assert (Hin : e0 ∈ concat (drop g chunks)).
  { rewrite (drop_S _ _ _ Hc). cbn [concat]. apply elem_of_app. left. left. }
  split; apply Forall_forall; intros e He.
  - by apply (sorted_chunks_split chunks g Hs).
  - rewrite (concat_split chunks g), fmap_app in Hs.
    apply StronglySorted_app_1_r in Hs.
    rewrite (drop_S _ _ _ Hc) in Hs, He. cbn [concat] in Hs, He.
    rewrite <- app_comm_cons, fmap_cons in Hs.
    apply StronglySorted_cons in Hs as [Hall _].
    rewrite <- app_comm_cons in He.
    apply elem_of_cons in He as [->|He]; [lia|].
    rewrite Forall_forall in Hall. apply Hall. by apply list_elem_of_fmap_2.
Qed.

Lemma sorted_chunk_last (chunks : list (list entry)) g c e0 :
  StronglySorted Z.le (concat chunks).*1 ->
  chunks !! g = Some c -> last c = Some e0 ->
  Forall (fun e : entry => e0.1 <= e.1) (concat (drop (S g) chunks)).
Proof.
  intros Hs Hc He0. apply Forall_forall. intros e He.
  apply (sorted_chunks_split chunks (S g) Hs); [|done].
  rewrite (take_S_r _ _ _ Hc), concat_app. apply elem_of_app. right.
  cbn [concat]. rewrite app_nil_r.
  rewrite last_lookup in He0. apply list_elem_of_lookup. eauto.
Qed.

(** ** The descent *)

Lemma child_index_spec key p :
  node_wf p ->
  exists r,
    child_index key p = Ok r /\ 0 <= r <= num_keys p /\
    (forall j k, 0 <= j < r -> keys p !! Z.to_nat j = Some k -> k <= key) /\
    (forall k, r < num_keys p -> keys p !! Z.to_nat r = Some k -> key < k).
Proof.
  intros Hwf. unfold child_index, scan_while.
  destruct (scan_up_spec (Z.to_nat (num_keys p - 0)) 0
              (fun i => let+ k := get_key i p in Ok (k <=? key)))
    as (r & Hr & Hbounds & Hbefore & Hat).
  { intros j Hj. destruct (get_key_in_use p j Hwf) as (k & -> & _); [lia|]. simpl. eauto. }
  pose proof Hwf as (_ & _ & Hnk).
  exists r. split; [done|]. split; [lia|]. split.
  - intros j k Hj Hk. specialize (Hbefore j Hj).
    destruct (get_key j p) as [k'|] eqn:Hget; [|done].
    apply array_get_lookup in Hget as [_ Hget].
    simpl in Hbefore. injection Hbefore as Hle. apply Z.leb_le in Hle. congruence.
  - intros k Hlt Hk. specialize (Hat ltac:(lia)).
    destruct (get_key r p) as [k'|] eqn:Hget; [|done].
    apply array_get_lookup in Hget as [_ Hget].
    simpl in Hat. injection Hat as Hle. apply Z.leb_gt in Hle. congruence.
Qed.

Lemma findLeaf_descends t key c :
  index_open t -> descends (nodes t) (root_id t) key c ->
  exists t',
    findLeaf key t = Ok (c, t') /\
    index_open t' /\ nodes t' = nodes t /\
    next_node_id t' = next_node_id t /\ root_id t' = root_id t.
Proof.
  intros Hopen [(n & Hn & Hl) Hcase].
  assert (Hc0 : 0 <= c) by (by apply node_at_lookup in Hn as [? _]).
  destruct (readNode_open _ _ _ Hopen Hn) as (t1 & Hread & Hopen1 & Hns1 & Hnx1 & Hrt1).
  destruct Hcase as [Hroot|(p & r & Hp & Hint & Hr & Hgc)].
  - exists t1. split; [|done].
    unfold findLeaf. erewrite bind_ok; [|reflexivity].
    rewrite (proj2 (Z.eqb_neq _ _)) by lia. rewrite Hroot.
    cbn [findLeaf_loop]. erewrite bind_ok; [|exact Hread].
    cbv beta iota. by rewrite Hl.
  - assert (Hroot0 : 0 <= root_id t) by (by apply node_at_lookup in Hp as [? _]).
    assert (Hlen : (2 <= length (nodes t))%nat).
    { apply node_at_lookup in Hp as [_ Hp]. apply node_at_lookup in Hn as [_ Hn].
      assert (Z.to_nat (root_id t) <> Z.to_nat c) by congruence.
      apply lookup_lt_Some in Hp, Hn. lia. }
    destruct (readNode_open _ _ _ Hopen Hp) as (ta & Hreada & Hopena & Hnsa & Hnxa & Hrta).
    assert (Hpa : node_at (nodes ta) (root_id t) = Some p) by (by rewrite Hnsa).
    destruct (readNode_open _ _ _ Hopena Hpa) as (tb & Hreadb & Hopenb & Hnsb & Hnxb & Hrtb).
    assert (Hnb : node_at (nodes tb) c = Some n) by (by rewrite Hnsb, Hnsa).
    destruct (readNode_open _ _ _ Hopenb Hnb) as (tc & Hreadc & Hopenc & Hnsc & Hnxc & Hrtc).
    exists tc. split.
    + unfold findLeaf. erewrite bind_ok; [|reflexivity].
      rewrite (proj2 (Z.eqb_neq _ _)) by lia.
      destruct (length (nodes t)) as [|[|fuel]]; [lia|lia|].
      cbn [findLeaf_loop]. erewrite bind_ok; [|exact Hreada].
      cbv beta iota. rewrite Hint.
      erewrite bind_ok; [|exact Hreadb]. cbv beta iota.
      rewrite Hr. erewrite bind_ok; [|reflexivity].
      rewrite Hgc. erewrite bind_ok; [|reflexivity].
      erewrite bind_ok; [|exact Hreadc].
      cbv beta iota. by rewrite Hl.
    + split; [done|]. split; [congruence|]. split; congruence.
Qed.

Lemma two_level_descends t n0 chunks key :
  two_level t n0 chunks ->
  exists g,
    (g < length chunks)%nat /\
    descends (nodes t) (root_id t) key (n0 + Z.of_nat g) /\
    (forall c e, (1 <= g)%nat -> chunks !! g = Some c -> head c = Some e -> e.1 <= key) /\
    (forall c e, chunks !! S g = Some c -> head c = Some e -> key < e.1).
Proof.
  intros (Hopen & Hn0 & Hcne & Hne & Hsorted & Hchain & Htop).
  destruct Htop as [[Hone Hroot]|[HL (p & Hp & Hint & Hwf & Hnk & Hch & Hks)]].
  - destruct (chain_first _ _ _ Hchain Hcne Hn0) as [(leaf & Hleaf & Hl) _].
    exists 0%nat. rewrite Z.add_0_r. split; [lia|]. split.
    { split; [eauto|]. by left. }
    split; [intros; lia|].
    intros c e Hc. apply lookup_lt_Some in Hc. lia.
  - destruct (child_index_spec key p Hwf) as (r & Hr & Hbounds & Hbefore & Hat).
    set (g := Z.to_nat r).
    assert (Hg : (g < length chunks)%nat) by lia.
    destruct (lookup_lt_is_Some_2 chunks g Hg) as [c Hc].
    destruct (Hchain g c Hc) as (n & Hn & Hnl & _).
    exists g. split; [done|]. split.
    { split; [eauto|]. right. exists p, r. split; [done|]. split; [done|]. split; [done|].
      unfold get_child, array_get. rewrite (proj2 (Z.leb_le _ _)) by lia.
      fold g. by rewrite (Hch g Hg). }
    split.
    + intros c' e Hg1 Hc' He.
      destruct g as [|g'] eqn:Hgeq; [lia|].
      apply (Hbefore (Z.of_nat g')); [lia|].
      rewrite Nat2Z.id. by apply (Hks g' c' e).
    + intros c' e Hc' He.
      assert (S g < length chunks)%nat by (by apply lookup_lt_Some in Hc').
      apply Hat; [lia|]. fold g. by apply (Hks g c' e).
Qed.

(** The descent ends in the last leaf whose first key does not exceed
    [key], or in the first leaf. *)
Lemma findLeaf_two_level t n0 chunks key :
  two_level t n0 chunks ->
  exists g t',
    findLeaf key t = Ok (n0 + Z.of_nat g, t') /\ (g < length chunks)%nat /\
    index_open t' /\ nodes t' = nodes t /\
    next_node_id t' = next_node_id t /\ root_id t' = root_id t /\
    (forall c e, (1 <= g)%nat -> chunks !! g = Some c -> head c = Some e -> e.1 <= key) /\
    (forall c e, chunks !! S g = Some c -> head c = Some e -> key < e.1).
Proof.
  intros Htwo. pose proof Htwo as (Hopen & _).
  destruct (two_level_descends t n0 chunks key Htwo) as (g & Hg & Hdesc & Hhead & Hnext).
  destruct (findLeaf_descends t key _ Hopen Hdesc) as (t' & Hfind & Hopen' & Hns & Hnx & Hrt).
  exists g, t'. done.
Qed.

(** ** The walk of [rangeSearch] *)

Lemma filter_concat_none (P : entry -> Prop) `{!forall e, Decision (P e)}
    (chunks : list (list entry)) :
  Forall (fun e => ~ P e) (concat chunks) -> filter P (concat chunks) = [].
Proof.
  intros Hall. apply filter_none. intros e He.
  rewrite Forall_forall in Hall. by apply Hall.
Qed.

Lemma rangeSearch_loop_walk min_key max_key n0 chunks :
  0 <= n0 ->
  Forall (fun c : list entry => c <> []) chunks ->
  StronglySorted Z.le (concat chunks).*1 ->
  Forall (fun e : entry => encodable e.2) (concat chunks) ->
  forall m g fuel results t,
    index_open t -> chain_pages (nodes t) n0 chunks ->
    (g + S m = length chunks)%nat -> (S m < fuel)%nat ->
    exists t',
      rangeSearch_loop fuel min_key max_key (n0 + Z.of_nat g) results t
        = Ok (results ++ (filter (in_range min_key max_key) (concat (drop g chunks))).*2, t') /\
      index_open t' /\ nodes t' = nodes t /\
      next_node_id t' = next_node_id t /\ root_id t' = root_id t.
Proof.
  intros Hn0 Hne Hsorted Henc m.
  induction m as [|m IH]; intros g fuel results t Hopen Hchain Hg Hfuel.
  all: destruct fuel as [|fuel]; [lia|].
  all: destruct (lookup_lt_is_Some_2 chunks g) as [c Hc]; [lia|].
  all: destruct (Hchain g c Hc) as (n & Hn & Hlinked).
  all: pose proof (proj1 (Forall_lookup _ _) Hne g c Hc) as Hcne.
  all: assert (Hcenc : Forall (fun e : entry => encodable e.2) c)
         by (apply Forall_forall; intros e He;
             rewrite Forall_forall in Henc; apply Henc;
             apply (elem_of_concat _ c); [apply list_elem_of_lookup; eauto|done]).
  all: destruct (rangeSearch_loop_step min_key max_key fuel _ results t n c _
                   Hopen Hn Hlinked Hcne Hcenc)
         as (t1 & e & Hlast & Hstep & Hopen1 & Hns1 & Hnx1 & Hrt1 & _).
  all: rewrite Hstep.
  all: rewrite (drop_S _ c g) by done; cbn [concat]; rewrite filter_app, fmap_app.
  all: fold (in_range min_key max_key).
  all: destruct (max_key <? e.1) eqn:Hstop.
  1,3: apply Z.ltb_lt in Hstop; exists t1; split; [|done];
       rewrite filter_concat_none; [by rewrite app_nil_r|];
       eapply Forall_impl; [exact (sorted_chunk_last chunks g c e Hsorted Hc Hlast)|];
       unfold in_range; simpl; lia.
  - destruct (decide (S g < length chunks)%nat); [lia|].
    exists t1. split; [|done].
    destruct fuel as [|fuel]; [lia|]. cbn [rangeSearch_loop].
    change (-1 =? -1) with true. cbv beta iota.
    rewrite drop_ge by lia. cbn [concat]. by rewrite filter_nil, app_nil_r.
  - destruct (decide (S g < length chunks)%nat); [|lia].
    destruct (IH (S g) fuel (results ++ (filter (in_range min_key max_key) c).*2) t1)
      as (t' & Hrun & Hopen' & Hns' & Hnx' & Hrt').
    { done. } { by rewrite Hns1. } { lia. } { lia. }
    exists t'. split.
    + replace (n0 + Z.of_nat g + 1) with (n0 + Z.of_nat (S g)) by lia.
      rewrite Hrun. by rewrite app_assoc.
    + split; [done|]. split; [congruence|]. split; congruence.
Qed.

Lemma at_most_once_split key (l1 l2 : list entry) e1 e2 :
  at_most_once key (l1 ++ l2) -> e1 ∈ l1 -> e2 ∈ l2 ->
  e1.1 = key -> e2.1 = key -> False.
Proof.
  unfold at_most_once. rewrite filter_app, length_app. intros Hlen H1 H2 Hk1 Hk2.
  assert (Hf1 : e1 ∈ filter (fun e : entry => e.1 = key) l1)
    by (by apply list_elem_of_filter).
  assert (Hf2 : e2 ∈ filter (fun e : entry => e.1 = key) l2)
    by (by apply list_elem_of_filter).
  destruct (filter _ l1); [by inversion Hf1|].
  destruct (filter _ l2); [by inversion Hf2|].
  simpl in Hlen. lia.
Qed.

(** The leaves to the left of the one the descent ends in hold no entry with
    a key of [key] or more, when [key] occurs at most once. *)
Lemma none_before (chunks : list (list entry)) g key :
  StronglySorted Z.le (concat chunks).*1 ->
  Forall (fun c : list entry => c <> []) chunks ->
  (g < length chunks)%nat ->
  (forall c e, (1 <= g)%nat -> chunks !! g = Some c -> head c = Some e -> e.1 <= key) ->
  at_most_once key (concat chunks) ->
  Forall (fun e : entry => e.1 < key) (concat (take g chunks)).
Proof.
  intros Hsorted Hne Hg Hhead Honce.
  destruct g as [|g']; [done|].
  destruct (lookup_lt_is_Some_2 chunks (S g') Hg) as [c Hc].
  pose proof (proj1 (Forall_lookup _ _) Hne _ c Hc) as Hcne.
  destruct c as [|e0 c'] eqn:Hceq; [done|]. rewrite <- Hceq in *.
  assert (He0 : head c = Some e0) by (by rewrite Hceq).
  specialize (Hhead c e0 ltac:(lia) Hc He0).
  destruct (sorted_chunk_head chunks (S g') c e0 Hsorted Hc He0) as [Hbefore _].
  apply Forall_forall. intros e He.
  rewrite Forall_forall in Hbefore. specialize (Hbefore e He).
  destruct (decide (e.1 = key)) as [Heq|]; [|lia].
  exfalso. rewrite (concat_split chunks (S g')) in Honce.
  apply (at_most_once_split key _ _ e e0 Honce He); [|done|lia].
  rewrite (drop_S _ _ _ Hc). cbn [concat]. apply elem_of_app. left.
  rewrite Hceq. left.
Qed.

Lemma none_after (chunks : list (list entry)) g key :
  StronglySorted Z.le (concat chunks).*1 ->
  Forall (fun c : list entry => c <> []) chunks ->
  (forall c e, chunks !! S g = Some c -> head c = Some e -> key < e.1) ->
  Forall (fun e : entry => key < e.1) (concat (drop (S g) chunks)).
Proof.
  intros Hsorted Hne Hhead.
  destruct (chunks !! S g) as [c|] eqn:Hc.
  - pose proof (proj1 (Forall_lookup _ _) Hne _ c Hc) as Hcne.
    destruct c as [|e0 c'] eqn:Hceq; [done|]. rewrite <- Hceq in *.
    assert (He0 : head c = Some e0) by (by rewrite Hceq).
    specialize (Hhead c e0 eq_refl He0).
    destruct (sorted_chunk_head chunks (S g) c e0 Hsorted Hc He0) as [_ Hafter].
    eapply Forall_impl; [exact Hafter|]. simpl. lia.
  - apply lookup_ge_None in Hc. by rewrite drop_ge by lia.
Qed.

(** [rangeSearch] on an index of at most two levels. *)
Lemma rangeSearch_two_level t n0 chunks min_key max_key :
  two_level t n0 chunks ->
  Forall (fun e : entry => encodable e.2) (concat chunks) ->
  exists t' found,
    rangeSearch min_key max_key t = Ok (found, t') /\
    two_level t' n0 chunks /\ nodes t' = nodes t /\
    next_node_id t' = next_node_id t /\ root_id t' = root_id t /\
    (at_most_once min_key (concat chunks) \/ length chunks = 1%nat ->
     found = (filter (in_range min_key max_key) (concat chunks)).*2).
Proof.
  intros Htwo Henc.
  pose proof Htwo as (Hopen & Hn0 & Hcne & Hne & Hsorted & Hchain & Htop).
  destruct (findLeaf_two_level t n0 chunks min_key Htwo)
    as (g & t1 & Hfind & Hg & Hopen1 & Hns1 & Hnx1 & Hrt1 & Hhead & _).
  destruct (chain_first _ _ _ Hchain Hcne Hn0) as [_ Hlen].
  destruct (rangeSearch_loop_walk min_key max_key n0 chunks Hn0 Hne Hsorted Henc
              (length chunks - g - 1) g (S (length (nodes t1))) [] t1)
    as (t2 & Hwalk & Hopen2 & Hns2 & Hnx2 & Hrt2).
  { done. } { by rewrite Hns1. } { lia. } { rewrite Hns1. lia. }
  exists t2, (filter (in_range min_key max_key) (concat (drop g chunks))).*2.
  split.
  { unfold rangeSearch. erewrite bind_ok; [|exact Hfind].
    rewrite (proj2 (Z.eqb_neq _ _)) by lia.
    erewrite bind_ok; [|reflexivity]. exact Hwalk. }
  split; [apply (two_level_frame t); [done|done|congruence|congruence]|].
  split; [congruence|]. split; [congruence|]. split; [congruence|].
  intros Hcase.
  rewrite (concat_split chunks g), filter_app.
  rewrite (filter_concat_none _ (take g chunks)); [done|].
  destruct Hcase as [Honce|Hone].
  - eapply Forall_impl; [exact (none_before chunks g min_key Hsorted Hne Hg Hhead Honce)|].
    unfold in_range. simpl. lia.
  - assert (g = 0%nat) as -> by lia. done.
Qed.

(** [search] on an index of at most two levels. *)
Lemma search_two_level t n0 chunks key :
  two_level t n0 chunks ->
  Forall (fun e : entry => encodable e.2) (concat chunks) ->
  at_most_once key (concat chunks) \/ length chunks = 1%nat ->
  value_of (search key t)
  = Ok (filter (fun e : entry => e.1 = key) (concat chunks)).*2.
Proof.
  intros Htwo Henc Hcase.
  pose proof Htwo as (Hopen & Hn0 & Hcne & Hne & Hsorted & Hchain & Htop).
  destruct (findLeaf_two_level t n0 chunks key Htwo)
    as (g & t1 & Hfind & Hg & Hopen1 & Hns1 & Hnx1 & Hrt1 & Hhead & Hnext).
  destruct (lookup_lt_is_Some_2 chunks g Hg) as [c Hc].
  destruct (Hchain g c Hc) as (n & Hn & Hleaf & Hwf & _ & _ & Hes).
  rewrite <- Hns1 in Hn.
  destruct (readNode_open _ _ _ Hopen1 Hn) as (t2 & Hread & _).
  unfold search. erewrite bind_ok; [|exact Hfind].
  rewrite (proj2 (Z.eqb_neq _ _)) by lia.
  erewrite bind_ok; [|exact Hread]. cbv beta iota.
  rewrite (collect_spec _ (fun k => k = key) n [] Hwf) by (intros k; apply Z.eqb_eq).
  cbn [lift value_of app]. f_equal.
  assert (Hcenc : Forall (fun e : entry => encodable e.2) c).
  { apply Forall_forall. intros e He. rewrite Forall_forall in Henc. apply Henc.
    apply (elem_of_concat _ c); [apply list_elem_of_lookup; eauto|done]. }
  rewrite Hes, pointers_where_packed by done. f_equal.
  rewrite (concat_split chunks g), (drop_S _ _ _ Hc). cbn [concat].
  rewrite !filter_app.
  rewrite (filter_concat_none _ (take g chunks)), (filter_concat_none _ (drop (S g) chunks)).
  - by rewrite app_nil_r.
  - eapply Forall_impl; [exact (none_after chunks g key Hsorted Hne Hnext)|]. simpl. lia.
  - destruct Hcase as [Honce|Hone].
    + eapply Forall_impl; [exact (none_before chunks g key Hsorted Hne Hg Hhead Honce)|].
      simpl. lia.
    + assert (g = 0%nat) as -> by lia. done.
Qed.

(** ** Range deletion *)

Lemma unpacked_outside min_key max_key (c : list entry) :
  Forall (fun e : entry => encodable e.2) c ->
  unpacked <$> filter (fun e : Z * Z => ~ (min_key <= e.1 <= max_key)) (packed <$> c)
  = filter (fun e : entry => ~ in_range min_key max_key e) c.
Proof.
  induction 1 as [|e c He _ IH]; [done|].
  rewrite fmap_cons, !filter_cons. unfold in_range at 1.
  change ((packed e).1) with (e.1).
  destruct (decide (~ (min_key <= e.1 <= max_key))) as [Hout|Hin].
  - rewrite fmap_cons, IH. f_equal. unfold unpacked, packed. simpl.
    rewrite decode_encode_eq by done. by destruct e.
  - done.
Qed.

Lemma chain_chunk_size ns n0 chunks g c :
  chain_pages ns n0 chunks -> chunks !! g = Some c -> (length c <= 101)%nat.
Proof.
  intros Hchain Hc. destruct (Hchain g c Hc) as (n & _ & _ & Hwf & _ & _ & Hes).
  pose proof (length_leaf_entries n Hwf) as Hle.
  rewrite Hes, length_fmap in Hle. destruct Hwf as (_ & _ & Hn).
  unfold MAX_KEYS in Hn. lia.
Qed.

Lemma length_concat_le (chunks : list (list entry)) :
  Forall (fun c => length c <= 101)%nat chunks ->
  (length (concat chunks) <= 101 * length chunks)%nat.
Proof.
  induction 1 as [|c chunks Hc _ IH]; [done|].
  cbn [concat length]. rewrite length_app. lia.
Qed.

Lemma two_level_size t n0 chunks :
  two_level t n0 chunks -> Z.of_nat (length (concat chunks)) <= 10201.
Proof.
  intros (_ & _ & _ & _ & _ & Hchain & Htop).
  assert (Hsize : (length (concat chunks) <= 101 * length chunks)%nat).
  { apply length_concat_le, Forall_lookup. intros g c Hc.
    by apply (chain_chunk_size _ _ _ g c Hchain). }
  assert (length chunks <= 101)%nat by (destruct Htop as [[? _]|[? _]]; lia).
  lia.
Qed.

(** The walk of [removeRange] along the chain: every leaf gives its entries
    outside the interval. *)
Lemma collect_remaining_chain min_key max_key n0 chunks :
  0 <= n0 ->
  Forall (fun e : entry => encodable e.2) (concat chunks) ->
  forall m g fuel acc t,
    index_open t -> chain_pages (nodes t) n0 chunks ->
    (g + S m = length chunks)%nat -> (S m < fuel)%nat ->
    exists t',
      collect_remaining fuel min_key max_key (n0 + Z.of_nat g) acc t
        = Ok (acc ++ filter (fun e : entry => ~ in_range min_key max_key e)
                       (concat (drop g chunks)), t') /\
      index_open t' /\ nodes t' = nodes t /\
      next_node_id t' = next_node_id t /\ root_id t' = root_id t.
Proof.
  intros Hn0 Henc m.
  induction m as [|m IH]; intros g fuel acc t Hopen Hchain Hg Hfuel.
  all: destruct fuel as [|fuel]; [lia|].
  all: destruct (lookup_lt_is_Some_2 chunks g) as [c Hc]; [lia|].
  all: destruct (Hchain g c Hc) as (n & Hn & Hleaf & Hwf & Hnext & _ & Hes).
  all: assert (Hcenc : Forall (fun e : entry => encodable e.2) c)
         by (apply Forall_forall; intros e He;
             rewrite Forall_forall in Henc; apply Henc;
             apply (elem_of_concat _ c); [apply list_elem_of_lookup; eauto|done]).
  all: destruct (readNode_open _ _ _ Hopen Hn) as (t1 & Hread & Hopen1 & Hns1 & Hnx1 & Hrt1).
  all: assert (Hstep :
         collect_remaining (S fuel) min_key max_key (n0 + Z.of_nat g) acc t
         = collect_remaining fuel min_key max_key (next_leaf n)
             (acc ++ filter (fun e : entry => ~ in_range min_key max_key e) c) t1)
         by (cbn [collect_remaining]; rewrite (proj2 (Z.eqb_neq _ _)) by lia;
             (erewrite bind_ok; [|exact Hread]); cbv beta iota;
             rewrite (keep_outside_spec min_key max_key n acc Hwf), Hes,
               unpacked_outside by done;
             by (erewrite bind_ok; [|reflexivity])).
  all: rewrite Hstep, Hnext, (drop_S _ c g) by done.
  all: cbn [concat]; rewrite filter_app.
  - destruct (decide (S g < length chunks)%nat); [lia|].
    exists t1. split; [|done].
    destruct fuel as [|fuel]; [lia|]. cbn [collect_remaining].
    change (-1 =? -1) with true. cbv beta iota.
    rewrite drop_ge by lia. cbn [concat]. by rewrite filter_nil, app_nil_r.
  - destruct (decide (S g < length chunks)%nat); [|lia].
    destruct (IH (S g) fuel (acc ++ filter (fun e : entry => ~ in_range min_key max_key e) c) t1)
      as (t' & Hrun & Hopen' & Hns' & Hnx' & Hrt').
    { done. } { by rewrite Hns1. } { lia. } { lia. }
    exists t'. split.
    + replace (n0 + Z.of_nat g + 1) with (n0 + Z.of_nat (S g)) by lia.
      rewrite Hrun. by rewrite app_assoc.
    + split; [done|]. split; [congruence|]. split; congruence.
Qed.

(** The entries a range deletion keeps. *)
Lemma removeRange_two_level t n0 chunks min_key max_key :
  two_level t n0 chunks ->
  Forall (fun e : entry => encodable e.2) (concat chunks) ->
  Forall (fun e : entry => 0 < e.1) (concat chunks) ->
  exists t' count,
    removeRange min_key max_key t = Ok (count, t') /\
    (at_most_once min_key (concat chunks) \/ length chunks = 1%nat ->
     count = Z.of_nat (length (filter (in_range min_key max_key) (concat chunks)))) /\
    index_open t' /\
    match filter (fun e : entry => ~ in_range min_key max_key e) (concat chunks) with
    | [] => root_id t' = -1 /\ next_node_id t' = 0
    | kept =>
        next_node_id t' = rebuilt_node_count /\
        exists chunks', two_level t' 0 chunks' /\
                        concat chunks' = std_sort (std_sort kept)
    end.
Proof.
  intros Htwo Henc Hpos.
  pose proof Htwo as (Hopen & Hn0 & Hcne & Hne & Hsorted & Hchain & Htop).
  pose proof (two_level_size t n0 chunks Htwo) as Hsize.
  destruct (rangeSearch_two_level t n0 chunks min_key max_key Htwo Henc)
    as (t1 & found & Hrange & Htwo1 & Hns1 & Hnx1 & Hrt1 & Hfound).
  destruct (findLeaf_two_level t1 n0 chunks 0 Htwo1)
    as (g & t2 & Hfind & Hg & Hopen2 & Hns2 & Hnx2 & Hrt2 & Hhead & _).
  assert (g = 0%nat) as ->.
  { destruct g as [|g']; [done|]. exfalso.
    destruct (lookup_lt_is_Some_2 chunks (S g') Hg) as [c Hc].
    pose proof (proj1 (Forall_lookup _ _) Hne _ c Hc) as Hcne'.
    destruct c as [|e c'] eqn:Hceq; [done|].
    specialize (Hhead (e :: c') e ltac:(lia) Hc eq_refl).
    rewrite Forall_forall in Hpos.
    assert (0 < e.1); [|lia]. apply Hpos.
    apply (elem_of_concat _ (e :: c')); [apply list_elem_of_lookup; eauto|left]. }
  destruct (chain_first _ _ _ Hchain Hcne Hn0) as [_ Hlen].
  destruct (collect_remaining_chain min_key max_key n0 chunks Hn0 Henc
              (length chunks - 1) 0 (S (length (nodes t2))) [] t2)
    as (t3 & Hcollect & Hopen3 & Hns3 & Hnx3 & Hrt3).
  { done. } { by rewrite Hns2, Hns1. } { lia. } { rewrite Hns2, Hns1. lia. }
  rewrite drop_0 in Hcollect. cbn [app] in Hcollect.
  set (kept := filter (fun e : entry => ~ in_range min_key max_key e) (concat chunks)) in *.
  set (tr := set_next_node_id 0 (set_root_id (-1) t3)).
  assert (Hprefix :
            removeRange min_key max_key t
            = (let* _ :=
                 (match kept with
                  | [] => ret tt
                  | _ =>
                      let remaining_data := std_sort kept in
                      let* _ := bulkLoad remaining_data in
                      let* t := get in
                      put (set_next_node_id rebuilt_node_count t)
                  end) in
               ret (Z.of_nat (length found))) tr).
  { unfold removeRange.
    erewrite bind_ok; [|exact Hrange]. cbv zeta.
    erewrite bind_ok; [|exact Hfind].
    erewrite bind_ok; [|reflexivity].
    erewrite bind_ok; [|exact Hcollect].
    erewrite bind_ok; [|reflexivity].
    erewrite bind_ok; [|reflexivity].
    reflexivity. }
  assert (Hcount : at_most_once min_key (concat chunks) \/ length chunks = 1%nat ->
            Z.of_nat (length found)
            = Z.of_nat (length (filter (in_range min_key max_key) (concat chunks)))).
  { intros Hcase. rewrite (Hfound Hcase), length_fmap. done. }
  assert (Hopenr : index_open tr) by done.
  destruct kept as [|e kept'] eqn:Hkept.
  - exists tr, (Z.of_nat (length found)). split.
    { rewrite Hprefix. erewrite bind_ok; [|reflexivity]. reflexivity. }
    split; [done|]. split; [done|]. done.
  - rewrite <- Hkept in *.
    assert (Hkne : std_sort kept <> []).
    { apply std_sort_nonempty. by rewrite Hkept. }
    assert (Hklen : Z.of_nat (length (std_sort kept)) <= 10201).
    { rewrite (Permutation_length (std_sort_Permutation kept)).
      pose proof (length_filter (fun e : entry => ~ in_range min_key max_key e)
                    (concat chunks)) as Hle.
      fold kept in Hle. lia. }
    destruct (bulkLoad_two_level tr (std_sort kept) Hopenr) 
      as (t4 & chunks' & Hload & Htwo4 & _ & Hcat & _);
      [simpl; lia|done|done|].
    exists (set_next_node_id rebuilt_node_count t4), (Z.of_nat (length found)).
    split.
    { rewrite Hprefix.
      erewrite bind_ok; cycle 1.
      { erewrite bind_ok; [|exact Hload].
        erewrite bind_ok; [|reflexivity]. reflexivity. }
      reflexivity. }
    split; [done|]. split; [by destruct Htwo4|].
    split; [done|]. exists chunks'. split; [|done].
    apply (two_level_frame t4); [exact Htwo4|by destruct Htwo4|done|done].
Qed.

(** ** The keys of the root *)

Lemma root_keys_from root : forall m i acc,
  0 <= i -> i + Z.of_nat m <= Z.of_nat (length (keys root)) ->
  iter_up m i (fun i keys => let+ k := get_key i root in Ok (keys ++ [k])) acc
  = Ok (acc ++ take m (drop (Z.to_nat i) (keys root))).
Proof.
  induction m as [|m IH]; intros i acc Hi Him.
  - simpl. by rewrite app_nil_r.
  - cbn [iter_up].
    destruct (array_get_in_range arr_keys (keys root) i) as (k & Hgk & Hlk); [lia|].
    change (get_key i root = Ok k) in Hgk. rewrite Hgk. cbn [rbind].
    rewrite IH by lia.
    rewrite (drop_S _ _ _ Hlk). cbn [take].
    replace (Z.to_nat (i + 1)) with (S (Z.to_nat i)) by lia.
    by rewrite <- app_assoc.
Qed.

Lemma getRootKeys_node t root :
  index_open t -> node_at (nodes t) (root_id t) = Some root -> node_wf root ->
  value_of (getRootKeys t) = Ok (leaf_keys root).
Proof.
  intros Hopen Hroot (Hlk & _ & Hnk).
  assert (Hpos : 0 <= root_id t) by (by apply node_at_lookup in Hroot as [? _]).
  destruct (readNode_open _ _ _ Hopen Hroot) as (t' & Hread & _).
  unfold getRootKeys. erewrite bind_ok; [|reflexivity].
  rewrite (proj2 (Z.eqb_neq _ _)) by lia.
  erewrite bind_ok; [|exact Hread]. cbv beta iota.
  unfold for_up. rewrite root_keys_from; [|lia|].
  - rewrite Z.sub_0_r. done.
  - rewrite Hlk. unfold MAX_KEYS in *. lia.
Qed.

Lemma chunk_position (full : list (list entry)) cur : forall g c i e,
  Forall (fun c => length c = 101%nat) full ->
  (full ++ [cur]) !! g = Some c -> c !! i = Some e ->
  concat (full ++ [cur]) !! (101 * g + i)%nat = Some e.
Proof.
  induction full as [|c0 full IH]; intros g c i e Hfull Hc He.
  - destruct g as [|g]; [|done]. simpl in Hc. injection Hc as ->.
    simpl. rewrite app_nil_r. done.
  - apply Forall_cons in Hfull as [Hc0 Hfull].
    rewrite <- app_comm_cons. cbn [concat].
    destruct g as [|g]; simpl in Hc.
    + injection Hc as ->. rewrite lookup_app_l; [done|].
      apply lookup_lt_Some in He. lia.
    + rewrite lookup_app_r by lia.
      replace (101 * S g + i - length c0)%nat with (101 * g + i)%nat by lia.
      by apply (IH g c).
Qed.

Lemma getRootKeys_two_level t n0 chunks :
  two_level t n0 chunks ->
  exists root_keys,
    value_of (getRootKeys t) = Ok root_keys /\
    (length chunks = 1%nat -> root_keys = (concat chunks).*1) /\
    ((2 <= length chunks)%nat ->
     length root_keys = (length chunks - 1)%nat /\
     forall j c e, chunks !! S j = Some c -> head c = Some e ->
       root_keys !! j = Some e.1).
Proof.
  intros (Hopen & Hn0 & Hcne & Hne & Hsorted & Hchain & Htop).
  destruct Htop as [[Hone Hroot]|[HL (p & Hp & Hint & Hwf & Hnk & Hch & Hks)]].
  - destruct chunks as [|c [|]]; [done| |done].
    destruct (Hchain 0%nat c eq_refl) as (n & Hn & Hlinked).
    rewrite Z.add_0_r, <- Hroot in Hn.
    pose proof Hlinked as (_ & Hwf & _ & _ & Hes).
    exists (leaf_keys n). split; [by apply getRootKeys_node|].
    split; [|simpl; lia].
    intros _. cbn [concat]. rewrite app_nil_r.
    rewrite <- leaf_entries_keys, Hes, <- list_fmap_compose by done. done.
  - exists (leaf_keys p). split; [by apply getRootKeys_node|].
    split; [lia|]. intros _.
    pose proof Hwf as (Hlk & _ & Hn). unfold MAX_KEYS in *.
    split.
    + unfold leaf_keys. rewrite length_take. lia.
    + intros j c e Hc He.
      assert (S j < length chunks)%nat by (by apply lookup_lt_Some in Hc).
      unfold leaf_keys. rewrite lookup_take_lt by lia. by apply (Hks j c e).
Qed.

(** ** An index without root *)

Lemma rangeSearch_empty_index min_key max_key t :
  root_id t = -1 -> rangeSearch min_key max_key t = Ok ([], t).
Proof.
  intros Hroot. unfold rangeSearch, findLeaf.
  erewrite bind_ok; [|erewrite bind_ok; [|reflexivity]; rewrite Hroot; reflexivity].
  reflexivity.
Qed.

(** ** Permutations of the entries *)

Lemma at_most_once_Permutation key (es es' : list entry) :
  es ≡ₚ es' -> at_most_once key es -> at_most_once key es'.
Proof. unfold at_most_once. by intros ->. Qed.

Lemma loaded_chunks_one (data : list entry) chunks :
  chunked chunks -> concat chunks = std_sort data ->
  ((length data <= 101)%nat <-> length chunks = 1%nat).
Proof.
  intros Hchunked Hcat. pose proof (chunked_length _ Hchunked) as Hlen.
  rewrite Hcat, (Permutation_length (std_sort_Permutation data)) in Hlen.
  destruct (chunked_nonempty _ Hchunked) as [Hcne _].
  destruct chunks; [done|]. simpl in *. lia.
Qed.

(** ** The theorems *)

(** X22. The keys of the root after a bulk load of at most 10201 entries:
    up to 101 entries the root is the one leaf and [getRootKeys] returns all
    keys in ascending order; beyond, the root is internal and its keys are
    the first keys of the second, third, ... leaf, that is the keys at the
    positions 101, 202, ... of the sorted input. *)
Theorem bulkLoad_then_getRootKeys (t : BPTree) (data : list entry) :
  index_open t -> 0 <= next_node_id t -> data <> [] ->
  Z.of_nat (length data) <= 10201 ->
  exists t' sorted root_keys,
    bulkLoad data t = Ok (true, t') /\
    sorted ≡ₚ data /\ StronglySorted Z.le sorted.*1 /\
    value_of (getRootKeys t') = Ok root_keys /\
    ((length data <= 101)%nat -> root_keys = sorted.*1) /\
    ((101 < length data)%nat ->
     (101 * length root_keys < length data <= 101 * S (length root_keys))%nat /\
     forall j, (j < length root_keys)%nat ->
       root_keys !! j = sorted.*1 !! (101 * S j)%nat).
Proof.
  intros Hopen Hn0 Hdata Hsize.
  destruct (bulkLoad_two_level t data Hopen Hn0 Hdata Hsize)
    as (t' & chunks & Hload & Htwo & Hchunked & Hcat & _).
  destruct (getRootKeys_two_level t' _ chunks Htwo) as (root_keys & Hget & Hone & Hmany).
  pose proof (loaded_chunks_one data chunks Hchunked Hcat) as HL.
  pose proof (chunked_length _ Hchunked) as Hlen.
  rewrite Hcat, (Permutation_length (std_sort_Permutation data)) in Hlen.
  exists t', (std_sort data), root_keys.
  split; [done|]. split; [apply std_sort_Permutation|].
  split; [apply std_sort_keys_sorted|]. split; [done|].
  split.
  - intros Hsmall. rewrite <- Hcat. apply Hone. by apply HL.
  - intros Hbig.
    destruct Hmany as [Hrk Hkeys].
    { destruct (decide (length chunks = 1%nat)) as [Hone1|]; [|lia].
      apply HL in Hone1. lia. }
    split; [lia|].
    intros j Hj.
    destruct (lookup_lt_is_Some_2 chunks (S j)) as [c Hc]; [lia|].
    destruct (chunked_nonempty _ Hchunked) as [_ Hne].
    pose proof (proj1 (Forall_lookup _ _) Hne _ c Hc) as Hcne.
    destruct c as [|e c'] eqn:Hceq; [done|].
    rewrite (Hkeys j (e :: c') e Hc eq_refl).
    destruct Hchunked as (full & cur & -> & Hfull & Hcur).
    pose proof (chunk_position full cur (S j) (e :: c') 0 e Hfull Hc eq_refl) as Hpos.
    rewrite Hcat, Nat.add_0_r in Hpos.
    by rewrite list_lookup_fmap, Hpos.
Qed.

Lemma bulkLoad_then_getRootKeys_witness :
  exists t' sorted root_keys,
    bulkLoad two_leaves_102 opened = Ok (true, t') /\
    sorted ≡ₚ two_leaves_102 /\ StronglySorted Z.le sorted.*1 /\
    value_of (getRootKeys t') = Ok root_keys /\
    ((length two_leaves_102 <= 101)%nat -> root_keys = sorted.*1) /\
    ((101 < length two_leaves_102)%nat ->
     (101 * length root_keys < length two_leaves_102 <= 101 * S (length root_keys))%nat /\
     forall j, (j < length root_keys)%nat ->
       root_keys !! j = sorted.*1 !! (101 * S j)%nat).
Proof.
  apply (bulkLoad_then_getRootKeys opened two_leaves_102).
  - split; reflexivity.
  - vm_compute. discriminate.
  - discriminate.
  - vm_compute. discriminate.
Defined.

(** X23. Bulk load and exact-match search, for at most 10201 entries (two
    levels): [search] returns the pointers of the entries with the key,
    provided at most one entry has this key or all entries fit one leaf. *)
Theorem bulkLoad_then_search (t : BPTree) (data : list entry) (key : Z) :
  index_open t -> 0 <= next_node_id t -> data <> [] ->
  Z.of_nat (length data) <= 10201 ->
  Forall (fun e => encodable e.2) data ->
  at_most_once key data \/ (length data <= 101)%nat ->
  exists t' sorted,
    bulkLoad data t = Ok (true, t') /\
    sorted ≡ₚ data /\ StronglySorted Z.le sorted.*1 /\
    value_of (search key t') = Ok (filter (fun e : entry => e.1 = key) sorted).*2.
Proof.
  intros Hopen Hn0 Hdata Hsize Henc Hcase.
  destruct (bulkLoad_two_level t data Hopen Hn0 Hdata Hsize)
    as (t' & chunks & Hload & Htwo & Hchunked & Hcat & _).
  exists t', (std_sort data).
  split; [done|]. split; [apply std_sort_Permutation|].
  split; [apply std_sort_keys_sorted|].
  rewrite <- Hcat. apply (search_two_level t' (next_node_id t)); [done| |].
  - rewrite Hcat. by rewrite std_sort_Permutation.
  - destruct Hcase as [Honce|Hsmall].
    + left. rewrite Hcat.
      by apply (at_most_once_Permutation key data); [symmetry; apply std_sort_Permutation|].
    + right. by apply (loaded_chunks_one data).
Qed.

Lemma bulkLoad_then_search_witness :
  exists t' sorted,
    bulkLoad two_leaves_102 opened = Ok (true, t') /\
    sorted ≡ₚ two_leaves_102 /\ StronglySorted Z.le sorted.*1 /\
    value_of (search 102 t') = Ok (filter (fun e : entry => e.1 = 102) sorted).*2.
Proof.
  apply (bulkLoad_then_search opened two_leaves_102 102).
  - split; reflexivity.
  - vm_compute. discriminate.
  - discriminate.
  - vm_compute. discriminate.
  - repeat constructor; vm_compute; discriminate.
  - left. vm_compute. lia.
Defined.

(** X24. Bulk load and range search, for at most 10201 entries (two
    levels) and any interval: [rangeSearch] returns the pointers of the
    entries with a key in the interval, in ascending order of their keys,
    provided at most one entry has the lower bound as its key or all entries
    fit one leaf. *)
Theorem bulkLoad_then_rangeSearch
  (t : BPTree) (data : list entry) (min_key max_key : Z) :
  index_open t -> 0 <= next_node_id t -> data <> [] ->
  Z.of_nat (length data) <= 10201 ->
  Forall (fun e => encodable e.2) data ->
  at_most_once min_key data \/ (length data <= 101)%nat ->
  exists t' sorted,
    bulkLoad data t = Ok (true, t') /\
    sorted ≡ₚ data /\ StronglySorted Z.le sorted.*1 /\
    value_of (rangeSearch min_key max_key t')
    = Ok (filter (in_range min_key max_key) sorted).*2.
Proof.
  intros Hopen Hn0 Hdata Hsize Henc Hcase.
  destruct (bulkLoad_two_level t data Hopen Hn0 Hdata Hsize)
    as (t' & chunks & Hload & Htwo & Hchunked & Hcat & _).
  exists t', (std_sort data).
  split; [done|]. split; [apply std_sort_Permutation|].
  split; [apply std_sort_keys_sorted|].
  destruct (rangeSearch_two_level t' (next_node_id t) chunks min_key max_key Htwo)
    as (t'' & found & -> & _ & _ & _ & _ & Hfound).
  { rewrite Hcat. by rewrite std_sort_Permutation. }
  simpl. rewrite <- Hcat. f_equal. apply Hfound.
  destruct Hcase as [Honce|Hsmall].
  - left. rewrite Hcat.
    by apply (at_most_once_Permutation min_key data); [symmetry; apply std_sort_Permutation|].
  - right. by apply (loaded_chunks_one data).
Qed.

Lemma bulkLoad_then_rangeSearch_witness :
  exists t' sorted,
    bulkLoad two_leaves_102 opened = Ok (true, t') /\
    sorted ≡ₚ two_leaves_102 /\ StronglySorted Z.le sorted.*1 /\
    value_of (rangeSearch 100 102 t')
    = Ok (filter (in_range 100 102) sorted).*2.
Proof.
  apply (bulkLoad_then_rangeSearch opened two_leaves_102 100 102).
  - split; reflexivity.
  - vm_compute. discriminate.
  - discriminate.
  - vm_compute. discriminate.
  - repeat constructor; vm_compute; discriminate.
  - left. vm_compute. lia.
Defined.

(** X25. Range deletion on a loaded index of at most 10201 entries with
    positive keys: [removeRange] rebuilds the index from the entries outside
    the interval, so that afterwards the lookups see exactly these; it
    answers the number of entries in the interval when at most one entry has
    the lower bound as its key; and it leaves the node count at 0 when
    nothing is kept and at 251 otherwise. *)
Theorem removeRange_on_loaded
  (t : BPTree) (data : list entry) (min_key max_key : Z) :
  index_open t -> 0 <= next_node_id t -> data <> [] ->
  Z.of_nat (length data) <= 10201 ->
  Forall (fun e => encodable e.2) data ->
  Forall (fun e : entry => 0 < e.1) data ->
  exists t1 t2 count kept,
    bulkLoad data t = Ok (true, t1) /\
    removeRange min_key max_key t1 = Ok (count, t2) /\
    (at_most_once min_key data ->
     count = Z.of_nat (length (filter (in_range min_key max_key) data))) /\
    kept ≡ₚ filter (fun e : entry => ~ in_range min_key max_key e) data /\
    StronglySorted Z.le kept.*1 /\
    getNumNodes t2 = (if decide (kept = []) then 0 else 251) /\
    (forall lo hi, at_most_once lo kept ->
       value_of (rangeSearch lo hi t2) = Ok (filter (in_range lo hi) kept).*2) /\
    (forall key, at_most_once key kept ->
       value_of (search key t2) = Ok (filter (fun e : entry => e.1 = key) kept).*2).
Proof.
  intros Hopen Hn0 Hdata Hsize Henc Hpos.
  destruct (bulkLoad_two_level t data Hopen Hn0 Hdata Hsize)
    as (t1 & chunks & Hload & Htwo & Hchunked & Hcat & _).
  assert (Hperm : concat chunks ≡ₚ data) by (rewrite Hcat; apply std_sort_Permutation).
  assert (Henc1 : Forall (fun e : entry => encodable e.2) (concat chunks))
    by (by rewrite Hperm).
  assert (Hpos1 : Forall (fun e : entry => 0 < e.1) (concat chunks))
    by (by rewrite Hperm).
  destruct (removeRange_two_level t1 _ chunks min_key max_key Htwo Henc1 Hpos1)
    as (t2 & count & Hremove & Hcount & Hopen2 & Hkept).
  set (kept0 := filter (fun e : entry => ~ in_range min_key max_key e) (concat chunks)) in *.
  assert (Hperm0 : kept0 ≡ₚ filter (fun e : entry => ~ in_range min_key max_key e) data).
  { unfold kept0. by rewrite Hperm. }
  assert (Hcount' : at_most_once min_key data ->
            count = Z.of_nat (length (filter (in_range min_key max_key) data))).
  { intros Honce. rewrite Hcount.
    - by rewrite Hperm.
    - left. by apply (at_most_once_Permutation min_key data). }
  destruct kept0 as [|e kept'] eqn:Hkept0.
  - destruct Hkept as [Hroot Hnext].
    exists t1, t2, count, []. split; [done|]. split; [done|]. split; [done|].
    split; [done|]. split; [constructor|]. split; [done|].
    split.
    + intros lo hi _. by rewrite rangeSearch_empty_index.
    + intros key _. by rewrite search_empty_index.
  - destruct Hkept as (Hnext & chunks' & Htwo' & Hcat').
    rewrite <- Hkept0 in *.
    assert (Hk : std_sort (std_sort kept0) ≡ₚ kept0)
      by (by rewrite !std_sort_Permutation).
    assert (Henc' : Forall (fun e : entry => encodable e.2) (concat chunks')).
    { rewrite Hcat', Hk, Hperm0. apply Forall_forall. intros x Hx.
      apply list_elem_of_filter in Hx as [_ Hx].
      rewrite Forall_forall in Henc. by apply Henc. }
    exists t1, t2, count, (std_sort (std_sort kept0)).
    split; [done|]. split; [done|]. split; [done|].
    split; [by rewrite Hk|]. split; [apply std_sort_keys_sorted|].
    split.
    { unfold getNumNodes. rewrite Hnext. rewrite decide_False; [done|].
      apply std_sort_nonempty, std_sort_nonempty. by rewrite Hkept0. }
    rewrite <- Hcat'. split.
    + intros lo hi Honce.
      destruct (rangeSearch_two_level t2 0 chunks' lo hi Htwo' Henc')
        as (t3 & found & -> & _ & _ & _ & _ & Hfound).
      simpl. f_equal. apply Hfound. by left.
    + intros key Honce. apply (search_two_level t2 0); [done|done|by left].
Qed.

Lemma removeRange_on_loaded_witness :
  exists t1 t2 count kept,
    bulkLoad two_leaves_102 opened = Ok (true, t1) /\
    removeRange 50 60 t1 = Ok (count, t2) /\
    (at_most_once 50 two_leaves_102 ->
     count = Z.of_nat (length (filter (in_range 50 60) two_leaves_102))) /\
    kept ≡ₚ filter (fun e : entry => ~ in_range 50 60 e) two_leaves_102 /\
    StronglySorted Z.le kept.*1 /\
    getNumNodes t2 = (if decide (kept = []) then 0 else 251) /\
    (forall lo hi, at_most_once lo kept ->
       value_of (rangeSearch lo hi t2) = Ok (filter (in_range lo hi) kept).*2) /\
    (forall key, at_most_once key kept ->
       value_of (search key t2) = Ok (filter (fun e : entry => e.1 = key) kept).*2).
Proof.
  apply (removeRange_on_loaded opened two_leaves_102 50 60).
  - split; reflexivity.
  - vm_compute. discriminate.
  - discriminate.
  - vm_compute. discriminate.
  - repeat constructor; vm_compute; discriminate.
  - repeat constructor.
Defined.

(** X27. The nodes a bulk load allocates, for at most 10201 entries: one
    leaf for every 101 entries, and a root above them when there is more
    than one leaf; the new nodes get the next free ids, the root the last of
    them, and nothing is reused, so that on an index just created by
    [open()] the empty initial root leaf stays counted by [getNumNodes]. *)
Theorem bulkLoad_node_count (t : BPTree) (data : list entry) :
  index_open t -> 0 <= next_node_id t -> data <> [] ->
  Z.of_nat (length data) <= 10201 ->
  exists t' leaves,
    bulkLoad data t = Ok (true, t') /\
    101 * (leaves - 1) < Z.of_nat (length data) <= 101 * leaves /\
    getNumNodes t' = getNumNodes t + leaves + (if leaves =? 1 then 0 else 1) /\
    root_id t' = getNumNodes t' - 1.
Proof.
  intros Hopen Hn0 Hdata Hsize.
  destruct (bulkLoad_two_level t data Hopen Hn0 Hdata Hsize)
    as (t' & chunks & Hload & Htwo & Hchunked & Hcat & Hnext & Hroot).
  pose proof (chunked_length _ Hchunked) as Hlen.
  rewrite Hcat, (Permutation_length (std_sort_Permutation data)) in Hlen.
  exists t', (Z.of_nat (length chunks)).
  split; [done|]. split; [lia|]. split; [|done].
  unfold getNumNodes. rewrite Hnext.
  destruct (decide (length chunks = 1%nat)) as [->|Hmany]; [done|].
  rewrite (proj2 (Z.eqb_neq _ _)) by lia. done.
Qed.

Lemma bulkLoad_node_count_witness :
  exists t' leaves,
    bulkLoad two_leaves_102 opened = Ok (true, t') /\
    101 * (leaves - 1) < Z.of_nat (length two_leaves_102) <= 101 * leaves /\
    getNumNodes t' = getNumNodes opened + leaves + (if leaves =? 1 then 0 else 1) /\
    root_id t' = getNumNodes t' - 1.
Proof.
  apply (bulkLoad_node_count opened two_leaves_102).
  - split; reflexivity.
  - vm_compute. discriminate.
  - discriminate.
  - vm_compute. discriminate.
Defined.

(** * The lookups never write *)

Lemma same_file_refl t : same_file t t.
Proof. done. Qed.

Lemma same_file_trans t1 t2 t3 :
  same_file t1 t2 -> same_file t2 t3 -> same_file t1 t3.
Proof. unfold same_file. intros (? & ? & ? & ?) (? & ? & ? & ?). repeat split; congruence. Qed.

Lemma reads_only_ret {A : Type} (a : A) : reads_only (ret a).
Proof. intros t. apply same_file_refl. Qed.

Lemma reads_only_get : reads_only get.
Proof. intros t. apply same_file_refl. Qed.

Lemma reads_only_lift {A : Type} (r : result A) : reads_only (lift r).
Proof. intros t. unfold lift. destruct r; [apply same_file_refl|done]. Qed.

Lemma reads_only_diverge {A : Type} : reads_only (@diverge A).
Proof. intros t. done. Qed.

Lemma reads_only_bind {A B : Type} (m : M BPTree A) (k : A -> M BPTree B) :
  reads_only m -> (forall a, reads_only (k a)) -> reads_only (bind m k).
Proof.
  intros Hm Hk t. unfold bind. specialize (Hm t).
  destruct (m t) as [[a t1]|]; [|done].
  specialize (Hk a t1). destruct (k a t1) as [[b t2]|]; [|done].
  by apply (same_file_trans t t1 t2).
Qed.

Lemma reads_only_readNode id : reads_only (readNode id).
Proof.
  intros t. unfold readNode.
  destruct (negb (is_open t)); [apply same_file_refl|].
  destruct (good t && (0 <=? id)); [|done].
  by destruct (nodes t !! Z.to_nat id).
Qed.

Lemma reads_only_findLeaf_loop key fuel : forall current,
  reads_only (findLeaf_loop fuel key current).
Proof.
  induction fuel as [|fuel IH]; intros current; [apply reads_only_diverge|].
  cbn [findLeaf_loop].
  apply reads_only_bind; [apply reads_only_readNode|]. intros [node|].
  - destruct (is_leaf node); [apply reads_only_ret|].
    apply reads_only_bind; [apply reads_only_readNode|]. intros [node'|];
      [|apply reads_only_ret].
    apply reads_only_bind; [apply reads_only_lift|]. intros i.
    apply reads_only_bind; [apply reads_only_lift|]. intros c. apply IH.
  - apply reads_only_bind; [apply reads_only_readNode|]. intros [node'|];
      [|apply reads_only_ret].
    apply reads_only_bind; [apply reads_only_lift|]. intros i.
    apply reads_only_bind; [apply reads_only_lift|]. intros c. apply IH.
Qed.

Lemma reads_only_findLeaf key : reads_only (findLeaf key).
Proof.
  unfold findLeaf. apply reads_only_bind; [apply reads_only_get|]. intros t.
  destruct (root_id t =? -1); [apply reads_only_ret|apply reads_only_findLeaf_loop].
Qed.

Lemma reads_only_rangeSearch_loop min_key max_key fuel : forall leaf_id results,
  reads_only (rangeSearch_loop fuel min_key max_key leaf_id results).
Proof.
  induction fuel as [|fuel IH]; intros leaf_id results; [apply reads_only_diverge|].
  cbn [rangeSearch_loop].
  destruct (leaf_id =? -1); [apply reads_only_ret|].
  apply reads_only_bind; [apply reads_only_readNode|]. intros [leaf|];
    [|apply reads_only_ret].
  apply reads_only_bind; [apply reads_only_lift|]. intros results'.
  apply reads_only_bind; [apply reads_only_lift|]. intros last.
  destruct (max_key <? last); [apply reads_only_ret|apply IH].
Qed.

Lemma reads_only_getNumLevels_loop fuel : forall current levels,
  reads_only (getNumLevels_loop fuel current levels).
Proof.
  induction fuel as [|fuel IH]; intros current levels; [apply reads_only_diverge|].
  cbn [getNumLevels_loop].
  apply reads_only_bind; [apply reads_only_readNode|]. intros [node|];
    [|apply reads_only_ret].
  destruct (negb (is_leaf node)); [|apply reads_only_ret].
  apply reads_only_bind; [apply reads_only_lift|]. intros c. apply IH.
Qed.

(** X26. The lookups never write: whatever [findLeaf], [search],
    [rangeSearch], [getNumLevels] and [getRootKeys] answer, on any index
    state, the pages of the file, the root, the node count and the open flag
    are afterwards what they were. *)
Theorem lookups_read_only (key min_key max_key : Z) :
  reads_only (findLeaf key) /\
  reads_only (search key) /\
  reads_only (rangeSearch min_key max_key) /\
  reads_only getNumLevels /\
  reads_only getRootKeys.
Proof.
  split; [apply reads_only_findLeaf|].
  split.
  { unfold search. apply reads_only_bind; [apply reads_only_findLeaf|]. intros leaf_id.
    destruct (leaf_id =? -1); [apply reads_only_ret|].
    apply reads_only_bind; [apply reads_only_readNode|]. intros [leaf|];
      [apply reads_only_lift|apply reads_only_ret]. }
  split.
  { unfold rangeSearch. apply reads_only_bind; [apply reads_only_findLeaf|]. intros leaf_id.
    destruct (leaf_id =? -1); [apply reads_only_ret|].
    apply reads_only_bind; [apply reads_only_get|]. intros t.
    apply reads_only_rangeSearch_loop. }
  split.
  { unfold getNumLevels. apply reads_only_bind; [apply reads_only_get|]. intros t.
    destruct (root_id t =? -1); [apply reads_only_ret|].
    apply reads_only_getNumLevels_loop. }
  unfold getRootKeys. apply reads_only_bind; [apply reads_only_get|]. intros t.
  destruct (root_id t =? -1); [apply reads_only_ret|].
  apply reads_only_bind; [apply reads_only_readNode|]. intros [root|];
    [apply reads_only_lift|apply reads_only_ret].
Qed.

(** * Removal of a key from a loaded index *)

(** ** Rewriting a leaf *)

Lemma node_at_write ns lid x id old :
  node_at ns lid = Some old ->
  node_at (write_page zero_node (Z.to_nat lid) x ns) id
  = if decide (id = lid) then Some x else node_at ns id.
Proof.
  intros Hold. pose proof Hold as [Hl0 Hlook]%node_at_lookup.
  destruct (decide (id = lid)) as [->|Hne]; [by apply node_at_write_eq|].
  destruct (node_at ns id) as [n|] eqn:Hn.
  - apply node_at_write_ne; [lia|congruence|done].
  - unfold node_at in *. destruct (id <? 0) eqn:Hneg; [done|].
    apply Z.ltb_ge in Hneg.
    unfold write_page. rewrite decide_True by (by apply lookup_lt_Some in Hlook).
    rewrite list_lookup_insert_ne by lia. done.
Qed.

(** Rewriting a leaf by a leaf does not change where the descents end. *)
Lemma descends_write ns root key c lid leaf leaf' :
  descends ns root key c ->
  node_at ns lid = Some leaf -> is_leaf leaf = true -> is_leaf leaf' = true ->
  descends (write_page zero_node (Z.to_nat lid) leaf' ns) root key c.
Proof.
  intros [(n & Hn & Hl) Hcase] Hleaf Hisleaf Hisleaf'. split.
  - rewrite (node_at_write ns lid leaf' c leaf Hleaf).
    destruct (decide (c = lid)); eauto.
  - destruct Hcase as [Hroot|(p & r & Hp & Hint & Hr & Hgc)]; [by left|].
    right. exists p, r. split; [|done].
    rewrite (node_at_write ns lid leaf' root leaf Hleaf).
    destruct (decide (root = lid)) as [->|]; [congruence|done].
Qed.

(** ** Search and removal at the leaf the descent ends in *)

Lemma search_at t key c leaf :
  index_open t -> descends (nodes t) (root_id t) key c ->
  node_at (nodes t) c = Some leaf -> node_wf leaf ->
  value_of (search key t)
  = Ok (pointers_where (fun k => k = key) (leaf_entries leaf)).
Proof.
  intros Hopen Hdesc Hleaf Hwf.
  assert (Hc0 : 0 <= c) by (by apply node_at_lookup in Hleaf as [? _]).
  destruct (findLeaf_descends t key c Hopen Hdesc) as (t1 & Hfind & Hopen1 & Hns1 & _).
  rewrite <- Hns1 in Hleaf.
  destruct (readNode_open _ _ _ Hopen1 Hleaf) as (t2 & Hread & _).
  unfold search. erewrite bind_ok; [|exact Hfind].
  rewrite (proj2 (Z.eqb_neq _ _)) by lia.
  erewrite bind_ok; [|exact Hread]. cbv beta iota.
  rewrite (collect_spec _ (fun k => k = key) leaf [] Hwf) by (intros k; apply Z.eqb_eq).
  done.
Qed.

(** Removal from a leaf without parent link: the leaf loses the first entry
    with the key and nothing else happens. *)
Lemma remove_at t key c leaf :
  index_open t -> descends (nodes t) (root_id t) key c ->
  node_at (nodes t) c = Some leaf -> node_wf leaf -> is_leaf leaf = true ->
  parent leaf = -1 -> key ∈ leaf_keys leaf ->
  exists t' leaf' p x,
    remove key t = Ok (true, t') /\
    index_open t' /\
    nodes t' = write_page zero_node (Z.to_nat c) leaf' (nodes t) /\
    root_id t' = root_id t /\ next_node_id t' = next_node_id t /\
    node_wf leaf' /\ is_leaf leaf' = true /\
    leaf_entries leaf' = take p (leaf_entries leaf) ++ drop (S p) (leaf_entries leaf) /\
    (forall e, e ∈ take p (leaf_entries leaf) -> e.1 <> key) /\
    leaf_entries leaf !! p = Some (key, x).
Proof.
  intros Hopen Hdesc Hat Hwf Hleaf Hparent Hin.
  assert (Hc0 : 0 <= c) by (by apply node_at_lookup in Hat as [? _]).
  assert (Hroot : root_id t <> -1).
  { destruct Hdesc as [_ [->|(p & r & Hp & _)]]; [lia|].
    apply node_at_lookup in Hp as [? _]. lia. }
  destruct (findLeaf_descends t key c Hopen Hdesc) as (t1 & Hfind & Hopen1 & Hns1 & Hnx1 & Hrt1).
  assert (Hat1 : node_at (nodes t1) c = Some leaf) by (by rewrite Hns1).
  destruct (readNode_open _ _ _ Hopen1 Hat1) as (t2 & Hread2 & Hopen2 & Hns2 & Hnx2 & Hrt2).
  assert (Hat2 : node_at (nodes t2) c = Some leaf) by (by rewrite Hns2).
  destruct (readNode_open _ _ _ Hopen2 Hat2) as (t3 & Hread3 & Hopen3 & Hns3 & Hnx3 & Hrt3).
  destruct (remove_slot_spec leaf key Hwf Hin)
    as (p & leaf' & Hposn & Hchain & Hwf' & Hl' & Hnl' & Hp' & Hn' & Hentries & Hbefore & x & Hx).
  destruct (shift_left p leaf) as [l1|] eqn:Hs1; [|done]. cbn [rbind] in Hchain.
  injection Hchain as Hchain.
  destruct (writeNode_open c leaf' t3 Hopen3 Hc0) as (t4 & Hwrite & Hopen4 & Hns4 & Hnx4 & Hrt4).
  assert (Heqns : nodes t4 = write_page zero_node (Z.to_nat c) leaf' (nodes t))
    by (rewrite Hns4, Hns3, Hns2, Hns1; done).
  assert (Hat4 : node_at (nodes t4) c = Some leaf').
  { rewrite Heqns. by apply node_at_write_eq. }
  destruct (readNode_open _ _ _ Hopen4 Hat4) as (t5 & Hread5 & Hopen5 & Hns5 & Hnx5 & Hrt5).
  exists t5, leaf', (Z.to_nat p), x.
  split.
  - unfold remove. erewrite bind_ok; [|reflexivity].
    rewrite (proj2 (Z.eqb_neq _ _)) by lia.
    erewrite bind_ok; [|exact Hfind].
    rewrite (proj2 (Z.eqb_neq _ _)) by lia.
    erewrite bind_ok; [|exact Hread2].
    cbv beta iota.
    erewrite bind_ok; [|unfold lift; rewrite Hposn; reflexivity].
    cbv beta iota.
    unfold remove_found. erewrite bind_ok; cycle 1.
    { unfold removeFromLeaf. erewrite bind_ok; [|exact Hread3].
      cbv beta iota.
      erewrite bind_ok; [|unfold lift; rewrite Hposn; reflexivity].
      cbv beta iota.
      erewrite bind_ok; [|unfold lift; rewrite Hs1; reflexivity].
      rewrite Hchain.
      erewrite bind_ok; [|exact Hwrite]. reflexivity. }
    erewrite bind_ok; [|exact Hread5].
    change (default new_node (Some leaf')) with leaf'.
    rewrite Hp', Hparent. reflexivity.
  - split; [done|]. split; [by rewrite Hns5|].
    split; [congruence|]. split; [congruence|].
    split; [done|]. split; [congruence|]. done.
Qed.

(** The leaf the descent for a stored key ends in holds the key. *)
Lemma key_in_descended_chunk (chunks : list (list entry)) g c key :
  StronglySorted Z.le (concat chunks).*1 ->
  Forall (fun c : list entry => c <> []) chunks ->
  chunks !! g = Some c ->
  (forall c e, (1 <= g)%nat -> chunks !! g = Some c -> head c = Some e -> e.1 <= key) ->
  (forall c e, chunks !! S g = Some c -> head c = Some e -> key < e.1) ->
  key ∈ (concat chunks).*1 -> key ∈ c.*1.
Proof.
  intros Hsorted Hne Hc Hhead Hnext Hin.
  apply list_elem_of_fmap in Hin as (e & -> & He).
  rewrite (concat_split chunks g), (drop_S _ _ _ Hc) in He. cbn [concat] in He.
  rewrite !elem_of_app in He. destruct He as [He|[He|He]].
  - pose proof (proj1 (Forall_lookup _ _) Hne g c Hc) as Hcne.
    destruct c as [|e0 c'] eqn:Hceq; [done|]. rewrite <- Hceq in *.
    assert (He0 : head c = Some e0) by (by rewrite Hceq).
    destruct g as [|g']; [by inversion He|].
    specialize (Hhead c e0 ltac:(lia) Hc He0).
    destruct (sorted_chunk_head chunks (S g') c e0 Hsorted Hc He0) as [Hbefore _].
    rewrite Forall_forall in Hbefore. specialize (Hbefore e He).
    replace (e.1) with (e0.1) by lia.
    apply list_elem_of_fmap_2. rewrite Hceq. left.
  - by apply list_elem_of_fmap_2.
  - pose proof (none_after chunks g e.1 Hsorted Hne Hnext) as Hafter.
    rewrite Forall_forall in Hafter. specialize (Hafter e He). lia.
Qed.

(** X28. Removal of a stored key from a loaded index of at most 10201
    entries: [remove] answers [true] and drops one entry with the key from
    the leaf the descent ends in, and does nothing else: the leaves carry no
    parent link after a bulk load, so no leaf is ever refilled or merged and
    every other page, the root and the node count stay as they are.
    [search] for the key then returns the pointers it returned before
    without the first one, and [search] for any other key returns what it
    returned before. *)
Theorem remove_on_loaded (t : BPTree) (data : list entry) (key : Z) :
  index_open t -> 0 <= next_node_id t -> data <> [] ->
  Z.of_nat (length data) <= 10201 ->
  key ∈ data.*1 ->
  exists t1 t2 leaf_id,
    bulkLoad data t = Ok (true, t1) /\
    remove key t1 = Ok (true, t2) /\
    (exists first rest,
       value_of (search key t1) = Ok (first :: rest) /\
       value_of (search key t2) = Ok rest) /\
    (forall k, k <> key -> value_of (search k t2) = value_of (search k t1)) /\
    (forall id, id <> leaf_id -> node_at (nodes t2) id = node_at (nodes t1) id) /\
    root_id t2 = root_id t1 /\ getNumNodes t2 = getNumNodes t1.
Proof.
  intros Hopen Hn0 Hdata Hsize Hkey.
  destruct (bulkLoad_two_level t data Hopen Hn0 Hdata Hsize)
    as (t1 & chunks & Hload & Htwo & Hchunked & Hcat & _).
  set (n0 := next_node_id t) in *.
  pose proof Htwo as (Hopen1 & _ & Hcne & Hne & Hsorted & Hchain & Htop).
  destruct (two_level_descends t1 n0 chunks key Htwo) as (g & Hg & Hdesc & Hhead & Hnext).
  destruct (lookup_lt_is_Some_2 chunks g Hg) as [c Hc].
  destruct (Hchain g c Hc) as (leaf & Hleaf & Hisleaf & Hwf & _ & Hparent & Hes).
  assert (Hin : key ∈ leaf_keys leaf).
  { rewrite <- leaf_entries_keys, Hes, <- list_fmap_compose by done.
    apply (key_in_descended_chunk chunks g c key); try done.
    rewrite Hcat. by rewrite std_sort_Permutation. }
  destruct (remove_at t1 key _ leaf Hopen1 Hdesc Hleaf Hwf Hisleaf Hparent Hin)
    as (t2 & leaf' & p & x & Hremove & Hopen2 & Hns2 & Hrt2 & Hnx2 & Hwf' & Hisleaf'
        & Hentries & Hbefore & Hx).
  exists t1, t2, (n0 + Z.of_nat g).
  split; [done|]. split; [done|].
  assert (Hpage : forall id, node_at (nodes t2) id
                    = if decide (id = n0 + Z.of_nat g) then Some leaf'
                      else node_at (nodes t1) id).
  { intros id. rewrite Hns2. by apply (node_at_write _ _ _ _ leaf). }
  assert (Hdesc2 : forall k c', descends (nodes t1) (root_id t1) k c' ->
                     descends (nodes t2) (root_id t2) k c').
  { intros k c' Hd. rewrite Hns2, Hrt2. by apply (descends_write _ _ _ _ _ leaf). }
  assert (Hsplit : leaf_entries leaf
                   = take p (leaf_entries leaf) ++ (key, x) :: drop (S p) (leaf_entries leaf))
    by (symmetry; by apply take_drop_middle).
  split.
  { exists (decode x), (pointers_where (fun k' => k' = key) (drop (S p) (leaf_entries leaf))).
    rewrite (search_at t1 key _ leaf Hopen1 Hdesc Hleaf Hwf).
    rewrite (search_at t2 key (n0 + Z.of_nat g) leaf' Hopen2 (Hdesc2 _ _ Hdesc));
      [|by rewrite Hpage, decide_True|done].
    rewrite Hentries. rewrite Hsplit at 1.
    unfold pointers_where.
    rewrite !filter_app, filter_cons_True by done.
    rewrite (filter_none _ (take p _)) by done. done. }
  split.
  { intros k Hk.
    destruct (two_level_descends t1 n0 chunks k Htwo) as (gk & Hgk & Hdesck & _).
    destruct (lookup_lt_is_Some_2 chunks gk Hgk) as [ck Hck].
    destruct (Hchain gk ck Hck) as (leafk & Hleafk & _ & Hwfk & _).
    rewrite (search_at t1 k _ leafk Hopen1 Hdesck Hleafk Hwfk).
    destruct (decide (gk = g)) as [->|Hother].
    - assert (leafk = leaf) as -> by congruence.
      rewrite (search_at t2 k (n0 + Z.of_nat g) leaf' Hopen2 (Hdesc2 _ _ Hdesck));
        [|by rewrite Hpage, decide_True|done].
      rewrite Hentries. rewrite Hsplit at 3.
      unfold pointers_where.
      rewrite !filter_app, filter_cons_False by (simpl; congruence). done.
    - rewrite (search_at t2 k (n0 + Z.of_nat gk) leafk Hopen2 (Hdesc2 _ _ Hdesck));
        [done| |done].
      rewrite Hpage, decide_False by lia. done. }
  split.
  { intros id Hid. by rewrite Hpage, decide_False. }
  split; [done|]. done.
Qed.

Lemma remove_on_loaded_witness :
  exists t1 t2 leaf_id,
    bulkLoad two_leaves_102 opened = Ok (true, t1) /\
    remove 102 t1 = Ok (true, t2) /\
    (exists first rest,
       value_of (search 102 t1) = Ok (first :: rest) /\
       value_of (search 102 t2) = Ok rest) /\
    (forall k, k <> 102 -> value_of (search k t2) = value_of (search k t1)) /\
    (forall id, id <> leaf_id -> node_at (nodes t2) id = node_at (nodes t1) id) /\
    root_id t2 = root_id t1 /\ getNumNodes t2 = getNumNodes t1.
Proof.
  apply (remove_on_loaded opened two_leaves_102 102).
  - split; reflexivity.
  - vm_compute. discriminate.
  - discriminate.
  - vm_compute. discriminate.
  - vm_compute. do 101 apply list_elem_of_further. apply list_elem_of_here.
Defined.
